(* ===== verification/_CoqProject ===== *)
-Q . S2P
Prelude.v
Bytes.v
Protocol.v
Sql.v
Database.v
DatabaseSpec.v
Transactions.v
DatabaseBuilder.v
TimeOracle.v
Signer.v
Effects.v
ConnHandler.v
Account.v
SessionSpec.v
ConnSpec.v
Server.v
ServerSpec.v
ServerTypes.v
Shutdown.v
Path.v
FileSystem.v
SafeRead.v
Text.v
ServerConfig.v
ServerBuild.v
Ca.v
Client.v
Menu.v
EndToEnd.v
Conversation.v
Terraform.v
TerraformSpec.v
Deployment.v
Main.v
DatabaseTests.v
TimeOracleTests.v
ConnTests.v
ServerTests.v
TerraformTests.v
