(* ===== verification/Prelude.v ===== *)
(** * STSS: a verification library for the Simple TimeStamp Server

    STSS sells timestamps.  A client registers, buys tokens, and sends the SHA-256
    hash of a file; the server takes one token, signs the hash together with the time
    its clock shows, stores the signature in the account's history and returns it.
    A small certification authority renews the server's TLS certificate, and a
    generator writes the keys and configuration files of the three programs.  The
    library models these programs as executable definitions and proves what makes
    them correct.  Paths below are relative to the sources of the repository.

    ** The parts, and the files that model them

    - [Prelude] (this file): results, panics, the [?] operator, machine integers as
      [Z] with their bounds, list lemmas, the tactics [bounds] and [range_simpl] and
      the hint database [stss].  [Bytes]: bytes, fixed-size arrays, big-endian
      integers, [memcmp].  [Path], [FileSystem] and [Text]: the part of [std::path], of
      [std::fs] and of UTF-8 validation the code uses; a file system is a tree of
      directories and files with a working directory, from which paths are resolved
      piece by piece.
    - [Protocol]: [shared_library/src/server_protocol.rs].  Hashes, signatures,
      timestamps, messages, [sign_with_timestamp], [verify_timestamp_signature].
      SHA-256, RSA, hexadecimal and the [wincode] codec belong to other crates: they
      are the classes [Sha256Lib], [RsaLib], [HexLib] and [Wincode], with what the
      code relies on in [Sha256Laws], [RsaLaws], [HexLaws] and [WincodeLaws]; the
      module [Toy] instantiates each.
    - [Sql], [Database], [DatabaseSpec], [DatabaseBuilder]: [server/src/database.rs].
      [Sql] has the tables with SQLite's storage classes, one function per statement
      under the constraints of the schema, and a pool on which any round trip may
      fail; [Database] has one function per method, as a computation on the pool that
      returns, reports an error or panics, with the weakest preconditions of each;
      [DatabaseBuilder] opens, initialises and validates a database.  [Transactions] has
      the methods again as programs of statements, interleaved under SQLite's locks.
    - [TimeOracle]: [server/src/time_oracle.rs].  The oracle and its worker share an
      atomic cell, which is a location of a store; the worker's loop runs over the
      ticks that have elapsed.  The shared state of the server holds the oracle and the
      store, so that its connections read the cell its worker writes.
    - [Signer]: the signers of [server/src/server.rs], as a class with two instances
      and its laws.
    - [Effects], [ConnHandler]: [server/src/connection_handler.rs].  A handler is a
      [prog], a tree of events (reading a frame, a database call, the clock, ...)
      with typed answers, so that the same handler runs alone ([exec]) or interleaved
      with others; [perform] says what an event does to the shared state.
    - [Account], [SessionSpec], [ConnSpec]: the abstract specification of a session on
      one account ([serve], [serve_all]) and what a connection does.
    - [Server], [ServerSpec]: the accept loop and [run_with_signal] of
      [server/src/server.rs].  A [world] is the shared state with the task of the time
      worker and those of all connections; a [move] is one event of one of them, of the
      acceptor or of the operator, and a task that waits makes no move; [phase_step] is
      the protocol of a connection as an automaton over its events.
    - [ServerConfig], [ServerBuild]: [server/src/config.rs], and from
      [server/src/server.rs] the contexts, [build_from_context] and [run].
    - [SafeRead]: [shared_library/src/safe_read.rs] and
      [client_core/src/file_hasher.rs].
    - [Ca]: [shared_library/src/ca_protocol.rs], [certification_authority/src] and
      [server/src/rekey.rs].
    - [Client], [Menu]: [client_core/src/client.rs] and [client_cli/src].
    - [EndToEnd], [Conversation]: the client's menu with a session of the server at the
      other end; the conversation of a connection as the list of its exchanges, read off
      its trace and off the menu.
    - [ServerTypes]: the machine type of every value in an event, as an automaton.
      [Shutdown]: the steps a task makes for the frames it is handed, and what holds
      it once the token is cancelled.
    - [Terraform], [TerraformSpec]: [terraform/src/lib.rs].  The keys and certificates are
      made step by step over the crates ([KeyGenLib]); the configurations are values of
      the types the three programs read, rendered by a parameter.  [Deployment] puts the
      generated files on a machine and reads them back as the programs do, given that
      the text formats of keys, of certificates and of TOML read back what they write
      ([KeyTextLaws], [CertificateLaws], [TomlLaws]); [X509] is what TLS looks at in a
      certificate.
    - [Main]: the [main] functions of the four programs, that of the server from its
      command line with the parser as a parameter ([ClapLib], [ClapLaws]), the others
      from their parsed arguments.
    - [DatabaseTests], [TimeOracleTests], [ConnTests], [ServerTests], [TerraformTests]: the
      test modules of the server crate and [terraform/tests/generation_tests.rs], one
      definition per test.

    ** What the theorems show

    - Sessions (C1, C4, C22, C23).  The loop of a session implements the abstract
      specification: same end, same responses in order, same account, nothing else
      touched.  A token in an answer is genuine and paid for, whatever faults occur.
      After a failed signature the token is refunded, unless the database fails the
      refund; a token is lost when the clock is before the epoch or the record cannot be
      stored.
    - Connections (C14, C15, C18 to C21).  Logins and sign-ups on every branch, no
      enumeration of users, nothing for anonymous clients, the steps a connection makes
      for the frames it is sent, and which connections leave their user behind among the
      logged ones.
    - All connections at once (C2, C3, C6, C7, C11, C16, C17).  In every interleaving the
      connections follow the protocol, sessions are exclusive, the logged users are
      those of running sessions and those left behind, the tables keep their invariant
      and every value fits its machine type; C11 starts from the configuration file.  What
      a requested shutdown comes to, and which silent clients hold it up; a user left
      behind is locked out.
    - Database (C8, C12, C13, C27, C28, C40).  The methods are atomic although their statements
      interleave.  Credits and debits refine an abstract ledger on
      every branch, the history is newest first and complete up to its limit, and when a
      database can be opened again; a stored record comes back.  [database_invariant] is
      the invariant for any sequence of calls.
    - Cryptography and encodings (C29, C30).  What a signed digest binds, when signing
      panics; [timestamp_stored_form] and [signers_agree] for the encoding of timestamps
      and the two signers.
    - Time (C24, C31 to C33, C37).  The synchronised oracle tells NTP time, also after lost
      answers, and so do the connections of a server that was built with one; the worker
      survives transient failures; an interval of zero disables it without notice.
    - Client (C5, C9, C26, C34, C38).  The menu and the server agree on who is logged in,
      the requests the menu lets through, a timestamped file from the prompt to its
      later verification, hashing in chunks, and what the history shows.
    - Deployment (C10, C25, C35, C36, C39).  The files the generator leaves, that the three
      programs start from them and fit together, certificates included, that a generation
      cannot be resumed, rekeying against the authority, and that the command line of the
      server is never accepted.
    - Conformance ([database_tests_pass], [connection_tests_pass],
      [time_oracle_tests_pass], [server_tests_pass], [terraform_tests_pass]).  The tests of
      the repository hold of the model, for all libraries that work on what they use.

    ** Bounds and fuel

    The loops of a connection ([conn_handler_core], [session_handler]) take a number
    of iterations; every iteration consumes one frame of the client, and C15 shows that
    a connection stops at its bound only when it was handed as many frames
    ([closed_connection_ends] for one that runs alone).  The loop over the chunks
    of a file takes one more than the bytes left to read, and each chunk takes at
    least one ([safe_read_total], [hash_file_total]).  [run_utf8_validation] takes the
    number of bytes.  The connections of [ConnTests] may make sixteen requests; no test
    makes more than six.  All other recursion is structural.

    ** What is not modelled

    Log output and the exact wording on the terminal; the parsers of command lines beyond
    the two laws the server's needs; symbolic links; the period of validity of
    certificates and chains through intermediate authorities; the TLS handshake, sockets, framing, the tokio runtime and the SQLite engine below the
    level of a statement, which are answers of the environment or classes.  In [Server] a
    database call is one step; C8 justifies it for the rollback journal, in which a
    commit is taken to be one step.  That the pool of the in-memory database may replace
    its connection is left out.  A cancelled token is a flag that is
    only set.  Of the client library, the type [TimestampToken], which nothing uses, and
    [close], which only shuts the socket; of the tests, the certificate verifier and the
    retries of the test client and what TLS sends to a client that does not speak it.

    ** Plan

    Next: memory bounds of a connection from the limits of its frames; the certification
    authority and the rekeying over whole conversations. *)
From Stdlib Require Export ZArith Lia.
From Stdlib Require Export Strings.Byte.
From stdpp Require Export base tactics option list gmap strings sorting numbers.

Declare Scope stss_scope.
Delimit Scope stss_scope with stss.
#[global] Open Scope stss_scope.
#[global] Open Scope Z_scope.

(** ** Rust's [Result], and evaluations that may panic *)

Inductive result (A E : Type) : Type :=
| Ok (a : A)
| Err (e : E).
Arguments Ok {A E} a.
Arguments Err {A E} e.

(** A call either comes back with its value or unwinds with a message. *)
Inductive outcome (A : Type) : Type :=
| Done (a : A)
| Panic (msg : string).
Arguments Done {A} a.
Arguments Panic {A} msg.

#[export] Instance result_eq_dec {A E} `{!EqDecision A, !EqDecision E} :
  EqDecision (result A E).
Proof. solve_decision. Defined.

Definition is_ok {A E} (r : result A E) : bool :=
  match r with Ok _ => true | Err _ => false end.

(** [Result::map_err] *)
Definition map_err {A E F} (f : E → F) (r : result A E) : result A F :=
  match r with Ok a => Ok a | Err e => Err (f e) end.

(** [Option::ok_or] *)
Definition ok_or {A E} (o : option A) (e : E) : result A E :=
  match o with Some a => Ok a | None => Err e end.

(** The [?] operator on a [Result]: continue on [Ok], return the error. *)
Definition and_then {A B E} (r : result A E) (k : A → result B E) : result B E :=
  match r with Ok a => k a | Err e => Err e end.

Notation "'let?' x := r 'in' k" := (and_then r (λ x, k))
  (at level 10, x pattern, r at level 100, k at level 200,
   format "'let?'  x  :=  r  'in' '//' k") : stss_scope.

Lemma and_then_ok {A B E} (r : result A E) (k : A → result B E) b :
  and_then r k = Ok b ↔ ∃ a, r = Ok a ∧ k a = Ok b.
Proof. destruct r; naive_solver. Qed.

Lemma map_err_ok {A E F} (f : E → F) (r : result A E) a :
  map_err f r = Ok a ↔ r = Ok a.
Proof. destruct r; naive_solver. Qed.

Lemma ok_or_ok {A E} (o : option A) (e : E) a : ok_or o e = Ok a ↔ o = Some a.
Proof. destruct o; naive_solver. Qed.

(** The same on a loop that may run out of its bound ([None]). *)
Definition run_then {A B E F} (f : E → F) (r : option (result A E))
    (k : A → option (result B F)) : option (result B F) :=
  match r with
  | None => None
  | Some (Err e) => Some (Err (f e))
  | Some (Ok a) => k a
  end.

Lemma run_then_ok {A B E F} (f : E → F) (r : option (result A E))
    (k : A → option (result B F)) b :
  run_then f r k = Some (Ok b) ↔ ∃ a, r = Some (Ok a) ∧ k a = Some (Ok b).
Proof. destruct r as [[]|]; naive_solver. Qed.

Lemma run_then_total {A B E F} (f : E → F) (r : option (result A E))
    (k : A → option (result B F)) :
  is_Some r → (∀ a, is_Some (k a)) → is_Some (run_then f r k).
Proof. intros [[a|e] ->] Hk; cbn; [apply Hk|by eexists]. Qed.

(** [collect::<Result<Vec<_>, _>>()]: the values, or the first error. *)
Fixpoint collect {A E} (l : list (result A E)) : result (list A) E :=
  match l with
  | [] => Ok []
  | r :: l => and_then r (λ a, and_then (collect l) (λ rest, Ok (a :: rest)))
  end.

(** ** Machine integers: [Z] with the width written out *)

Definition u16_max : Z := 65535.
Definition u32_max : Z := 4294967295.
Definition i32_max : Z := 2147483647.
Definition i32_min : Z := -2147483648.
Definition u64_max : Z := 18446744073709551615.
Definition i64_max : Z := 9223372036854775807.
Definition i64_min : Z := -9223372036854775808.
Definition u128_max : Z := 340282366920938463463374607431768211455.
Definition i128_max : Z := 170141183460469231731687303715884105727.
Definition i128_min : Z := -170141183460469231731687303715884105728.

Definition in_range (lo hi z : Z) : bool := (lo <=? z) && (z <=? hi).
Abbreviation in_u16 := (in_range 0 u16_max).
Abbreviation in_u32 := (in_range 0 u32_max).
Abbreviation in_i32 := (in_range i32_min i32_max).
Abbreviation in_u64 := (in_range 0 u64_max).
Abbreviation in_i64 := (in_range i64_min i64_max).
Abbreviation in_u128 := (in_range 0 u128_max).
Abbreviation in_i128 := (in_range i128_min i128_max).

(** Checked arithmetic and conversion ([checked_add], [checked_sub],
    [checked_mul], [try_into]) all keep the exact value when it fits. *)
Definition checked (lo hi z : Z) : option Z := if in_range lo hi z then Some z else None.
Abbreviation checked_u16 := (checked 0 u16_max).
Abbreviation checked_u64 := (checked 0 u64_max).
Abbreviation checked_i32 := (checked i32_min i32_max).
Abbreviation checked_i64 := (checked i64_min i64_max).
Abbreviation checked_i128 := (checked i128_min i128_max).

(** [as] casts truncate. *)
Definition as_u64 (z : Z) : Z := z mod 2 ^ 64.
Definition as_u32 (z : Z) : Z := z mod 2 ^ 32.
Definition as_i64 (z : Z) : Z := let r := z mod 2 ^ 64 in if r <=? i64_max then r else r - 2 ^ 64.

(** [Ord::clamp] *)
Definition clamp (lo hi z : Z) : Z := if z <? lo then lo else if hi <? z then hi else z.

#[global] Arguments in_range : simpl never.
#[global] Arguments checked : simpl never.

Lemma in_range_spec lo hi z : in_range lo hi z = true ↔ lo ≤ z ≤ hi.
Proof. unfold in_range. rewrite andb_true_iff, !Z.leb_le. done. Qed.

Lemma in_range_false lo hi z : in_range lo hi z = false ↔ z < lo ∨ hi < z.
Proof. unfold in_range. rewrite andb_false_iff, !Z.leb_gt. lia. Qed.

Lemma checked_Some lo hi z r : checked lo hi z = Some r ↔ r = z ∧ lo ≤ z ≤ hi.
Proof.
  unfold checked. destruct (in_range lo hi z) eqn:E.
  - apply in_range_spec in E. naive_solver.
  - apply in_range_false in E. split; [done|]. intros [_ ?]. lia.
Qed.

Lemma checked_None lo hi z : checked lo hi z = None ↔ z < lo ∨ hi < z.
Proof.
  unfold checked. destruct (in_range lo hi z) eqn:E.
  - apply in_range_spec in E. split; [done|lia].
  - apply in_range_false in E. done.
Qed.

Lemma checked_fits lo hi z : lo ≤ z ≤ hi → checked lo hi z = Some z.
Proof. intros. by apply checked_Some. Qed.

Lemma clamp_spec lo hi z : lo ≤ hi → lo ≤ clamp lo hi z ≤ hi.
Proof. unfold clamp. repeat case_match; lia. Qed.

Lemma clamp_id lo hi z : lo ≤ z ≤ hi → clamp lo hi z = z.
Proof. unfold clamp. repeat case_match; lia. Qed.

Lemma as_u64_small z : 0 ≤ z ≤ u64_max → as_u64 z = z.
Proof. unfold as_u64, u64_max. intros. apply Z.mod_small. lia. Qed.

Lemma as_i64_small z : i64_min ≤ z ≤ i64_max → as_i64 z = z.
Proof.
  unfold as_i64, i64_min, i64_max. intros.
  destruct (decide (0 ≤ z)).
  - rewrite Z.mod_small by lia. case_match; lia.
  - assert (z mod 2 ^ 64 = z + 2 ^ 64) as ->.
    { symmetry. apply Z.mod_unique_pos with (-1); lia. }
    case_match; lia.
Qed.

(** ** Lists *)

Lemma NoDup_fmap_elem {A B} (f : A → B) (l : list A) x y :
  NoDup (f <$> l) → x ∈ l → y ∈ l → f x = f y → x = y.
Proof.
  induction l as [|a l IH]; intros Hn Hx Hy E; [by apply elem_of_nil in Hx|].
  apply list.NoDup_cons in Hn as [Ha Hn]. apply elem_of_cons in Hx, Hy.
  destruct Hx as [->|Hx], Hy as [->|Hy]; [done| | |by apply IH];
    destruct Ha; [rewrite E|rewrite <- E]; by apply list_elem_of_fmap_2.
Qed.

Lemma Forall2_elem_l {A B} (P : A → B → Prop) (l : list A) (k : list B) x :
  Forall2 P l k → x ∈ l → ∃ y, y ∈ k ∧ P x y.
Proof.
  intros HF Hx. apply list_elem_of_lookup in Hx as [i Hi].
  destruct (Forall2_lookup_l _ _ _ _ _ HF Hi) as (y & Hy & HP).
  exists y. split; [by eapply list_elem_of_lookup_2|done].
Qed.

Lemma Forall2_elem_r {A B} (P : A → B → Prop) (l : list A) (k : list B) y :
  Forall2 P l k → y ∈ k → ∃ x, x ∈ l ∧ P x y.
Proof.
  intros HF Hy. apply list_elem_of_lookup in Hy as [i Hi].
  destruct (Forall2_lookup_r _ _ _ _ _ HF Hi) as (x & Hx & HP).
  exists x. split; [by eapply list_elem_of_lookup_2|done].
Qed.

(** A pointwise image of a sorted list is sorted by any relation the pairs imply. *)
Lemma StronglySorted_Forall2 {A B} (P : A → B → Prop) (R : relation A) (S : relation B) l k :
  Forall2 P l k → StronglySorted R l →
  (∀ x x' y y', x ∈ l → x' ∈ l → P x y → P x' y' → R x x' → S y y') →
  StronglySorted S k.
Proof.
  induction 1 as [|x y l k Hxy HF IH]; intros Hs Himp; [constructor|].
  apply StronglySorted_inv in Hs as [Hs Hx]. constructor.
  - apply IH; [done|]. intros. eapply (Himp x0 x'); eauto using list_elem_of_further.
  - rewrite Forall_forall in *. intros y' Hy'. rewrite <- list_elem_of_In in Hy'.
    destruct (Forall2_elem_r _ _ _ _ HF Hy') as (x' & Hx' & HP).
    eapply (Himp x x'); eauto using list_elem_of_here, list_elem_of_further.
    apply Hx. by rewrite <- list_elem_of_In.
Qed.

Lemma StronglySorted_NoDup_key {A B} (f : A → B) (R : relation A) l :
  StronglySorted R l → NoDup (f <$> l) → StronglySorted (λ x y, R x y ∧ f x ≠ f y) l.
Proof.
  induction 1 as [|x l Hs IH Hx]; [by constructor|]. rewrite fmap_cons.
  intros [Hn Hnd]%list.NoDup_cons. constructor; [by apply IH|].
  rewrite Forall_forall in *. intros y Hy. split; [by apply Hx|].
  intros E. apply Hn. rewrite E. apply list_elem_of_fmap_2. by apply list_elem_of_In.
Qed.

(** ** Automation *)

(** Unfold the machine bounds in the context and the goal. *)
Ltac bounds :=
  unfold u16_max, u32_max, i32_max, i32_min, u64_max, i64_max, i64_min, u128_max,
    i128_max, i128_min in *; lia.

(** Turn boolean range checks and checked results into inequalities. *)
Ltac range_simpl :=
  repeat match goal with
  | H : in_range _ _ _ = true |- _ => apply in_range_spec in H
  | H : in_range _ _ _ = false |- _ => apply in_range_false in H
  | H : checked _ _ _ = Some _ |- _ => apply checked_Some in H; destruct H
  | H : checked _ _ _ = None |- _ => apply checked_None in H
  | H : and_then _ _ = Ok _ |- _ => apply and_then_ok in H; destruct H as (? & ? & ?)
  | H : map_err _ _ = Ok _ |- _ => apply map_err_ok in H
  | H : ok_or _ _ = Ok _ |- _ => apply ok_or_ok in H
  end.

Create HintDb stss.
Create Rewrite HintDb stss.
#[export] Hint Resolve clamp_spec checked_fits : stss.
#[export] Hint Rewrite @and_then_ok @map_err_ok @ok_or_ok : stss.
