(* ===== verification/Bytes.v ===== *)
(** * Bytes: fixed-size arrays, big-endian integers and [memcmp]

    The byte-level vocabulary of the shared protocol and of the database:
    Rust's [[u8; N]] with [TryFrom<&[u8]>], [u128::to_be_bytes] and
    [u128::from_be_bytes], and the unsigned lexicographic comparison that
    SQLite's [ORDER BY] applies to BLOBs. *)
From S2P Require Import Prelude.

(** ** Bytes *)

#[export] Instance byte_eq_decision : EqDecision byte := Byte.byte_eq_dec.

Definition byte_val (b : byte) : Z := Z.of_N (Byte.to_N b).

(** Truncation of an integer to its low byte, [as u8]. *)
Definition byte_of_Z (z : Z) : byte :=
  match Byte.of_N (Z.to_N (z mod 256)) with Some b => b | None => x00 end.

Lemma byte_val_range b : 0 ≤ byte_val b < 256.
Proof. unfold byte_val. pose proof (Byte.to_N_bounded b). lia. Qed.

Lemma byte_val_of_Z z : byte_val (byte_of_Z z) = z mod 256.
Proof.
  unfold byte_of_Z, byte_val. pose proof (Z.mod_pos_bound z 256 ltac:(lia)).
  destruct (Byte.of_N _) as [b|] eqn:E.
  - apply Byte.to_of_N in E. rewrite E. lia.
  - apply Byte.of_N_None_iff in E. lia.
Qed.

Lemma byte_of_Z_val b : byte_of_Z (byte_val b) = b.
Proof.
  unfold byte_of_Z, byte_val. pose proof (Byte.to_N_bounded b).
  rewrite Z.mod_small, N2Z.id, Byte.of_to_N by lia. done.
Qed.

Lemma byte_val_inj b c : byte_val b = byte_val c → b = c.
Proof. intros E. by rewrite <- (byte_of_Z_val b), <- (byte_of_Z_val c), E. Qed.

(** ** Fixed-size arrays [[u8; N]] *)

Record array (n : nat) := Array {
  arr_bytes : list byte;
  arr_len : (length arr_bytes =? n)%nat = true
}.
Arguments Array {n} _ _.
Arguments arr_bytes {n} _.
Arguments arr_len {n} _.

Lemma arr_length {n} (a : array n) : length (arr_bytes a) = n.
Proof. apply Nat.eqb_eq, arr_len. Qed.

Lemma array_eq {n} (a b : array n) : arr_bytes a = arr_bytes b → a = b.
Proof.
  destruct a as [la Ha], b as [lb Hb]; simpl. intros ->.
  f_equal. apply proof_irrel.
Qed.

#[export] Instance array_eq_dec n : EqDecision (array n).
Proof.
  intros a b. destruct (decide (arr_bytes a = arr_bytes b)) as [E|E].
  - left. by apply array_eq.
  - right. by intros ->.
Defined.

(** [<[u8; N]>::try_from(&[u8])] *)
Definition array_try_from (n : nat) (l : list byte) : option (array n) :=
  match Bool.bool_dec (length l =? n)%nat true with
  | left H => Some (Array l H)
  | right _ => None
  end.

Lemma array_try_from_bytes {n} (a : array n) : array_try_from n (arr_bytes a) = Some a.
Proof.
  unfold array_try_from. destruct (Bool.bool_dec _ _) as [H|H].
  - f_equal. by apply array_eq.
  - destruct H. apply arr_len.
Qed.

Lemma array_try_from_Some n l (a : array n) :
  array_try_from n l = Some a ↔ arr_bytes a = l.
Proof.
  split.
  - unfold array_try_from. destruct (Bool.bool_dec _ _); naive_solver.
  - intros <-. apply array_try_from_bytes.
Qed.

Lemma array_try_from_None n l : array_try_from n l = None ↔ length l ≠ n.
Proof.
  unfold array_try_from. destruct (Bool.bool_dec _ _) as [H|H].
  - pose proof (proj1 (Nat.eqb_eq _ _) H). naive_solver.
  - rewrite Nat.eqb_eq in H. naive_solver.
Qed.

(** ** Big-endian integers *)

(** [to_be_bytes] of an [n]-byte unsigned integer: most significant byte first. *)
Fixpoint to_be_bytes (n : nat) (z : Z) : list byte :=
  match n with
  | O => []
  | S m => byte_of_Z (z / 256 ^ Z.of_nat m) :: to_be_bytes m z
  end.

(** [from_be_bytes]: a left fold over the bytes. *)
Definition be_step (acc : Z) (b : byte) : Z := acc * 256 + byte_val b.
Definition from_be_bytes (l : list byte) : Z := fold_left be_step l 0.

Lemma to_be_bytes_length n z : length (to_be_bytes n z) = n.
Proof. induction n; simpl; congruence. Qed.

Lemma pow256_pos m : 0 < 256 ^ Z.of_nat m.
Proof. apply Z.pow_pos_nonneg; lia. Qed.
#[export] Hint Resolve pow256_pos byte_val_range : stss.

Lemma pow256_S m : 256 ^ Z.of_nat (S m) = 256 * 256 ^ Z.of_nat m.
Proof. rewrite Nat2Z.inj_succ, Z.pow_succ_r by lia. done. Qed.

Lemma be_fold_acc l acc :
  fold_left be_step l acc = acc * 256 ^ Z.of_nat (length l) + from_be_bytes l.
Proof.
  unfold from_be_bytes. revert acc.
  induction l as [|b l IH]; intros acc; cbn [fold_left length].
  - rewrite Z.pow_0_r. lia.
  - rewrite IH, (IH (be_step 0 b)), pow256_S. unfold be_step. lia.
Qed.

Lemma from_be_bytes_cons b l :
  from_be_bytes (b :: l) = byte_val b * 256 ^ Z.of_nat (length l) + from_be_bytes l.
Proof.
  unfold from_be_bytes at 1. cbn [fold_left]. rewrite be_fold_acc.
  unfold be_step. lia.
Qed.

Lemma from_be_bytes_range l : 0 ≤ from_be_bytes l < 256 ^ Z.of_nat (length l).
Proof.
  induction l as [|b l IH]; [done|].
  rewrite from_be_bytes_cons. cbn [length]. rewrite pow256_S.
  pose proof (byte_val_range b). nia.
Qed.

Lemma from_to_be_bytes n z : from_be_bytes (to_be_bytes n z) = z mod 256 ^ Z.of_nat n.
Proof.
  induction n as [|n IH]; cbn [to_be_bytes].
  - by rewrite Z.pow_0_r, Z.mod_1_r.
  - rewrite from_be_bytes_cons, IH, to_be_bytes_length, byte_val_of_Z, pow256_S.
    rewrite (Z.mul_comm 256), Z.rem_mul_r by (pose proof (pow256_pos n); lia). lia.
Qed.

Lemma to_be_bytes_mod n m z :
  (n ≤ m)%nat → to_be_bytes n (z mod 256 ^ Z.of_nat m) = to_be_bytes n z.
Proof.
  induction n as [|n IH]; cbn [to_be_bytes]; intros Hnm; [done|].
  f_equal; [|apply IH; lia]. apply byte_val_inj. rewrite !byte_val_of_Z.
  pose proof (pow256_pos n). pose proof (pow256_pos m).
  pose proof (Z.div_mod z (256 ^ Z.of_nat m) ltac:(lia)) as Ez.
  assert (256 ^ Z.of_nat m = 256 * 256 ^ Z.of_nat (m - n - 1) * 256 ^ Z.of_nat n) as Em.
  { rewrite <- pow256_S, <- Z.pow_add_r by lia. f_equal. lia. }
  set (r := z mod 256 ^ Z.of_nat m) in *. set (q := z / 256 ^ Z.of_nat m) in *.
  rewrite Ez, Em.
  replace (256 * 256 ^ Z.of_nat (m - n - 1) * 256 ^ Z.of_nat n * q + r)
    with (r + (256 ^ Z.of_nat (m - n - 1) * q * 256) * 256 ^ Z.of_nat n) by lia.
  by rewrite Z.div_add, Z.mod_add by lia.
Qed.

Lemma to_from_be_bytes l : to_be_bytes (length l) (from_be_bytes l) = l.
Proof.
  induction l as [|b l IH]; [done|]. cbn [length to_be_bytes].
  rewrite from_be_bytes_cons. pose proof (from_be_bytes_range l).
  pose proof (pow256_pos (length l)). f_equal.
  - rewrite Z.add_comm, Z.div_add, Z.div_small by lia.
    by rewrite Z.add_0_l, byte_of_Z_val.
  - rewrite <- (to_be_bytes_mod _ (length l)) by lia.
    rewrite Z.add_comm, Z.mod_add, Z.mod_small by lia. done.
Qed.

Lemma from_be_bytes_inj l1 l2 :
  length l1 = length l2 → from_be_bytes l1 = from_be_bytes l2 → l1 = l2.
Proof.
  intros Hlen E. rewrite <- (to_from_be_bytes l1), <- (to_from_be_bytes l2). congruence.
Qed.

(** ** [memcmp] *)

Fixpoint memcmp (l1 l2 : list byte) : comparison :=
  match l1, l2 with
  | [], [] => Eq
  | [], _ :: _ => Lt
  | _ :: _, [] => Gt
  | b1 :: l1', b2 :: l2' =>
      match byte_val b1 ?= byte_val b2 with
      | Eq => memcmp l1' l2'
      | c => c
      end
  end.

Lemma memcmp_refl l : memcmp l l = Eq.
Proof. induction l as [|b l IH]; simpl; [done|]. by rewrite Z.compare_refl. Qed.

Lemma memcmp_Eq l1 l2 : memcmp l1 l2 = Eq → l1 = l2.
Proof.
  revert l2. induction l1 as [|b1 l1 IH]; intros [|b2 l2]; simpl; try done.
  destruct (Z.compare_spec (byte_val b1) (byte_val b2)) as [E|?|?]; try done.
  intros ?%IH. f_equal; [by apply byte_val_inj|done].
Qed.

Lemma memcmp_antisym l1 l2 : memcmp l2 l1 = CompOpp (memcmp l1 l2).
Proof.
  revert l2. induction l1 as [|b1 l1 IH]; intros [|b2 l2]; simpl; try done.
  rewrite (Z.compare_antisym (byte_val b1)), IH.
  by destruct (byte_val b1 ?= byte_val b2).
Qed.

Lemma memcmp_Lt_trans l1 l2 l3 :
  memcmp l1 l2 = Lt → memcmp l2 l3 = Lt → memcmp l1 l3 = Lt.
Proof.
  revert l2 l3. induction l1 as [|b1 l1 IH]; intros [|b2 l2] [|b3 l3]; simpl; try done.
  destruct (Z.compare_spec (byte_val b1) (byte_val b2)),
    (Z.compare_spec (byte_val b2) (byte_val b3)),
    (Z.compare_spec (byte_val b1) (byte_val b3)); try done; try lia; eauto.
Qed.

(** On arrays of the same size, [memcmp] of the big-endian bytes is the
    comparison of the integers. *)
Lemma memcmp_from_be l1 l2 :
  length l1 = length l2 → memcmp l1 l2 = (from_be_bytes l1 ?= from_be_bytes l2).
Proof.
  revert l2. induction l1 as [|b1 l1 IH]; intros [|b2 l2]; simpl; try done.
  intros [= Hlen]. rewrite !from_be_bytes_cons, Hlen, IH by done.
  pose proof (from_be_bytes_range l1) as R1. pose proof (from_be_bytes_range l2) as R2.
  rewrite Hlen in R1.
  pose proof (byte_val_range b1). pose proof (byte_val_range b2).
  set (M := 256 ^ Z.of_nat (length l2)) in *.
  destruct (Z.compare_spec (byte_val b1) (byte_val b2)) as [E|E|E].
  - rewrite E. destruct (Z.compare_spec (from_be_bytes l1) (from_be_bytes l2));
      symmetry; [apply Z.compare_eq_iff|apply Z.compare_lt_iff|apply Z.compare_gt_iff]; lia.
  - symmetry. apply Z.compare_lt_iff. nia.
  - symmetry. apply Z.compare_gt_iff. nia.
Qed.
