(* ===== verification/Protocol.v ===== *)
(** * Protocol: the message types shared by the client and the server

    Models [shared_library/src/server_protocol.rs]: hashes, signatures and
    timestamps with their conversions, the signing and verification of a
    timestamped hash, and the requests and responses with their codec.

    The crates [sha2], [rsa], [hex] and [wincode] are not part of the
    repository.  Each is a class of operations ([Sha256Lib], [RsaLib],
    [HexLib], [Wincode]); what the code relies on is a class of laws beside it. *)
From stdpp Require Import pretty.
From S2P Require Import Prelude Bytes.

(** ** The cryptographic crates *)

(** The streaming interface of [sha2::Sha256]: [new], [update], [finalize]. *)
Class Sha256Lib := {
  Hasher : Type;
  hasher_new : Hasher;
  hasher_update : Hasher → list byte → Hasher;
  hasher_finalize : Hasher → array 32
}.

(** The digest of a byte string fed in one piece. *)
Definition sha256 {SHA : Sha256Lib} (m : list byte) : array 32 :=
  hasher_finalize (hasher_update hasher_new m).

(** Feeding two pieces is feeding their concatenation. *)
Class Sha256Laws {SHA : Sha256Lib} : Prop := {
  hasher_update_app h a b :
    hasher_update (hasher_update h a) b = hasher_update h (a ++ b);
  hasher_update_nil h : hasher_update h [] = h
}.

Definition RsaError : Type := string.

(** [RsaPrivateKey::sign] and [RsaPublicKey::verify] with the padding scheme
    [Pkcs1v15Sign::new::<Sha256>()]; [rsa_key_bytes] is the modulus size. *)
Class RsaLib := {
  RsaPrivateKey : Type;
  RsaPublicKey : Type;
  RsaPublicKey_from : RsaPrivateKey → RsaPublicKey;
  rsa_key_bytes : RsaPrivateKey → nat;
  rsa_sign : RsaPrivateKey → list byte → result (list byte) RsaError;
  rsa_verify : RsaPublicKey → list byte → list byte → result unit RsaError
}.

(** A signature has the size of the modulus and verifies under the public half. *)
Class RsaLaws {RSA : RsaLib} : Prop := {
  rsa_sign_length k d s : rsa_sign k d = Ok s → length s = rsa_key_bytes k;
  rsa_sign_verifies k d s :
    rsa_sign k d = Ok s → rsa_verify (RsaPublicKey_from k) d s = Ok tt
}.

Definition FromHexError : Type := string.

(** [hex::encode], and [hex::decode_to_slice] into a slice of [n] bytes, whose
    content after a success is the returned array. *)
Class HexLib := {
  hex_encode : list byte → string;
  hex_decode_to_slice : string → ∀ n : nat, result (array n) FromHexError
}.

(** Decoding into a slice of the right size inverts encoding. *)
Class HexLaws {HEX : HexLib} : Prop := {
  hex_decode_encode n (a : array n) :
    hex_decode_to_slice (hex_encode (arr_bytes a)) n = Ok a
}.

(** ** [Sha256Hash] *)

Record Sha256Hash := MkSha256Hash { sha_bytes : array 32 }.

#[export] Instance Sha256Hash_eq_dec : EqDecision Sha256Hash.
Proof. solve_decision. Defined.

Definition Sha256Hash_from (raw_bytes : array 32) : Sha256Hash := MkSha256Hash raw_bytes.

(** [Sha256Hash::as_bytes], and [AsRef<[u8]>] with the same body. *)
Definition Sha256Hash_as_bytes (h : Sha256Hash) : list byte := arr_bytes (sha_bytes h).
Definition Sha256Hash_as_ref (h : Sha256Hash) : list byte := arr_bytes (sha_bytes h).

Inductive Sha256ParseError :=
| InvalidHex (e : FromHexError).

Section Hex.
Context {HEX : HexLib}.

(** [impl Display for Sha256Hash] *)
Definition Sha256Hash_fmt (h : Sha256Hash) : string := hex_encode (arr_bytes (sha_bytes h)).

(** [impl FromStr for Sha256Hash] *)
Definition Sha256Hash_from_str (s : string) : result Sha256Hash Sha256ParseError :=
  let? bytes := map_err InvalidHex (hex_decode_to_slice s 32) in
  Ok (MkSha256Hash bytes).
End Hex.

(** ** [RsaSignature] *)

Definition RSA_KEY_SIZE_IN_BITS : nat := 2048.
Definition RSA_KEY_SIZE_IN_BYTES : nat := 256.

Record RsaSignature := MkRsaSignature { sig_bytes : array RSA_KEY_SIZE_IN_BYTES }.

#[export] Instance RsaSignature_eq_dec : EqDecision RsaSignature.
Proof. solve_decision. Defined.

Definition RsaSignature_as_bytes (s : RsaSignature) : list byte := arr_bytes (sig_bytes s).
Definition RsaSignature_as_ref (s : RsaSignature) : list byte := arr_bytes (sig_bytes s).
Definition RsaSignature_from (a : array RSA_KEY_SIZE_IN_BYTES) : RsaSignature :=
  MkRsaSignature a.

(** The error carries the length of the rejected slice, in bytes. *)
Record InvalidLengthForRsaSignature := MkInvalidLength { invalid_len : nat }.

(** [impl TryFrom<&[u8]> for RsaSignature] *)
Definition RsaSignature_try_from (value : list byte)
    : result RsaSignature InvalidLengthForRsaSignature :=
  match array_try_from RSA_KEY_SIZE_IN_BYTES value with
  | Some arr => Ok (MkRsaSignature arr)
  | None => Err (MkInvalidLength (length value))
  end.

Definition newline : string := String (Ascii.Ascii false true false true false false false false) EmptyString.

(** [impl Display for RsaSignature] *)
Definition RsaSignature_fmt {HEX : HexLib} (s : RsaSignature) : string :=
  ("------ BEGIN SERVER SIGNATURE ------" +:+ newline
   +:+ hex_encode (arr_bytes (sig_bytes s)) +:+ newline
   +:+ "------- END SERVER SIGNATURE -------" +:+ newline)%string.

(** ** [Timestamp]: a [u128] of nanoseconds *)

Record Timestamp := MkTimestamp { ts_raw : Z }.

#[export] Instance Timestamp_eq_dec : EqDecision Timestamp.
Proof. solve_decision. Defined.

(** The width of the wrapped integer. *)
Definition ts_ok (t : Timestamp) : bool := in_u128 (ts_raw t).

Definition Timestamp_new (n : Z) : Timestamp := MkTimestamp n.

(** [Timestamp::from_be]; [From<[u8; 16]>] has the same body. *)
Definition Timestamp_from_be (be_array : array 16) : Timestamp :=
  Timestamp_new (from_be_bytes (arr_bytes be_array)).
Definition Timestamp_from (value : array 16) : Timestamp :=
  Timestamp_new (from_be_bytes (arr_bytes value)).

Definition Timestamp_get (t : Timestamp) : Z := ts_raw t.

(** [as_bytes] is [to_ne_bytes]: its order is the one of the machine. *)
Definition Timestamp_as_bytes (little_endian : bool) (t : Timestamp) : list byte :=
  if little_endian then reverse (to_be_bytes 16 (ts_raw t)) else to_be_bytes 16 (ts_raw t).

Definition Timestamp_as_be_bytes (t : Timestamp) : list byte := to_be_bytes 16 (ts_raw t).

(** [impl Display for Timestamp] *)
Definition Timestamp_fmt (t : Timestamp) : string := pretty (ts_raw t).

(** [impl TryFrom<i64> for Timestamp] *)
Definition Timestamp_try_from (value : Z) : result Timestamp unit :=
  if value <? 0 then Err tt else Ok (MkTimestamp (value mod 2 ^ 128)).

(** ** Signing and verifying *)

Section Signing.
Context {SHA : Sha256Lib} {RSA : RsaLib}.

(** The digest that is signed: the hash, then the sixteen big-endian bytes of
    the timestamp, fed to one hasher.  Both functions below start with it. *)
Definition combined_hash (hash : Sha256Hash) (timestamp : Timestamp) : Sha256Hash :=
  let hasher := hasher_new in
  let hasher := hasher_update hasher (Sha256Hash_as_ref hash) in
  let hasher := hasher_update hasher (to_be_bytes 16 (Timestamp_get timestamp)) in
  MkSha256Hash (hasher_finalize hasher).

(** [concatcp!] joins its arguments: the braces stay, the size comes last. *)
Definition sign_expect_msg : string :=
  "cryptographic invariant violated, RSA ensures that {} is a valid key size256"%string.

Definition sign_with_timestamp (signing_key : RsaPrivateKey) (hash_to_sign : Sha256Hash)
    (timestamp : Timestamp) : outcome (result RsaSignature RsaError) :=
  match rsa_sign signing_key (Sha256Hash_as_bytes (combined_hash hash_to_sign timestamp)) with
  | Err e => Done (Err e)
  | Ok signature_vec =>
      match array_try_from RSA_KEY_SIZE_IN_BYTES signature_vec with
      | Some signature_array => Done (Ok (MkRsaSignature signature_array))
      | None => Panic sign_expect_msg
      end
  end.

Definition verify_timestamp_signature (public_key : RsaPublicKey) (hash_to_verify : Sha256Hash)
    (timestamp : Timestamp) (signature : RsaSignature) : result unit RsaError :=
  rsa_verify public_key (Sha256Hash_as_bytes (combined_hash hash_to_verify timestamp))
    (RsaSignature_as_ref signature).
End Signing.

(** ** History records *)

Record HistoryRecord := MkHistoryRecord {
  hr_sign : RsaSignature;
  hr_timestamp : Timestamp
}.

#[export] Instance HistoryRecord_eq_dec : EqDecision HistoryRecord.
Proof. solve_decision. Defined.

Definition HistoryRecord_new (hash : RsaSignature) (timestamp : Timestamp) : HistoryRecord :=
  {| hr_sign := hash; hr_timestamp := timestamp |}.
Definition HistoryRecord_timestamp (r : HistoryRecord) : Timestamp := hr_timestamp r.
Definition HistoryRecord_timestamp_as_u128 (r : HistoryRecord) : Z := ts_raw (hr_timestamp r).
Definition HistoryRecord_hash (r : HistoryRecord) : RsaSignature := hr_sign r.

(** ** Errors, requests and responses *)

Inductive LoginError := InvalidCredentials | LoginAlreadyLoggedIn.
Inductive SignInError := UsernameAlreadyTaken | SignInAlreadyLoggedIn.

Definition MAX_USERNAME_LEN : nat := 32.
Definition MAX_PASSWORD_LEN : nat := 32.

(** [str::len] counts the bytes of the UTF-8 encoding, as [String.length] does
    on a Rocq string of bytes. *)
Definition is_username_length_valid (username : string) : bool :=
  (String.length username <=? MAX_USERNAME_LEN)%nat.
Definition is_password_length_valid (password : string) : bool :=
  (String.length password <=? MAX_PASSWORD_LEN)%nat.

Inductive Request :=
| Login (username password : string)
| SignUp (username password : string)
| LogOut
| SignHash (hash : Sha256Hash)
| PurchaseTokens (amount : Z)
| HowManyTokensDoIHave
| History.

Inductive Response :=
| RespOk
| LoginFailed (e : LoginError)
| SignInFailed (e : SignInError)
| NotLoggedIn
| TokenCount (n : Z)
| TokenAmountTooHigh
| NotEnoughTokens
| Token (hash : Sha256Hash) (sign : RsaSignature) (timestamp : Timestamp)
| OperationError (msg : string)
| RespHistory (records : list HistoryRecord).

#[export] Instance LoginError_eq_dec : EqDecision LoginError.
Proof. solve_decision. Defined.
#[export] Instance SignInError_eq_dec : EqDecision SignInError.
Proof. solve_decision. Defined.
#[export] Instance Request_eq_dec : EqDecision Request.
Proof. solve_decision. Defined.
#[export] Instance Response_eq_dec : EqDecision Response.
Proof. solve_decision. Defined.

(** ** The codec *)

Inductive ByteOrder := BigEndian | LittleEndian.
Inductive IntEncoding := FixInt | VarInt.

(** The parameters of [wincode::config::Configuration] the protocol fixes. *)
Record Configuration := {
  cfg_zero_copy_align_check : bool;
  cfg_preallocation_limit : Z;
  cfg_len_bits : Z;
  cfg_order : ByteOrder;
  cfg_ints : IntEncoding
}.

Definition MAX_ALLOCATION_SIZE : Z := 4 * 1024 * 1024.

Definition BINCODE_CONFIG : Configuration := {|
  cfg_zero_copy_align_check := true;
  cfg_preallocation_limit := MAX_ALLOCATION_SIZE;
  cfg_len_bits := 64;
  cfg_order := BigEndian;
  cfg_ints := FixInt
|}.

Definition WriteError : Type := string.
Definition ReadError : Type := string.

(** [wincode::config::serialize] and [deserialize] at a message type. *)
Class Wincode (T : Type) := {
  wincode_serialize : Configuration → T → result (list byte) WriteError;
  wincode_deserialize : Configuration → list byte → result T ReadError
}.

(** What was written under a configuration reads back under it. *)
Class WincodeLaws (T : Type) {W : Wincode T} : Prop := {
  wincode_roundtrip c x l :
    wincode_serialize c x = Ok l → wincode_deserialize c l = Ok x
}.

Inductive SerializeError := MkSerializeError (e : WriteError).
Inductive DeserializeError := MkDeserializeError (e : ReadError).

(** [impl_network_message!], for [Request] and for [Response]. *)
Definition serialize {T} {W : Wincode T} (m : T) : result (list byte) SerializeError :=
  map_err MkSerializeError (wincode_serialize BINCODE_CONFIG m).
Definition deserialize {T} {W : Wincode T} (bytes : list byte) : result T DeserializeError :=
  map_err MkDeserializeError (wincode_deserialize BINCODE_CONFIG bytes).

(** ** Properties *)

Lemma ts_ok_spec t : ts_ok t = true ↔ 0 ≤ ts_raw t ≤ u128_max.
Proof. apply in_range_spec. Qed.

Lemma u128_pow : 256 ^ Z.of_nat 16 = u128_max + 1.
Proof. reflexivity. Qed.

Lemma Timestamp_from_be_ok a : ts_ok (Timestamp_from_be a) = true.
Proof.
  apply ts_ok_spec. unfold Timestamp_from_be; simpl.
  pose proof (from_be_bytes_range (arr_bytes a)) as R.
  rewrite arr_length, u128_pow in R. lia.
Qed.

Lemma Timestamp_be_inv t : ts_ok t = true → from_be_bytes (Timestamp_as_be_bytes t) = ts_raw t.
Proof.
  intros Ht%ts_ok_spec. unfold Timestamp_as_be_bytes.
  rewrite from_to_be_bytes, u128_pow, Z.mod_small by lia. done.
Qed.
#[export] Hint Resolve Timestamp_from_be_ok : stss.

Lemma Timestamp_as_be_bytes_length t : length (Timestamp_as_be_bytes t) = 16%nat.
Proof. apply to_be_bytes_length. Qed.

Lemma Timestamp_be_inj t1 t2 :
  ts_ok t1 = true → ts_ok t2 = true →
  Timestamp_as_be_bytes t1 = Timestamp_as_be_bytes t2 → t1 = t2.
Proof.
  intros H1 H2 E. destruct t1, t2. f_equal.
  apply (f_equal from_be_bytes) in E. by rewrite !Timestamp_be_inv in E.
Qed.

Lemma Sha256Hash_bytes_length h : length (Sha256Hash_as_ref h) = 32%nat.
Proof. apply arr_length. Qed.

Lemma Sha256Hash_bytes_inj h1 h2 : Sha256Hash_as_ref h1 = Sha256Hash_as_ref h2 → h1 = h2.
Proof. destruct h1, h2. intros. f_equal. by apply array_eq. Qed.

Section SigningFacts.
Context {SHA : Sha256Lib} {SHAL : Sha256Laws} {RSA : RsaLib}.

(** The byte string whose digest is signed. *)
Lemma combined_hash_eq h t :
  sha_bytes (combined_hash h t) = sha256 (Sha256Hash_as_ref h ++ Timestamp_as_be_bytes t).
Proof. unfold combined_hash, sha256; simpl. by rewrite hasher_update_app. Qed.

Lemma preimage_inj h1 t1 h2 t2 :
  ts_ok t1 = true → ts_ok t2 = true →
  Sha256Hash_as_ref h1 ++ Timestamp_as_be_bytes t1 =
  Sha256Hash_as_ref h2 ++ Timestamp_as_be_bytes t2 → h1 = h2 ∧ t1 = t2.
Proof.
  intros H1 H2 E. apply app_inj_1 in E as [Eh Et].
  - split; [by apply Sha256Hash_bytes_inj|by apply Timestamp_be_inj].
  - by rewrite !Sha256Hash_bytes_length.
Qed.
End SigningFacts.

(** ** Concrete instances of the interfaces

    Small functions that satisfy the laws, to evaluate the definitions on. *)
Module Toy.
Lemma pad_len n (l : list byte) : (length (take n (l ++ replicate n x00)) =? n)%nat = true.
Proof. apply Nat.eqb_eq. rewrite length_take, length_app, length_replicate. lia. Qed.

(** A proof of a true boolean that evaluates to [eq_refl]. *)
Definition canonical {b : bool} (H : b = true) : b = true :=
  match Bool.bool_dec b true with left E => E | right N => match N H with end end.

(** The first [n] bytes, padded with zeros. *)
Definition pad (n : nat) (l : list byte) : array n := Array _ (canonical (pad_len n l)).

Definition sha : Sha256Lib := {|
  Hasher := list byte;
  hasher_new := [];
  hasher_update := app;
  hasher_finalize := pad 32
|}.
Lemma sha_laws : @Sha256Laws sha.
Proof. split; simpl; intros; [by rewrite app_assoc|apply app_nil_r]. Qed.

(** A key is its size; a signature is the digest repeated to that size. *)
Definition rsa : RsaLib := {|
  RsaPrivateKey := nat;
  RsaPublicKey := nat;
  RsaPublicKey_from k := k;
  rsa_key_bytes k := k;
  rsa_sign k d := Ok (arr_bytes (pad k d));
  rsa_verify k d s :=
    if decide (s = arr_bytes (pad k d)) then Ok tt else Err "verification error"%string
|}.
Lemma rsa_laws : @RsaLaws rsa.
Proof.
  split; simpl; intros; simplify_eq; [apply (arr_length (pad _ _))|by rewrite decide_True].
Qed.

(** Lower-case hexadecimal digits. *)
Definition hex_digit (n : nat) : Ascii.ascii :=
  Ascii.ascii_of_nat (if (n <? 10)%nat then 48 + n else 87 + n).
Definition hex_value (c : Ascii.ascii) : option Z :=
  let n := Z.of_nat (Ascii.nat_of_ascii c) in
  if in_range 48 57 n then Some (n - 48)
  else if in_range 97 102 n then Some (n - 87)
  else if in_range 65 70 n then Some (n - 55) else None.
Fixpoint encode (l : list byte) : string :=
  match l with
  | [] => EmptyString
  | b :: l' =>
      String (hex_digit (Z.to_nat (byte_val b / 16)))
        (String (hex_digit (Z.to_nat (byte_val b mod 16))) (encode l'))
  end.
Fixpoint decode (s : string) : option (list byte) :=
  match s with
  | EmptyString => Some []
  | String c (String d s') =>
      match hex_value c, hex_value d, decode s' with
      | Some x, Some y, Some l => Some (byte_of_Z (16 * x + y) :: l)
      | _, _, _ => None
      end
  | _ => None
  end.
Definition hex : HexLib := {|
  hex_encode := encode;
  hex_decode_to_slice s n :=
    match decode s with
    | None => Err "invalid character or odd length"%string
    | Some l => ok_or (array_try_from n l) "invalid length"%string
    end
|}.
Lemma decode_encode l : decode (encode l) = Some l.
Proof.
  induction l as [|b l IH]; [done|]. cbn [encode decode]. rewrite IH.
  by destruct b.
Qed.
Lemma hex_laws : @HexLaws hex.
Proof.
  split. intros n a. simpl. by rewrite decode_encode, array_try_from_bytes.
Qed.

Definition hash1 : Sha256Hash := MkSha256Hash (pad 32 [x01; x02]).
Definition sig1 : RsaSignature := MkRsaSignature (pad 256 [x2a]).
End Toy.

(** The stored form of a timestamp.  Every [u128] encodes to sixteen bytes,
    [Timestamp::from_be] inverts the encoding, and the byte order of two encodings
    is the order of the timestamps, which [ORDER BY timestamp] rests on. *)
Theorem timestamp_stored_form (t1 t2 : Timestamp) :
  ts_ok t1 = true → ts_ok t2 = true →
  (∃ a, array_try_from 16 (Timestamp_as_be_bytes t1) = Some a ∧ Timestamp_from_be a = t1) ∧
  memcmp (Timestamp_as_be_bytes t1) (Timestamp_as_be_bytes t2) =
    (Timestamp_get t1 ?= Timestamp_get t2).
Proof.
  intros H1 H2. split.
  - destruct (array_try_from 16 (Timestamp_as_be_bytes t1)) as [a|] eqn:Ha.
    + exists a. split; [done|]. apply array_try_from_Some in Ha. destruct t1 as [z].
      unfold Timestamp_from_be. rewrite Ha. unfold Timestamp_new. f_equal.
      by apply (Timestamp_be_inv (MkTimestamp z)).
    + by apply array_try_from_None in Ha; rewrite Timestamp_as_be_bytes_length in Ha.
  - rewrite memcmp_from_be by by rewrite !Timestamp_as_be_bytes_length.
    by rewrite !Timestamp_be_inv.
Qed.

Lemma timestamp_stored_form_witness :
  (∃ a, array_try_from 16 (Timestamp_as_be_bytes (MkTimestamp 255)) = Some a ∧
        Timestamp_from_be a = MkTimestamp 255) ∧
  memcmp (Timestamp_as_be_bytes (MkTimestamp 255)) (Timestamp_as_be_bytes (MkTimestamp 256)) = Lt.
Proof.
  exact (timestamp_stored_form (MkTimestamp 255) (MkTimestamp 256) eq_refl eq_refl).
Defined.

(** C29: a signed digest is bound to one hash and one time: when the digests the
    server signs for two pairs agree, the hashes and the times agree, or the two
    messages that were hashed (the bytes of the hash followed by those of the time)
    are themselves a SHA-256 collision.  No two pairs share a message. *)
Theorem signed_digest_binds {SHA : Sha256Lib} {SHAL : Sha256Laws}
    (h1 h2 : Sha256Hash) (t1 t2 : Timestamp) :
  ts_ok t1 = true → ts_ok t2 = true →
  combined_hash h1 t1 = combined_hash h2 t2 →
  (h1 = h2 ∧ t1 = t2) ∨
  let m1 := Sha256Hash_as_ref h1 ++ Timestamp_as_be_bytes t1 in
  let m2 := Sha256Hash_as_ref h2 ++ Timestamp_as_be_bytes t2 in
  m1 ≠ m2 ∧ sha256 m1 = sha256 m2.
Proof.
  intros H1 H2 E. cbn zeta.
  destruct (decide (Sha256Hash_as_ref h1 ++ Timestamp_as_be_bytes t1 =
                    Sha256Hash_as_ref h2 ++ Timestamp_as_be_bytes t2)) as [Em|Nm].
  - left. by apply preimage_inj.
  - right. split; [done|]. by rewrite <- !combined_hash_eq, E.
Qed.

Lemma signed_digest_binds_witness :
  (Toy.hash1 = Toy.hash1 ∧ MkTimestamp 7 = MkTimestamp 7) ∨
  let m := Sha256Hash_as_ref Toy.hash1 ++ Timestamp_as_be_bytes (MkTimestamp 7) in
  m ≠ m ∧ sha256 (SHA := Toy.sha) m = sha256 (SHA := Toy.sha) m.
Proof.
  apply (signed_digest_binds (SHA := Toy.sha) (SHAL := Toy.sha_laws)); reflexivity.
Defined.

(** A signature the server produces verifies under the matching public key,
    for the same hash and timestamp. *)
Theorem sign_verify_roundtrip {SHA : Sha256Lib} {RSA : RsaLib} {RSAL : RsaLaws}
    (key : RsaPrivateKey) (h : Sha256Hash) (t : Timestamp) (s : RsaSignature) :
  sign_with_timestamp key h t = Done (Ok s) →
  verify_timestamp_signature (RsaPublicKey_from key) h t s = Ok tt.
Proof.
  unfold sign_with_timestamp, verify_timestamp_signature.
  destruct (rsa_sign key _) as [v|e] eqn:E; [|done].
  destruct (array_try_from _ v) as [a|] eqn:Ea; intros; simplify_eq.
  apply array_try_from_Some in Ea. unfold RsaSignature_as_ref. simpl. rewrite Ea.
  by apply rsa_sign_verifies.
Qed.

Lemma sign_verify_roundtrip_witness :
  ∃ s, verify_timestamp_signature (SHA := Toy.sha) (RSA := Toy.rsa) 256%nat Toy.hash1
         (MkTimestamp 7) s = Ok tt.
Proof.
  eexists. apply (sign_verify_roundtrip (SHA := Toy.sha) (RSA := Toy.rsa)
    (RSAL := Toy.rsa_laws) 256%nat). vm_compute. reflexivity.
Defined.

(** C30: signing panics exactly when the key signs and is not a 2048-bit key: the
    size is assumed by an [expect] and checked nowhere. *)
Theorem sign_panics_iff_wrong_key_size {SHA : Sha256Lib} {RSA : RsaLib} {RSAL : RsaLaws}
    (key : RsaPrivateKey) (h : Sha256Hash) (t : Timestamp) :
  (∃ msg, sign_with_timestamp key h t = Panic msg) ↔
  rsa_key_bytes key ≠ RSA_KEY_SIZE_IN_BYTES ∧
  is_ok (rsa_sign key (Sha256Hash_as_bytes (combined_hash h t))) = true.
Proof.
  unfold sign_with_timestamp. destruct (rsa_sign key _) as [v|e] eqn:E; simpl.
  - apply rsa_sign_length in E. destruct (array_try_from _ v) as [a|] eqn:Ea.
    + apply array_try_from_Some in Ea. pose proof (arr_length a). naive_solver congruence.
    + apply array_try_from_None in Ea. naive_solver congruence.
  - naive_solver.
Qed.

Lemma sign_panics_iff_wrong_key_size_witness :
  (∃ msg, sign_with_timestamp (SHA := Toy.sha) (RSA := Toy.rsa) 512%nat Toy.hash1
            (MkTimestamp 7) = Panic msg) ∧
  ¬ (∃ msg, sign_with_timestamp (SHA := Toy.sha) (RSA := Toy.rsa) 256%nat Toy.hash1
              (MkTimestamp 7) = Panic msg).
Proof.
  split.
  - apply (sign_panics_iff_wrong_key_size (SHA := Toy.sha) (RSA := Toy.rsa)
      (RSAL := Toy.rsa_laws) 512%nat). split; [done|reflexivity].
  - rewrite (sign_panics_iff_wrong_key_size (SHA := Toy.sha) (RSA := Toy.rsa)
      (RSAL := Toy.rsa_laws) 256%nat). intros [H _]. by apply H.
Defined.

(** Parsing the displayed form of a hash gives the hash back. *)
Theorem sha256_display_parse {HEX : HexLib} {HEXL : HexLaws} (h : Sha256Hash) :
  Sha256Hash_from_str (Sha256Hash_fmt h) = Ok h.
Proof.
  unfold Sha256Hash_from_str, Sha256Hash_fmt. rewrite hex_decode_encode. by destruct h.
Qed.

Lemma sha256_display_parse_witness :
  Sha256Hash_from_str (HEX := Toy.hex) (Sha256Hash_fmt (HEX := Toy.hex) Toy.hash1)
  = Ok Toy.hash1.
Proof. apply (sha256_display_parse (HEX := Toy.hex) (HEXL := Toy.hex_laws)). Defined.

(** A byte slice converts to a signature exactly when it has 256 bytes, the
    conversion keeps the bytes, and a refusal reports the length. *)
Theorem rsa_signature_try_from_spec (v : list byte) :
  match RsaSignature_try_from v with
  | Ok s => RsaSignature_as_bytes s = v ∧ length v = RSA_KEY_SIZE_IN_BYTES
  | Err e => invalid_len e = length v ∧ length v ≠ RSA_KEY_SIZE_IN_BYTES
  end.
Proof.
  unfold RsaSignature_try_from. destruct (array_try_from _ v) as [a|] eqn:E.
  - apply array_try_from_Some in E. simpl. split; [done|]. rewrite <- E. apply arr_length.
  - by apply array_try_from_None in E.
Qed.

Lemma RsaSignature_length (s : RsaSignature) : length (RsaSignature_as_ref s) = RSA_KEY_SIZE_IN_BYTES.
Proof. apply arr_length. Qed.
Lemma RsaSignature_try_from_inv (s : RsaSignature) : RsaSignature_try_from (RsaSignature_as_ref s) = Ok s.
Proof.
  unfold RsaSignature_try_from, RsaSignature_as_ref. rewrite array_try_from_bytes. by destruct s.
Qed.
Lemma RsaSignature_try_from_short (v : list byte) :
  length v ≠ RSA_KEY_SIZE_IN_BYTES → RsaSignature_try_from v = Err (MkInvalidLength (length v)).
Proof. unfold RsaSignature_try_from. intros H%array_try_from_None. by rewrite H. Qed.
