(* ===== verification/Sql.v ===== *)
(** * Sql: the tables of the server and the statements that touch them

    The schema and the SQL statements of [server/src/database.rs], translated
    one by one to functions on two tables, and the way the code runs them:
    a pool whose every round trip may fail, with transactions that work on a
    private copy until they commit.

    What the driver or the engine adds on top of the statements (a busy or
    locked file, a lost connection, a full disk) is a parameter: the pool holds
    a list of faults, and the k-th round trip fails with the k-th entry when
    that entry is an error.  Concurrent transactions are serializable in
    SQLite, so a call is one atomic step; a conflict shows as a fault. *)
From Stdlib Require Import QArith.
From S2P Require Import Prelude Bytes.
#[local] Open Scope Z_scope.

(** ** Values: SQLite's storage classes *)

Inductive sql_value :=
| SqlNull
| SqlInteger (z : Z)
| SqlReal (q : Q)
| SqlText (s : string)
| SqlBlob (b : list byte).

#[export] Instance Q_eq_dec : EqDecision Q.
Proof. solve_decision. Defined.
#[export] Instance sql_value_eq_dec : EqDecision sql_value.
Proof. solve_decision. Defined.

(** [+] and [-] on two integers stay an integer while it fits and become a
    REAL otherwise.  A NULL, TEXT or BLOB operand never occurs: the column is
    NOT NULL, and the code reads it as an [i64] before it updates it. *)
Definition sql_int (z : Z) : sql_value :=
  if in_i64 z then SqlInteger z else SqlReal (inject_Z z).
Definition sql_add (v : sql_value) (amount : Z) : sql_value :=
  match v with
  | SqlInteger z => sql_int (z + amount)
  | SqlReal q => SqlReal (Qplus q (inject_Z amount))
  | _ => SqlNull
  end.
Definition sql_sub (v : sql_value) (amount : Z) : sql_value :=
  match v with
  | SqlInteger z => sql_int (z - amount)
  | SqlReal q => SqlReal (Qminus q (inject_Z amount))
  | _ => SqlNull
  end.

(** [v >= 0]: NULL is neither true nor false, TEXT and BLOB are above numbers. *)
Definition sql_ge_0 (v : sql_value) : option bool :=
  match v with
  | SqlNull => None
  | SqlInteger z => Some (0 <=? z)
  | SqlReal q => Some (Qle_bool (inject_Z 0) q)
  | SqlText _ | SqlBlob _ => Some true
  end.

(** The order of [ORDER BY]: by storage class, then numerically or by [memcmp]. *)
Definition sql_rank (v : sql_value) : Z :=
  match v with
  | SqlNull => 0 | SqlInteger _ | SqlReal _ => 1 | SqlText _ => 2 | SqlBlob _ => 3
  end.
Definition sql_num (v : sql_value) : Q :=
  match v with SqlInteger z => inject_Z z | SqlReal q => q | _ => inject_Z 0 end.
Definition sql_bytes (v : sql_value) : list byte :=
  match v with SqlText s => String.list_byte_of_string s | SqlBlob b => b | _ => [] end.

Definition sql_compare (v w : sql_value) : comparison :=
  match sql_rank v ?= sql_rank w with
  | Eq =>
      match Qcompare (sql_num v) (sql_num w) with
      | Eq => memcmp (sql_bytes v) (sql_bytes w)
      | c => c
      end
  | c => c
  end.

(** ** Tables *)

Record user_row := {
  u_username : string;
  u_password_hash : string;
  u_available_tokens : sql_value;
  u_registered_from_ip : string
}.

Record history_row := {
  h_username : string;
  h_timestamp : sql_value;
  h_hash : sql_value
}.

#[export] Instance user_row_eq_dec : EqDecision user_row.
Proof. solve_decision. Defined.
#[export] Instance history_row_eq_dec : EqDecision history_row.
Proof. solve_decision. Defined.

Record tables := {
  t_users : gmap string user_row;
  t_history : list history_row
}.

Definition empty_tables : tables := {| t_users := ∅; t_history := [] |}.

(** ** Errors *)

Inductive DbErrorKind := UniqueViolation | ForeignKeyViolation | CheckViolation | OtherDbError.

Inductive SqlxError :=
| SqlxDatabase (k : DbErrorKind)
| SqlxColumnDecode
| SqlxOther (msg : string).

Definition is_unique_violation (k : DbErrorKind) : bool :=
  match k with UniqueViolation => true | _ => false end.

(** Decoding a cell as an [i64]. *)
Definition decode_i64 (v : sql_value) : result Z SqlxError :=
  match v with SqlInteger z => Ok z | _ => Err SqlxColumnDecode end.

(** [row.get::<&[u8]>]: TEXT and BLOB give their bytes, anything else panics. *)
Definition get_bytes (v : sql_value) : outcome (list byte) :=
  match v with
  | SqlText _ | SqlBlob _ => Done (sql_bytes v)
  | _ => Panic "mismatched types; Rust type &[u8] is not compatible with SQL type"%string
  end.

(** ** Statements *)

(** [SELECT password_hash FROM users WHERE username = ? LIMIT 1] *)
Definition select_password_hash (username : string) (t : tables) : option string :=
  u_password_hash <$> t_users t !! username.

(** [SELECT available_tokens FROM users WHERE username = $1], decoded as [i64] *)
Definition select_available_tokens (username : string) (t : tables)
    : result (option Z) SqlxError :=
  match t_users t !! username with
  | None => Ok None
  | Some r => match decode_i64 (u_available_tokens r) with Ok z => Ok (Some z) | Err e => Err e end
  end.

(** [SELECT 1 FROM users WHERE username = ?] *)
Definition select_user_exists (username : string) (t : tables) : option Z :=
  (λ _, 1) <$> t_users t !! username.

(** The constraint [CHECK (available_tokens >= 0)] rejects a row whose test is false. *)
Definition check_tokens (v : sql_value) : bool :=
  match sql_ge_0 v with Some b => b | None => true end.

(** [INSERT INTO users (...) VALUES (?, ?, ?, ?)], under the primary key and the check *)
Definition insert_user (r : user_row) (t : tables) : result tables SqlxError :=
  if negb (check_tokens (u_available_tokens r)) then Err (SqlxDatabase CheckViolation)
  else match t_users t !! u_username r with
  | Some _ => Err (SqlxDatabase UniqueViolation)
  | None => Ok {| t_users := <[u_username r := r]> (t_users t); t_history := t_history t |}
  end.

Definition set_tokens (v : sql_value) (r : user_row) : user_row := {|
  u_username := u_username r;
  u_password_hash := u_password_hash r;
  u_available_tokens := v;
  u_registered_from_ip := u_registered_from_ip r
|}.

(** [UPDATE users SET available_tokens = <expr> WHERE username = $2], under the check *)
Definition update_tokens (expr : sql_value → sql_value) (username : string) (t : tables)
    : result tables SqlxError :=
  match t_users t !! username with
  | None => Ok t
  | Some r =>
      let v := expr (u_available_tokens r) in
      if negb (check_tokens v) then Err (SqlxDatabase CheckViolation)
      else Ok {| t_users := <[username := set_tokens v r]> (t_users t);
                 t_history := t_history t |}
  end.

(** [... = available_tokens + $1 ...] *)
Definition update_add_tokens (amount : Z) : string → tables → result tables SqlxError :=
  update_tokens (λ v, sql_add v amount).
(** [... = available_tokens - $1 ...] *)
Definition update_sub_tokens (amount : Z) : string → tables → result tables SqlxError :=
  update_tokens (λ v, sql_sub v amount).

Definition same_key (r s : history_row) : bool :=
  bool_decide (h_username r = h_username s) && bool_decide (h_timestamp r = h_timestamp s).

(** [INSERT INTO history (username, timestamp, hash) VALUES (?, ?, ?)], under the
    primary key (username, timestamp) and the foreign key to [users] *)
Definition insert_history (r : history_row) (t : tables) : result tables SqlxError :=
  if existsb (same_key r) (t_history t) then Err (SqlxDatabase UniqueViolation)
  else match t_users t !! h_username r with
  | None => Err (SqlxDatabase ForeignKeyViolation)
  | Some _ => Ok {| t_users := t_users t; t_history := t_history t ++ [r] |}
  end.

(** [ORDER BY timestamp DESC]: the later of two rows comes first. *)
Definition newer (r s : history_row) : Prop :=
  sql_compare (h_timestamp s) (h_timestamp r) ≠ Gt.

#[export] Instance newer_dec : RelDecision newer.
Proof. intros r s. unfold newer. apply _. Defined.

Definition HISTORY_LIMIT : nat := 100.

(** [SELECT hash, timestamp FROM history WHERE username = ? ORDER BY timestamp DESC LIMIT 100] *)
Definition select_history (username : string) (t : tables) : list history_row :=
  take HISTORY_LIMIT
    (merge_sort newer (filter (λ r, h_username r = username) (t_history t))).

(** ** The pool *)

Record pool := {
  p_tables : tables;
  p_faults : list (option SqlxError)
}.

Definition set_tables (t : tables) (p : pool) : pool :=
  {| p_tables := t; p_faults := p_faults p |}.

(** Database code: it reads and changes the pool, returns a [Result] and may panic. *)
Definition io (E A : Type) : Type := pool → outcome (result A E) * pool.

#[export] Instance io_ret {E} : MRet (io E) := λ A a p, (Done (Ok a), p).
#[export] Instance io_bind {E} : MBind (io E) := λ A B k m p,
  match m p with
  | (Done (Ok a), p') => k a p'
  | (Done (Err e), p') => (Done (Err e), p')
  | (Panic s, p') => (Panic s, p')
  end.

Definition raise {E A} (e : E) : io E A := λ p, (Done (Err e), p).
Definition io_panic {E A} (msg : string) : io E A := λ p, (Panic msg, p).
Definition of_result {E A} (r : result A E) : io E A := λ p, (Done r, p).

(** [.map_err(f)?] *)
Definition io_map_err {E F A} (f : E → F) (m : io E A) : io F A := λ p,
  match m p with
  | (Done r, p') => (Done (map_err f r), p')
  | (Panic s, p') => (Panic s, p')
  end.

(** One round trip to the engine: it fails with the next fault, if any. *)
Definition round_trip : io SqlxError unit := λ p,
  match p_faults p with
  | [] => (Done (Ok tt), p)
  | f :: fs =>
      let p' := {| p_tables := p_tables p; p_faults := fs |} in
      match f with
      | None => (Done (Ok tt), p')
      | Some e => (Done (Err e), p')
      end
  end.

Definition on_pool {E A} (f : pool → result A E * pool) : io E A :=
  λ p, let '(r, p') := f p in (Done r, p').

(** A query outside a transaction. *)
Definition fetch {A} (q : tables → result A SqlxError) : io SqlxError A :=
  _ ← round_trip; on_pool (λ p, (q (p_tables p), p)).

(** A statement outside a transaction: committed when it succeeds. *)
Definition execute (s : tables → result tables SqlxError) : io SqlxError unit :=
  _ ← round_trip;
  on_pool (λ p,
    match s (p_tables p) with
    | Ok t => (Ok tt, set_tables t p)
    | Err e => (Err e, p)
    end).

(** [pool.begin()]: the transaction is its private copy of the tables.  It is
    rolled back when it is dropped, that is, the copy is forgotten. *)
Definition begin : io SqlxError tables :=
  _ ← round_trip; on_pool (λ p, (Ok (p_tables p), p)).
Definition tx_fetch {A} (q : tables → result A SqlxError) (tx : tables) : io SqlxError A :=
  _ ← round_trip; of_result (q tx).
Definition tx_execute (s : tables → result tables SqlxError) (tx : tables)
    : io SqlxError tables :=
  _ ← round_trip; of_result (s tx).
Definition commit (tx : tables) : io SqlxError unit :=
  _ ← round_trip; on_pool (λ p, (Ok tt, set_tables tx p)).

(** ** Reasoning about database code *)

(** [wp m Q p]: running [m] on the pool [p] ends with an outcome and a pool in [Q]. *)
Definition wp {E A} (m : io E A) (Q : outcome (result A E) → pool → Prop) (p : pool) : Prop :=
  let '(o, p') := m p in Q o p'.

Section Wp.
Context {E A : Type}.
Implicit Types (p : pool) (Q : outcome (result A E) → pool → Prop).

Lemma wp_run (m : io E A) Q p o p' : m p = (o, p') → wp m Q p → Q o p'.
Proof. unfold wp. by intros ->. Qed.

Lemma wp_mono (m : io E A) Q R p : (∀ o p', Q o p' → R o p') → wp m Q p → wp m R p.
Proof. unfold wp. destruct (m p). eauto. Qed.

Lemma wp_ret (a : A) Q p : Q (Done (Ok a)) p → wp (mret a : io E A) Q p.
Proof. done. Qed.

Lemma wp_raise (e : E) Q p : Q (Done (Err e)) p → wp (raise e) Q p.
Proof. done. Qed.

Lemma wp_of_result (r : result A E) Q p : Q (Done r) p → wp (of_result r) Q p.
Proof. done. Qed.

Lemma wp_on_pool (f : pool → result A E * pool) Q p :
  Q (Done (f p).1) (f p).2 → wp (on_pool f) Q p.
Proof. unfold wp, on_pool. by destruct (f p). Qed.
End Wp.

Lemma wp_bind {E A B} (m : io E A) (k : A → io E B) Q p :
  wp m (λ o p', match o with
                | Done (Ok a) => wp (k a) Q p'
                | Done (Err e) => Q (Done (Err e)) p'
                | Panic s => Q (Panic s) p'
                end) p →
  wp (m ≫= k) Q p.
Proof. unfold wp, mbind, io_bind. destruct (m p) as [[[]|] ?]; done. Qed.

Lemma wp_map_err {E F A} (f : E → F) (m : io E A) Q p :
  wp m (λ o p', match o with
                | Done r => Q (Done (map_err f r)) p'
                | Panic s => Q (Panic s) p'
                end) p →
  wp (io_map_err f m) Q p.
Proof. unfold wp, io_map_err. destruct (m p) as [[[]|] ?]; done. Qed.

(** A round trip keeps the tables; it succeeds, or it fails with the fault that
    heads the list. *)
Lemma wp_round_trip Q p :
  (∀ p', p_tables p' = p_tables p → p_faults p' = tail (p_faults p) →
     (∀ e, head (p_faults p) ≠ Some (Some e)) → Q (Done (Ok tt)) p') →
  (∀ e p', p_tables p' = p_tables p → head (p_faults p) = Some (Some e) →
     Q (Done (Err e)) p') →
  wp round_trip Q p.
Proof.
  unfold wp, round_trip. intros Hok Herr. destruct p as [t fs]; simpl in *.
  destruct fs as [|[e|] fs]; simpl; naive_solver.
Qed.

(** A pool on which nothing is going to fail. *)
Definition healthy (p : pool) : Prop := p_faults p = [].

#[export] Instance healthy_dec p : Decision (healthy p).
Proof. unfold healthy. apply _. Defined.

(** Postconditions that do not look at which fault occurred: a round trip
    either succeeds or fails with an error, on the same tables; it cannot fail
    on a healthy pool, and the pool stays healthy. *)
Lemma wp_trip Q p :
  (∀ p', p_tables p' = p_tables p → (healthy p → healthy p') → Q (Done (Ok tt)) p') →
  (∀ e p', p_tables p' = p_tables p → ¬ healthy p → Q (Done (Err e)) p') →
  wp round_trip Q p.
Proof.
  intros Hok Herr. unfold healthy in *. apply wp_round_trip.
  - intros p' ? E _. apply Hok; [done|]. rewrite E. by intros ->.
  - intros e p' ? E. apply Herr; [done|]. by intros E'; rewrite E' in E.
Qed.

(** Symbolic execution of database code, one construct at a time. *)
Ltac wp_step :=
  match goal with
  | |- wp (mret _) _ _ => apply wp_ret
  | |- wp (raise _) _ _ => apply wp_raise
  | |- wp (of_result _) _ _ => apply wp_of_result
  | |- wp (on_pool _) _ _ => apply wp_on_pool
  | |- wp (_ ≫= _) _ _ => apply wp_bind
  | |- wp (io_map_err _ _) _ _ => apply wp_map_err
  | |- wp round_trip _ _ => apply wp_trip; intros
  | |- wp (fetch _) _ _ => unfold fetch
  | |- wp (execute _) _ _ => unfold execute
  | |- wp begin _ _ => unfold begin
  | |- wp (tx_fetch _ _) _ _ => unfold tx_fetch
  | |- wp (tx_execute _ _) _ _ => unfold tx_execute
  | |- wp (commit _) _ _ => unfold commit
  end; cbn -[wp].
Ltac wp_steps := repeat wp_step.

(** ** The order of the history *)

Lemma sql_compare_refl v : sql_compare v v = Eq.
Proof.
  unfold sql_compare. rewrite Z.compare_refl.
  assert (Qcompare (sql_num v) (sql_num v) = Eq) as ->
    by (apply Qeq_alt; reflexivity).
  apply memcmp_refl.
Qed.

Lemma sql_compare_antisym v w : sql_compare w v = CompOpp (sql_compare v w).
Proof.
  unfold sql_compare. rewrite (Z.compare_antisym (sql_rank v)).
  destruct (sql_rank v ?= sql_rank w); simpl; [|done..].
  rewrite <- (Qcompare_antisym (sql_num v)).
  destruct (Qcompare (sql_num v) (sql_num w)); simpl; [|done..].
  apply memcmp_antisym.
Qed.

Lemma Qcompare_Eq_l q r s : Qcompare q r = Eq → Qcompare q s = Qcompare r s.
Proof. intros E%Qeq_alt. by rewrite E. Qed.
Lemma Qcompare_Eq_r q r s : Qcompare q r = Eq → Qcompare s q = Qcompare s r.
Proof. intros E%Qeq_alt. by rewrite E. Qed.

Lemma sql_compare_Lt_trans v w x :
  sql_compare v w = Lt → sql_compare w x = Lt → sql_compare v x = Lt.
Proof.
  unfold sql_compare.
  destruct (Z.compare_spec (sql_rank v) (sql_rank w)),
    (Z.compare_spec (sql_rank w) (sql_rank x)),
    (Z.compare_spec (sql_rank v) (sql_rank x)); try done; try lia.
  destruct (Qcompare (sql_num v) (sql_num w)) eqn:E1; try done.
  - rewrite (Qcompare_Eq_l _ _ _ E1).
    destruct (Qcompare (sql_num w) (sql_num x)); try done. apply memcmp_Lt_trans.
  - destruct (Qcompare (sql_num w) (sql_num x)) eqn:E2; try done; intros _ _.
    + by rewrite <- (Qcompare_Eq_r _ _ _ E2), E1.
    + assert (Qcompare (sql_num v) (sql_num x) = Lt) as ->; [|done].
      apply Qlt_alt in E1, E2. apply Qlt_alt. by eapply Qlt_trans.
Qed.

Lemma sql_compare_Eq_trans v w x :
  sql_compare v w = Eq → sql_compare v x = sql_compare w x.
Proof.
  unfold sql_compare.
  destruct (Z.compare_spec (sql_rank v) (sql_rank w)) as [E|?|?]; try done. rewrite E.
  destruct (Qcompare (sql_num v) (sql_num w)) eqn:E1; try done.
  intros E2%memcmp_Eq. by rewrite (Qcompare_Eq_l _ _ _ E1), E2.
Qed.

Lemma newer_alt r s : newer r s ↔ sql_compare (h_timestamp r) (h_timestamp s) ≠ Lt.
Proof.
  unfold newer. rewrite (sql_compare_antisym (h_timestamp s)).
  destruct (sql_compare (h_timestamp s) (h_timestamp r)); simpl; naive_solver.
Qed.

#[export] Instance newer_total : Total newer.
Proof.
  intros r s. unfold newer. rewrite (sql_compare_antisym (h_timestamp s)).
  destruct (sql_compare (h_timestamp s) (h_timestamp r)); simpl; naive_solver.
Qed.

#[export] Instance newer_trans : Transitive newer.
Proof.
  intros r s x. rewrite !newer_alt. intros H1 H2 E. apply H1.
  destruct (sql_compare (h_timestamp s) (h_timestamp x)) eqn:E2; [|done|].
  - rewrite (sql_compare_antisym (h_timestamp s)).
    by rewrite (sql_compare_Eq_trans _ _ (h_timestamp r) E2),
      (sql_compare_antisym (h_timestamp r)), E.
  - apply sql_compare_Lt_trans with (h_timestamp x); [done|].
    by rewrite (sql_compare_antisym (h_timestamp s)), E2.
Qed.

(** The rows of one user, newest first, before the limit. *)
Definition sorted_rows (u : string) (t : tables) : list history_row :=
  merge_sort newer (filter (λ r, h_username r = u) (t_history t)).

Lemma sorted_rows_perm u t :
  sorted_rows u t ≡ₚ filter (λ r, h_username r = u) (t_history t).
Proof. apply merge_sort_Permutation. Qed.

Lemma sorted_rows_sorted u t : StronglySorted newer (sorted_rows u t).
Proof. apply StronglySorted_merge_sort; apply _. Qed.

Lemma elem_of_sorted_rows u t r : r ∈ sorted_rows u t ↔ h_username r = u ∧ r ∈ t_history t.
Proof. by rewrite sorted_rows_perm, list_elem_of_filter. Qed.

Lemma select_history_split u t :
  sorted_rows u t = select_history u t ++ drop HISTORY_LIMIT (sorted_rows u t).
Proof. symmetry. apply take_drop. Qed.

Lemma select_history_sorted u t : StronglySorted newer (select_history u t).
Proof.
  apply StronglySorted_app_1_l with (drop HISTORY_LIMIT (sorted_rows u t)).
  rewrite <- select_history_split. apply sorted_rows_sorted.
Qed.

(** The limit keeps the newest rows. *)
Lemma select_history_newest u t r s :
  r ∈ select_history u t → h_username s = u → s ∈ t_history t →
  s ∉ select_history u t → newer r s.
Proof.
  intros Hr Hu Hs Hn. pose proof (sorted_rows_sorted u t) as Hsorted.
  rewrite select_history_split in Hsorted.
  eapply StronglySorted_app_1_elem_of; [exact Hsorted|exact Hr|].
  assert (s ∈ sorted_rows u t) as Hin by (by apply elem_of_sorted_rows).
  rewrite select_history_split, elem_of_app in Hin. by destruct Hin.
Qed.

Lemma select_history_all u t :
  (length (sorted_rows u t) ≤ HISTORY_LIMIT)%nat → select_history u t = sorted_rows u t.
Proof. apply take_ge. Qed.

Lemma select_history_length u t :
  length (select_history u t) = Nat.min HISTORY_LIMIT (length (sorted_rows u t)).
Proof. apply length_take. Qed.
