(* ===== verification/Database.v ===== *)
(** * Database: the operations of [ServerDataBase]

    Models [server/src/database.rs], lines 28 to 450: accounts with their
    password hash and token balance, and the history of signatures.  Each
    method is one definition in the [io] monad of [Sql], with the round trips,
    early returns and error conversions of the source.  The [argon2] crate is
    the class [Argon2Lib]. *)
From stdpp Require Import pretty.
From S2P Require Import Prelude Bytes Protocol Sql.

(** ** The password hashing crate *)

Definition PwHashError : Type := string.

(** [Argon2::default().hash_password(..)] rendered to a string,
    [PasswordHash::new] and [verify_password]. *)
Class Argon2Lib := {
  PasswordHash : Type;
  hash_password : string → string → result string PwHashError;
  PasswordHash_new : string → result PasswordHash PwHashError;
  verify_password : string → PasswordHash → result unit PwHashError
}.

(** A rendered hash parses, and verifies the password it was made from. *)
Class Argon2Laws {ARGON : Argon2Lib} : Prop := {
  argon2_roundtrip password salt rendered :
    hash_password password salt = Ok rendered →
    ∃ parsed, PasswordHash_new rendered = Ok parsed ∧ verify_password password parsed = Ok tt
}.

(** An address is represented by its textual form, which is what is stored. *)
Definition IpAddr : Type := string.

(** ** Errors *)

Inductive InternalDataBaseError :=
| Sql (e : SqlxError)
| Hash (e : PwHashError).

Inductive AuthenticationError :=
| Auth_UserNotFound (username : string)
| Auth_InvalidPassword
| Auth_InternalDataBase (e : InternalDataBaseError).

Inductive RegistrationError :=
| Reg_UserAlreadyExists (username : string)
| Reg_InternalDataBase (e : InternalDataBaseError).

Inductive GetTokensError :=
| Get_UserDoesNotExist
| Get_TokenIntegrityCheckViolated (username : string) (tokens : Z)
| Get_InternalDataBase (e : InternalDataBaseError).

Inductive AddTokensError :=
| Add_UserDoesNotExist
| Add_TokenOverflow
| Add_InternalDataBase (e : InternalDataBaseError).

Inductive SubtractTokensError :=
| Sub_UserDoesNotExist
| Sub_InsufficientTokens
| Sub_InternalDataBase (e : InternalDataBaseError).

Inductive UserHistoryError :=
| Hist_UserDoesNotExist
| Hist_TimestampIntegrityViolated (hex : string)
| Hist_HashIntegrityViolated (hex : string)
| Hist_InternalDataBase (e : InternalDataBaseError).

Inductive AddRecordError :=
| Rec_UserDoesNotExist
| Rec_InternalDataBase (e : InternalDataBaseError).

(** [impl From<sqlx::Error>] for the error types above. *)
Definition Auth_from_sqlx (e : SqlxError) : AuthenticationError := Auth_InternalDataBase (Sql e).
Definition Get_from_sqlx (e : SqlxError) : GetTokensError := Get_InternalDataBase (Sql e).
Definition Add_from_sqlx (e : SqlxError) : AddTokensError := Add_InternalDataBase (Sql e).
Definition Sub_from_sqlx (e : SqlxError) : SubtractTokensError := Sub_InternalDataBase (Sql e).
Definition Hist_from_sqlx (e : SqlxError) : UserHistoryError := Hist_InternalDataBase (Sql e).
Definition Rec_from_sqlx (e : SqlxError) : AddRecordError := Rec_InternalDataBase (Sql e).

(** ** Operations *)

Definition timestamp_as_sql_database_format (ts : Timestamp) : list byte :=
  Timestamp_as_be_bytes ts.

Section Accounts.
Context {ARGON : Argon2Lib}.

Definition verify_user_password (username plain_password : string)
    : io AuthenticationError unit :=
  row ← io_map_err Auth_from_sqlx (fetch (λ t, Ok (select_password_hash username t)));
  match row with
  | None => raise (Auth_UserNotFound username)
  | Some stored_hash =>
      parsed_hash ← of_result (map_err (λ e, Auth_InternalDataBase (Hash e))
                                 (PasswordHash_new stored_hash));
      match verify_password plain_password parsed_hash with
      | Ok _ => mret tt
      | Err _ => raise Auth_InvalidPassword
      end
  end.

(** The salt is drawn by [SaltString::generate(&mut OsRng)]. *)
Definition try_register_user (salt : string) (username plain_password : string) (ip : IpAddr)
    : io RegistrationError unit :=
  password_hash ← of_result (map_err (λ e, Reg_InternalDataBase (Hash e))
                               (hash_password plain_password salt));
  io_map_err
    (λ e, match e with
          | SqlxDatabase k =>
              if is_unique_violation k then Reg_UserAlreadyExists username
              else Reg_InternalDataBase (Sql e)
          | _ => Reg_InternalDataBase (Sql e)
          end)
    (execute (insert_user {|
       u_username := username;
       u_password_hash := password_hash;
       u_available_tokens := SqlInteger 0;
       u_registered_from_ip := ip |})).
End Accounts.

Definition get_user_tokens (username : string) : io GetTokensError Z :=
  query_result ← io_map_err Get_from_sqlx (fetch (select_available_tokens username));
  match query_result with
  | Some tokens =>
      if tokens <? 0 then raise (Get_TokenIntegrityCheckViolated username tokens)
      else mret (as_u64 tokens)
  | None => raise Get_UserDoesNotExist
  end.

Definition add_user_tokens (username : string) (amount_u64 : Z) : io AddTokensError Z :=
  amount ← of_result (ok_or (checked_i64 amount_u64) Add_TokenOverflow);
  tx ← io_map_err Add_from_sqlx begin;
  current_tokens ← io_map_err Add_from_sqlx (tx_fetch (select_available_tokens username) tx);
  match current_tokens with
  | None => raise Add_UserDoesNotExist
  | Some tokens =>
      resulting_tokens ← of_result (ok_or (checked_i64 (tokens + amount)) Add_TokenOverflow);
      tx ← io_map_err Add_from_sqlx (tx_execute (update_add_tokens amount username) tx);
      _ ← io_map_err Add_from_sqlx (commit tx);
      mret (as_u64 resulting_tokens)
  end.

Definition subtract_user_tokens (username : string) (amount_u64 : Z) : io SubtractTokensError Z :=
  amount ← of_result (ok_or (checked_i64 amount_u64) Sub_InsufficientTokens);
  tx ← io_map_err Sub_from_sqlx begin;
  current_tokens ← io_map_err Sub_from_sqlx (tx_fetch (select_available_tokens username) tx);
  match current_tokens with
  | None => raise Sub_UserDoesNotExist
  | Some tokens =>
      resulting_tokens ← of_result (ok_or (checked_i64 (tokens - amount)) Sub_InsufficientTokens);
      if resulting_tokens <? 0 then raise Sub_InsufficientTokens
      else
        tx ← io_map_err Sub_from_sqlx (tx_execute (update_sub_tokens amount username) tx);
        _ ← io_map_err Sub_from_sqlx (commit tx);
        mret (as_u64 resulting_tokens)
  end.

(** The row that [add_user_record] inserts. *)
Definition record_row (username : string) (timestamp : Timestamp) (sign : RsaSignature)
    : history_row := {|
  h_username := username;
  h_timestamp := SqlBlob (timestamp_as_sql_database_format timestamp);
  h_hash := SqlBlob (RsaSignature_as_bytes sign)
|}.

Definition add_user_record (username : string) (timestamp : Timestamp) (sign : RsaSignature)
    : io AddRecordError unit :=
  tx ← io_map_err Rec_from_sqlx begin;
  user_exists ← io_map_err Rec_from_sqlx
                  (tx_fetch (λ t, Ok (select_user_exists username t)) tx);
  match user_exists with
  | None => raise Rec_UserDoesNotExist
  | Some _ =>
      tx ← io_map_err Rec_from_sqlx
             (tx_execute (insert_history (record_row username timestamp sign)) tx);
      _ ← io_map_err Rec_from_sqlx (commit tx);
      mret tt
  end.

Section History.
Context {HEX : HexLib}.

(** One row of the history stream, decoded. *)
Definition decode_history_row (row : history_row)
    : outcome (result HistoryRecord UserHistoryError) :=
  match get_bytes (h_timestamp row) with
  | Panic s => Panic s
  | Done raw_ts_bytes =>
      match array_try_from 16 raw_ts_bytes with
      | None => Done (Err (Hist_TimestampIntegrityViolated (hex_encode raw_ts_bytes)))
      | Some ts_array =>
          let timestamp := Timestamp_from_be ts_array in
          match get_bytes (h_hash row) with
          | Panic s => Panic s
          | Done hash_slice =>
              match RsaSignature_try_from hash_slice with
              | Err _ => Done (Err (Hist_HashIntegrityViolated (hex_encode hash_slice)))
              | Ok hash_bytes => Done (Ok (HistoryRecord_new hash_bytes timestamp))
              end
          end
      end
  end.

(** [while let Some(row_result) = stream.next().await]: each step of the stream is
    a round trip, the one that finds its end too. *)
Fixpoint read_history (rows : list history_row) (records : list HistoryRecord)
    : io UserHistoryError (list HistoryRecord) :=
  _ ← io_map_err Hist_from_sqlx round_trip;
  match rows with
  | [] => mret records
  | row :: rest =>
      record ← (λ p, (decode_history_row row, p)) : io UserHistoryError HistoryRecord;
      read_history rest (records ++ [record])
  end.

Definition get_user_history (username : string) : io UserHistoryError (list HistoryRecord) :=
  tx ← io_map_err Hist_from_sqlx begin;
  user_exists ← io_map_err Hist_from_sqlx
                  (tx_fetch (λ t, Ok (select_user_exists username t)) tx);
  match user_exists with
  | None => raise Hist_UserDoesNotExist
  | Some _ => read_history (select_history username tx) []
  end.
End History.

(** ** The invariant of the tables *)

Definition user_ok (name : string) (r : user_row) : Prop :=
  u_username r = name ∧
  match u_available_tokens r with SqlInteger z => 0 ≤ z ∧ z ≤ i64_max | _ => False end.

Definition row_ok (r : history_row) : Prop :=
  match h_timestamp r, h_hash r with
  | SqlBlob ts, SqlBlob sg => length ts = 16%nat ∧ length sg = RSA_KEY_SIZE_IN_BYTES
  | _, _ => False
  end.

Definition row_key (r : history_row) : string * sql_value := (h_username r, h_timestamp r).

(** Balances are non-negative [i64]s, every record has a sixteen-byte timestamp
    and a 256-byte signature, belongs to an account, and is the only one of
    that account with its timestamp. *)
Definition tables_ok (t : tables) : Prop :=
  map_Forall user_ok (t_users t) ∧
  Forall row_ok (t_history t) ∧
  Forall (λ r, is_Some (t_users t !! h_username r)) (t_history t) ∧
  NoDup (row_key <$> t_history t).

#[export] Instance user_ok_dec name r : Decision (user_ok name r).
Proof. unfold user_ok. destruct (u_available_tokens r); apply _. Defined.
#[export] Instance row_ok_dec r : Decision (row_ok r).
Proof. unfold row_ok. destruct (h_timestamp r), (h_hash r); apply _. Defined.
#[export] Instance tables_ok_dec t : Decision (tables_ok t).
Proof. unfold tables_ok. apply _. Defined.

Lemma empty_tables_ok : tables_ok empty_tables.
Proof. split; [apply map_Forall_empty|]. repeat split; constructor. Qed.

(** ** The abstract ledger

    What the token operations promise: a map from accounts to balances between
    zero and [i64::MAX]. *)
Module Ledger.
Inductive error := UnknownAccount | OutOfBounds.

Definition credit (l : gmap string Z) (u : string) (n : Z) : result (Z * gmap string Z) error :=
  if i64_max <? n then Err OutOfBounds
  else match l !! u with
  | None => Err UnknownAccount
  | Some b => if i64_max <? b + n then Err OutOfBounds else Ok (b + n, <[u := b + n]> l)
  end.

Definition debit (l : gmap string Z) (u : string) (n : Z) : result (Z * gmap string Z) error :=
  if i64_max <? n then Err OutOfBounds
  else match l !! u with
  | None => Err UnknownAccount
  | Some b => if b <? n then Err OutOfBounds else Ok (b - n, <[u := b - n]> l)
  end.
End Ledger.

(** The abstraction function. *)
Definition row_balance (r : user_row) : option Z :=
  match u_available_tokens r with SqlInteger z => Some z | _ => None end.
Definition ledger (t : tables) : gmap string Z := omap row_balance (t_users t).

#[global] Arguments ledger : simpl never.

Lemma ledger_lookup t u : ledger t !! u = t_users t !! u ≫= row_balance.
Proof. apply lookup_omap. Qed.

Lemma ledger_set_tokens t h u r z :
  ledger {| t_users := <[u := set_tokens (SqlInteger z) r]> (t_users t); t_history := h |}
  = <[u := z]> (ledger t).
Proof. unfold ledger; simpl. by erewrite omap_insert_Some. Qed.

Lemma tables_ok_row t u r :
  tables_ok t → t_users t !! u = Some r →
  ∃ z, u_available_tokens r = SqlInteger z ∧ 0 ≤ z ≤ i64_max ∧ u_username r = u
       ∧ ledger t !! u = Some z.
Proof.
  intros (Hu & _) E. pose proof (Hu _ _ E) as [Hn Hz].
  rewrite ledger_lookup, E. simpl. unfold row_balance.
  destruct (u_available_tokens r) as [|z| | |]; try done. exists z. naive_solver.
Qed.

Lemma tables_ok_no_row t u : t_users t !! u = None → ledger t !! u = None.
Proof. intros E. by rewrite ledger_lookup, E. Qed.

Lemma tables_ok_set_tokens t u r z :
  tables_ok t → t_users t !! u = Some r → 0 ≤ z ≤ i64_max →
  tables_ok {| t_users := <[u := set_tokens (SqlInteger z) r]> (t_users t);
               t_history := t_history t |}.
Proof.
  intros (Hu & Hr & Hf & Hn) E Hz. split; [|split; [done|split; [|done]]]; simpl.
  - apply map_Forall_insert_2; [|done]. destruct (Hu _ _ E). split; [done|simpl; lia].
  - eapply Forall_impl; [|exact Hf]. intros x Hx. by apply lookup_insert_is_Some'; right.
Qed.

(** The statement [available_tokens + amount] on a balance, within bounds. *)
Lemma update_tokens_integer f t u r z z' :
  t_users t !! u = Some r → u_available_tokens r = SqlInteger z →
  f (SqlInteger z) = SqlInteger z' → 0 ≤ z' →
  update_tokens f u t = Ok {| t_users := <[u := set_tokens (SqlInteger z') r]> (t_users t);
                              t_history := t_history t |}.
Proof.
  intros E Ez Ef Hz. unfold update_tokens. rewrite E, Ez, Ef. simpl.
  unfold check_tokens; simpl. by rewrite (proj2 (Z.leb_le _ _)) by lia.
Qed.

Lemma sql_int_fits z : i64_min ≤ z ≤ i64_max → sql_int z = SqlInteger z.
Proof. intros. unfold sql_int. by rewrite (proj2 (in_range_spec _ _ _)). Qed.

Lemma update_add_ok t u r z n :
  t_users t !! u = Some r → u_available_tokens r = SqlInteger z → 0 ≤ z + n ≤ i64_max →
  update_add_tokens n u t =
    Ok {| t_users := <[u := set_tokens (SqlInteger (z + n)) r]> (t_users t);
          t_history := t_history t |}.
Proof.
  intros E Ez Hz. apply (update_tokens_integer _ _ _ _ z); [done..| |lia].
  apply sql_int_fits. bounds.
Qed.

Lemma update_sub_ok t u r z n :
  t_users t !! u = Some r → u_available_tokens r = SqlInteger z → 0 ≤ z - n ≤ i64_max →
  update_sub_tokens n u t =
    Ok {| t_users := <[u := set_tokens (SqlInteger (z - n)) r]> (t_users t);
          t_history := t_history t |}.
Proof.
  intros E Ez Hz. apply (update_tokens_integer _ _ _ _ z); [done..| |lia].
  apply sql_int_fits. bounds.
Qed.

Lemma select_tokens_ok t u r z :
  t_users t !! u = Some r → u_available_tokens r = SqlInteger z →
  select_available_tokens u t = Ok (Some z).
Proof. intros E Ez. unfold select_available_tokens. by rewrite E, Ez. Qed.

Lemma select_tokens_none t u :
  t_users t !! u = None → select_available_tokens u t = Ok None.
Proof. intros E. unfold select_available_tokens. by rewrite E. Qed.

(** Two states of the tables that differ at most in balances. *)
Definition same_but_tokens (t t' : tables) : Prop :=
  t_history t' = t_history t ∧
  set_tokens SqlNull <$> t_users t' = set_tokens SqlNull <$> t_users t.

Lemma same_but_tokens_set t u r v :
  t_users t !! u = Some r →
  same_but_tokens t {| t_users := <[u := set_tokens v r]> (t_users t);
                       t_history := t_history t |}.
Proof.
  intros E. split; [done|]. simpl. rewrite fmap_insert. apply insert_id.
  by rewrite lookup_fmap, E.
Qed.

(** The simulation between a token operation and its abstract counterpart [abs],
    from the tables [t]: a success does to the ledger what [abs] does and touches
    nothing else; an error leaves the tables as they are and is the error of
    [abs], or a database error, which [sick] must allow; there is no panic. *)
Definition ledger_sim {E} (classify : E → option Ledger.error)
    (abs : result (Z * gmap string Z) Ledger.error) (t : tables) (sick : Prop)
    (o : outcome (result Z E)) (p' : pool) : Prop :=
  match o with
  | Panic _ => False
  | Done (Ok b) =>
      abs = Ok (b, ledger (p_tables p')) ∧ tables_ok (p_tables p') ∧
      same_but_tokens t (p_tables p')
  | Done (Err e) =>
      p_tables p' = t ∧
      match classify e with Some le => abs = Err le | None => sick end
  end.

Definition classify_add (e : AddTokensError) : option Ledger.error :=
  match e with
  | Add_UserDoesNotExist => Some Ledger.UnknownAccount
  | Add_TokenOverflow => Some Ledger.OutOfBounds
  | Add_InternalDataBase _ => None
  end.
Definition classify_sub (e : SubtractTokensError) : option Ledger.error :=
  match e with
  | Sub_UserDoesNotExist => Some Ledger.UnknownAccount
  | Sub_InsufficientTokens => Some Ledger.OutOfBounds
  | Sub_InternalDataBase _ => None
  end.

(** A fault: the tables are the initial ones, and the pool was not healthy. *)
Ltac wp_fault := simpl; try (split; [congruence|tauto]).

Lemma wp_add_user_tokens u n p :
  tables_ok (p_tables p) → 0 ≤ n →
  wp (add_user_tokens u n)
    (ledger_sim classify_add (Ledger.credit (ledger (p_tables p)) u n) (p_tables p)
       (¬ healthy p)) p.
Proof.
  intros Hok Hn. unfold add_user_tokens, Ledger.credit. do 2 wp_step.
  destruct (Z.ltb_spec i64_max n) as [Hbig|Hsmall].
  { by rewrite (proj2 (checked_None _ _ _)) by bounds. }
  rewrite checked_fits by bounds; simpl. wp_steps; wp_fault.
  rewrite H. destruct (t_users (p_tables p) !! u) as [r|] eqn:E.
  2:{ rewrite (select_tokens_none _ _ E), (tables_ok_no_row _ _ E); simpl.
      wp_step. split; [congruence|done]. }
  destruct (tables_ok_row _ _ _ Hok E) as (z & Ez & Hz & Hu & ->).
  rewrite (select_tokens_ok _ _ _ _ E Ez); simpl. do 2 wp_step.
  destruct (Z.ltb_spec i64_max (z + n)) as [Hover|Hfits].
  { rewrite (proj2 (checked_None _ _ _)) by bounds. simpl. split; [congruence|done]. }
  rewrite checked_fits by bounds; simpl. wp_steps; wp_fault.
  rewrite (update_add_ok _ _ _ _ _ E Ez) by lia. simpl. wp_steps; wp_fault.
  rewrite ledger_set_tokens, as_u64_small by bounds.
  eauto using tables_ok_set_tokens, same_but_tokens_set with lia.
Qed.

Lemma wp_subtract_user_tokens u n p :
  tables_ok (p_tables p) → 0 ≤ n →
  wp (subtract_user_tokens u n)
    (ledger_sim classify_sub (Ledger.debit (ledger (p_tables p)) u n) (p_tables p)
       (¬ healthy p)) p.
Proof.
  intros Hok Hn. unfold subtract_user_tokens, Ledger.debit. do 2 wp_step.
  destruct (Z.ltb_spec i64_max n) as [Hbig|Hsmall].
  { by rewrite (proj2 (checked_None _ _ _)) by bounds. }
  rewrite checked_fits by bounds; simpl. wp_steps; wp_fault.
  rewrite H. destruct (t_users (p_tables p) !! u) as [r|] eqn:E.
  2:{ rewrite (select_tokens_none _ _ E), (tables_ok_no_row _ _ E); simpl.
      wp_step. split; [congruence|done]. }
  destruct (tables_ok_row _ _ _ Hok E) as (z & Ez & Hz & Hu & ->).
  rewrite (select_tokens_ok _ _ _ _ E Ez); simpl. do 2 wp_step.
  rewrite checked_fits by bounds; simpl.
  rewrite (Z.ltb_compare z n), (Z.ltb_compare (z - n) 0), (Z.compare_sub z n).
  destruct (Z.compare_spec (z - n) 0) as [E0|Hneg|Hpos].
  2:{ wp_step. split; [congruence|done]. }
  all: wp_steps; wp_fault; rewrite (update_sub_ok _ _ _ _ _ E Ez) by lia; simpl;
    wp_steps; wp_fault; rewrite ledger_set_tokens, as_u64_small by bounds;
    eauto using tables_ok_set_tokens, same_but_tokens_set with lia.
Qed.

(** ** Accounts *)

Lemma tables_ok_insert_user t r :
  tables_ok t → t_users t !! u_username r = None → u_available_tokens r = SqlInteger 0 →
  tables_ok {| t_users := <[u_username r := r]> (t_users t); t_history := t_history t |}.
Proof.
  intros (Hu & Hr & Hf & Hn) E Ez. split; [|split; [done|split; [|done]]]; simpl.
  - apply map_Forall_insert_2; [|done]. split; [done|]. rewrite Ez. bounds.
  - eapply Forall_impl; [|exact Hf]. intros x Hx. by apply lookup_insert_is_Some'; right.
Qed.

Section AccountFacts.
Context {ARGON : Argon2Lib}.

(** Registration inserts one account with no tokens, or changes nothing. *)
Lemma wp_try_register_user salt u pw ip p :
  tables_ok (p_tables p) →
  wp (try_register_user salt u pw ip) (λ o p',
    match o with
    | Panic _ => False
    | Done (Ok tt) =>
        ∃ h, hash_password pw salt = Ok h ∧ t_users (p_tables p) !! u = None ∧
          tables_ok (p_tables p') ∧
          t_history (p_tables p') = t_history (p_tables p) ∧
          t_users (p_tables p') = <[u := {| u_username := u; u_password_hash := h;
            u_available_tokens := SqlInteger 0; u_registered_from_ip := ip |}]>
            (t_users (p_tables p))
    | Done (Err (Reg_UserAlreadyExists v)) =>
        v = u ∧ p_tables p' = p_tables p ∧
        (healthy p → is_Some (t_users (p_tables p) !! u))
    | Done (Err (Reg_InternalDataBase _)) =>
        p_tables p' = p_tables p ∧ (healthy p → ∃ e, hash_password pw salt = Err e)
    end) p.
Proof.
  intros Hok. unfold try_register_user. do 2 wp_step.
  destruct (hash_password pw salt) as [h|e] eqn:Eh; simpl; [|by eauto].
  wp_steps.
  2:{ repeat case_match; naive_solver. }
  unfold insert_user; simpl. rewrite H.
  destruct (t_users (p_tables p) !! u) as [r|] eqn:E; simpl; [by rewrite H|].
  exists h. split_and!; try done. by apply (tables_ok_insert_user _ {| u_username := u |}).
Qed.

Lemma wp_verify_user_password u pw p :
  wp (verify_user_password u pw) (λ o p',
    p_tables p' = p_tables p ∧
    match o with
    | Panic _ => False
    | Done (Ok tt) =>
        ∃ h ph, select_password_hash u (p_tables p) = Some h ∧ PasswordHash_new h = Ok ph ∧
          verify_password pw ph = Ok tt
    | Done (Err (Auth_UserNotFound v)) =>
        v = u ∧ select_password_hash u (p_tables p) = None
    | Done (Err Auth_InvalidPassword) =>
        ∃ h ph e, select_password_hash u (p_tables p) = Some h ∧ PasswordHash_new h = Ok ph ∧
          verify_password pw ph = Err e
    | Done (Err (Auth_InternalDataBase (Sql _))) => ¬ healthy p
    | Done (Err (Auth_InternalDataBase (Hash e))) =>
        ∃ h, select_password_hash u (p_tables p) = Some h ∧ PasswordHash_new h = Err e
    end) p.
Proof.
  unfold verify_user_password. wp_steps; [|by eauto]. rewrite H.
  destruct (select_password_hash u (p_tables p)) as [h|] eqn:E; wp_steps; [|done].
  destruct (PasswordHash_new h) as [ph|e] eqn:Eph; simpl; [|by eauto].
  destruct (verify_password pw ph) as [[]|e] eqn:Ev; wp_steps; eauto 10.
Qed.
End AccountFacts.

Lemma wp_get_user_tokens u p :
  tables_ok (p_tables p) →
  wp (get_user_tokens u) (λ o p',
    p_tables p' = p_tables p ∧
    match o with
    | Done (Ok n) => ledger (p_tables p) !! u = Some n
    | Done (Err Get_UserDoesNotExist) => t_users (p_tables p) !! u = None
    | Done (Err (Get_InternalDataBase _)) => ¬ healthy p
    | Done (Err (Get_TokenIntegrityCheckViolated _ _)) | Panic _ => False
    end) p.
Proof.
  intros Hok. unfold get_user_tokens. wp_steps; [|by eauto]. rewrite H.
  destruct (t_users (p_tables p) !! u) as [r|] eqn:E.
  - destruct (tables_ok_row _ _ _ Hok E) as (z & Ez & Hz & _ & El).
    rewrite (select_tokens_ok _ _ _ _ E Ez); simpl.
    destruct (Z.ltb_spec z 0); [lia|]. wp_step. by rewrite as_u64_small by bounds.
  - by rewrite (select_tokens_none _ _ E); simpl.
Qed.

(** ** Records *)

Lemma record_row_ok u ts sg : row_ok (record_row u ts sg).
Proof.
  split; [apply Timestamp_as_be_bytes_length|apply arr_length].
Qed.

Lemma same_key_spec r s : same_key r s = true ↔ row_key r = row_key s.
Proof.
  unfold same_key, row_key. rewrite andb_true_iff, !bool_decide_eq_true.
  split; [by intros [-> ->]|by intros [= -> ->]].
Qed.

Lemma same_key_existsb r rows : existsb (same_key r) rows = true ↔ row_key r ∈ (row_key <$> rows).
Proof.
  rewrite existsb_exists, list_elem_of_fmap.
  split; intros (x & H1 & H2); exists x; rewrite ?same_key_spec, <- ?list_elem_of_In in *; done.
Qed.

Lemma tables_ok_insert_history t r :
  tables_ok t → row_ok r → is_Some (t_users t !! h_username r) →
  row_key r ∉ (row_key <$> t_history t) →
  tables_ok {| t_users := t_users t; t_history := t_history t ++ [r] |}.
Proof.
  intros (Hu & Hr & Hf & Hn) Hrow Hs Hk. split; [done|]. simpl.
  split_and!; [by apply Forall_app_2; repeat constructor..|].
  rewrite fmap_app. apply list.NoDup_app. split_and!; [done| |apply NoDup_singleton].
  intros k Hin Hk'. apply Hk. simpl in Hk'. by apply list_elem_of_singleton in Hk' as ->.
Qed.

(** A success appends one row; every failure leaves the tables alone.  A
    duplicate timestamp of the same account is a database error. *)
Lemma wp_add_user_record u ts sg p :
  tables_ok (p_tables p) →
  wp (add_user_record u ts sg) (λ o p',
    match o with
    | Panic _ => False
    | Done (Ok tt) =>
        is_Some (t_users (p_tables p) !! u) ∧ tables_ok (p_tables p') ∧
        (row_key (record_row u ts sg) ∉ (row_key <$> t_history (p_tables p))) ∧
        p_tables p' = {| t_users := t_users (p_tables p);
                         t_history := t_history (p_tables p) ++ [record_row u ts sg] |}
    | Done (Err Rec_UserDoesNotExist) =>
        p_tables p' = p_tables p ∧ t_users (p_tables p) !! u = None
    | Done (Err (Rec_InternalDataBase e)) =>
        p_tables p' = p_tables p ∧
        (healthy p → e = Sql (SqlxDatabase UniqueViolation) ∧
           row_key (record_row u ts sg) ∈ (row_key <$> t_history (p_tables p)))
    end) p.
Proof.
  intros Hok. unfold add_user_record. wp_steps; wp_fault. rewrite H.
  unfold select_user_exists. destruct (t_users (p_tables p) !! u) as [r|] eqn:E; simpl.
  2:{ wp_step. split; congruence. }
  wp_steps; wp_fault. unfold insert_history; cbn [h_username record_row].
  destruct (existsb _ _) eqn:Ex; simpl.
  { apply same_key_existsb in Ex. split; [congruence|done]. }
  rewrite E; simpl. wp_steps; wp_fault.
  assert (row_key (record_row u ts sg) ∉ (row_key <$> t_history (p_tables p))) as Hk.
  { intros Hin%same_key_existsb. congruence. }
  split_and!; [by eauto| |done|done].
  apply tables_ok_insert_history; eauto using record_row_ok.
Qed.

(** ** The history *)

Section HistoryFacts.
Context {HEX : HexLib}.

(** The record a row stands for. *)
Definition decodes (row : history_row) (rec : HistoryRecord) : Prop :=
  decode_history_row row = Done (Ok rec).

Lemma decodes_fun row r r' : decodes row r → decodes row r' → r = r'.
Proof. unfold decodes. congruence. Qed.

Lemma decodes_row_ok row : row_ok row → ∃ rec, decodes row rec.
Proof.
  unfold row_ok, decodes, decode_history_row.
  destruct (h_timestamp row) as [| | | |ts], (h_hash row) as [| | | |sg]; try done.
  intros [Hts Hsg]; simpl.
  destruct (array_try_from 16 ts) eqn:E1; [|by apply array_try_from_None in E1].
  unfold RsaSignature_try_from.
  destruct (array_try_from RSA_KEY_SIZE_IN_BYTES sg) eqn:E2;
    [by eauto|by apply array_try_from_None in E2].
Qed.

(** What a decoded row says about its cells. *)
Lemma decodes_inv row rec :
  row_ok row → decodes row rec →
  ∃ ts, h_timestamp row = SqlBlob ts ∧ length ts = 16%nat ∧
    ts_raw (hr_timestamp rec) = from_be_bytes ts ∧
    h_hash row = SqlBlob (RsaSignature_as_bytes (hr_sign rec)).
Proof.
  unfold row_ok, decodes, decode_history_row, RsaSignature_try_from.
  destruct (h_timestamp row) as [| | | |ts], (h_hash row) as [| | | |sg]; try done.
  intros [Hts Hsg]; simpl. repeat case_match; try done; intros; simplify_eq/=.
  exists ts. repeat match goal with
  | E : array_try_from _ _ = Some _ |- _ => apply array_try_from_Some in E; subst
  end. done.
Qed.

Lemma decodes_record_row u ts sg :
  ts_ok ts = true → decodes (record_row u ts sg) (HistoryRecord_new sg ts).
Proof.
  intros Hts. destruct (decodes_row_ok _ (record_row_ok u ts sg)) as [rec Hrec].
  pose proof (decodes_inv _ _ (record_row_ok u ts sg) Hrec) as (b & Eb & _ & Er & Es).
  simpl in Eb, Es. simplify_eq. unfold decodes in *. rewrite Hrec. do 2 f_equal.
  destruct rec as [[s1] [t1]], sg as [s2], ts as [t2]. unfold HistoryRecord_new.
  f_equal; f_equal.
  - symmetry. by apply array_eq.
  - simpl in Er. rewrite Er. by apply (Timestamp_be_inv (MkTimestamp t2)).
Qed.

Lemma wp_read_history rows acc p :
  Forall row_ok rows →
  wp (read_history rows acc) (λ o p',
    p_tables p' = p_tables p ∧
    match o with
    | Done (Ok rs) => ∃ recs, rs = acc ++ recs ∧ Forall2 decodes rows recs
    | Done (Err (Hist_InternalDataBase _)) => ¬ healthy p
    | _ => False
    end) p.
Proof.
  revert acc p. induction rows as [|row rows IH]; intros acc p Hall; simpl;
    wp_steps; try done.
  { split; [done|]. exists []. by rewrite app_nil_r. }
  apply list.Forall_cons in Hall as [Hrow Hall].
  destruct (decodes_row_ok _ Hrow) as [rec Hrec]. unfold wp at 1. simpl.
  rewrite Hrec. eapply wp_mono; [|by apply IH].
  intros o p'' [Ht Ho]. split; [congruence|].
  destruct o as [[rs|[]]|]; try tauto.
  destruct Ho as (recs & -> & Hf). exists (rec :: recs).
  split; [by rewrite <- app_assoc|by constructor].
Qed.

Lemma select_history_ok u t : tables_ok t → Forall row_ok (select_history u t).
Proof.
  intros (_ & Hr & _). rewrite Forall_forall in *. intros r Hin. apply Hr.
  rewrite <- list_elem_of_In in Hin. rewrite <- list_elem_of_In.
  assert (r ∈ sorted_rows u t) as [_ ?]%elem_of_sorted_rows; [|done].
  rewrite select_history_split, elem_of_app. by left.
Qed.

Lemma wp_get_user_history u p :
  tables_ok (p_tables p) →
  wp (get_user_history u) (λ o p',
    p_tables p' = p_tables p ∧
    match o with
    | Done (Ok recs) =>
        is_Some (t_users (p_tables p) !! u) ∧
        Forall2 decodes (select_history u (p_tables p)) recs
    | Done (Err Hist_UserDoesNotExist) => t_users (p_tables p) !! u = None
    | Done (Err (Hist_InternalDataBase _)) => ¬ healthy p
    | _ => False
    end) p.
Proof.
  intros Hok. unfold get_user_history. wp_steps; wp_fault. rewrite H.
  unfold select_user_exists. destruct (t_users (p_tables p) !! u) as [r|] eqn:E; simpl.
  2:{ wp_step. split; congruence. }
  eapply wp_mono; [|by apply wp_read_history, select_history_ok].
  intros o p'' [Ht Ho]. split; [congruence|].
  destruct o as [[rs|[]]|]; try tauto. destruct Ho as (recs & -> & Hf). by eauto.
Qed.

(** The order of the rows is the numeric order of their timestamps. *)
Lemma newer_numeric r s rec rec' :
  row_ok r → row_ok s → decodes r rec → decodes s rec' →
  newer r s ↔ ts_raw (hr_timestamp rec') ≤ ts_raw (hr_timestamp rec).
Proof.
  intros Hr Hs Dr Ds.
  destruct (decodes_inv _ _ Hr Dr) as (a & Ea & La & -> & _).
  destruct (decodes_inv _ _ Hs Ds) as (b & Eb & Lb & -> & _).
  unfold newer, sql_compare. rewrite Ea, Eb. simpl.
  rewrite memcmp_from_be by congruence. by rewrite Z.compare_le_iff.
Qed.
End HistoryFacts.
