(* ===== verification/DatabaseSpec.v ===== *)
(** * DatabaseSpec: what the database component promises

    The theorems about [ServerDataBase] ([Database]): the invariant of the
    tables under every sequence of calls, the refinement of the token
    operations to the abstract ledger, registration followed by login, and the
    order and content of the history. *)
From S2P Require Import Prelude Bytes Protocol Sql Database.

(** ** Sequences of calls *)

(** The public methods of [ServerDataBase]. *)
Inductive db_call :=
| CallVerify (username password : string)
| CallRegister (salt username password : string) (ip : IpAddr)
| CallGetTokens (username : string)
| CallAddTokens (username : string) (amount : Z)
| CallSubtractTokens (username : string) (amount : Z)
| CallAddRecord (username : string) (timestamp : Timestamp) (sign : RsaSignature)
| CallHistory (username : string).

(** Amounts are [u64]s. *)
Definition call_typed (c : db_call) : Prop :=
  match c with
  | CallAddTokens _ n | CallSubtractTokens _ n => 0 ≤ n ≤ u64_max
  | _ => True
  end.

Section Calls.
Context {ARGON : Argon2Lib} {HEX : HexLib}.

(** The pool after a call, whatever it returned. *)
Definition after_call (c : db_call) (p : pool) : pool :=
  match c with
  | CallVerify u pw => (verify_user_password u pw p).2
  | CallRegister salt u pw ip => (try_register_user salt u pw ip p).2
  | CallGetTokens u => (get_user_tokens u p).2
  | CallAddTokens u n => (add_user_tokens u n p).2
  | CallSubtractTokens u n => (subtract_user_tokens u n p).2
  | CallAddRecord u ts sg => (add_user_record u ts sg p).2
  | CallHistory u => (get_user_history u p).2
  end.

(** A run: each call comes with the faults it meets. *)
Fixpoint run_calls (cs : list (list (option SqlxError) * db_call)) (t : tables) : tables :=
  match cs with
  | [] => t
  | (faults, c) :: rest =>
      run_calls rest (p_tables (after_call c {| p_tables := t; p_faults := faults |}))
  end.

(** A postcondition that holds of every outcome holds of the pool afterwards. *)
Lemma wp_after {E A} (m : io E A) (P : pool → Prop) p : wp m (λ _ p', P p') p → P (m p).2.
Proof. unfold wp. by destruct (m p). Qed.

Lemma ledger_sim_ok {E} (classify : E → option Ledger.error) abs t sick o p' :
  tables_ok t → ledger_sim classify abs t sick o p' → tables_ok (p_tables p').
Proof.
  intros Hok. destruct o as [[b|e]|]; simpl; [by intros (_ & ? & _)|by intros [-> _]|done].
Qed.

Lemma after_call_ok c p :
  call_typed c → tables_ok (p_tables p) → tables_ok (p_tables (after_call c p)).
Proof.
  intros Hc Hok. destruct c; simpl; apply wp_after; simpl in Hc.
  - eapply wp_mono; [|apply wp_verify_user_password]. intros o p' [-> _]; done.
  - eapply wp_mono; [|by apply wp_try_register_user].
    intros [[[]|[]]|] p'; simpl;
      [by intros (h & _ & _ & ? & _)|by intros (_ & -> & _)|by intros [-> _]|done].
  - eapply wp_mono; [|by apply wp_get_user_tokens]. intros o p' [-> _]; done.
  - eapply wp_mono; [|by apply wp_add_user_tokens; [|lia]]. intros; by eapply ledger_sim_ok.
  - eapply wp_mono; [|by apply wp_subtract_user_tokens; [|lia]]. intros; by eapply ledger_sim_ok.
  - eapply wp_mono; [|by apply wp_add_user_record].
    intros [[[]|[]]|] p'; simpl;
      [by intros (_ & ? & _)|by intros [-> _]|by intros [-> _]|done].
  - eapply wp_mono; [|by apply wp_get_user_history]. intros o p' [-> _]; done.
Qed.
End Calls.

(** Whatever methods are called in whatever order, with whatever database
    faults in between, the tables built from an empty database satisfy the
    invariant: balances between 0 and [i64::MAX], well-sized records that belong
    to an account, one record per account and timestamp. *)
Theorem database_invariant {ARGON : Argon2Lib} {HEX : HexLib}
    (cs : list (list (option SqlxError) * db_call)) :
  Forall (λ c, call_typed c.2) cs → tables_ok (run_calls cs empty_tables).
Proof.
  intros Hcs. assert (∀ t, tables_ok t → tables_ok (run_calls cs t)) as Hgen.
  { induction cs as [|[fs c] cs IH]; intros t Ht; [done|]. simpl.
    apply list.Forall_cons in Hcs as [Hc Hcs]. by apply IH, after_call_ok. }
  apply Hgen, empty_tables_ok.
Qed.

(** ** A concrete password library and database, to evaluate on *)
Module ToyDb.
(** The rendered hash is the password itself. *)
Definition argon : Argon2Lib := {|
  PasswordHash := string;
  hash_password pw _ := Ok pw;
  PasswordHash_new s := Ok s;
  verify_password pw h := if decide (pw = h) then Ok tt else Err "invalid password"%string
|}.
Lemma argon_laws : @Argon2Laws argon.
Proof.
  split. simpl. intros pw _ r [= ->]. exists r. split; [done|]. by rewrite decide_True.
Qed.

Definition alice : string := "alice"%string.
Definition no_faults (t : tables) : pool := {| p_tables := t; p_faults := [] |}.

(** Alice registers, buys ten tokens and records a signature at time 5. *)
Definition calls : list (list (option SqlxError) * db_call) :=
  [([], CallRegister "salt" alice "secret" "127.0.0.1"); ([], CallAddTokens alice 10);
   ([], CallAddRecord alice (MkTimestamp 5) Toy.sig1)]%string.
Definition db : tables := run_calls (ARGON := argon) (HEX := Toy.hex) calls empty_tables.
Definition db0 : tables :=
  run_calls (ARGON := argon) (HEX := Toy.hex) (take 1 calls) empty_tables.
End ToyDb.

Lemma database_invariant_witness : tables_ok ToyDb.db ∧ ledger ToyDb.db !! ToyDb.alice = Some 10.
Proof.
  split; [|vm_compute; reflexivity]. apply database_invariant.
  repeat constructor; unfold call_typed; bounds.
Defined.

(** ** Tokens *)

(** C13: [add_user_tokens] implements the credit of the abstract ledger on every
    branch: it returns the new balance and stores it, or reports an unknown
    account or an overflow exactly when the ledger does, and then, as on any
    database fault, the tables are unchanged. *)
Theorem add_user_tokens_refines (u : string) (n : Z) (p : pool) :
  tables_ok (p_tables p) → 0 ≤ n ≤ u64_max →
  wp (add_user_tokens u n)
    (ledger_sim classify_add (Ledger.credit (ledger (p_tables p)) u n) (p_tables p)
       (¬ healthy p)) p.
Proof. intros Hok Hn. apply wp_add_user_tokens; [done|lia]. Qed.

Lemma add_user_tokens_refines_witness :
  wp (add_user_tokens ToyDb.alice 5)
    (ledger_sim classify_add (Ledger.credit (ledger ToyDb.db) ToyDb.alice 5) ToyDb.db
       (¬ healthy (ToyDb.no_faults ToyDb.db))) (ToyDb.no_faults ToyDb.db).
Proof.
  apply (add_user_tokens_refines ToyDb.alice 5 (ToyDb.no_faults ToyDb.db)); [|bounds].
  apply (bool_decide_unpack (tables_ok ToyDb.db)). vm_compute. exact I.
Defined.

(** C12: [subtract_user_tokens] implements the debit of the abstract ledger on
    every branch; in particular a balance never becomes negative. *)
Theorem subtract_user_tokens_refines (u : string) (n : Z) (p : pool) :
  tables_ok (p_tables p) → 0 ≤ n ≤ u64_max →
  wp (subtract_user_tokens u n)
    (ledger_sim classify_sub (Ledger.debit (ledger (p_tables p)) u n) (p_tables p)
       (¬ healthy p)) p.
Proof. intros Hok Hn. apply wp_subtract_user_tokens; [done|lia]. Qed.

Lemma subtract_user_tokens_refines_witness :
  wp (subtract_user_tokens ToyDb.alice 15)
    (ledger_sim classify_sub (Ledger.debit (ledger ToyDb.db) ToyDb.alice 15) ToyDb.db
       (¬ healthy (ToyDb.no_faults ToyDb.db))) (ToyDb.no_faults ToyDb.db).
Proof.
  apply (subtract_user_tokens_refines ToyDb.alice 15 (ToyDb.no_faults ToyDb.db)); [|bounds].
  apply (bool_decide_unpack (tables_ok ToyDb.db)). vm_compute. exact I.
Defined.

(** On a healthy pool an operation returns what the ledger says. *)
Lemma ledger_sim_healthy {E} (classify : E → option Ledger.error) (m : io E Z) abs p b l :
  wp m (ledger_sim classify abs (p_tables p) (¬ healthy p)) p →
  healthy p → abs = Ok (b, l) →
  ∃ p', m p = (Done (Ok b), p') ∧ ledger (p_tables p') = l ∧ tables_ok (p_tables p').
Proof.
  unfold wp. destruct (m p) as [[[b'|e]|] p'] eqn:Em; simpl; intros Hs Hh ->; [| |done].
  - destruct Hs as ([= -> ->] & ? & _). by eauto.
  - destruct Hs as [_ Hs]. destruct (classify e); naive_solver.
Qed.

(** The refund of a signing failure: taking one token and giving it back
    leaves every balance as it was. *)
Theorem subtract_then_refund (u : string) (b : Z) (t : tables) :
  tables_ok t → ledger t !! u = Some b → 0 < b →
  ∃ p1 p2, subtract_user_tokens u 1 {| p_tables := t; p_faults := [] |} = (Done (Ok (b - 1)), p1) ∧
    add_user_tokens u 1 {| p_tables := p_tables p1; p_faults := [] |} = (Done (Ok b), p2) ∧
    ledger (p_tables p2) = ledger t.
Proof.
  intros Hok Hb Hpos.
  assert (b ≤ i64_max) as Hmax.
  { rewrite ledger_lookup in Hb. destruct (t_users t !! u) as [r|] eqn:E; [|done].
    destruct (tables_ok_row _ _ _ Hok E) as (z & Ez & Hz & _ & El).
    simpl in Hb. unfold row_balance in Hb. rewrite Ez in Hb. simplify_eq. lia. }
  destruct (ledger_sim_healthy classify_sub (subtract_user_tokens u 1)
      (Ledger.debit (ledger t) u 1) {| p_tables := t; p_faults := [] |} (b - 1)
      (<[u := b - 1]> (ledger t))) as (p1 & E1 & L1 & Ok1);
    [by apply wp_subtract_user_tokens|done| |].
  { unfold Ledger.debit. rewrite Hb. by rewrite (proj2 (Z.ltb_ge b 1)) by lia. }
  destruct (ledger_sim_healthy classify_add (add_user_tokens u 1)
      (Ledger.credit (ledger (p_tables p1)) u 1) {| p_tables := p_tables p1; p_faults := [] |}
      b (ledger t)) as (p2 & E2 & L2 & _);
    [by apply (wp_add_user_tokens u 1 {| p_tables := p_tables p1; p_faults := [] |})
    |done| |by exists p1, p2].
  unfold Ledger.credit. rewrite L1, lookup_insert_eq. simpl.
  replace (b - 1 + 1) with b by lia. rewrite (proj2 (Z.ltb_ge i64_max b)) by lia.
  by rewrite insert_insert_eq, insert_id.
Qed.

Lemma subtract_then_refund_witness :
  ∃ p1 p2, subtract_user_tokens ToyDb.alice 1 (ToyDb.no_faults ToyDb.db) = (Done (Ok 9), p1) ∧
    add_user_tokens ToyDb.alice 1 (ToyDb.no_faults (p_tables p1)) = (Done (Ok 10), p2) ∧
    ledger (p_tables p2) = ledger ToyDb.db.
Proof.
  apply (subtract_then_refund ToyDb.alice 10 ToyDb.db); [|vm_compute; reflexivity|lia].
  apply (bool_decide_unpack (tables_ok ToyDb.db)). vm_compute. exact I.
Defined.

(** ** Accounts *)

(** After a successful registration the same credentials authenticate, on any
    later call that meets no database fault and finds the account unchanged. *)
Theorem register_then_verify {ARGON : Argon2Lib} {ARGONL : Argon2Laws}
    (salt u pw : string) (ip : IpAddr) (p p1 p2 : pool) :
  tables_ok (p_tables p) →
  try_register_user salt u pw ip p = (Done (Ok tt), p1) →
  t_users (p_tables p2) !! u = t_users (p_tables p1) !! u → healthy p2 →
  ∃ p3, verify_user_password u pw p2 = (Done (Ok tt), p3).
Proof.
  intros Hok Hreg Hsame Hh.
  pose proof (wp_run _ _ _ _ _ Hreg (wp_try_register_user salt u pw ip p Hok))
    as (h & Eh & _ & _ & _ & Eu).
  destruct (argon2_roundtrip _ _ _ Eh) as (ph & Eph & Ever).
  assert (select_password_hash u (p_tables p2) = Some h) as Esel.
  { unfold select_password_hash. by rewrite Hsame, Eu, lookup_insert_eq. }
  pose proof (wp_verify_user_password u pw p2) as Hv. unfold wp in Hv.
  destruct (verify_user_password u pw p2) as [[[[]|[v| |[e|e]]]|msg] p3]; [by eauto| | | | |];
    destruct Hv as [_ Hv]; naive_solver congruence.
Qed.

Lemma register_then_verify_witness :
  ∃ p3, verify_user_password (ARGON := ToyDb.argon) ToyDb.alice "secret"
          (ToyDb.no_faults ToyDb.db0) = (Done (Ok tt), p3).
Proof.
  apply (register_then_verify (ARGON := ToyDb.argon) (ARGONL := ToyDb.argon_laws)
    "salt" ToyDb.alice "secret" "127.0.0.1" (ToyDb.no_faults empty_tables)
    (ToyDb.no_faults ToyDb.db0)); [apply empty_tables_ok|vm_compute..]; reflexivity.
Defined.

(** A username is registered once: a second registration is refused with
    [UserAlreadyExists] and keeps the first account, password hash included. *)
Theorem register_twice_refused {ARGON : Argon2Lib}
    (salt u pw h : string) (ip : IpAddr) (p : pool) :
  tables_ok (p_tables p) → healthy p →
  is_Some (t_users (p_tables p) !! u) → hash_password pw salt = Ok h →
  ∃ p', try_register_user salt u pw ip p = (Done (Err (Reg_UserAlreadyExists u)), p') ∧
        p_tables p' = p_tables p.
Proof.
  intros Hok Hh [r Hr] Eh. pose proof (wp_try_register_user salt u pw ip p Hok) as Hw.
  unfold wp in Hw.
  destruct (try_register_user salt u pw ip p) as [[[[]|[v|e]]|] p']; naive_solver congruence.
Qed.

Lemma register_twice_refused_witness :
  ∃ p', try_register_user (ARGON := ToyDb.argon) "other" ToyDb.alice "hijack" "::1"
          (ToyDb.no_faults ToyDb.db) = (Done (Err (Reg_UserAlreadyExists ToyDb.alice)), p') ∧
        p_tables p' = ToyDb.db.
Proof.
  apply (register_twice_refused (ARGON := ToyDb.argon) "other" ToyDb.alice "hijack" "hijack"
    "::1" (ToyDb.no_faults ToyDb.db)); [|reflexivity|vm_compute; by eexists|reflexivity].
  apply (bool_decide_unpack (tables_ok ToyDb.db)). vm_compute. exact I.
Defined.

(** ** History *)

Section HistoryOrder.
Context {HEX : HexLib}.
Implicit Types (t : tables) (u : string).

Definition rec_time (r : HistoryRecord) : Z := ts_raw (hr_timestamp r).

Lemma sorted_rows_keys u t : tables_ok t → NoDup (row_key <$> sorted_rows u t).
Proof.
  intros (_ & _ & _ & Hn). rewrite (sorted_rows_perm u t).
  eapply sublist_NoDup; [exact Hn|]. apply fmap_sublist, sublist_filter.
Qed.

Lemma sorted_row_ok u t r : tables_ok t → r ∈ sorted_rows u t → h_username r = u ∧ row_ok r.
Proof.
  intros (_ & Hr & _) [Hu Hin]%elem_of_sorted_rows. split; [done|].
  rewrite Forall_forall in Hr. apply Hr. by apply list_elem_of_In.
Qed.

Lemma select_in_sorted u t r : r ∈ select_history u t → r ∈ sorted_rows u t.
Proof. rewrite (select_history_split u t), elem_of_app. by left. Qed.

(** Two different rows of one account: the newer has the larger time. *)
Lemma newer_strict u t r s rec rec' :
  tables_ok t → r ∈ sorted_rows u t → s ∈ sorted_rows u t →
  decodes r rec → decodes s rec' → newer r s → row_key r ≠ row_key s →
  rec_time rec' < rec_time rec.
Proof.
  intros Hok Hr Hs Dr Ds Hnew Hne.
  destruct (sorted_row_ok _ _ _ Hok Hr) as [Ur Okr], (sorted_row_ok _ _ _ Hok Hs) as [Us Oks].
  pose proof (proj1 (newer_numeric _ _ _ _ Okr Oks Dr Ds) Hnew) as Hle.
  destruct (decodes_inv _ _ Okr Dr) as (a & Ea & La & Ta & _).
  destruct (decodes_inv _ _ Oks Ds) as (b & Eb & Lb & Tb & _).
  unfold rec_time in *. rewrite Ta, Tb in *.
  destruct (decide (from_be_bytes a = from_be_bytes b)) as [E|]; [|lia].
  apply from_be_bytes_inj in E; [|congruence]. destruct Hne. unfold row_key. congruence.
Qed.

Lemma history_sorted u t recs :
  tables_ok t → Forall2 decodes (select_history u t) recs →
  StronglySorted (λ a b, rec_time b < rec_time a) recs.
Proof.
  intros Hok HF. eapply StronglySorted_Forall2; [exact HF| |].
  - apply StronglySorted_NoDup_key with (f := row_key); [apply select_history_sorted|].
    eapply sublist_NoDup; [by apply (sorted_rows_keys u)|].
    apply fmap_sublist, sublist_take.
  - intros x x' y y' Hx Hx' Dx Dx' [Hn Hk].
    by apply (newer_strict u t x x'); eauto using select_in_sorted.
Qed.

(** A row outside the returned hundred is older than all of them. *)
Lemma history_omitted_older u t recs row rec :
  tables_ok t → Forall2 decodes (select_history u t) recs →
  row ∈ t_history t → h_username row = u → decodes row rec →
  row ∈ select_history u t ∨
  ((HISTORY_LIMIT < length (sorted_rows u t))%nat ∧ length recs = HISTORY_LIMIT ∧
   Forall (λ r, rec_time rec < rec_time r) recs).
Proof.
  intros Hok HF Hin Hu Drow.
  destruct (decide (row ∈ select_history u t)) as [|Hout]; [by left|right].
  assert (row ∈ sorted_rows u t) as Hs by (by apply elem_of_sorted_rows).
  assert (HISTORY_LIMIT < length (sorted_rows u t))%nat as Hmany.
  { destruct (decide (length (sorted_rows u t) ≤ HISTORY_LIMIT)%nat) as [Hle|]; [|lia].
    by rewrite select_history_all in Hout. }
  split_and!; [done| |].
  - rewrite <- (Forall2_length HF), select_history_length. lia.
  - apply Forall_forall. intros r Hr. rewrite <- list_elem_of_In in Hr.
    destruct (Forall2_elem_r _ _ _ _ HF Hr) as (x & Hx & Dx).
    apply (newer_strict u t x row); eauto using select_in_sorted, select_history_newest.
    intros E. apply Hout. pose proof (sorted_rows_keys u t Hok) as Hnd.
    rewrite select_history_split, fmap_app in Hnd. apply list.NoDup_app in Hnd as (_ & Hd & _).
    exfalso. apply (Hd (row_key x)); [by apply list_elem_of_fmap_2|].
    rewrite E. apply list_elem_of_fmap_2.
    rewrite select_history_split, elem_of_app in Hs. by destruct Hs.
Qed.
End HistoryOrder.

(** C27: the history an account gets back is strictly newest first, has at most
    one hundred records, and misses a record of the account only when it holds
    one hundred newer ones. *)
Theorem history_newest_first {HEX : HexLib} (u : string) (p p' : pool)
    (recs : list HistoryRecord) :
  tables_ok (p_tables p) → get_user_history u p = (Done (Ok recs), p') →
  StronglySorted (λ a b, rec_time b < rec_time a) recs ∧
  (length recs ≤ 100)%nat ∧
  Forall (λ row, h_username row = u → ∃ rec, decodes row rec ∧
    (rec ∈ recs ∨ (length recs = 100%nat ∧ Forall (λ r, rec_time rec < rec_time r) recs)))
    (t_history (p_tables p)).
Proof.
  intros Hok Hget.
  pose proof (wp_run _ _ _ _ _ Hget (wp_get_user_history u p Hok)) as (_ & _ & HF).
  split; [by eapply history_sorted|]. split.
  { rewrite <- (Forall2_length HF), select_history_length. unfold HISTORY_LIMIT. lia. }
  apply Forall_forall. intros row Hrow Hu. rewrite <- list_elem_of_In in Hrow.
  assert (row ∈ sorted_rows u (p_tables p)) as Hs by (by apply elem_of_sorted_rows).
  destruct (sorted_row_ok _ _ _ Hok Hs) as [_ Hrok].
  destruct (decodes_row_ok _ Hrok) as [rec Drec]. exists rec. split; [done|].
  destruct (history_omitted_older _ _ _ _ _ Hok HF Hrow Hu Drec) as [Hin|[_ ?]]; [left|by right].
  destruct (Forall2_elem_l _ _ _ _ HF Hin) as (rec' & Hin' & Drec').
  by rewrite (decodes_fun _ _ _ Drec Drec').
Qed.

Lemma history_newest_first_witness :
  let recs := [HistoryRecord_new Toy.sig1 (MkTimestamp 5)] in
  StronglySorted (λ a b, rec_time b < rec_time a) recs ∧ (length recs ≤ 100)%nat ∧
  Forall (λ row, h_username row = ToyDb.alice → ∃ rec, decodes (HEX := Toy.hex) row rec ∧
    (rec ∈ recs ∨ (length recs = 100%nat ∧ Forall (λ r, rec_time rec < rec_time r) recs)))
    (t_history ToyDb.db).
Proof.
  apply (history_newest_first (HEX := Toy.hex) ToyDb.alice (ToyDb.no_faults ToyDb.db)
    (ToyDb.no_faults ToyDb.db)).
  - apply (bool_decide_unpack (tables_ok ToyDb.db)). vm_compute. exact I.
  - vm_compute. reflexivity.
Defined.

(** C40: a recorded signature comes back with its timestamp: after
    [add_user_record] succeeds, the history of the account contains the record
    when the account had fewer than a hundred, or when it is the newest. *)
Theorem record_then_history {HEX : HexLib} (u : string) (ts : Timestamp) (sg : RsaSignature)
    (p p1 p2 : pool) :
  tables_ok (p_tables p) → ts_ok ts = true →
  add_user_record u ts sg p = (Done (Ok tt), p1) →
  p_tables p2 = p_tables p1 → healthy p2 →
  (length (sorted_rows u (p_tables p)) < 100)%nat ∨
  (∀ row rec, row ∈ sorted_rows u (p_tables p) → decodes row rec → rec_time rec < ts_raw ts) →
  ∃ recs p3, get_user_history u p2 = (Done (Ok recs), p3) ∧ HistoryRecord_new sg ts ∈ recs.
Proof.
  intros Hok Hts Hadd Ht2 Hh Hroom.
  pose proof (wp_run _ _ _ _ _ Hadd (wp_add_user_record u ts sg p Hok)) as (Hu & Hok1 & _ & E1).
  assert (tables_ok (p_tables p2)) as Hok2 by congruence.
  pose proof (wp_get_user_history u p2 Hok2) as Hw. unfold wp in Hw.
  destruct (get_user_history u p2) as [[[recs|[]]|] p3];
    destruct Hw as [_ Hw]; try tauto; rewrite ?Ht2, ?E1 in Hw; simpl in Hw.
  2:{ rewrite Hw in Hu. by destruct Hu. }
  destruct Hw as [_ HF]. exists recs, p3. split; [done|].
  set (t1 := {| t_users := _; t_history := _ |}) in *. rewrite E1 in Hok1.
  set (row := record_row u ts sg) in *.
  assert (row ∈ t_history t1) as Hrow by (simpl; rewrite elem_of_app, list_elem_of_singleton; auto).
  pose proof (decodes_record_row u ts sg Hts) as Drow.
  destruct (history_omitted_older u t1 recs row _ Hok1 HF Hrow eq_refl Drow) as [Hin|(Hmany & Hlen & Hold)].
  { destruct (Forall2_elem_l _ _ _ _ HF Hin) as (rec' & Hin' & Drec').
    by rewrite (decodes_fun _ _ _ Drow Drec'). }
  exfalso. assert (sorted_rows u t1 ≡ₚ row :: sorted_rows u (p_tables p)) as Hperm.
  { rewrite !sorted_rows_perm. simpl. rewrite list.filter_app, filter_cons_True by done.
    by rewrite filter_nil, (Permutation_app_comm _ [row]). }
  destruct Hroom as [Hfew|Hnew].
  { apply Permutation_length in Hperm. simpl in Hperm. unfold HISTORY_LIMIT in Hmany. lia. }
  destruct recs as [|r recs]; [done|]. apply list.Forall_cons in Hold as [Hr _].
  destruct (Forall2_elem_r _ _ _ r HF) as (x & Hx & Dx); [apply list_elem_of_here|].
  apply select_in_sorted in Hx. rewrite Hperm, elem_of_cons in Hx.
  destruct Hx as [->|Hx].
  - rewrite (decodes_fun _ _ _ Drow Dx) in Hr. lia.
  - specialize (Hnew _ _ Hx Dx). unfold rec_time in *. simpl in Hr. lia.
Qed.

Lemma record_then_history_witness :
  ∃ recs p3, get_user_history (HEX := Toy.hex) ToyDb.alice (ToyDb.no_faults ToyDb.db)
               = (Done (Ok recs), p3) ∧ HistoryRecord_new Toy.sig1 (MkTimestamp 5) ∈ recs.
Proof.
  apply (record_then_history (HEX := Toy.hex) ToyDb.alice (MkTimestamp 5) Toy.sig1
    (ToyDb.no_faults (run_calls (ARGON := ToyDb.argon) (HEX := Toy.hex)
       (take 2 ToyDb.calls) empty_tables)) (ToyDb.no_faults ToyDb.db));
    [|vm_compute; reflexivity..|left; vm_compute; lia].
  apply (bool_decide_unpack (tables_ok _)). vm_compute. exact I.
Defined.

(** On tables that satisfy the invariant, asking for the balance returns it
    and asking for the history returns records: the integrity errors, and the
    panic of reading a cell of another type, cannot happen; only an unknown
    account or a database fault can. *)
Theorem reads_never_report_corruption {HEX : HexLib} (u : string) (p : pool) :
  tables_ok (p_tables p) →
  match (get_user_tokens u p).1 with
  | Done (Ok n) => ledger (p_tables p) !! u = Some n
  | Done (Err (Get_TokenIntegrityCheckViolated _ _)) | Panic _ => False
  | Done (Err Get_UserDoesNotExist) => t_users (p_tables p) !! u = None
  | Done (Err (Get_InternalDataBase _)) => ¬ healthy p
  end ∧
  match (get_user_history u p).1 with
  | Done (Ok _) => is_Some (t_users (p_tables p) !! u)
  | Done (Err Hist_UserDoesNotExist) => t_users (p_tables p) !! u = None
  | Done (Err (Hist_InternalDataBase _)) => ¬ healthy p
  | Done (Err (Hist_TimestampIntegrityViolated _))
  | Done (Err (Hist_HashIntegrityViolated _)) | Panic _ => False
  end.
Proof.
  intros Hok. pose proof (wp_get_user_tokens u p Hok) as Hg.
  pose proof (wp_get_user_history u p Hok) as Hh. unfold wp in *.
  destruct (get_user_tokens u p) as [o1 p1], (get_user_history u p) as [o2 p2].
  destruct Hg as [_ Hg], Hh as [_ Hh]. split; simpl; repeat case_match; tauto.
Qed.

Lemma reads_never_report_corruption_witness :
  (get_user_tokens ToyDb.alice (ToyDb.no_faults ToyDb.db)).1 = Done (Ok 10) ∧
  ledger ToyDb.db !! ToyDb.alice = Some 10.
Proof.
  split; [vm_compute; reflexivity|].
  refine (proj1 (reads_never_report_corruption (HEX := Toy.hex) ToyDb.alice
    (ToyDb.no_faults ToyDb.db) _)).
  apply (bool_decide_unpack (tables_ok ToyDb.db)). vm_compute. exact I.
Defined.
