(* ===== verification/Transactions.v ===== *)
(** * Transactions: the database methods of several connections, statement by statement

    [Database] runs a method of [server/src/database.rs] at once, and the connections of
    [Server] interleave between methods.  Here the methods are programs of statements that
    interleave with those of other connections of the pool, under the locks of SQLite's
    rollback journal: a transaction takes a shared lock with its first read, a reserved
    lock with its first write and needs to be alone to commit; where a lock is not to be
    had the statement reports that the database is locked.  Every interleaving is shown to
    be a sequence of whole methods, each with some faults. *)
From S2P Require Import Prelude Bytes Protocol Sql Database DatabaseSpec.

(** ** Programs of statements *)

Inductive dbprog (A : Type) :=
| DRet (o : outcome A)
| DBegin (k : result unit SqlxError → dbprog A)
| DFetch (X : Type) (q : tables → result X SqlxError) (k : result X SqlxError → dbprog A)
| DExecute (s : tables → result tables SqlxError) (k : result unit SqlxError → dbprog A)
| DCommit (k : result unit SqlxError → dbprog A)
| DStream (k : tables → dbprog A)                     (* a stream of rows is opened *)
| DRow (k : result unit SqlxError → dbprog A)         (* and asked for the next one *)
| DAutoFetch (X : Type) (q : tables → result X SqlxError) (k : result X SqlxError → dbprog A)
| DAutoExecute (s : tables → result tables SqlxError) (k : result unit SqlxError → dbprog A).
Arguments DRet {A} o.
Arguments DBegin {A} k.
Arguments DFetch {A X} q k.
Arguments DExecute {A} s k.
Arguments DCommit {A} k.
Arguments DStream {A} k.
Arguments DRow {A} k.
Arguments DAutoFetch {A X} q k.
Arguments DAutoExecute {A} s k.

(** [?] on the answer of a statement. *)
Definition answered {X A E} (f : SqlxError → E) (k : X → dbprog (result A E)) (r : result X SqlxError)
    : dbprog (result A E) :=
  match r with Ok x => k x | Err e => DRet (Done (Err (f e))) end.

Section Methods.
Context {ARGON : Argon2Lib} {HEX : HexLib}.

Definition st_verify_user_password (username plain_password : string)
    : dbprog (result unit AuthenticationError) :=
  DAutoFetch (λ t, Ok (select_password_hash username t)) (answered Auth_from_sqlx (λ row,
  match row with
  | None => DRet (Done (Err (Auth_UserNotFound username)))
  | Some stored_hash =>
      match PasswordHash_new stored_hash with
      | Err e => DRet (Done (Err (Auth_InternalDataBase (Hash e))))
      | Ok parsed_hash =>
          match verify_password plain_password parsed_hash with
          | Ok _ => DRet (Done (Ok tt))
          | Err _ => DRet (Done (Err Auth_InvalidPassword))
          end
      end
  end)).

Definition st_try_register_user (salt username plain_password : string) (ip : IpAddr)
    : dbprog (result unit RegistrationError) :=
  match hash_password plain_password salt with
  | Err e => DRet (Done (Err (Reg_InternalDataBase (Hash e))))
  | Ok password_hash =>
      DAutoExecute (insert_user {|
          u_username := username; u_password_hash := password_hash;
          u_available_tokens := SqlInteger 0; u_registered_from_ip := ip |})
        (answered (λ e, match e with
                        | SqlxDatabase k =>
                            if is_unique_violation k then Reg_UserAlreadyExists username
                            else Reg_InternalDataBase (Sql e)
                        | _ => Reg_InternalDataBase (Sql e)
                        end) (λ _, DRet (Done (Ok tt))))
  end.

Definition st_get_user_tokens (username : string) : dbprog (result Z GetTokensError) :=
  DAutoFetch (select_available_tokens username) (answered Get_from_sqlx (λ query_result,
  DRet (Done match query_result with
             | Some tokens =>
                 if tokens <? 0 then Err (Get_TokenIntegrityCheckViolated username tokens)
                 else Ok (as_u64 tokens)
             | None => Err Get_UserDoesNotExist
             end))).

Definition st_add_user_tokens (username : string) (amount_u64 : Z) : dbprog (result Z AddTokensError) :=
  match checked_i64 amount_u64 with
  | None => DRet (Done (Err Add_TokenOverflow))
  | Some amount =>
      DBegin (answered Add_from_sqlx (λ _,
      DFetch (select_available_tokens username) (answered Add_from_sqlx (λ current_tokens,
      match current_tokens with
      | None => DRet (Done (Err Add_UserDoesNotExist))
      | Some tokens =>
          match checked_i64 (tokens + amount) with
          | None => DRet (Done (Err Add_TokenOverflow))
          | Some resulting_tokens =>
              DExecute (update_add_tokens amount username) (answered Add_from_sqlx (λ _,
              DCommit (answered Add_from_sqlx (λ _, DRet (Done (Ok (as_u64 resulting_tokens)))))))
          end
      end))))
  end.

Definition st_subtract_user_tokens (username : string) (amount_u64 : Z)
    : dbprog (result Z SubtractTokensError) :=
  match checked_i64 amount_u64 with
  | None => DRet (Done (Err Sub_InsufficientTokens))
  | Some amount =>
      DBegin (answered Sub_from_sqlx (λ _,
      DFetch (select_available_tokens username) (answered Sub_from_sqlx (λ current_tokens,
      match current_tokens with
      | None => DRet (Done (Err Sub_UserDoesNotExist))
      | Some tokens =>
          match checked_i64 (tokens - amount) with
          | None => DRet (Done (Err Sub_InsufficientTokens))
          | Some resulting_tokens =>
              if resulting_tokens <? 0 then DRet (Done (Err Sub_InsufficientTokens))
              else
                DExecute (update_sub_tokens amount username) (answered Sub_from_sqlx (λ _,
                DCommit (answered Sub_from_sqlx (λ _, DRet (Done (Ok (as_u64 resulting_tokens)))))))
          end
      end))))
  end.

Definition st_add_user_record (username : string) (timestamp : Timestamp) (sign : RsaSignature)
    : dbprog (result unit AddRecordError) :=
  DBegin (answered Rec_from_sqlx (λ _,
  DFetch (λ t, Ok (select_user_exists username t)) (answered Rec_from_sqlx (λ user_exists,
  match user_exists with
  | None => DRet (Done (Err Rec_UserDoesNotExist))
  | Some _ =>
      DExecute (insert_history (record_row username timestamp sign)) (answered Rec_from_sqlx (λ _,
      DCommit (answered Rec_from_sqlx (λ _, DRet (Done (Ok tt))))))
  end)))).

Fixpoint st_read_history (rows : list history_row) (records : list HistoryRecord)
    : dbprog (result (list HistoryRecord) UserHistoryError) :=
  DRow (answered Hist_from_sqlx (λ _,
  match rows with
  | [] => DRet (Done (Ok records))
  | row :: rest =>
      match decode_history_row row with
      | Done (Ok record) => st_read_history rest (records ++ [record])
      | Done (Err e) => DRet (Done (Err e))
      | Panic msg => DRet (Panic msg)
      end
  end)).

Definition st_get_user_history (username : string)
    : dbprog (result (list HistoryRecord) UserHistoryError) :=
  DBegin (answered Hist_from_sqlx (λ _,
  DFetch (λ t, Ok (select_user_exists username t)) (answered Hist_from_sqlx (λ user_exists,
  match user_exists with
  | None => DRet (Done (Err Hist_UserDoesNotExist))
  | Some _ => DStream (λ tx, st_read_history (select_history username tx) [])
  end)))).
End Methods.

(** ** A program on its own *)

Definition next_fault (p : pool) : option SqlxError * pool :=
  match p_faults p with
  | [] => (None, p)
  | f :: fs => (f, {| p_tables := p_tables p; p_faults := fs |})
  end.

(** [copy] is what the transaction sees. *)
Fixpoint alone {A} (d : dbprog A) (copy : tables) (p : pool) : outcome A * pool :=
  match d with
  | DRet o => (o, p)
  | DStream k => alone (k copy) copy p
  | DBegin k =>
      let '(f, p) := next_fault p in
      match f with Some e => alone (k (Err e)) copy p | None => alone (k (Ok tt)) (p_tables p) p end
  | DFetch q k =>
      let '(f, p) := next_fault p in
      match f with Some e => alone (k (Err e)) copy p | None => alone (k (q copy)) copy p end
  | DExecute s k =>
      let '(f, p) := next_fault p in
      match f with
      | Some e => alone (k (Err e)) copy p
      | None => match s copy with
                | Ok copy' => alone (k (Ok tt)) copy' p
                | Err e => alone (k (Err e)) copy p
                end
      end
  | DCommit k =>
      let '(f, p) := next_fault p in
      match f with
      | Some e => alone (k (Err e)) copy p
      | None => alone (k (Ok tt)) copy (set_tables copy p)
      end
  | DRow k =>
      let '(f, p) := next_fault p in
      alone (k match f with Some e => Err e | None => Ok tt end) copy p
  | DAutoFetch q k =>
      let '(f, p) := next_fault p in
      match f with Some e => alone (k (Err e)) copy p | None => alone (k (q (p_tables p))) copy p end
  | DAutoExecute s k =>
      let '(f, p) := next_fault p in
      match f with
      | Some e => alone (k (Err e)) copy p
      | None => match s (p_tables p) with
                | Ok t => alone (k (Ok tt)) copy (set_tables t p)
                | Err e => alone (k (Err e)) copy p
                end
      end
  end.

(** Run alone, the programs are the methods. *)
Section Alone.
Context {ARGON : Argon2Lib} {HEX : HexLib}.

(** A round trip of either kind. *)
Lemma round_trip_next p :
  round_trip p = let '(f, p') := next_fault p in
                 (Done match f with Some e => Err e | None => Ok tt end, p').
Proof. unfold round_trip, next_fault. by destruct (p_faults p) as [|[]]. Qed.

(** The statements of a method, one round trip each. *)
Section Statements.
Context {E B : Type} (f : SqlxError → E).
Let failing (k : pool → outcome (result B E) * pool) (p : pool) : outcome (result B E) * pool :=
  let '(ft, p') := next_fault p in
  match ft with Some e => (Done (Err (f e)), p') | None => k p' end.

Ltac statement :=
  unfold io_map_err, mbind, io_bind; rewrite round_trip_next;
  destruct (next_fault _) as [[e|] p']; cbn; first
    [ reflexivity
    | match goal with |- context [map_err f ?r] => destruct r; reflexivity end ].

Lemma bind_begin (k : tables → io E B) p :
  (io_map_err f begin ≫= k) p = failing (λ p, k (p_tables p) p) p.
Proof. unfold begin, failing. statement. Qed.
Lemma bind_tx_fetch {X} (q : tables → result X SqlxError) tx (k : X → io E B) p :
  (io_map_err f (tx_fetch q tx) ≫= k) p
    = failing (λ p, match q tx with Ok x => k x p | Err e => (Done (Err (f e)), p) end) p.
Proof. unfold tx_fetch, failing. statement. Qed.
Lemma bind_tx_execute s tx (k : tables → io E B) p :
  (io_map_err f (tx_execute s tx) ≫= k) p
    = failing (λ p, match s tx with Ok t => k t p | Err e => (Done (Err (f e)), p) end) p.
Proof. unfold tx_execute, failing. statement. Qed.
Lemma bind_commit tx (k : unit → io E B) p :
  (io_map_err f (commit tx) ≫= k) p = failing (λ p, k tt (set_tables tx p)) p.
Proof. unfold commit, failing. statement. Qed.
Lemma bind_fetch {X} (q : tables → result X SqlxError) (k : X → io E B) p :
  (io_map_err f (fetch q) ≫= k) p
    = failing (λ p, match q (p_tables p) with Ok x => k x p | Err e => (Done (Err (f e)), p) end) p.
Proof. unfold fetch, failing. statement. Qed.
Lemma bind_row (k : unit → io E B) p :
  (io_map_err f round_trip ≫= k) p = failing (λ p, k tt p) p.
Proof. unfold failing. statement. Qed.
End Statements.

Lemma map_execute {E} (f : SqlxError → E) s p :
  io_map_err f (execute s) p =
    let '(ft, p') := next_fault p in
    match ft with
    | Some e => (Done (Err (f e)), p')
    | None => match s (p_tables p') with
              | Ok t => (Done (Ok tt), set_tables t p')
              | Err e => (Done (Err (f e)), p')
              end
    end.
Proof.
  unfold execute, io_map_err, mbind, io_bind. rewrite round_trip_next.
  destruct (next_fault p) as [[e|] p']; [done|]. cbn. unfold on_pool.
  by destruct (s (p_tables p')).
Qed.

(** The next statement of both sides. *)
Ltac trip :=
  first [rewrite bind_begin | rewrite bind_tx_fetch | rewrite bind_tx_execute | rewrite bind_commit
        | rewrite bind_fetch | rewrite bind_row | rewrite map_execute];
  cbn [alone];
  match goal with |- context [next_fault ?p] => destruct (next_fault p) as [[?|] ?] end;
  [done|]; cbn [answered].

Lemma alone_add_user_tokens u n c p :
  alone (st_add_user_tokens u n) c p = add_user_tokens u n p.
Proof.
  unfold st_add_user_tokens, add_user_tokens. destruct (checked_i64 n) as [amount|]; [|done].
  unfold mbind at 1, io_bind at 1, of_result at 1, ok_or at 1. trip. trip.
  destruct (select_available_tokens u _) as [[tokens|]|e]; [|done..]. cbn [answered].
  destruct (checked_i64 (tokens + amount)) as [r|]; [|done].
  unfold mbind at 1, io_bind at 1, of_result at 1, ok_or at 1. trip.
  destruct (update_add_tokens amount u _) as [t|e]; [|done]. trip. done.
Qed.

Lemma alone_subtract_user_tokens u n c p :
  alone (st_subtract_user_tokens u n) c p = subtract_user_tokens u n p.
Proof.
  unfold st_subtract_user_tokens, subtract_user_tokens. destruct (checked_i64 n) as [amount|]; [|done].
  unfold mbind at 1, io_bind at 1, of_result at 1, ok_or at 1. trip. trip.
  destruct (select_available_tokens u _) as [[tokens|]|e]; [|done..]. cbn [answered].
  destruct (checked_i64 (tokens - amount)) as [r|]; [|done].
  unfold mbind at 1, io_bind at 1, of_result at 1, ok_or at 1. destruct (r <? 0); [done|]. trip.
  destruct (update_sub_tokens amount u _) as [t|e]; [|done]. trip. done.
Qed.

Lemma alone_add_user_record u ts sg c p :
  alone (st_add_user_record u ts sg) c p = add_user_record u ts sg p.
Proof.
  unfold st_add_user_record, add_user_record. trip. trip.
  destruct (select_user_exists u _) as [x|]; [|done]. trip.
  destruct (insert_history _ _) as [t|e]; [|done]. trip. done.
Qed.

Lemma alone_verify_user_password u pw c p :
  alone (st_verify_user_password u pw) c p = verify_user_password u pw p.
Proof.
  unfold st_verify_user_password, verify_user_password. trip.
  destruct (select_password_hash u _) as [h|]; [|done].
  unfold mbind, io_bind, of_result. destruct (PasswordHash_new h) as [q|]; [|done]. cbn.
  by destruct (verify_password pw q).
Qed.

Lemma alone_try_register_user salt u pw ip c p :
  alone (st_try_register_user salt u pw ip) c p = try_register_user salt u pw ip p.
Proof.
  unfold st_try_register_user, try_register_user. unfold mbind, io_bind, of_result.
  destruct (hash_password pw salt) as [h|]; [|done]. cbn [map_err]. trip.
  by destruct (insert_user _ _).
Qed.

Lemma alone_get_user_tokens u c p : alone (st_get_user_tokens u) c p = get_user_tokens u p.
Proof.
  unfold st_get_user_tokens, get_user_tokens. trip.
  destruct (select_available_tokens u _) as [[tokens|]|e]; [|done..]. cbn [answered alone].
  by destruct (tokens <? 0).
Qed.

Lemma alone_read_history rows records c p :
  alone (st_read_history rows records) c p = read_history rows records p.
Proof.
  revert records c p. induction rows as [|row rows IH]; intros records c p; cbn [st_read_history read_history];
    trip; [done|]. unfold mbind, io_bind.
  destruct (decode_history_row row) as [[record|e]|msg]; [|done..]. apply IH.
Qed.

Lemma alone_get_user_history u c p : alone (st_get_user_history u) c p = get_user_history u p.
Proof.
  unfold st_get_user_history, get_user_history. trip. trip.
  destruct (select_user_exists u _) as [x|]; [|done]. cbn [alone]. apply alone_read_history.
Qed.
End Alone.

(** ** Calls *)

Inductive call_result :=
| VerifyResult (r : result unit AuthenticationError)
| RegisterResult (r : result unit RegistrationError)
| TokensResult (r : result Z GetTokensError)
| AddResult (r : result Z AddTokensError)
| SubtractResult (r : result Z SubtractTokensError)
| RecordResult (r : result unit AddRecordError)
| HistoryResult (r : result (list HistoryRecord) UserHistoryError).

Definition outcome_map {A B} (g : A → B) (o : outcome A) : outcome B :=
  match o with Done a => Done (g a) | Panic msg => Panic msg end.

Fixpoint dmap {A B} (g : A → B) (d : dbprog A) : dbprog B :=
  match d with
  | DRet o => DRet (outcome_map g o)
  | DBegin k => DBegin (λ r, dmap g (k r))
  | DFetch q k => DFetch q (λ r, dmap g (k r))
  | DExecute s k => DExecute s (λ r, dmap g (k r))
  | DCommit k => DCommit (λ r, dmap g (k r))
  | DStream k => DStream (λ t, dmap g (k t))
  | DRow k => DRow (λ r, dmap g (k r))
  | DAutoFetch q k => DAutoFetch q (λ r, dmap g (k r))
  | DAutoExecute s k => DAutoExecute s (λ r, dmap g (k r))
  end.

Lemma alone_dmap {A B} (g : A → B) (d : dbprog A) c p :
  alone (dmap g d) c p = (outcome_map g (alone d c p).1, (alone d c p).2).
Proof.
  revert c p. induction d as [o|k IH|X q k IH|s k IH|k IH|k IH|k IH|X q k IH|s k IH]; intros c p;
    cbn [dmap alone]; try done; try (destruct (next_fault p) as [[e|] p']); try apply IH;
    case_match; apply IH.
Qed.

Section Calls.
Context {ARGON : Argon2Lib} {HEX : HexLib}.

(** A method on the whole pool, as [Database] has it. *)
Definition run_call (c : db_call) (p : pool) : outcome call_result * pool :=
  let tagged {A} (g : A → call_result) (r : outcome A * pool) := (outcome_map g r.1, r.2) in
  match c with
  | CallVerify u pw => tagged VerifyResult (verify_user_password u pw p)
  | CallRegister salt u pw ip => tagged RegisterResult (try_register_user salt u pw ip p)
  | CallGetTokens u => tagged TokensResult (get_user_tokens u p)
  | CallAddTokens u n => tagged AddResult (add_user_tokens u n p)
  | CallSubtractTokens u n => tagged SubtractResult (subtract_user_tokens u n p)
  | CallAddRecord u ts sg => tagged RecordResult (add_user_record u ts sg p)
  | CallHistory u => tagged HistoryResult (get_user_history u p)
  end.

(** The same method as statements. *)
Definition statements (c : db_call) : dbprog call_result :=
  match c with
  | CallVerify u pw => dmap VerifyResult (st_verify_user_password u pw)
  | CallRegister salt u pw ip => dmap RegisterResult (st_try_register_user salt u pw ip)
  | CallGetTokens u => dmap TokensResult (st_get_user_tokens u)
  | CallAddTokens u n => dmap AddResult (st_add_user_tokens u n)
  | CallSubtractTokens u n => dmap SubtractResult (st_subtract_user_tokens u n)
  | CallAddRecord u ts sg => dmap RecordResult (st_add_user_record u ts sg)
  | CallHistory u => dmap HistoryResult (st_get_user_history u)
  end.

Lemma alone_statements call c p : alone (statements call) c p = run_call call p.
Proof.
  destruct call; cbn [statements run_call]; rewrite alone_dmap;
    rewrite ?alone_verify_user_password, ?alone_try_register_user, ?alone_get_user_tokens,
      ?alone_add_user_tokens, ?alone_subtract_user_tokens, ?alone_add_user_record,
      ?alone_get_user_history; done.
Qed.
End Calls.

(** ** Connections of the pool *)

Inductive lock := Unlocked | Shared | Reserved.

Record db_client := {
  cl_call : db_call;
  cl_prog : dbprog call_result;
  cl_copy : tables;                 (* what its transaction sees, once it holds a lock *)
  cl_lock : lock
}.

Record db_world := { dw_db : tables; dw_clients : list db_client }.

Definition free (c : db_client) : bool := match cl_lock c with Unlocked => true | _ => false end.
Definition writing (c : db_client) : bool := match cl_lock c with Reserved => true | _ => false end.
Definition finished (c : db_client) : option (outcome call_result) :=
  match cl_prog c with DRet o => Some o | _ => None end.

(** "database is locked" *)
Definition busy : SqlxError := SqlxDatabase OtherDbError.

(** What a transaction sees: the database until it holds a lock. *)
Definition view (db : tables) (l : lock) (copy : tables) : tables :=
  match l with Unlocked => db | _ => copy end.

(** One statement: the database, the copy, the lock and the program after it.  [fault] is
    an error from outside, [writer] and [crowd] that another connection holds a reserved
    lock, or any. *)
Definition statement (fault : option SqlxError) (writer crowd : bool) (db copy : tables) (l : lock)
    (d : dbprog call_result) : tables * tables * lock * dbprog call_result :=
  let seen := view db l copy in
  match d with
  | DRet o => (db, copy, l, d)
  | DBegin k =>
      (db, copy, l, k match fault with Some e => Err e | None => Ok tt end)
  | DFetch q k =>
      match fault with
      | Some e => (db, copy, l, k (Err e))
      | None => (db, seen, match l with Unlocked => Shared | l => l end, k (q seen))
      end
  | DExecute s k =>
      match (if writer then Some (default busy fault) else fault) with
      | Some e => (db, copy, l, k (Err e))
      | None => match s seen with
                | Ok t => (db, t, Reserved, k (Ok tt))
                | Err e => (db, seen, Reserved, k (Err e))
                end
      end
  | DCommit k =>
      match (if crowd then Some (default busy fault) else fault) with
      | Some e => (db, copy, l, k (Err e))
      | None => (seen, seen, Unlocked, k (Ok tt))
      end
  | DStream k => (db, seen, match l with Unlocked => Shared | l => l end, k seen)
  | DRow k => (db, copy, l, k match fault with Some e => Err e | None => Ok tt end)
  | DAutoFetch q k =>
      (db, copy, l, k match fault with Some e => Err e | None => q db end)
  | DAutoExecute s k =>
      match (if crowd then Some (default busy fault) else fault) with
      | Some e => (db, copy, l, k (Err e))
      | None => match s db with
                | Ok t => (t, copy, l, k (Ok tt))
                | Err e => (db, copy, l, k (Err e))
                end
      end
  end.

(** The connection [i] takes its next statement; a method that returns drops its
    transaction, and with it its locks. *)
Definition db_step (i : nat) (fault : option SqlxError) (w : db_world) : option db_world :=
  c ← dw_clients w !! i;
  match finished c with
  | Some _ => None
  | None =>
      let others := delete i (dw_clients w) in
      let '(db, copy, l, d) :=
        statement fault (existsb writing others) (negb (forallb free others))
          (dw_db w) (cl_copy c) (cl_lock c) (cl_prog c) in
      let l := match d with DRet _ => Unlocked | _ => l end in
      Some {| dw_db := db;
              dw_clients := <[i := {| cl_call := cl_call c; cl_prog := d; cl_copy := copy;
                                      cl_lock := l |}]> (dw_clients w) |}
  end.

Fixpoint db_steps (steps : list (nat * option SqlxError)) (w : db_world) : option db_world :=
  match steps with
  | [] => Some w
  | (i, fault) :: rest => w' ← db_step i fault w; db_steps rest w'
  end.

Section Pool.
Context {ARGON : Argon2Lib} {HEX : HexLib}.

(** Several calls at once. *)
Definition db_start (calls : list db_call) (t : tables) : db_world := {|
  dw_db := t;
  dw_clients := (λ c, {| cl_call := c; cl_prog := statements c; cl_copy := t; cl_lock := Unlocked |}) <$> calls
|}.

(** A serial execution: whole calls, one after the other, each with its faults; the list
    has the connection and the outcome of each. *)
Inductive serial (calls : list db_call) (t : tables) : list (nat * outcome call_result) → tables → Prop :=
| serial_nil : serial calls t [] t
| serial_snoc order t1 i c fs o p :
    serial calls t order t1 → calls !! i = Some c →
    run_call c {| p_tables := t1; p_faults := fs |} = (o, p) →
    serial calls t (order ++ [(i, o)]) (p_tables p).
End Pool.

(** ** Every interleaving is serial *)

Definition is_ret {A} (d : dbprog A) : bool := match d with DRet _ => true | _ => false end.

(** Inside a transaction, and before one: nothing follows a commit, or a statement outside
    a transaction. *)
Fixpoint inner {A} (d : dbprog A) : Prop :=
  match d with
  | DRet _ => True
  | DFetch _ k => ∀ r, inner (k r)
  | DExecute _ k | DRow k => ∀ r, inner (k r)
  | DStream k => ∀ t, inner (k t)
  | DCommit k => ∀ r, is_ret (k r) = true
  | _ => False
  end.
Definition outer {A} (d : dbprog A) : Prop :=
  match d with
  | DRet _ => True
  | DBegin k => ∀ r, inner (k r)
  | DAutoFetch _ k => ∀ r, is_ret (k r) = true
  | DAutoExecute _ k => ∀ r, is_ret (k r) = true
  | _ => False
  end.
Definition shaped {A} (l : lock) (d : dbprog A) : Prop := inner d ∨ (l = Unlocked ∧ outer d).

Lemma is_ret_dmap {A B} (g : A → B) d : is_ret (dmap g d) = is_ret d.
Proof. by destruct d. Qed.
Lemma inner_dmap {A B} (g : A → B) d : inner d → inner (dmap g d).
Proof.
  induction d; cbn; try done; try (intros Hd r; by rewrite is_ret_dmap); naive_solver.
Qed.
Lemma outer_dmap {A B} (g : A → B) d : outer d → outer (dmap g d).
Proof.
  destruct d; cbn; try done; try (intros Hd r; by rewrite is_ret_dmap).
  intros Hd r. by apply inner_dmap.
Qed.

Section Shapes.
Context {ARGON : Argon2Lib} {HEX : HexLib}.

Ltac shape :=
  repeat first [done | progress cbn | intros [?|?] | intros ? | case_match].

Lemma inner_read_history rows records : inner (st_read_history rows records).
Proof.
  revert records. induction rows as [|row rows IH]; intros records; cbn; intros [u|e]; cbn; try done.
  destruct (decode_history_row row) as [[]|]; cbn; [apply IH|done..].
Qed.

Lemma outer_statements c : outer (statements c).
Proof.
  destruct c; apply outer_dmap;
    unfold st_verify_user_password, st_try_register_user, st_get_user_tokens, st_add_user_tokens,
      st_subtract_user_tokens, st_add_user_record, st_get_user_history; try solve [shape].
  intros [u|e]; cbn; [|done]. intros [x|e]; cbn; [|done]. destruct x; cbn; [|done].
  intros t. apply inner_read_history.
Qed.
End Shapes.

(** What one statement does, told by the program run alone: it consumes the faults [f]; it
    either ends the method, or leaves the database and keeps the shape; and while no lock
    is held, nothing depended on the database. *)
Record statement_spec (crowd : bool) (db copy db1 copy1 : tables) (l l1 : lock)
    (d d1 : dbprog call_result) (f : list (option SqlxError)) : Prop := {
  sp_same rest : alone d (view db l copy) {| p_tables := db; p_faults := f ++ rest |}
                 = alone d1 (view db1 l1 copy1) {| p_tables := db1; p_faults := rest |};
  sp_alone : crowd = true → db1 = db;
  sp_next : is_ret d1 = false →
    db1 = db ∧ shaped l1 d1 ∧
    (l1 = Unlocked → l = Unlocked ∧
       ∀ db' rest, alone d db' {| p_tables := db'; p_faults := f ++ rest |}
                   = alone d1 db' {| p_tables := db'; p_faults := rest |})
}.

Lemma statement_alone fault writer crowd db copy l d :
  shaped l d → is_ret d = false →
  let '(db1, copy1, l1, d1) := statement fault writer crowd db copy l d in
  ∃ f, statement_spec crowd db copy db1 copy1 l l1 d d1 f.
Proof.
  intros Hs Hr. destruct d as [o|k|X q k|s k|k|k|k|X q k|s k]; try done; cbn [statement].
  - (* begin *)
    destruct Hs as [[]|[-> Hs]]. exists [fault]. split; [|done|].
    + intros rest. by destruct fault.
    + intros _. split_and!; [done|left; apply Hs|]. intros _. split; [done|]. intros db' rest.
      by destruct fault.
  - (* fetch *)
    destruct Hs as [Hs|[_ []]]. destruct fault as [e|]; [exists [Some e]|exists [None]]; (split; [|done|]).
    + done.
    + intros _. split_and!; [done|left; apply Hs|]. by intros ->.
    + intros rest. by destruct l.
    + intros _. split_and!; [done|left; apply Hs|]. by destruct l.
  - (* execute *)
    destruct Hs as [Hs|[_ []]].
    generalize (if writer then Some (default busy fault) else fault). intros ft.
    destruct ft as [e|]; [|destruct (s (view db l copy)) as [t|e] eqn:E];
      [exists [Some e]|exists [None]..]; (split; [|done|]).
    + done.
    + intros _. split_and!; [done|left; apply Hs|]. by intros ->.
    + intros rest. cbn. by rewrite E.
    + intros _. by split_and!; [done|left; apply Hs|].
    + intros rest. cbn. by rewrite E.
    + intros _. by split_and!; [done|left; apply Hs|].
  - (* commit *)
    destruct Hs as [Hs|[_ []]].
    assert (crowd = true → is_Some (if crowd then Some (default busy fault) else fault)) as Hc
      by (intros ->; by eexists).
    generalize dependent (if crowd then Some (default busy fault) else fault). intros ft Hc.
    destruct ft as [e|]; [exists [Some e]|exists [None]]; (split; [| |by rewrite Hs]).
    + done.
    + done.
    + done.
    + intros Hcr. by destruct (Hc Hcr) as [? [=]].
  - (* a stream *)
    destruct Hs as [Hs|[_ []]]. exists []. split; [|done|].
    + intros rest. by destruct l.
    + intros _. split_and!; [done|left; apply Hs|]. by destruct l.
  - (* a row *)
    destruct Hs as [Hs|[_ []]]. exists [fault]. split; [|done|].
    + intros rest. by destruct fault.
    + intros _. split_and!; [done|left; apply Hs|]. intros ->. split; [done|]. intros db' rest.
      by destruct fault.
  - (* a query of its own *)
    destruct Hs as [[]|[-> Hs]]. exists [fault]. split; [|done|by rewrite Hs].
    intros rest. by destruct fault.
  - (* a statement of its own *)
    destruct Hs as [[]|[-> Hs]].
    assert (crowd = true → is_Some (if crowd then Some (default busy fault) else fault)) as Hc
      by (intros ->; by eexists).
    generalize dependent (if crowd then Some (default busy fault) else fault). intros ft Hc.
    destruct ft as [e|]; [|destruct (s db) as [t|e] eqn:E];
      [exists [Some e]|exists [None]..]; (split; [| |by rewrite Hs]); try done.
    + intros rest. cbn. rewrite E. specialize (Hs (Ok tt)). by destruct (k (Ok tt)).
    + intros Hcr. by destruct (Hc Hcr) as [? [=]].
    + intros rest. cbn. by rewrite E.
Qed.

Section Serial.
Context {ARGON : Argon2Lib} {HEX : HexLib}.
Implicit Types (w : db_world) (c : db_client).

(** Where a method that runs has got to: what it would do alone on the database as it is,
    after the faults it has met; on any database, while it holds no lock. *)
Definition tracks (db : tables) c : Prop :=
  shaped (cl_lock c) (cl_prog c) ∧
  ∃ fs, ∀ db' rest, cl_lock c = Unlocked ∨ db' = db →
    run_call (cl_call c) {| p_tables := db'; p_faults := fs ++ rest |}
      = alone (cl_prog c) (view db' (cl_lock c) (cl_copy c)) {| p_tables := db'; p_faults := rest |}.

Lemma tracks_free db db' c : free c = true → tracks db c → tracks db' c.
Proof.
  unfold free. destruct (cl_lock c) eqn:E; try done. intros _ [Hs [fs H]]. split; [done|].
  exists fs. intros. apply H. by left.
Qed.

Lemma tracks_start call t : tracks t {| cl_call := call; cl_prog := statements call; cl_copy := t; cl_lock := Unlocked |}.
Proof.
  split; [right; split; [done|apply outer_statements]|]. exists []. intros db' rest _.
  symmetry. apply alone_statements.
Qed.

(** The next statement of a method: it ends as the call would, or goes on. *)
Lemma tracks_step fault writer crowd db c :
  tracks db c → is_ret (cl_prog c) = false →
  let '(db1, copy1, l1, d1) := statement fault writer crowd db (cl_copy c) (cl_lock c) (cl_prog c) in
  (crowd = true → db1 = db) ∧
  match d1 with
  | DRet o => ∃ fs, run_call (cl_call c) {| p_tables := db; p_faults := fs |}
                    = (o, {| p_tables := db1; p_faults := [] |})
  | _ => db1 = db ∧
         tracks db {| cl_call := cl_call c; cl_prog := d1; cl_copy := copy1; cl_lock := l1 |}
  end.
Proof.
  intros [Hs [fs H]] Hr. pose proof (statement_alone fault writer crowd db (cl_copy c) _ _ Hs Hr) as Hst.
  destruct (statement _ _ _ _ _ _ _) as [[[db1 copy1] l1] d1]. destruct Hst as (f & [Hsame Hal Hnext]).
  split; [done|]. destruct (is_ret d1) eqn:E.
  - destruct d1 as [o| | | | | | | |]; try done. exists (fs ++ f).
    specialize (H db f (or_intror eq_refl)). specialize (Hsame []). rewrite app_nil_r in Hsame.
    by rewrite H, Hsame.
  - destruct (Hnext eq_refl) as (-> & Hs1 & Hu).
    assert (tracks db {| cl_call := cl_call c; cl_prog := d1; cl_copy := copy1; cl_lock := l1 |}) as Ht.
    { split; [done|]. exists (fs ++ f). cbn. intros db' rest Hdb. rewrite <- app_assoc.
      destruct l1 eqn:El; [|destruct Hdb as [Hdb| ->]; [done|rewrite H by (by right); apply Hsame]..].
      destruct (Hu eq_refl) as [Hl Hfree]. rewrite H by (by left). rewrite Hl. apply Hfree. }
    by destruct d1.
Qed.

(** The other connections. *)
Lemma other_elem {A} (l : list A) i j x : l !! j = Some x → j ≠ i → x ∈ delete i l.
Proof.
  intros Hj Hne. apply list_elem_of_lookup. destruct (decide (j < i)%nat).
  - exists j. by rewrite list_lookup_delete_lt.
  - exists (pred j). rewrite list_lookup_delete_ge by lia. by replace (S (pred j)) with j by lia.
Qed.

Definition serial_inv (calls : list db_call) (t : tables) (order : list (nat * outcome call_result)) w : Prop :=
  serial calls t order (dw_db w) ∧ NoDup order.*1 ∧
  ∀ i c, dw_clients w !! i = Some c → calls !! i = Some (cl_call c) ∧
    match finished c with
    | None => tracks (dw_db w) c ∧ i ∉ order.*1
    | Some o => (i, o) ∈ order ∨ statements (cl_call c) = DRet o
    end.

Lemma serial_inv_start calls t : serial_inv calls t [] (db_start calls t).
Proof.
  split_and!; [constructor|constructor|]. intros i c Hc. cbn in Hc. rewrite list_lookup_fmap in Hc.
  destruct (calls !! i) as [call|] eqn:E; [|done]. injection Hc as <-. split; [done|].
  unfold finished. cbn [cl_prog cl_call]. destruct (statements call) eqn:Es; try by right.
  all: split; [rewrite <- Es; apply tracks_start|apply not_elem_of_nil].
Qed.

(** The other connections go on as they were. *)
Lemma others_track calls t order w w' i c' :
  serial_inv calls t order w →
  dw_clients w' = <[i := c']> (dw_clients w) →
  (negb (forallb free (delete i (dw_clients w))) = true → dw_db w' = dw_db w) →
  ∀ j cj, j ≠ i → dw_clients w' !! j = Some cj → calls !! j = Some (cl_call cj) ∧
    match finished cj with
    | None => tracks (dw_db w') cj ∧ j ∉ order.*1
    | Some o => (j, o) ∈ order ∨ statements (cl_call cj) = DRet o
    end.
Proof.
  intros (_ & _ & Hcl) Hw Hdb j cj Hne Hj. rewrite Hw, list_lookup_insert_ne in Hj by done.
  destruct (Hcl j cj Hj) as [Hcall Hfin]. split; [done|]. destruct (finished cj); [done|].
  destruct Hfin as [Ht Hn]. split; [|done].
  destruct (forallb free (delete i (dw_clients w))) eqn:Ef.
  - apply (tracks_free (dw_db w)); [|done]. rewrite forallb_forall in Ef.
    apply Ef, list_elem_of_In. by eapply other_elem.
  - by rewrite Hdb.
Qed.

Lemma serial_inv_step calls t order w i fault w' :
  serial_inv calls t order w → db_step i fault w = Some w' → ∃ order', serial_inv calls t order' w'.
Proof.
  intros Hinv Hstep. unfold db_step in Hstep.
  destruct (dw_clients w !! i) as [c|] eqn:Ec; [|done]. cbn in Hstep.
  destruct Hinv as (Hser & Hnd & Hcl). destruct (Hcl i c Ec) as [Hcall Hfin].
  destruct (finished c) eqn:Ef; [done|]. destruct Hfin as [Htr Hni].
  assert (is_ret (cl_prog c) = false) as Hr by (unfold finished in Ef; by destruct (cl_prog c)).
  pose proof (tracks_step fault (existsb writing (delete i (dw_clients w)))
    (negb (forallb free (delete i (dw_clients w)))) (dw_db w) c Htr Hr) as Hst.
  destruct (statement _ _ _ _ _ _ _) as [[[db1 copy1] l1] d1]. destruct Hst as [Hcrowd Hst].
  injection Hstep as <-.
  match goal with |- ∃ _, serial_inv _ _ _ ?w' =>
    pose proof (others_track calls t order w w' i _ (conj Hser (conj Hnd Hcl)) eq_refl Hcrowd) as Hothers end.
  destruct (is_ret d1) eqn:Er.
  - destruct d1 as [o| | | | | | | |]; try done. destruct Hst as [fs Hrun].
    exists (order ++ [(i, o)]). split_and!.
    + exact (serial_snoc calls t order (dw_db w) i (cl_call c) fs o _ Hser Hcall Hrun).
    + rewrite fmap_app. apply list.NoDup_app. cbn. split_and!; [done| |apply NoDup_singleton].
      by intros x Hx ->%list_elem_of_singleton.
    + intros j cj Hj. destruct (decide (j = i)) as [->|Hne].
      * cbn in Hj. rewrite list_lookup_insert_eq in Hj by (by eapply lookup_lt_Some).
        injection Hj as <-. split; [done|]. cbn. left. apply elem_of_app. right. by left.
      * destruct (Hothers j cj Hne Hj) as [H1 H2]. split; [done|]. destruct (finished cj).
        -- destruct H2; [left; apply elem_of_app; by left|by right].
        -- destruct H2 as [H2 H3]. split; [done|]. rewrite fmap_app. cbn.
           intros [?|E%list_elem_of_singleton]%elem_of_app; done.
  - assert (db1 = dw_db w ∧ tracks (dw_db w)
      {| cl_call := cl_call c; cl_prog := d1; cl_copy := copy1; cl_lock := l1 |}) as [-> Ht] by (by destruct d1).
    exists order. split_and!; [done|done|]. intros j cj Hj.
    destruct (decide (j = i)) as [->|Hne]; [|by apply Hothers].
    cbn in Hj. rewrite list_lookup_insert_eq in Hj by (by eapply lookup_lt_Some).
    injection Hj as <-. split; [done|]. unfold finished. cbn [cl_prog]. by destruct d1.
Qed.

Lemma serial_inv_steps calls t steps order w w' :
  serial_inv calls t order w → db_steps steps w = Some w' → ∃ order', serial_inv calls t order' w'.
Proof.
  revert order w. induction steps as [|[i f] steps IH]; intros order w Hinv H; cbn in H.
  - injection H as <-. by exists order.
  - destruct (db_step i f w) as [w1|] eqn:E; [|done]. cbn in H.
    destruct (serial_inv_step _ _ _ _ _ _ _ Hinv E) as [order1 Hinv1]. by eapply IH.
Qed.
End Serial.

(** C8: the database methods are atomic.  Let any number of calls run at once on tables
    [t], their statements interleaved in any way under SQLite's locks and with any
    faults.  Then some order of the calls that have ended, one after the other with some
    faults, gives the same tables and to each call the same outcome: no update is lost
    and no half-made change is seen.  Nobody waits for ever: every call that has not
    ended can take its next statement.  (A call that ends before its first statement,
    such as the purchase of more tokens than an [i64] counts, is in no need of a place.) *)
Theorem transactions_serialize {ARGON : Argon2Lib} {HEX : HexLib} (calls : list db_call) (t : tables)
    (steps : list (nat * option SqlxError)) (w : db_world) :
  db_steps steps (db_start calls t) = Some w →
  (∃ order, serial calls t order (dw_db w) ∧ NoDup order.*1 ∧
     ∀ i c, dw_clients w !! i = Some c → calls !! i = Some (cl_call c) ∧
       match finished c with
       | Some o => (i, o) ∈ order ∨ ∀ p, run_call (cl_call c) p = (o, p)
       | None => i ∉ order.*1 ∧ ∀ fault, is_Some (db_step i fault w)
       end).
Proof.
  intros H. destruct (serial_inv_steps _ _ _ _ _ _ (serial_inv_start calls t) H)
    as (order & Hser & Hnd & Hcl).
  exists order. split_and!; [done|done|]. intros i c Hc. destruct (Hcl i c Hc) as [Hcall Hfin].
  split; [done|]. destruct (finished c) as [o|] eqn:Ef.
  - destruct Hfin as [?|Es]; [by left|right]. intros p.
    by rewrite <- (alone_statements _ t), Es.
  - split; [apply Hfin|]. intros fault. unfold db_step. rewrite Hc. cbn. rewrite Ef.
    destruct (statement _ _ _ _ _ _ _) as [[[? ?] ?] ?]. by eexists.
Qed.

(** Alice buys five tokens while one is taken from her: both have read her balance, the
    debit cannot write while the purchase does, and is done when it is tried again. *)
Definition toy_calls : list db_call :=
  [CallAddTokens ToyDb.alice 5; CallSubtractTokens ToyDb.alice 1; CallSubtractTokens ToyDb.alice 1].
Definition toy_steps : list (nat * option SqlxError) :=
  ((λ i, (i, None)) <$> [0; 1; 0; 1; 0; 1; 0; 2; 2; 2; 2]%nat).

Lemma transactions_serialize_witness :
  ∃ w, db_steps toy_steps (db_start (ARGON := ToyDb.argon) (HEX := Toy.hex) toy_calls ToyDb.db) = Some w ∧
    ledger (dw_db w) !! ToyDb.alice = Some 14 ∧
    finished <$> dw_clients w = [Some (Done (AddResult (Ok 15)));
      Some (Done (SubtractResult (Err (Sub_from_sqlx busy)))); Some (Done (SubtractResult (Ok 14)))] ∧
    ∃ order, serial (ARGON := ToyDb.argon) (HEX := Toy.hex) toy_calls ToyDb.db order (dw_db w).
Proof.
  assert ((λ w, (ledger (dw_db w) !! ToyDb.alice, finished <$> dw_clients w)) <$>
    db_steps toy_steps (db_start (ARGON := ToyDb.argon) (HEX := Toy.hex) toy_calls ToyDb.db) =
    Some (Some 14, [Some (Done (AddResult (Ok 15)));
      Some (Done (SubtractResult (Err (Sub_from_sqlx busy)))); Some (Done (SubtractResult (Ok 14)))])) as Hv
    by (vm_compute; reflexivity).
  destruct (db_steps toy_steps (db_start toy_calls ToyDb.db)) as [w|] eqn:E; [|discriminate Hv].
  injection Hv as H1 H2. exists w. split_and!; [reflexivity|exact H1|exact H2|].
  destruct (transactions_serialize (ARGON := ToyDb.argon) (HEX := Toy.hex) toy_calls ToyDb.db toy_steps w E)
    as (order & Hser & _). exists order. exact Hser.
Defined.
