(* ===== verification/DatabaseBuilder.v ===== *)
(** * DatabaseBuilder: opening, creating and validating the database

    Models [DataBaseLocation] and [ServerDataBaseBuilder] of
    [server/src/database.rs].  A database file is its schema (the tables of
    [sqlite_master] with their columns) and the rows of the two tables; the file
    system is a record of answers. *)
From S2P Require Import Prelude Bytes Protocol Sql Database DatabaseSpec.

Inductive DataBaseLocation :=
| Disk (path : string)
| Memory.

Inductive DataBaseBuildError :=
| Validation (query : string)
| ConstraintViolation (username : string)
| UnexpectedTable (name : string)
| Sqlite (e : SqlxError)
| Io (e : string).

(** [name, columns] of each table. *)
Definition schema : Type := list (string * list string).

Record sqlite_db := { db_schema : schema; db_tables : tables }.
Definition new_db : sqlite_db := {| db_schema := []; db_tables := empty_tables |}.

(** [Path::exists], [Path::parent] (with [to_string_lossy]), [fs::create_dir_all]. *)
Record fs_env := {
  fs_exists : string → bool;
  fs_parent : string → option string;
  fs_create_dir_all : string → result unit string
}.

(** The columns of the two [CREATE TABLE] statements. *)
Definition users_columns : list string :=
  ["username"; "password_hash"; "available_tokens"; "registered_from_ip"]%string.
Definition history_columns : list string := ["username"; "timestamp"; "hash"]%string.

Definition has_table (name : string) (s : schema) : bool :=
  existsb (λ t, bool_decide (t.1 = name)) s.

(** [CREATE TABLE IF NOT EXISTS] *)
Definition create_table (name : string) (columns : list string) (s : schema) : schema :=
  if has_table name s then s else s ++ [(name, columns)].

Definition initialized (s : schema) : schema :=
  create_table "history" history_columns (create_table "users" users_columns s).

(** [name LIKE 'sqlite_%']: the underscore is any character, ASCII letters match
    in either case. *)
Definition lower (c : Ascii.ascii) : Ascii.ascii :=
  let n := Ascii.nat_of_ascii c in
  if ((65 <=? n) && (n <=? 90))%nat then Ascii.ascii_of_nat (n + 32) else c.
Fixpoint lower_string (s : string) : string :=
  match s with EmptyString => EmptyString | String c s => String (lower c) (lower_string s) end.
Definition like_sqlite (name : string) : bool :=
  bool_decide (lower_string (String.substring 0 6 name) = "sqlite"%string)
  && (7 <=? String.length name)%nat.

Definition expected_tables : list string := ["users"; "history"]%string.

(** A [SELECT columns FROM table] can be prepared. *)
Definition query_ok (table : string) (columns : list string) (s : schema) : bool :=
  existsb (λ t, bool_decide (t.1 = table) && forallb (λ c, bool_decide (c ∈ t.2)) columns) s.

(** The two validation queries: text, table and columns. *)
Definition validation_queries : list (string * (string * list string)) :=
  [("SELECT username, password_hash, available_tokens FROM users LIMIT 1",
    ("users", ["username"; "password_hash"; "available_tokens"]));
   ("SELECT username, timestamp, hash FROM history LIMIT 1;",
    ("history", ["username"; "timestamp"; "hash"]))]%string.

(** [UserAudit]: [available_tokens] is an [i32], which sqlx decodes by a checked
    conversion of the stored integer. *)
Record UserAudit := { ua_username : string; ua_available_tokens : Z; ua_is_valid : bool }.

Definition decode_i32 (v : sql_value) : result Z SqlxError :=
  match v with
  | SqlInteger z => ok_or (checked_i32 z) SqlxColumnDecode
  | _ => Err SqlxColumnDecode
  end.

Definition decode_audit (r : user_row) : result UserAudit SqlxError :=
  let? available_tokens := decode_i32 (u_available_tokens r) in
  let? is_valid := ok_or (sql_ge_0 (u_available_tokens r)) SqlxColumnDecode in
  Ok {| ua_username := u_username r; ua_available_tokens := available_tokens;
        ua_is_valid := is_valid |}.

(** The first table that is not expected. *)
Fixpoint check_tables (names : list string) : result unit DataBaseBuildError :=
  match names with
  | [] => Ok tt
  | table :: rest =>
      if bool_decide (table ∈ expected_tables) then check_tables rest
      else Err (UnexpectedTable table)
  end.

Fixpoint run_queries (s : schema) (qs : list (string * (string * list string)))
    : io DataBaseBuildError unit :=
  match qs with
  | [] => mret tt
  | (query, (table, columns)) :: rest =>
      _ ← io_map_err (λ _, Validation query)
            (_ ← round_trip;
             of_result (if query_ok table columns s then Ok tt
                        else Err (SqlxDatabase OtherDbError)));
      run_queries s rest
  end.

(** [while let Some(row) = rows_stream.try_next().await?] *)
Fixpoint audit_rows (rows : list user_row) : io DataBaseBuildError unit :=
  _ ← io_map_err Sqlite round_trip;
  match rows with
  | [] => mret tt
  | r :: rest =>
      row ← of_result (map_err Sqlite (decode_audit r));
      if ua_is_valid row then audit_rows rest
      else raise (ConstraintViolation (ua_username row))
  end.

(** The rows of [users], in the order the table is scanned. *)
Definition scan_users (t : tables) : list user_row := (map_to_list (t_users t)).*2.

Definition validate (s : schema) : io DataBaseBuildError unit :=
  _ ← io_map_err Sqlite round_trip;
  _ ← of_result (check_tables (filter (λ n, like_sqlite n = false) s.*1));
  _ ← run_queries s validation_queries;
  rows ← io_map_err Sqlite (on_pool (λ p, (Ok (scan_users (p_tables p)), p)));
  audit_rows rows.

Record ServerDataBaseBuilder := {
  bl_schema : schema;
  bl_initialization_is_required : bool
}.

(** [file] is what the path or the memory holds once it is opened: a file that does
    not exist is created empty. *)
Definition unchecked_build (fs : fs_env) (location : DataBaseLocation) (file : schema)
    : io DataBaseBuildError ServerDataBaseBuilder :=
  init_required ← of_result
    match location with
    | Disk path =>
        if negb (fs_exists fs path) then
          let? _ :=
            match fs_parent fs path with
            | Some parent =>
                if negb (String.eqb parent EmptyString) && negb (fs_exists fs parent)
                then map_err Io (fs_create_dir_all fs parent) else Ok tt
            | None => Ok tt
            end in
          Ok true
        else Ok false
    | Memory => Ok true
    end;
  _ ← io_map_err Sqlite round_trip;
  mret {| bl_schema := file; bl_initialization_is_required := init_required |}.

Definition initialize_db (b : ServerDataBaseBuilder)
    : io DataBaseBuildError ServerDataBaseBuilder :=
  _ ← io_map_err Sqlite round_trip;
  mret {| bl_schema := initialized (bl_schema b); bl_initialization_is_required := false |}.

(** The schema of the database that is handed to the server; its rows are those
    of the pool. *)
Definition build (fs : fs_env) (location : DataBaseLocation) (file : schema)
    : io DataBaseBuildError schema :=
  build_ctx ← unchecked_build fs location file;
  if bl_initialization_is_required build_ctx then
    build_ctx ← initialize_db build_ctx;
    mret (bl_schema build_ctx)
  else
    _ ← validate (bl_schema build_ctx);
    mret (bl_schema build_ctx).

(** ** Properties *)

(** What the audit accepts of a row: an integer between zero and [i32::MAX]. *)
Definition auditable (r : user_row) : bool :=
  match u_available_tokens r with SqlInteger z => (0 <=? z) && (z <=? i32_max) | _ => false end.

Lemma decode_audit_spec r :
  auditable r = true ↔ ∃ a, decode_audit r = Ok a ∧ ua_is_valid a = true.
Proof.
  unfold auditable, decode_audit, decode_i32.
  destruct (u_available_tokens r) as [|z| | |]; cbn; try (split; [done|by intros (? & ? & _)]).
  destruct (checked_i32 z) as [z'|] eqn:Ec; cbn.
  - apply checked_Some in Ec as [-> Hz]. rewrite andb_true_iff, !Z.leb_le. split.
    + intros [H0 H1]. eexists. split; [done|]. cbn. by apply Z.leb_le.
    + intros (a & [= <-] & Hv%Z.leb_le). lia.
  - apply checked_None in Ec. rewrite andb_true_iff, !Z.leb_le.
    split; [intros; bounds|by intros (? & ? & _)].
Qed.

Lemma audit_rows_cons r rows t :
  let p := {| p_tables := t; p_faults := [] |} in
  audit_rows (r :: rows) p =
    match decode_audit r with
    | Ok a => if ua_is_valid a then audit_rows rows p
              else (Done (Err (ConstraintViolation (ua_username a))), p)
    | Err e => (Done (Err (Sqlite e)), p)
    end.
Proof.
  intros p. cbn [audit_rows]. unfold mbind, io_bind, io_map_err, of_result. cbn [round_trip p_faults p].
  cbn. destruct (decode_audit r) as [a|e]; cbn; [|done]. by destruct (ua_is_valid a).
Qed.

(** The audit passes or refuses, and does not touch the tables. *)
Lemma audit_rows_spec rows t :
  let p := {| p_tables := t; p_faults := [] |} in
  if forallb auditable rows then audit_rows rows p = (Done (Ok tt), p)
  else ∃ e, audit_rows rows p = (Done (Err e), p).
Proof.
  cbn zeta. induction rows as [|r rows IH]; [done|]. rewrite audit_rows_cons. cbn [forallb].
  destruct (auditable r) eqn:Ea.
  - apply decode_audit_spec in Ea as (a & -> & ->). exact IH.
  - cbn [andb]. destruct (decode_audit r) as [a|e] eqn:Ed; [|by eexists].
    destruct (ua_is_valid a) eqn:Ev; [|by eexists].
    assert (auditable r = true) by (apply decode_audit_spec; by eexists). congruence.
Qed.

(** The schema [initialize_db] makes of an empty one. *)
Definition server_schema : schema := [("users"%string, users_columns); ("history"%string, history_columns)].

Lemma validate_server_schema t :
  validate server_schema {| p_tables := t; p_faults := [] |} =
    audit_rows (scan_users t) {| p_tables := t; p_faults := [] |}.
Proof. reflexivity. Qed.

Lemma auditable_tables t :
  tables_ok t → forallb auditable (scan_users t) = bool_decide (map_Forall (λ _ b, b ≤ i32_max) (ledger t)).
Proof.
  intros (Hu & _). apply eq_true_iff_eq. rewrite forallb_forall, bool_decide_eq_true.
  unfold scan_users. setoid_rewrite <- list_elem_of_In. setoid_rewrite list_elem_of_fmap.
  split.
  - intros H u b Hl. rewrite ledger_lookup in Hl. destruct (t_users t !! u) as [r|] eqn:E; [|done].
    specialize (H r). assert (auditable r = true) as Ha.
    { apply H. exists (u, r). split; [done|]. by apply elem_of_map_to_list. }
    unfold auditable in Ha. cbn in Hl. unfold row_balance in Hl.
    destruct (u_available_tokens r); simplify_eq. apply andb_true_iff in Ha as [_ ?%Z.leb_le]. done.
  - intros H r ([u r'] & -> & Hin). cbn. apply elem_of_map_to_list in Hin.
    specialize (Hu u r' Hin) as [_ Hz]. specialize (H u). rewrite ledger_lookup, Hin in H. cbn in H.
    unfold auditable, row_balance in *. destruct (u_available_tokens r'); try done.
    rewrite andb_true_iff, !Z.leb_le. split; [lia|by apply H].
Qed.

(** C28: reopening a database the server itself has written: it succeeds, with the
    rows untouched, exactly when no balance exceeds [i32::MAX], although every
    balance up to [i64::MAX] satisfies the invariant of the tables. *)
Theorem reopen_iff_small_balances (fs : fs_env) (path : string) (t : tables) :
  fs_exists fs path = true → tables_ok t →
  let p := {| p_tables := t; p_faults := [] |} in
  if bool_decide (map_Forall (λ _ b, b ≤ i32_max) (ledger t))
  then build fs (Disk path) server_schema p = (Done (Ok server_schema), p)
  else ∃ e, build fs (Disk path) server_schema p = (Done (Err e), p).
Proof.
  intros Hex Hok p. rewrite <- auditable_tables by done.
  pose proof (audit_rows_spec (scan_users t) t) as Ha. cbn zeta in Ha.
  assert (build fs (Disk path) server_schema p =
    match audit_rows (scan_users t) p with
    | (Done (Ok _), p') => (Done (Ok server_schema), p')
    | (Done (Err e), p') => (Done (Err e), p')
    | (Panic s, p') => (Panic s, p')
    end) as ->.
  { unfold build, unchecked_build, mbind, io_bind, of_result. rewrite Hex. reflexivity. }
  fold p in Ha. destruct (forallb auditable (scan_users t)).
  - by rewrite Ha.
  - destruct Ha as [e ->]. by exists e.
Qed.

(** Alice after she bought [i32::MAX + 1] tokens more. *)
Definition rich_db : tables :=
  run_calls (ARGON := ToyDb.argon) (HEX := Toy.hex)
    [([], CallAddTokens ToyDb.alice (i32_max + 1))] ToyDb.db.
Definition toy_fs : fs_env := {|
  fs_exists p := bool_decide (p = "db"%string); fs_parent _ := None;
  fs_create_dir_all _ := Ok tt |}.

Lemma reopen_iff_small_balances_witness :
  build toy_fs (Disk "db") server_schema (ToyDb.no_faults ToyDb.db)
    = (Done (Ok server_schema), ToyDb.no_faults ToyDb.db) ∧
  ∃ e, build toy_fs (Disk "db") server_schema (ToyDb.no_faults rich_db)
         = (Done (Err e), ToyDb.no_faults rich_db).
Proof.
  split.
  - refine (reopen_iff_small_balances toy_fs "db" ToyDb.db eq_refl _).
    apply (bool_decide_unpack (tables_ok ToyDb.db)). vm_compute. exact I.
  - refine (reopen_iff_small_balances toy_fs "db" rich_db eq_refl _).
    apply (bool_decide_unpack (tables_ok rich_db)). vm_compute. exact I.
Defined.

(** Building on a path that does not exist, or in memory, on a database that
    answers, yields the schema of the server over the rows that were there; on
    the empty file a new path gets, they are none.  A missing parent directory is
    created first, and its failure is reported before anything is opened. *)
Theorem build_fresh (fs : fs_env) (location : DataBaseLocation) (p : pool) :
  p = {| p_tables := empty_tables; p_faults := [] |} →
  match location with Disk path => fs_exists fs path = false | Memory => True end →
  build fs location (db_schema new_db) p =
    match location with
    | Memory => (Done (Ok server_schema), p)
    | Disk path =>
        match fs_parent fs path with
        | None => (Done (Ok server_schema), p)
        | Some parent =>
            if String.eqb parent EmptyString || fs_exists fs parent
            then (Done (Ok server_schema), p)
            else match fs_create_dir_all fs parent with
                 | Ok _ => (Done (Ok server_schema), p)
                 | Err e => (Done (Err (Io e)), p)
                 end
        end
    end.
Proof.
  intros -> Hloc. destruct location as [path|]; [|reflexivity].
  unfold build, unchecked_build, mbind, io_bind, of_result. rewrite Hloc. cbn [negb].
  destruct (fs_parent fs path) as [parent|]; [|reflexivity].
  rewrite <- negb_orb. destruct (String.eqb parent EmptyString || fs_exists fs parent); [reflexivity|].
  cbn [negb]. by destruct (fs_create_dir_all fs parent).
Qed.

Lemma build_fresh_witness :
  build toy_fs (Disk "other") (db_schema new_db) (ToyDb.no_faults empty_tables)
    = (Done (Ok server_schema), ToyDb.no_faults empty_tables).
Proof. apply (build_fresh toy_fs (Disk "other")); reflexivity. Defined.
