(* ===== verification/TimeOracle.v ===== *)
(** * TimeOracle: the server's clock and its NTP worker

    Models [server/src/time_oracle.rs] and [NetworkPort] of [server/src/server.rs].
    A [SystemTime] is a number of nanoseconds relative to the Unix epoch, within
    the seconds an [i64] can hold.  The offset is an [Arc<AtomicI64>] shared by the
    oracle and the worker, hence a location of a heap of cells.  The network and
    the [sntpc] crate are environment values handed to the definitions. *)
From stdpp Require Import pretty.
From S2P Require Import Prelude.

(** ** Time, as in [std::time] *)

Definition NANOS_PER_SEC : Z := 1000000000.

(** [SystemTime], in nanoseconds since the epoch. *)
Definition SystemTime : Type := Z.
(** [Duration], in nanoseconds. *)
Definition Duration : Type := Z.

Definition UNIX_EPOCH : SystemTime := 0.

Definition Duration_from_nanos (n : Z) : Duration := n.
Definition Duration_from_secs (n : Z) : Duration := n * NANOS_PER_SEC.

Definition representable (t : SystemTime) : bool := in_i64 (t / NANOS_PER_SEC).

Definition SystemTime_checked_add (t : SystemTime) (d : Duration) : option SystemTime :=
  if representable (t + d) then Some (t + d) else None.
Definition SystemTime_checked_sub (t : SystemTime) (d : Duration) : option SystemTime :=
  if representable (t - d) then Some (t - d) else None.

(** [t.duration_since(UNIX_EPOCH)], with the error dropped. *)
Definition duration_since_epoch (t : SystemTime) : option Duration :=
  if UNIX_EPOCH <=? t then Some (t - UNIX_EPOCH) else None.

(** ** [NetworkPort] *)

Inductive NetworkPort :=
| AnyFreePort
| Port (p : Z).

Definition NetworkPort_from (port : Z) : NetworkPort :=
  if port =? 0 then AnyFreePort else Port port.

Definition NetworkPort_get (p : NetworkPort) : Z :=
  match p with AnyFreePort => 0 | Port p => p end.

(** ** The oracle *)

Record SocketAddr := { sa_ip : string; sa_port : Z }.

(** Cells of type [Arc<AtomicI64>]. *)
Definition loc : Type := nat.
Definition cells : Type := gmap loc Z.

Definition new_cell (v : Z) (c : gmap loc Z) : loc * gmap loc Z :=
  let l := fresh (dom c) in (l, <[l := v]> c).
Definition load (l : loc) (c : gmap loc Z) : Z := default 0 (c !! l).

Record TimeOracle := { to_offset_nanos : loc }.

Record TimeSyncWorker := {
  tw_ntp_server_addr : SocketAddr;
  tw_sync_interval : Duration;
  tw_offset_nanos : loc
}.

Record TimeOracleBundle := { tb_oracle : TimeOracle; tb_worker : TimeSyncWorker }.

Definition into_parts (b : TimeOracleBundle) : TimeOracle * TimeSyncWorker :=
  (tb_oracle b, tb_worker b).

Inductive TimeOracleError :=
| SocketSetNonBlocking (e : string)
| ListenerError (addr : SocketAddr) (e : string)
| ListenerConversionError (e : string)
| NoDnsAddress (host e : string)
| NoAddressSpecified (host : string)
| HostnameNotFound (host : string)
| GenericNetworkError (e : string)
| TimeWentBackwards
| UnreliablePort.

Inductive TimeOracleType :=
| Local (o : TimeOracle)
| Synced (b : TimeOracleBundle).

Definition new_local (c : gmap loc Z) : TimeOracle * gmap loc Z :=
  let '(l, c') := new_cell 0 c in ({| to_offset_nanos := l |}, c').

(** [format!("{}:{}", host, port)] *)
Definition host_port (host : string) (port : Z) : string := (host +:+ ":" +:+ pretty port)%string.

(** What the operating system answers while a bundle is created. *)
Record net_env := {
  ne_to_socket_addrs : string → Z → result (list SocketAddr) string;
  ne_bind : SocketAddr → result unit string;
  ne_set_nonblocking : result unit string
}.

Definition create_bundle (env : net_env) (ntp_server_host : string) (ntp_server_port : NetworkPort)
    (listener_address : SocketAddr) (sync_interval : Duration) (c : gmap loc Z)
    : result (TimeOracleBundle * gmap loc Z) TimeOracleError :=
  match ntp_server_port with
  | AnyFreePort => Err UnreliablePort
  | Port port =>
      let? addrs := map_err (NoDnsAddress (host_port ntp_server_host port))
                      (ne_to_socket_addrs env ntp_server_host port) in
      let? ntp_server_addr :=
        ok_or (head addrs) (NoAddressSpecified (host_port ntp_server_host port)) in
      let? _ := map_err (ListenerError listener_address) (ne_bind env listener_address) in
      let? _ := map_err SocketSetNonBlocking (ne_set_nonblocking env) in
      let '(offset_nanos, c') := new_cell 0 c in
      let oracle := {| to_offset_nanos := offset_nanos |} in
      let worker := {| tw_ntp_server_addr := ntp_server_addr;
                       tw_sync_interval := sync_interval;
                       tw_offset_nanos := offset_nanos |} in
      Ok ({| tb_oracle := oracle; tb_worker := worker |}, c')
  end.

(** [time_now], with the reading of the local clock and of the offset. *)
Definition time_now (local_now : SystemTime) (offset : Z) : SystemTime :=
  if 0 <=? offset
  then default local_now (SystemTime_checked_add local_now (Duration_from_nanos (as_u64 offset)))
  else default local_now (SystemTime_checked_sub local_now (Duration_from_nanos (Z.abs offset))).

Definition TimeOracle_time_now (o : TimeOracle) (local_now : SystemTime) (c : gmap loc Z)
    : SystemTime := time_now local_now (load (to_offset_nanos o) c).

(** [i128::try_from(x: u128).unwrap_or(i128::MAX)] *)
Definition i128_try_from_or_max (n : Z) : Z := default i128_max (checked_i128 n).

Definition compute_offset (ntp_secs ntp_nanos : Z) (local_now : SystemTime)
    : result Z TimeOracleError :=
  let? total_ntp_nanos :=
    ok_or (ns ← checked_u64 (ntp_secs * NANOS_PER_SEC); checked_u64 (ns + ntp_nanos))
      (GenericNetworkError "NTP timestamp overflow"%string) in
  match duration_since_epoch local_now with
  | Some duration =>
      let total_local_nanos := duration in
      let ntp_128 := total_ntp_nanos in
      let local_128 := i128_try_from_or_max total_local_nanos in
      let offset_128 := default 0 (checked_i128 (ntp_128 - local_128)) in
      let capped := clamp i64_min i64_max offset_128 in
      Ok (as_i64 capped)
  | None => Err TimeWentBackwards
  end.

(** ** The worker *)

(** [sntpc::Error]; [SntpOther] carries its debug rendering. *)
Inductive SntpError := SntpNetwork | SntpAddressResolve | SntpOther (debug : string).

(** One tick of the interval: what the resolver, the NTP server and the local
    clock answer.  The NTP answer is its seconds and its fraction of a second. *)
Record sync_tick := {
  tick_lookup : result (list SocketAddr) string;
  tick_ntp : result (Z * Z) SntpError;
  tick_local : SystemTime
}.

Inductive sync_status :=
| Syncing
| SyncStopped (e : TimeOracleError)
| SyncPanicked (msg : string).

Section Worker.
(** [sntpc::fraction_to_nanoseconds] *)
Context (fraction_to_nanoseconds : Z → Z).
Context (addr_to_string : SocketAddr → string).

(** The body of the loop: the value it stores, if any, or the error it returns. *)
Definition sync_once (w : TimeSyncWorker) (t : sync_tick) : result (option Z) TimeOracleError :=
  let? addr :=
    match tick_lookup t with
    | Ok addrs => ok_or (head addrs) (HostnameNotFound (addr_to_string (tw_ntp_server_addr w)))
    | Err e => Err (GenericNetworkError e)
    end in
  match tick_ntp t with
  | Ok (sec, sec_fraction) =>
      let ntp_secs := as_u64 sec in
      let ntp_nanos := as_u64 (fraction_to_nanoseconds sec_fraction) in
      let? offset_i64 := compute_offset ntp_secs ntp_nanos (tick_local t) in
      Ok (Some offset_i64)
  | Err SntpNetwork => Ok None
  | Err SntpAddressResolve => Ok None
  | Err (SntpOther s) => Err (GenericNetworkError s)
  end.

(** What a tick does to the cell of the worker. *)
Definition sync_store (w : TimeSyncWorker) (checked : option Z) (c : gmap loc Z) : gmap loc Z :=
  match checked with
  | Some offset => <[tw_offset_nanos w := offset]> c
  | None => c
  end.

Fixpoint sync_loop (w : TimeSyncWorker) (ticks : list sync_tick) (c : gmap loc Z)
    : sync_status * gmap loc Z :=
  match ticks with
  | [] => (Syncing, c)
  | t :: rest =>
      match sync_once w t with
      | Ok checked => sync_loop w rest (sync_store w checked c)
      | Err e => (SyncStopped e, c)
      end
  end.

(** [start_syncing] over the ticks that have elapsed.  [from_std] is the
    conversion of the socket; [tokio::time::interval] panics on a zero period. *)
Definition start_syncing (from_std : result unit string) (w : TimeSyncWorker)
    (ticks : list sync_tick) (c : gmap loc Z) : sync_status * gmap loc Z :=
  match from_std with
  | Err e => (SyncStopped (ListenerConversionError e), c)
  | Ok _ =>
      if tw_sync_interval w =? 0 then (SyncPanicked "`period` must be non-zero."%string, c)
      else sync_loop w ticks c
  end.
End Worker.

(** ** Properties *)

Lemma load_insert l v c : load l (<[l := v]> c) = v.
Proof. unfold load. by rewrite lookup_insert_eq. Qed.

Lemma representable_spec t :
  representable t = true ↔ i64_min * NANOS_PER_SEC ≤ t < (i64_max + 1) * NANOS_PER_SEC.
Proof.
  unfold representable. rewrite in_range_spec. unfold NANOS_PER_SEC, i64_min, i64_max.
  pose proof (Z.div_mod t 1000000000). pose proof (Z.mod_pos_bound t 1000000000). lia.
Qed.

(** Adding the offset, whichever its sign. *)
Lemma time_now_add local offset :
  i64_min ≤ offset ≤ i64_max →
  time_now local offset = if representable (local + offset) then local + offset else local.
Proof.
  intros Ho. unfold time_now, SystemTime_checked_add, SystemTime_checked_sub, Duration_from_nanos.
  destruct (Z.leb_spec 0 offset).
  - rewrite as_u64_small by (unfold i64_max, u64_max in *; lia). by case_match.
  - replace (local - Z.abs offset) with (local + offset) by lia. by case_match.
Qed.

Lemma time_now_representable local offset :
  i64_min ≤ offset ≤ i64_max → representable local = true →
  representable (time_now local offset) = true.
Proof. intros ??. rewrite time_now_add by done. by case_match. Qed.

(** The checked conversions of [compute_offset] never fail on real clocks: what
    is left is the difference of the two clocks, clamped. *)
Lemma compute_offset_eq secs nanos local :
  0 ≤ secs → 0 ≤ nanos → representable local = true →
  compute_offset secs nanos local =
    let ntp := secs * NANOS_PER_SEC + nanos in
    if u64_max <? ntp then Err (GenericNetworkError "NTP timestamp overflow"%string)
    else if local <? 0 then Err TimeWentBackwards
    else Ok (clamp i64_min i64_max (ntp - local)).
Proof.
  intros Hs Hn Hl. apply representable_spec in Hl. cbn zeta. unfold compute_offset.
  unfold NANOS_PER_SEC in *. destruct (Z.ltb_spec u64_max (secs * 1000000000 + nanos)) as [Ho|Ho].
  - destruct (checked_u64 (secs * 1000000000)) as [n|] eqn:En; [|done]. cbn.
    apply checked_Some in En as [-> _].
    by rewrite (proj2 (checked_None 0 u64_max _)) by lia.
  - rewrite checked_fits by lia. cbn. rewrite checked_fits by lia. cbn.
    unfold duration_since_epoch, UNIX_EPOCH. destruct (Z.leb_spec 0 local), (Z.ltb_spec local 0); try lia; [|done].
    rewrite Z.sub_0_r. unfold i128_try_from_or_max.
    rewrite (checked_fits i128_min i128_max local) by (unfold i64_max, i128_min, i128_max in *; lia). cbn.
    rewrite checked_fits by (unfold i64_max, u64_max, i128_min, i128_max in *; lia). cbn.
    rewrite as_i64_small; [done|]. apply clamp_spec. done.
Qed.

Lemma compute_offset_i64 secs nanos local o :
  compute_offset secs nanos local = Ok o → i64_min ≤ o ≤ i64_max.
Proof.
  unfold compute_offset. intros (n & _ & H)%and_then_ok. case_match; [|done]. simplify_eq.
  rewrite as_i64_small; by apply clamp_spec.
Qed.

Lemma create_bundle_inv env host port addr iv c b c' :
  create_bundle env host port addr iv c = Ok (b, c') →
  ∃ l, c !! l = None ∧ c' = <[l := 0]> c ∧ to_offset_nanos (tb_oracle b) = l ∧
       tw_offset_nanos (tb_worker b) = l ∧ tw_sync_interval (tb_worker b) = iv ∧
       port ≠ AnyFreePort.
Proof.
  unfold create_bundle, new_cell. destruct port as [|p]; [done|].
  intros (addrs & _ & H)%and_then_ok. apply and_then_ok in H as (a & _ & H).
  apply and_then_ok in H as (u & _ & H). apply and_then_ok in H as (u' & _ & H).
  simplify_eq. eexists. split_and!; [|reflexivity..|done].
  apply not_elem_of_dom, is_fresh.
Qed.

(** What the [sntpc] crate promises of an answer: both fields are [u32]s, and a
    fraction of a second is less than one second of nanoseconds. *)
Class SntpLaws (fraction_to_nanoseconds : Z → Z) : Prop :=
  fraction_bounds : ∀ f, in_u32 f = true → 0 ≤ fraction_to_nanoseconds f < NANOS_PER_SEC.

Definition ntp_answer_ok (r : result (Z * Z) SntpError) : bool :=
  match r with
  | Ok (sec, frac) => in_u32 sec && in_u32 frac
  | Err _ => true
  end.

Definition transient (r : result (Z * Z) SntpError) : bool :=
  match r with Err (SntpOther _) => false | _ => true end.

(** The NTP server did not answer. *)
Definition unanswered (t : sync_tick) : bool :=
  match tick_ntp t with Ok _ => false | Err _ => true end.

(** The conditions under which the worker has no reason to give up. *)
Definition benign (t : sync_tick) : bool :=
  match tick_lookup t with Ok (_ :: _) => true | _ => false end
  && transient (tick_ntp t) && ntp_answer_ok (tick_ntp t)
  && representable (tick_local t) && (0 <=? tick_local t).

Section WorkerProofs.
Context (frac : Z → Z) {SL : SntpLaws frac} (show : SocketAddr → string).

(** The instant an NTP answer names. *)
Definition ntp_instant (sec sf : Z) : SystemTime := sec * NANOS_PER_SEC + frac sf.

Lemma sync_once_benign w t :
  benign t = true →
  sync_once frac show w t =
    Ok (match tick_ntp t with
        | Ok (sec, sf) => Some (clamp i64_min i64_max (ntp_instant sec sf - tick_local t))
        | Err _ => None
        end).
Proof using SL.
  unfold benign. rewrite !andb_true_iff. intros [[[[Hl Ht] Hn] Hr] H0].
  unfold sync_once. destruct (tick_lookup t) as [[|a l]|]; try done. cbn.
  destruct (tick_ntp t) as [[sec sf]|[| |]]; try done. cbn in Hn.
  apply andb_true_iff in Hn as [Hsec Hsf]. pose proof (fraction_bounds sf Hsf) as Hf.
  apply in_range_spec in Hsec. unfold NANOS_PER_SEC, u32_max in *.
  rewrite !as_u64_small by (unfold u64_max; lia).
  rewrite compute_offset_eq by (done || lia). cbn. unfold NANOS_PER_SEC.
  destruct (Z.ltb_spec u64_max (sec * 1000000000 + frac sf)); [unfold u64_max in *; lia|].
  apply Z.leb_le in H0. destruct (Z.ltb_spec (tick_local t) 0); [lia|]. done.
Qed.

Lemma sync_loop_app w ts1 ts2 c :
  sync_loop frac show w (ts1 ++ ts2) c =
    match sync_loop frac show w ts1 c with
    | (Syncing, c') => sync_loop frac show w ts2 c'
    | r => r
    end.
Proof.
  revert c. induction ts1 as [|t ts1 IH]; intros c; [done|]. cbn.
  destruct (sync_once frac show w t) as [o|e]; [apply IH|done].
Qed.

(** Ticks without an answer leave the cell alone. *)
Lemma sync_loop_unanswered w ts c st c' :
  forallb unanswered ts = true → sync_loop frac show w ts c = (st, c') → c' = c.
Proof.
  revert c. induction ts as [|t ts IH]; intros c Hu H; cbn in H, Hu; [naive_solver|].
  apply andb_true_iff in Hu as [Ht Hu]. destruct (sync_once frac show w t) as [o|e] eqn:E; [|naive_solver].
  assert (o = None) as ->; [|by apply IH].
  unfold sync_once in E. apply and_then_ok in E as (a & _ & E). unfold unanswered in Ht.
  destruct (tick_ntp t) as [[]|[]]; simplify_eq; done.
Qed.

Lemma sync_once_i64 w t o : sync_once frac show w t = Ok (Some o) → i64_min ≤ o ≤ i64_max.
Proof.
  unfold sync_once. intros (a & _ & E)%and_then_ok.
  destruct (tick_ntp t) as [[sec sf]|[| |]]; simplify_eq.
  apply and_then_ok in E as (o' & E & [= ->]). by apply compute_offset_i64 in E.
Qed.

(** The cell after a run whose last answer came at [t]: the difference of the clocks. *)
Lemma sync_loop_last_answer w ts1 t ts2 c st c' sec sf :
  sync_loop frac show w (ts1 ++ t :: ts2) c = (st, c') →
  (∃ c1, sync_loop frac show w ts1 c = (Syncing, c1)) →
  benign t = true → tick_ntp t = Ok (sec, sf) → forallb unanswered ts2 = true →
  i64_min ≤ ntp_instant sec sf - tick_local t ≤ i64_max →
  load (tw_offset_nanos w) c' = ntp_instant sec sf - tick_local t.
Proof using SL.
  intros H [c1 H1] Ht Hn Hu Hfit. rewrite sync_loop_app, H1 in H. cbn in H.
  rewrite sync_once_benign, Hn in H by done. cbn in H. rewrite clamp_id in H by done.
  apply sync_loop_unanswered in H as ->; [|done]. apply load_insert.
Qed.

(** A loop that is still running was running all along. *)
Lemma sync_loop_prefix w ts1 ts2 c c' :
  sync_loop frac show w (ts1 ++ ts2) c = (Syncing, c') →
  ∃ c1, sync_loop frac show w ts1 c = (Syncing, c1).
Proof. rewrite sync_loop_app. destruct (sync_loop _ _ w ts1 c) as [[] c1]; naive_solver. Qed.

(** An oracle whose cell holds the difference of two clocks tells the other one. *)
Lemma time_now_difference o c local d other :
  load (to_offset_nanos o) c = other - local → i64_min ≤ other - local ≤ i64_max →
  representable (other + d) = true → TimeOracle_time_now o (local + d) c = other + d.
Proof.
  intros Hl Hfit Hr. unfold TimeOracle_time_now. rewrite Hl, time_now_add by done.
  replace (local + d + (other - local)) with (other + d) by lia. by rewrite Hr.
Qed.

Lemma sync_loop_offset w ts c st c' :
  i64_min ≤ load (tw_offset_nanos w) c ≤ i64_max →
  sync_loop frac show w ts c = (st, c') →
  i64_min ≤ load (tw_offset_nanos w) c' ≤ i64_max ∧
  ∀ l, l ≠ tw_offset_nanos w → c' !! l = c !! l.
Proof.
  revert c. induction ts as [|t ts IH]; intros c Hc H; cbn in H; [naive_solver|].
  destruct (sync_once frac show w t) as [[o|]|e] eqn:E; [|by apply IH|naive_solver].
  apply sync_once_i64 in E.
  apply IH in H as [H1 H2]; [|cbn; by rewrite load_insert]. split; [done|].
  intros l Hl. rewrite H2 by done. by apply lookup_insert_ne.
Qed.
End WorkerProofs.

(** A toy instance of the fraction conversion, on whole multiples. *)
Module ToyNtp.
Definition frac (f : Z) : Z := f * NANOS_PER_SEC / 2 ^ 32.

#[export] Instance frac_laws : SntpLaws frac.
Proof.
  intros f Hf. apply in_range_spec in Hf. unfold frac, NANOS_PER_SEC, u32_max in *. split.
  - apply Z.div_pos; lia.
  - apply Z.div_lt_upper_bound; lia.
Qed.

Definition addr : SocketAddr := {| sa_ip := "192.0.2.1"%string; sa_port := 123 |}.
Definition env : net_env := {|
  ne_to_socket_addrs := λ _ _, Ok [addr]; ne_bind := λ _, Ok tt; ne_set_nonblocking := Ok tt |}.
Definition show (a : SocketAddr) : string := sa_ip a.

(** Half a second past second 1000 at the server, one second behind locally. *)
Definition tick1 : sync_tick := {|
  tick_lookup := Ok [addr]; tick_ntp := Ok (1000, 2147483648);
  tick_local := 999500000000 |}.
Definition tick_lost : sync_tick := {|
  tick_lookup := Ok [addr]; tick_ntp := Err SntpNetwork; tick_local := 999000000000 |}.
End ToyNtp.

(** C31: the oracle tells NTP time.  After the worker of a bundle has handled any
    sequence of ticks that did not stop it, the last answered of which is [t], with any
    number of unanswered ones after it, the oracle of that bundle, read [d] nanoseconds
    after [t] on the local clock, returns the instant of the answer plus [d], provided
    the two clocks are within 292 years (the range of the [i64] offset).  This rests on
    both holding the same atomic cell, and on lost answers leaving it alone. *)
Theorem synced_oracle_tells_ntp_time (frac : Z → Z) (show : SocketAddr → string)
    env host port addr iv c0 b c1 o w ts1 t ts2 sec sf c2 d :
  SntpLaws frac →
  create_bundle env host port addr iv c0 = Ok (b, c1) →
  into_parts b = (o, w) →
  start_syncing frac show (Ok tt) w (ts1 ++ t :: ts2) c1 = (Syncing, c2) →
  benign t = true →
  tick_ntp t = Ok (sec, sf) →
  forallb unanswered ts2 = true →
  i64_min ≤ ntp_instant frac sec sf - tick_local t ≤ i64_max →
  representable (ntp_instant frac sec sf + d) = true →
  TimeOracle_time_now o (tick_local t + d) c2 = ntp_instant frac sec sf + d.
Proof.
  intros SL Hb [= <- <-] Hs Ht Hn Hu Hfit Hr.
  apply create_bundle_inv in Hb as (l & _ & -> & Ho & Hw & _).
  unfold start_syncing in Hs. case_match; [done|].
  apply time_now_difference; [|done..]. rewrite Ho, <- Hw.
  eapply sync_loop_last_answer; [exact SL|exact Hs|by eapply sync_loop_prefix|done..].
Qed.

Lemma synced_oracle_tells_ntp_time_witness :
  ∃ b c1, create_bundle ToyNtp.env "ntp" (Port 123) ToyNtp.addr 60 ∅ = Ok (b, c1) ∧
  TimeOracle_time_now (tb_oracle b) 999500000007
    (start_syncing ToyNtp.frac ToyNtp.show (Ok tt) (tb_worker b)
       ([ToyNtp.tick_lost] ++ ToyNtp.tick1 :: [ToyNtp.tick_lost]) c1).2 = 1000500000007.
Proof.
  eexists _, _. split; [reflexivity|].
  apply (synced_oracle_tells_ntp_time ToyNtp.frac ToyNtp.show ToyNtp.env "ntp" (Port 123)
    ToyNtp.addr 60 ∅ _ _ _ _ [ToyNtp.tick_lost] ToyNtp.tick1 [ToyNtp.tick_lost] 1000 2147483648 _ 7
    ToyNtp.frac_laws eq_refl eq_refl); vm_compute; done.
Defined.

(** C32: the worker survives.  While the server's name resolves, the local clock
    is past the epoch and the only SNTP errors are the two transient ones, no
    sequence of ticks stops or panics a worker with a non-zero interval; the
    offset it leaves fits an [i64] and no other cell changes.  In particular the
    overflow error of [compute_offset] cannot arise from [u32] NTP fields. *)
Theorem sync_worker_survives (frac : Z → Z) (show : SocketAddr → string) w ts c :
  SntpLaws frac →
  tw_sync_interval w ≠ 0 →
  i64_min ≤ load (tw_offset_nanos w) c ≤ i64_max →
  forallb benign ts = true →
  ∃ c', start_syncing frac show (Ok tt) w ts c = (Syncing, c') ∧
        i64_min ≤ load (tw_offset_nanos w) c' ≤ i64_max ∧
        ∀ l, l ≠ tw_offset_nanos w → c' !! l = c !! l.
Proof.
  intros SL Hiv Hc Hts. unfold start_syncing. destruct (Z.eqb_spec (tw_sync_interval w) 0); [done|].
  enough (∃ c', sync_loop frac show w ts c = (Syncing, c')) as [c' H].
  { exists c'. split; [done|]. by eapply sync_loop_offset. }
  clear Hc. revert c. induction ts as [|t ts IH]; intros c; [by eexists|].
  cbn in Hts. apply andb_true_iff in Hts as [Ht Hts]. cbn.
  rewrite sync_once_benign by done. by apply IH.
Qed.

Lemma sync_worker_survives_witness :
  let w := {| tw_ntp_server_addr := ToyNtp.addr; tw_sync_interval := 60; tw_offset_nanos := 0%nat |} in
  ∃ c', start_syncing ToyNtp.frac ToyNtp.show (Ok tt) w [ToyNtp.tick_lost; ToyNtp.tick1] ∅
          = (Syncing, c') ∧ i64_min ≤ load 0%nat c' ≤ i64_max ∧
        ∀ l, l ≠ 0%nat → c' !! l = (∅ : gmap loc Z) !! l.
Proof.
  intros w. apply (sync_worker_survives ToyNtp.frac ToyNtp.show w _ ∅ ToyNtp.frac_laws); vm_compute; done.
Defined.

(** C33: [compute_offset] on every input the types allow: an NTP time past the
    last nanosecond of a [u64] is refused, a local clock before the epoch is
    refused, and otherwise the result is the exact difference of the clocks
    clamped to an [i64]. *)
Theorem compute_offset_spec secs nanos local :
  in_u64 secs = true → in_u64 nanos = true → representable local = true →
  compute_offset secs nanos local =
    let ntp := secs * NANOS_PER_SEC + nanos in
    if u64_max <? ntp then Err (GenericNetworkError "NTP timestamp overflow"%string)
    else if local <? 0 then Err TimeWentBackwards
    else Ok (clamp i64_min i64_max (ntp - local)).
Proof. intros Hs%in_range_spec Hn%in_range_spec Hl. apply compute_offset_eq; [lia|lia|done]. Qed.

Lemma compute_offset_spec_witness :
  compute_offset u64_max 0 0 = Err (GenericNetworkError "NTP timestamp overflow"%string) ∧
  compute_offset 0 0 (i64_max * NANOS_PER_SEC) = Ok i64_min ∧
  compute_offset 5 1 4000000000 = Ok 1000000001.
Proof.
  split_and!.
  - rewrite compute_offset_spec by reflexivity. reflexivity.
  - rewrite compute_offset_spec by reflexivity. reflexivity.
  - rewrite compute_offset_spec by reflexivity. reflexivity.
Defined.

(** A configured interval of zero kills the worker: the bundle is created
    without complaint, and syncing panics before the first tick, leaving the
    offset at its initial zero. *)
Theorem zero_interval_panics (frac : Z → Z) (show : SocketAddr → string)
    env host port addr c0 b c1 ts :
  create_bundle env host port addr (Duration_from_secs 0) c0 = Ok (b, c1) →
  start_syncing frac show (Ok tt) (tb_worker b) ts c1
    = (SyncPanicked "`period` must be non-zero."%string, c1) ∧
  ∀ local, TimeOracle_time_now (tb_oracle b) local c1 = local.
Proof.
  intros (l & _ & -> & Ho & _ & Hiv & _)%create_bundle_inv. split.
  - unfold start_syncing. by rewrite Hiv.
  - intros local. unfold TimeOracle_time_now. rewrite Ho, load_insert, time_now_add by done.
    rewrite Z.add_0_r. by case_match.
Qed.

Lemma zero_interval_panics_witness :
  ∃ b c1, create_bundle ToyNtp.env "ntp" (Port 123) ToyNtp.addr (Duration_from_secs 0) ∅ = Ok (b, c1) ∧
  start_syncing ToyNtp.frac ToyNtp.show (Ok tt) (tb_worker b) [] c1
    = (SyncPanicked "`period` must be non-zero."%string, c1) ∧
  ∀ local, TimeOracle_time_now (tb_oracle b) local c1 = local.
Proof.
  eexists _, _. split; [reflexivity|].
  by apply (zero_interval_panics ToyNtp.frac ToyNtp.show ToyNtp.env "ntp" (Port 123) ToyNtp.addr ∅).
Defined.
