(* ===== verification/Signer.v ===== *)
(** * Signer: the two ways the server signs

    Models [SignError], the trait [Signer] and its two implementations of
    [server/src/server.rs].  The trait is a class, its implementations are
    instances; [SignerLaws] is what the connection handler relies on. *)
From S2P Require Import Prelude Bytes Protocol.

(** [tokio::task::JoinError]: the spawned closure panicked, or the runtime
    cancelled it before it ran. *)
Inductive JoinError :=
| JoinPanic (msg : string)
| JoinCancelled.

Inductive SignError :=
| Crypto (e : RsaError)
| ThreadPanic (e : JoinError).

(** The trait.  [cancelled] is the answer of the runtime to a blocking task: [true]
    when the task is dropped without having run. *)
Class Signer {SHA : Sha256Lib} {RSA : RsaLib} (S : Type) :=
  generate_timestamp_signature :
    S → RsaPrivateKey → Sha256Hash → Timestamp → ∀ cancelled : bool,
    outcome (result RsaSignature SignError).

Inductive AcceleratedSigner := MkAcceleratedSigner.
Inductive SlowSigner := MkSlowSigner.

Section Signers.
Context {SHA : Sha256Lib} {RSA : RsaLib}.

(** Signs in place: a panic unwinds the caller. *)
Definition accelerated_generate (_ : AcceleratedSigner) (signing_key : RsaPrivateKey)
    (hash_to_sign : Sha256Hash) (timestamp : Timestamp) (_ : bool)
    : outcome (result RsaSignature SignError) :=
  match sign_with_timestamp signing_key hash_to_sign timestamp with
  | Done r => Done (map_err Crypto r)
  | Panic msg => Panic msg
  end.

(** [task::spawn_blocking(..).await]: a panic of the closure is an error of the join. *)
Definition spawn_blocking {A} (cancelled : bool) (body : outcome A) : result A JoinError :=
  if cancelled then Err JoinCancelled
  else match body with Done a => Ok a | Panic msg => Err (JoinPanic msg) end.

Definition slow_generate (_ : SlowSigner) (signing_key : RsaPrivateKey)
    (hash_to_sign : Sha256Hash) (timestamp : Timestamp) (cancelled : bool)
    : outcome (result RsaSignature SignError) :=
  Done (let? task_result :=
          map_err ThreadPanic
            (spawn_blocking cancelled (sign_with_timestamp signing_key hash_to_sign timestamp)) in
        map_err Crypto task_result).

#[export] Instance accelerated_signer : Signer AcceleratedSigner := accelerated_generate.
#[export] Instance slow_signer : Signer SlowSigner := slow_generate.
End Signers.

(** What a signer promises: a signature it returns is the one
    [sign_with_timestamp] computes; where that yields a signature, a task that is
    allowed to run returns it; and where that reports an error, so does the signer. *)
Class SignerLaws {SHA : Sha256Lib} {RSA : RsaLib} (S : Type) {SI : Signer S} : Prop := {
  signer_sound (s : S) k h t c sg :
    generate_timestamp_signature s k h t c = Done (Ok sg) →
    sign_with_timestamp k h t = Done (Ok sg);
  signer_complete (s : S) k h t sg :
    sign_with_timestamp k h t = Done (Ok sg) →
    generate_timestamp_signature s k h t false = Done (Ok sg);
  signer_error (s : S) k h t c e :
    sign_with_timestamp k h t = Done (Err e) →
    ∃ e', generate_timestamp_signature s k h t c = Done (Err e')
}.

Section Laws.
Context {SHA : Sha256Lib} {RSA : RsaLib}.

#[export] Instance accelerated_laws : SignerLaws AcceleratedSigner.
Proof.
  split; unfold generate_timestamp_signature, accelerated_signer, accelerated_generate;
    intros s k h t; destruct (sign_with_timestamp k h t) as [[]|]; naive_solver.
Qed.

#[export] Instance slow_laws : SignerLaws SlowSigner.
Proof.
  split; unfold generate_timestamp_signature, slow_signer, slow_generate, spawn_blocking;
    intros s k h t; destruct (sign_with_timestamp k h t) as [[]|]; cbn;
    try (intros [] ?); cbn; naive_solver.
Qed.
End Laws.

(** The two signers agree whenever the blocking task runs: same signature,
    same cryptographic error.  They differ only where [sign_with_timestamp]
    panics, which the slow signer turns into [ThreadPanic] and the accelerated
    one lets through. *)
Theorem signers_agree {SHA : Sha256Lib} {RSA : RsaLib} (k : RsaPrivateKey) (h : Sha256Hash)
    (t : Timestamp) :
  generate_timestamp_signature MkSlowSigner k h t false =
    match generate_timestamp_signature MkAcceleratedSigner k h t false with
    | Panic msg => Done (Err (ThreadPanic (JoinPanic msg)))
    | r => r
    end.
Proof.
  unfold generate_timestamp_signature, slow_signer, slow_generate, accelerated_signer,
    accelerated_generate, spawn_blocking.
  by destruct (sign_with_timestamp k h t) as [[]|].
Qed.
