(* ===== verification/Effects.v ===== *)
(** * Effects: programs over the shared state of the server

    A connection is an asynchronous task.  What it does between two
    suspension points is pure; each interaction with the stream, the database,
    the set of logged users, the clock, the signer or the cancellation token
    is one [event] with its [answer].  A task is a tree of events ([prog]), which
    can be run alone ([exec]) or interleaved with others one event at a time
    ([step_prog], used by [Server]).  [STSServerState] and its builder are those of
    [server/src/connection_handler.rs]. *)
From S2P Require Import Prelude Bytes Protocol Sql Database TimeOracle Signer.

(** ** Input/output errors *)

(** [std::io::ErrorKind], as far as the code tells kinds apart. *)
Inductive ErrorKind :=
| BrokenPipe
| ConnectionReset
| ConnectionAborted
| TimedOut
| NetworkDown
| UnexpectedEof
| InvalidData
| AddrInUse
| PermissionDenied
| AddrNotAvailable
| OtherKind (name : string).

#[export] Instance ErrorKind_eq_dec : EqDecision ErrorKind.
Proof. solve_decision. Defined.

(** [std::io::Error]: its kind and its rendering. *)
Record IoError := { io_kind : ErrorKind; io_text : string }.

(** The other end of a framed connection: what sending a frame returns, and what the
    stream yields after it. *)
Record peer := {
  peer_send : list byte → result unit IoError;
  peer_next : list byte → option (result (list byte) IoError)
}.

(** ** The state of the server *)

(** The balance sheet, the set and the token sit behind [Arc]s: every connection
    sees the same ones.  The database is its tables, the cancellation token a
    flag; the oracle points to its offset, an atomic cell of the heap of the process,
    which is the last field. *)
Record STSServerState {RSA : RsaLib} (S : Type) := {
  database : tables;
  cancel_token : bool;
  logged_users : gset string;
  signing_key : RsaPrivateKey;
  time_oracle : TimeOracle;
  signer : S;
  heap : gmap loc Z
}.
Arguments database {RSA S} _.
Arguments cancel_token {RSA S} _.
Arguments logged_users {RSA S} _.
Arguments signing_key {RSA S} _.
Arguments time_oracle {RSA S} _.
Arguments signer {RSA S} _.
Arguments heap {RSA S} _.

(** The offset a connection reads. *)
Definition oracle_offset {RSA : RsaLib} {S : Type} (st : STSServerState S) : Z :=
  load (to_offset_nanos (time_oracle st)) (heap st).

(** The state before its signer is chosen. *)
Record STSServerStateBuilder {RSA : RsaLib} := {
  b_database : tables;
  b_cancel_token : bool;
  b_logged_users : gset string;
  b_signing_key : RsaPrivateKey;
  b_time_oracle : TimeOracle;
  b_heap : gmap loc Z
}.

Section Builder.
Context {RSA : RsaLib}.

Definition from_bundle (database : tables) (cancel_token : bool) (signing_key : RsaPrivateKey)
    (time_oracle : TimeOracle) (heap : gmap loc Z) : STSServerStateBuilder := {|
  b_database := database;
  b_cancel_token := cancel_token;
  b_logged_users := ∅;
  b_signing_key := signing_key;
  b_time_oracle := time_oracle;
  b_heap := heap
|}.

Definition get_accelerated_build (b : STSServerStateBuilder)
    : STSServerState AcceleratedSigner := {|
  database := b_database b;
  cancel_token := b_cancel_token b;
  logged_users := b_logged_users b;
  signing_key := b_signing_key b;
  time_oracle := b_time_oracle b;
  signer := MkAcceleratedSigner;
  heap := b_heap b
|}.

Definition get_slow_build (b : STSServerStateBuilder) : STSServerState SlowSigner := {|
  database := b_database b;
  cancel_token := b_cancel_token b;
  logged_users := b_logged_users b;
  signing_key := b_signing_key b;
  time_oracle := b_time_oracle b;
  signer := MkSlowSigner;
  heap := b_heap b
|}.
End Builder.

Section Updates.
Context {RSA : RsaLib} {S : Type}.
Implicit Type st : STSServerState S.

Definition set_database (t : tables) st : STSServerState S :=
  {| database := t; cancel_token := cancel_token st; logged_users := logged_users st;
     signing_key := signing_key st; time_oracle := time_oracle st; signer := signer st;
     heap := heap st |}.
Definition set_logged_users (l : gset string) st : STSServerState S :=
  {| database := database st; cancel_token := cancel_token st; logged_users := l;
     signing_key := signing_key st; time_oracle := time_oracle st; signer := signer st;
     heap := heap st |}.
Definition set_cancelled st : STSServerState S :=
  {| database := database st; cancel_token := true; logged_users := logged_users st;
     signing_key := signing_key st; time_oracle := time_oracle st; signer := signer st;
     heap := heap st |}.
Definition set_heap (h : gmap loc Z) st : STSServerState S :=
  {| database := database st; cancel_token := cancel_token st; logged_users := logged_users st;
     signing_key := signing_key st; time_oracle := time_oracle st; signer := signer st;
     heap := h |}.
End Updates.

(** ** Events *)

Inductive event :=
| EvHandshake                                  (* [tls_acceptor.accept(stream)] *)
| EvNext                                       (* the [select!] on [stream.next()] *)
| EvIsCancelled                                (* [cancel_token.is_cancelled()] *)
| EvCancel                                     (* [cancel_token.cancel()] *)
| EvSend (bytes : list byte)                   (* [stream.send(..)] *)
| EvVerify (username password : string)
| EvRegister (username password : string) (ip : IpAddr)
| EvGetTokens (username : string)
| EvAddTokens (username : string) (amount : Z)
| EvSubtractTokens (username : string) (amount : Z)
| EvAddRecord (username : string) (timestamp : Timestamp) (sign : RsaSignature)
| EvHistory (username : string)
| EvLoggedInsert (username : string)           (* [logged_users.insert(..)] *)
| EvLoggedRemove (username : string)           (* [logged_users.remove(..)] *)
| EvTimeNow                                    (* [time_oracle.time_now()] *)
| EvSign (hash : Sha256Hash) (timestamp : Timestamp).

(** How the [select!] of [fetch_next_request] ends. *)
Inductive selected :=
| SelectNext (framed_data : option (result (list byte) IoError))
| SelectCancelled.

Definition answer (e : event) : Type :=
  match e with
  | EvHandshake => result unit IoError
  | EvNext => selected
  | EvIsCancelled => bool
  | EvCancel => unit
  | EvSend _ => result unit IoError
  | EvVerify _ _ => outcome (result unit AuthenticationError)
  | EvRegister _ _ _ => outcome (result unit RegistrationError)
  | EvGetTokens _ => outcome (result Z GetTokensError)
  | EvAddTokens _ _ => outcome (result Z AddTokensError)
  | EvSubtractTokens _ _ => outcome (result Z SubtractTokensError)
  | EvAddRecord _ _ _ => outcome (result unit AddRecordError)
  | EvHistory _ => outcome (result (list HistoryRecord) UserHistoryError)
  | EvLoggedInsert _ | EvLoggedRemove _ => bool
  | EvTimeNow => SystemTime
  | EvSign _ _ => outcome (result RsaSignature SignError)
  end.

(** What the environment decides about the next events of a connection. *)
Record env := {
  en_handshake : result unit IoError;
  en_cancel_first : bool;         (* [select!] polls its ready branches in a random order *)
  en_next : option (result (list byte) IoError);
  en_send : result unit IoError;
  en_faults : list (option SqlxError);
  en_salt : string;
  en_clock : SystemTime;
  en_task_cancelled : bool
}.

Section Perform.
Context {SHA : Sha256Lib} {RSA : RsaLib} {HEX : HexLib} {ARGON : Argon2Lib}.
Context {S : Type} {SI : Signer S}.
Implicit Type st : STSServerState S.

(** A method of the database on the shared tables, with the faults it meets. *)
Definition on_database {E A} (m : io E A) (en : env) st : outcome (result A E) * STSServerState S :=
  let '(r, p) := m {| p_tables := database st; p_faults := en_faults en |} in
  (r, set_database (p_tables p) st).

(** One event: its answer, and the state after it. *)
Definition perform (en : env) (e : event) st : answer e * STSServerState S :=
  match e with
  | EvHandshake => (en_handshake en, st)
  | EvNext => (if cancel_token st && en_cancel_first en then SelectCancelled
               else SelectNext (en_next en), st)
  | EvIsCancelled => (cancel_token st, st)
  | EvCancel => (tt, set_cancelled st)
  | EvSend _ => (en_send en, st)
  | EvVerify u pw => on_database (verify_user_password u pw) en st
  | EvRegister u pw ip => on_database (try_register_user (en_salt en) u pw ip) en st
  | EvGetTokens u => on_database (get_user_tokens u) en st
  | EvAddTokens u n => on_database (add_user_tokens u n) en st
  | EvSubtractTokens u n => on_database (subtract_user_tokens u n) en st
  | EvAddRecord u ts sg => on_database (add_user_record u ts sg) en st
  | EvHistory u => on_database (get_user_history u) en st
  | EvLoggedInsert u =>
      (bool_decide (u ∉ logged_users st), set_logged_users ({[u]} ∪ logged_users st) st)
  | EvLoggedRemove u =>
      (bool_decide (u ∈ logged_users st), set_logged_users (logged_users st ∖ {[u]}) st)
  | EvTimeNow => (time_now (en_clock en) (oracle_offset st), st)
  | EvSign h ts =>
      (generate_timestamp_signature (signer st) (signing_key st) h ts (en_task_cancelled en), st)
  end.
End Perform.

(** ** Programs *)

(** [Cut] is where the bound on the loop iterations is reached. *)
Inductive prog (A : Type) :=
| Ret (a : A)
| Act (e : event) (k : answer e → prog A)
| Crash (msg : string)
| Cut.
Arguments Ret {A} a.
Arguments Act {A} e k.
Arguments Crash {A} msg.
Arguments Cut {A}.

#[export] Instance prog_ret : MRet prog := λ A, Ret.
#[export] Instance prog_bind : MBind prog := λ A B f,
  fix go p := match p with
              | Ret a => f a
              | Act e k => Act e (λ x, go (k x))
              | Crash msg => Crash msg
              | Cut => Cut
              end.

Lemma ret_bind {A B} (a : A) (f : A → prog B) : Ret a ≫= f = f a.
Proof. done. Qed.

Definition act (e : event) : prog (answer e) := Act e Ret.

(** A call that may unwind. *)
Definition unwinding {A} (o : outcome A) : prog A :=
  match o with Done a => Ret a | Panic msg => Crash msg end.

(** [p?] in a function that returns a [Result]. *)
Definition try_bind {A B E} (p : prog (result A E)) (k : A → prog (result B E))
    : prog (result B E) :=
  r ← p; match r with Ok a => k a | Err e => mret (Err e) end.

Notation "'try' x ← p ; k" := (try_bind p (λ x, k))
  (at level 100, x binder, p at next level, k at level 200,
   format "'try'  x  ←  p ;  '//' k") : stss_scope.

(** How a program that was run ends. *)
Inductive ending (A : Type) :=
| Returned (a : A)
| Crashed (msg : string)
| Unfinished.
Arguments Returned {A} a.
Arguments Crashed {A} msg.
Arguments Unfinished {A}.

Section Run.
Context {SHA : Sha256Lib} {RSA : RsaLib} {HEX : HexLib} {ARGON : Argon2Lib}.
Context {S : Type} {SI : Signer S}.
Implicit Type st : STSServerState S.

(** One event of a program that has not ended. *)
Definition step_prog {A} (en : env) (p : prog A) st : prog A * STSServerState S :=
  match p with
  | Act e k => let '(x, st') := perform en e st in (k x, st')
  | _ => (p, st)
  end.

(** What a connection has done: its events with their answers, oldest first. *)
Definition trace : Type := list {e : event & answer e}.

(** A stream that has been closed by the client, everything else in order. *)
Definition closed_stream : env := {|
  en_handshake := Ok tt; en_cancel_first := false; en_next := None; en_send := Ok tt;
  en_faults := []; en_salt := EmptyString; en_clock := 0; en_task_cancelled := false |}.

(** The frame an event delivered. *)
Definition sent (e : event) : answer e → list (list byte) :=
  match e with
  | EvSend b => λ r, match r with Ok _ => [b] | Err _ => [] end
  | _ => λ _, []
  end.

(** A connection run alone, with a client that closes its end after its last turn (a
    client that keeps silent without closing leaves the connection waiting: the worlds
    of [Server] have such runs, in which the task makes no further move).  The
    environment of the current turn, the turns to come, the state of the server and the
    frames delivered so far. *)
Record ctx := {
  c_cur : env;
  c_turns : list env;
  c_state : STSServerState S;
  c_out : list (list byte)
}.

(** [EvNext] starts the next turn; after the last one it finds the closed stream. *)
Definition next_turn (e : event) (c : ctx) : env * list env :=
  match e with
  | EvNext => (default closed_stream (head (c_turns c)), tail (c_turns c))
  | _ => (c_cur c, c_turns c)
  end.

Fixpoint exec {A} (p : prog A) (c : ctx) : ending A * ctx :=
  match p with
  | Ret a => (Returned a, c)
  | Crash msg => (Crashed msg, c)
  | Cut => (Unfinished, c)
  | Act e k =>
      let '(cur, turns) := next_turn e c in
      let '(x, st) := perform cur e (c_state c) in
      exec (k x) {| c_cur := cur; c_turns := turns; c_state := st;
                    c_out := c_out c ++ sent e x |}
  end.

(** The events of that run. *)
Fixpoint exec_trace {A} (p : prog A) (c : ctx) : trace :=
  match p with
  | Act e k =>
      let '(cur, turns) := next_turn e c in
      let '(x, st) := perform cur e (c_state c) in
      existT e x :: exec_trace (k x) {| c_cur := cur; c_turns := turns; c_state := st;
                                        c_out := c_out c ++ sent e x |}
  | _ => []
  end.

Definition map_ending {A B} (f : A → ctx → ending B * ctx) (r : ending A * ctx)
    : ending B * ctx :=
  match r with
  | (Returned a, c) => f a c
  | (Crashed msg, c) => (Crashed msg, c)
  | (Unfinished, c) => (Unfinished, c)
  end.

Lemma exec_bind {A B} (p : prog A) (f : A → prog B) c :
  exec (p ≫= f) c = map_ending (λ a, exec (f a)) (exec p c).
Proof.
  revert c. induction p as [a|e k IH|msg|]; intros c; try done. cbn.
  destruct (next_turn e c) as [cur turns]. destruct (perform cur e (c_state c)) as [x st].
  apply IH.
Qed.

Lemma exec_try {A B E} (p : prog (result A E)) (f : A → prog (result B E)) c :
  exec (try_bind p f) c =
    map_ending (λ r, match r with Ok a => exec (f a) | Err e => λ c, (Returned (Err e), c) end)
      (exec p c).
Proof.
  unfold try_bind. rewrite exec_bind. destruct (exec p c) as [[[a|e]| |] c']; done.
Qed.
End Run.
Arguments ctx {RSA} S.
Arguments c_cur {RSA S} _.
Arguments c_turns {RSA S} _.
Arguments c_state {RSA S} _.
Arguments c_out {RSA S} _.
