(* ===== verification/ConnHandler.v ===== *)
(** * ConnHandler: one connection, from its first request to its end

    Models [server/src/connection_handler.rs]: the error types, the extraction of
    a request from the stream, the loop of a connection that has not logged in
    and the loop of a session.  The handlers are programs over the events of
    [Effects].  A loop takes the number of iterations it may still make; running
    out of it is [Cut], never a result.  Log messages are left out. *)
From stdpp Require Import pretty.
From S2P Require Import Prelude Bytes Protocol Sql Database TimeOracle Signer Effects.

(** ** Endings and errors *)

Inductive ClosedStreamReason := InterruptReceived | ClientAsked.

Inductive FramingError :=
| SizeSmashing (address : SocketAddr) (max_len : Z)
| FramingGeneric (address : SocketAddr) (text : string).

Inductive NetworkError :=
| ConnectionDropped
| ServerNetworkDown
| NetworkGeneric (e : IoError)
| Framing (address : SocketAddr) (source : FramingError)
| Deserialize (e : DeserializeError).

Inductive InternalError :=
| DatabaseError (e : InternalDataBaseError)
| UserShouldExistButWasNotFound
| ClockStaggered
| IntegrityViolation (text : string)
| Serialize (e : SerializeError).

Inductive HandlerError :=
| Network (e : NetworkError)
| Domain (username : option string) (source : InternalError).

(** [impl From<NetworkError> for HandlerError], applied by [?]. *)
Definition network {A} (r : result A NetworkError) : result A HandlerError := map_err Network r.

Definition send_error_logger (send_err : IoError) : result unit NetworkError :=
  match io_kind send_err with
  | BrokenPipe | ConnectionReset | ConnectionAborted => Err ConnectionDropped
  | TimedOut => Err ConnectionDropped
  | NetworkDown => Err ServerNetworkDown
  | _ => Err (NetworkGeneric send_err)
  end.

(** The default of [LengthDelimitedCodec::new()]: eight megabytes. *)
Definition max_frame_length : Z := 8 * 1024 * 1024.

Definition credentials_length_error (username password : string) : option string :=
  if negb (is_username_length_valid username) then
    Some ("Username is too long. Maximum allowed length is " +:+ pretty MAX_USERNAME_LEN
          +:+ " characters.")%string
  else if negb (is_password_length_valid password) then
    Some ("Password is too long. Maximum allowed length is " +:+ pretty MAX_PASSWORD_LEN
          +:+ " characters.")%string
  else None.

(** ** Sessions *)

Record Session := { s_address : SocketAddr; s_username : string }.

Definition Session_bundle (address : SocketAddr) (username : string) : Session :=
  {| s_address := address; s_username := username |}.

Inductive ClosedSessionReason :=
| ClosedStream (reason : ClosedStreamReason)
| LoggedOut.

(** [impl From<ClosedStreamReason> for ClosedSessionReason] *)
Definition ClosedSessionReason_from (reason : ClosedStreamReason) : ClosedSessionReason :=
  ClosedStream reason.

Section Handlers.
Context {WREQ : Wincode Request} {WRESP : Wincode Response}.

Definition fetch_next_request (address : SocketAddr)
    : prog (result (option Request) NetworkError) :=
  framed_data ← act EvNext;
  match framed_data with
  | SelectCancelled => mret (Ok None)
  | SelectNext None => mret (Ok None)
  | SelectNext (Some (Err e)) =>
      mret (match io_kind e with
            | ConnectionReset | BrokenPipe | UnexpectedEof => Err ConnectionDropped
            | InvalidData => Err (Framing address (SizeSmashing address max_frame_length))
            | _ => Err (Framing address (FramingGeneric address (io_text e)))
            end)
  | SelectNext (Some (Ok raw_message)) =>
      mret (let? request := map_err Deserialize (deserialize raw_message) in Ok (Some request))
  end.

(** The reason a stream ended, once [fetch_next_request] found no request. *)
Definition closed_reason : prog ClosedStreamReason :=
  cancelled ← act EvIsCancelled;
  mret (if cancelled : bool then InterruptReceived else ClientAsked).

(** The end of an iteration of either loop: serialize the response and send it. *)
Definition respond (response : Response) : prog (result unit HandlerError) :=
  try serialized_response ← mret (map_err (λ e, Domain None (Serialize e)) (serialize response));
  sent ← act (EvSend serialized_response);
  mret (match sent : result unit IoError with
        | Ok _ => Ok tt
        | Err send_err => network (send_error_logger send_err)
        end).

(** *** The arms of a session *)

(** An arm yields the response and the flag [has_to_logout]. *)
Definition arm : Type := prog (result (Response * bool) HandlerError).
Definition reply (r : Response) : arm := mret (Ok (r, false)).
Definition fatal {A} (username : string) (source : InternalError) : prog (result A HandlerError) :=
  mret (Err (Domain (Some username) source)).

(** [database.add_user_tokens(username, 1)] after a signing failure: its own
    failure is only logged. *)
Definition refund_arm (username : string) : arm :=
  refunded ← act (EvAddTokens username 1);
  _ ← unwinding refunded;
  reply (OperationError "Error while performing the operation.").

Definition record_arm (username : string) (raw_hash : Sha256Hash) (timestamp : Timestamp)
    (sign : RsaSignature) : arm :=
  recorded ← act (EvAddRecord username timestamp sign);
  recorded ← unwinding recorded;
  match recorded with
  | Err Rec_UserDoesNotExist => fatal username UserShouldExistButWasNotFound
  | Err (Rec_InternalDataBase e) => fatal username (DatabaseError e)
  | Ok _ => reply (Token raw_hash sign timestamp)
  end.

Definition sign_hash_arm (username : string) (raw_hash : Sha256Hash) : arm :=
  subtracted ← act (EvSubtractTokens username 1);
  subtracted ← unwinding subtracted;
  match subtracted with
  | Err Sub_InsufficientTokens => reply NotEnoughTokens
  | Err Sub_UserDoesNotExist => fatal username UserShouldExistButWasNotFound
  | Err (Sub_InternalDataBase e) => fatal username (DatabaseError e)
  | Ok _ =>
      now ← act EvTimeNow;
      match duration_since_epoch now with
      | None => fatal username ClockStaggered
      | Some ts =>
          let timestamp := Timestamp_new ts in
          signed ← act (EvSign raw_hash timestamp);
          signed ← unwinding signed;
          match signed with
          | Ok sign => record_arm username raw_hash timestamp sign
          | Err _ => refund_arm username
          end
      end
  end.

Definition purchase_arm (username : string) (tokens : Z) : arm :=
  added ← act (EvAddTokens username tokens);
  added ← unwinding added;
  match added with
  | Ok new_token_count => reply (TokenCount new_token_count)
  | Err Add_TokenOverflow => reply TokenAmountTooHigh
  | Err Add_UserDoesNotExist => fatal username UserShouldExistButWasNotFound
  | Err (Add_InternalDataBase e) => fatal username (DatabaseError e)
  end.

Definition how_many_arm (username : string) : arm :=
  got ← act (EvGetTokens username);
  got ← unwinding got;
  match got with
  | Ok n_tokens => reply (TokenCount n_tokens)
  | Err Get_UserDoesNotExist => fatal username UserShouldExistButWasNotFound
  | Err (Get_TokenIntegrityCheckViolated user amount) =>
      fatal username (IntegrityViolation
        ("invalid token amount for user " +:+ user +:+ ": " +:+ pretty amount)%string)
  | Err (Get_InternalDataBase e) => fatal username (DatabaseError e)
  end.

Definition history_arm (username : string) : arm :=
  got ← act (EvHistory username);
  got ← unwinding got;
  match got with
  | Ok history => reply (RespHistory history)
  | Err Hist_UserDoesNotExist => fatal username UserShouldExistButWasNotFound
  | Err (Hist_TimestampIntegrityViolated token) =>
      fatal username (IntegrityViolation ("invalid timestamp of " +:+ token)%string)
  | Err (Hist_HashIntegrityViolated hash) =>
      fatal username (IntegrityViolation ("invalid hash: " +:+ hash)%string)
  | Err (Hist_InternalDataBase e) => fatal username (DatabaseError e)
  end.

(** The [match request] of the session loop. *)
Definition session_arm (username : string) (request : Request) : arm :=
  match request with
  | Login _ _ => reply (LoginFailed LoginAlreadyLoggedIn)
  | SignUp _ _ => reply (SignInFailed SignInAlreadyLoggedIn)
  | LogOut => mret (Ok (RespOk, true))
  | SignHash raw_hash => sign_hash_arm username raw_hash
  | PurchaseTokens tokens => purchase_arm username tokens
  | HowManyTokensDoIHave => how_many_arm username
  | History => history_arm username
  end.

Fixpoint session_handler (n : nat) (session : Session)
    : prog (result ClosedSessionReason HandlerError) :=
  match n with
  | O => Cut
  | S n =>
      fetched ← fetch_next_request (s_address session);
      match network fetched with
      | Err e => mret (Err e)
      | Ok None =>
          reason ← closed_reason;
          mret (Ok (ClosedSessionReason_from reason))
      | Ok (Some request) =>
          try answered ← session_arm (s_username session) request;
          try _ ← respond answered.1;
          if answered.2 : bool then mret (Ok LoggedOut) else session_handler n session
      end
  end.

(** *** The connection loop *)

(** An arm yields the response and the session that started. *)
Definition login_arm (address : SocketAddr) (username password : string)
    : prog (result (Response * option Session) HandlerError) :=
  match credentials_length_error username password with
  | Some _ => mret (Ok (LoginFailed InvalidCredentials, None))
  | None =>
      verified ← act (EvVerify username password);
      verified ← unwinding verified;
      match verified with
      | Ok _ =>
          inserted ← act (EvLoggedInsert username);
          mret (Ok (if inserted : bool
                    then (RespOk, Some (Session_bundle address username))
                    else (LoginFailed LoginAlreadyLoggedIn, None)))
      | Err (Auth_UserNotFound _) => mret (Ok (LoginFailed InvalidCredentials, None))
      | Err Auth_InvalidPassword => mret (Ok (LoginFailed InvalidCredentials, None))
      | Err (Auth_InternalDataBase e) => mret (Err (Domain None (DatabaseError e)))
      end
  end.

Definition sign_up_arm (address : SocketAddr) (username password : string)
    : prog (result (Response * option Session) HandlerError) :=
  match credentials_length_error username password with
  | Some reason => mret (Ok (OperationError reason, None))
  | None =>
      registered ← act (EvRegister username password (sa_ip address));
      registered ← unwinding registered;
      match registered with
      | Ok _ => mret (Ok (RespOk, None))
      | Err (Reg_InternalDataBase e) => mret (Err (Domain None (DatabaseError e)))
      | Err (Reg_UserAlreadyExists _) => mret (Ok (SignInFailed UsernameAlreadyTaken, None))
      end
  end.

(** The [match request] of the connection loop. *)
Definition conn_arm (address : SocketAddr) (request : Request)
    : prog (result (Response * option Session) HandlerError) :=
  match request with
  | Login username password => login_arm address username password
  | SignUp username password => sign_up_arm address username password
  | _ => mret (Ok (NotLoggedIn, None))
  end.

(** [Some reason] returns from the connection, [None] goes on with the loop. *)
Definition run_session (n : nat) (session : Session)
    : prog (result (option ClosedStreamReason) HandlerError) :=
  ended ← session_handler n session;
  match ended with
  | Err error =>
      _ ← act (EvLoggedRemove (s_username session));
      mret (Err error)
  | Ok LoggedOut =>
      _ ← act (EvLoggedRemove (s_username session));
      mret (Ok None)
  | Ok (ClosedStream reason) =>
      _ ← act (EvLoggedRemove (s_username session));
      mret (Ok (Some reason))
  end.

Fixpoint conn_handler_core (n : nat) (address : SocketAddr)
    : prog (result ClosedStreamReason HandlerError) :=
  match n with
  | O => Cut
  | S n =>
      fetched ← fetch_next_request address;
      match network fetched with
      | Err e => mret (Err e)
      | Ok None =>
          reason ← closed_reason;
          mret (Ok reason)
      | Ok (Some request) =>
          try answered ← conn_arm address request;
          try _ ← respond answered.1;
          match answered.2 with
          | None => conn_handler_core n address
          | Some session =>
              try ended ← run_session n session;
              match ended with
              | Some reason => mret (Ok reason)
              | None => conn_handler_core n address
              end
          end
      end
  end.

Definition conn_handler (n : nat) (address : SocketAddr)
    : prog (result ClosedStreamReason HandlerError) := conn_handler_core n address.
End Handlers.
