(* ===== verification/Account.v ===== *)
(** * Account: what one account looks like from outside

    The abstract view of the database that a session has: a balance and the
    list of the records of one account, and the effect of each method on it when
    the database answers.  [SessionSpec] specifies a session on it. *)
From S2P Require Import Prelude Bytes Protocol Sql Database DatabaseSpec TimeOracle Signer.

Record account := { a_balance : Z; a_records : list HistoryRecord }.

Section Abstraction.
Context {HEX : HexLib}.

Definition row_record (r : history_row) : option HistoryRecord :=
  match decode_history_row r with Done (Ok rec) => Some rec | _ => None end.

(** The records of an account, oldest insertion first. *)
Definition records_of (u : string) (t : tables) : list HistoryRecord :=
  omap row_record (filter (λ r, h_username r = u) (t_history t)).

Definition account_of (t : tables) (u : string) : option account :=
  (λ b, {| a_balance := b; a_records := records_of u t |}) <$> ledger t !! u.

Lemma account_of_Some t u a :
  account_of t u = Some a ↔ ledger t !! u = Some (a_balance a) ∧ a_records a = records_of u t.
Proof.
  unfold account_of. rewrite fmap_Some. destruct a as [b rs]; simpl. naive_solver.
Qed.

(** [t'] is [t] with the account [u] turned into [a]: the other accounts are as
    they were, and so are all the passwords. *)
Definition account_becomes (t : tables) (u : string) (a : account) (t' : tables) : Prop :=
  tables_ok t' ∧ account_of t' u = Some a ∧
  (∀ v, v ≠ u → account_of t' v = account_of t v) ∧
  (∀ v, select_password_hash v t' = select_password_hash v t).

Lemma account_becomes_refl t u a :
  tables_ok t → account_of t u = Some a → account_becomes t u a t.
Proof. intros. unfold account_becomes. by split_and!. Qed.

Lemma account_becomes_trans t u a t' a' t'' :
  account_becomes t u a t' → account_becomes t' u a' t'' → account_becomes t u a' t''.
Proof.
  intros (_ & _ & H1 & H2) (? & ? & H3 & H4). unfold account_becomes. split_and!; [done..| |].
  - intros v Hv. by rewrite H3, H1.
  - intros v. by rewrite H4, H2.
Qed.

Lemma account_row t u a : account_of t u = Some a → is_Some (t_users t !! u).
Proof.
  intros [H _]%account_of_Some. rewrite ledger_lookup in H. by destruct (t_users t !! u).
Qed.

Lemma account_balance_bounds t u a :
  tables_ok t → account_of t u = Some a → 0 ≤ a_balance a ≤ i64_max.
Proof.
  intros Hok [Hb _]%account_of_Some. rewrite ledger_lookup in Hb.
  destruct (t_users t !! u) as [r|] eqn:E; [|done].
  destruct (tables_ok_row _ _ _ Hok E) as (z & Ez & Hz & _ & _).
  simpl in Hb. unfold row_balance in Hb. rewrite Ez in Hb. by simplify_eq.
Qed.

Lemma same_but_tokens_password t t' v :
  same_but_tokens t t' → select_password_hash v t' = select_password_hash v t.
Proof.
  intros [_ H]. apply (f_equal (lookup v)) in H. rewrite !lookup_fmap in H.
  unfold select_password_hash.
  destruct (t_users t' !! v), (t_users t !! v); simplify_eq/=; congruence.
Qed.

(** A change of one balance. *)
Lemma account_becomes_balance t u a b t' :
  tables_ok t' → account_of t u = Some a → same_but_tokens t t' →
  ledger t' = <[u := b]> (ledger t) →
  account_becomes t u {| a_balance := b; a_records := a_records a |} t'.
Proof.
  intros Hok [_ Hr]%account_of_Some Hs Hl. unfold account_becomes. split_and!; [done| | |].
  - apply account_of_Some. simpl. rewrite Hl, lookup_insert_eq. split; [done|].
    unfold records_of. by rewrite (proj1 Hs).
  - intros v Hv. unfold account_of, records_of. by rewrite Hl, lookup_insert_ne, (proj1 Hs).
  - intros v. by apply same_but_tokens_password.
Qed.

(** ** The methods on a database that answers *)

Definition answering (t : tables) : pool := {| p_tables := t; p_faults := [] |}.

Lemma run_subtract_one t u a :
  tables_ok t → account_of t u = Some a →
  let '(o, p) := subtract_user_tokens u 1 (answering t) in
  if a_balance a <? 1 then o = Done (Err Sub_InsufficientTokens) ∧ p_tables p = t
  else o = Done (Ok (a_balance a - 1)) ∧
       account_becomes t u {| a_balance := a_balance a - 1; a_records := a_records a |} (p_tables p).
Proof.
  intros Hok Ha. pose proof (wp_subtract_user_tokens u 1 (answering t) Hok) as Hw.
  pose proof (proj1 (proj1 (account_of_Some _ _ _) Ha)) as Hl.
  unfold wp, ledger_sim, Ledger.debit in Hw. specialize (Hw ltac:(lia)). simpl in Hw.
  rewrite Hl in Hw. destruct (subtract_user_tokens u 1 (answering t)) as [[[b|e]|] p]; [| |done].
  - destruct Hw as (Hb & Hok' & Hs). destruct (a_balance a <? 1); [done|].
    injection Hb as <- Hl'. split; [done|]. by apply account_becomes_balance.
  - destruct Hw as [Ht He]. destruct e; simpl in He; destruct (a_balance a <? 1); try done; naive_solver.
Qed.

Lemma run_add t u a n :
  tables_ok t → account_of t u = Some a → 0 ≤ n →
  let '(o, p) := add_user_tokens u n (answering t) in
  if i64_max <? a_balance a + n then o = Done (Err Add_TokenOverflow) ∧ p_tables p = t
  else o = Done (Ok (a_balance a + n)) ∧
       account_becomes t u {| a_balance := a_balance a + n; a_records := a_records a |} (p_tables p).
Proof.
  intros Hok Ha Hn. pose proof (wp_add_user_tokens u n (answering t) Hok Hn) as Hw.
  pose proof (proj1 (proj1 (account_of_Some _ _ _) Ha)) as Hl.
  pose proof (account_balance_bounds _ _ _ Hok Ha) as Hb.
  unfold wp, ledger_sim, Ledger.credit in Hw. simpl in Hw. rewrite Hl in Hw.
  destruct (Z.ltb_spec i64_max n).
  { rewrite (proj2 (Z.ltb_lt i64_max (a_balance a + n))) by lia.
    destruct (add_user_tokens u n (answering t)) as [[[b|e]|] p]; [|destruct e|]; naive_solver. }
  destruct (add_user_tokens u n (answering t)) as [[[b|e]|] p]; [| |done].
  - destruct Hw as (E & Hok' & Hs). destruct (i64_max <? a_balance a + n); [done|].
    injection E as <- Hl'. split; [done|]. by apply account_becomes_balance.
  - destruct Hw as [Ht He]. destruct e; simpl in He; destruct (i64_max <? a_balance a + n);
      try done; naive_solver.
Qed.

Lemma run_get_tokens t u a :
  tables_ok t → account_of t u = Some a →
  let '(o, p) := get_user_tokens u (answering t) in
  o = Done (Ok (a_balance a)) ∧ p_tables p = t.
Proof.
  intros Hok Ha. pose proof (wp_get_user_tokens u (answering t) Hok) as Hw. unfold wp in Hw.
  destruct (account_row _ _ _ Ha) as [r Hr]. apply account_of_Some in Ha as [Hl _].
  destruct (get_user_tokens u (answering t)) as [[[n|[]]|] p]; destruct Hw as [Ht Hw]; simpl in *;
    naive_solver congruence.
Qed.

(** ** Records *)

Lemma row_record_decodes r rec : row_record r = Some rec ↔ decodes r rec.
Proof. unfold row_record, decodes. repeat case_match; naive_solver. Qed.

Lemma omap_decodes rows recs : Forall2 decodes rows recs → omap row_record rows = recs.
Proof.
  induction 1 as [|r rec rows recs Hr _ IH]; [done|]. csimpl.
  apply row_record_decodes in Hr. by rewrite Hr, IH.
Qed.

Lemma rows_decode u t :
  tables_ok t → Forall2 decodes (sorted_rows u t) (omap row_record (sorted_rows u t)).
Proof.
  intros Hok. assert (∀ r, r ∈ sorted_rows u t → row_ok r) as Hr.
  { intros r Hr. by apply (sorted_row_ok u t). }
  induction (sorted_rows u t) as [|r rows IH]; [constructor|]. csimpl.
  destruct (decodes_row_ok r) as [rec Hrec]; [apply Hr, list_elem_of_here|].
  rewrite (proj2 (row_record_decodes _ _) Hrec). constructor; [done|].
  apply IH. intros x Hx. by apply Hr, list_elem_of_further.
Qed.

Lemma elem_of_records u t rec :
  rec ∈ records_of u t ↔ ∃ row, row ∈ sorted_rows u t ∧ decodes row rec.
Proof.
  unfold records_of. rewrite <- (sorted_rows_perm u t). rewrite list_elem_of_omap.
  by setoid_rewrite row_record_decodes.
Qed.

Definition rec_newer (a b : HistoryRecord) : Prop := rec_time b ≤ rec_time a.

#[export] Instance rec_newer_dec : RelDecision rec_newer.
Proof. intros a b. unfold rec_newer. apply _. Defined.
#[export] Instance rec_newer_total : Total rec_newer.
Proof. intros a b. unfold rec_newer. lia. Qed.
#[export] Instance rec_newer_trans : Transitive rec_newer.
Proof. intros a b c. unfold rec_newer. lia. Qed.

(** The history as the client sees it: newest first, a hundred at most. *)
Definition newest (recs : list HistoryRecord) : list HistoryRecord :=
  take 100 (merge_sort rec_newer recs).

(** One record per instant. *)
Lemma records_time_inj u t rec rec' :
  tables_ok t → rec ∈ records_of u t → rec' ∈ records_of u t →
  rec_time rec = rec_time rec' → rec = rec'.
Proof.
  intros Hok (r & Hr & Dr)%elem_of_records (s & Hs & Ds)%elem_of_records E.
  destruct (decide (row_key r = row_key s)) as [Ek|Hne].
  - apply (NoDup_fmap_elem _ _ _ _ (sorted_rows_keys u t Hok) Hr Hs) in Ek. subst.
    by eapply decodes_fun.
  - destruct (total newer r s) as [Hn|Hn].
    + pose proof (newer_strict u t r s _ _ Hok Hr Hs Dr Ds Hn Hne). lia.
    + pose proof (newer_strict u t s r _ _ Hok Hs Hr Ds Dr Hn (not_eq_sym Hne)). lia.
Qed.

Lemma sorted_records u t :
  tables_ok t → omap row_record (sorted_rows u t) = merge_sort rec_newer (records_of u t).
Proof.
  intros Hok. assert (omap row_record (sorted_rows u t) ≡ₚ records_of u t) as Hp.
  { unfold records_of. by rewrite <- (sorted_rows_perm u t). }
  apply (StronglySorted_unique_strong rec_newer).
  - intros x y Hx Hy H1 H2. rewrite Hp in Hx. rewrite merge_sort_Permutation in Hy.
    apply (records_time_inj u t); [done..|]. unfold rec_newer in *. lia.
  - eapply StronglySorted_Forall2; [by apply rows_decode|apply sorted_rows_sorted|].
    intros r s x y Hr Hs Dx Dy Hn. unfold rec_newer.
    apply (newer_numeric r s); [by apply (sorted_row_ok u t)..|done|done|done].
  - apply StronglySorted_merge_sort; apply _.
  - by rewrite merge_sort_Permutation.
Qed.

Lemma run_history t u a :
  tables_ok t → account_of t u = Some a →
  let '(o, p) := get_user_history u (answering t) in
  o = Done (Ok (newest (a_records a))) ∧ p_tables p = t.
Proof.
  intros Hok Ha. destruct (account_row _ _ _ Ha) as [r Hr].
  pose proof (wp_get_user_history u (answering t) Hok) as Hw. unfold wp in Hw.
  destruct (get_user_history u (answering t)) as [[[recs|[]]|] p]; destruct Hw as [Ht Hw];
    simpl in *; try done; try (by rewrite Hw in Hr).
  split; [|done]. destruct Hw as [_ HF]. do 2 f_equal.
  apply account_of_Some in Ha as [_ ->]. unfold newest. rewrite <- (sorted_records u t Hok).
  rewrite <- (omap_decodes _ _ HF). apply omap_decodes.
  apply (Forall2_take _ _ _ HISTORY_LIMIT). by apply rows_decode.
Qed.

Lemma record_key_taken t u ts sg :
  tables_ok t → ts_ok ts = true →
  row_key (record_row u ts sg) ∈ (row_key <$> t_history t) ↔
  ∃ rec, rec ∈ records_of u t ∧ hr_timestamp rec = ts.
Proof.
  intros Hok Hts. rewrite list_elem_of_fmap. setoid_rewrite elem_of_records. split.
  - intros (row & Ek & Hin). injection Ek as Eu Et.
    assert (row ∈ sorted_rows u t) as Hs by (by apply elem_of_sorted_rows).
    destruct (sorted_row_ok _ _ _ Hok Hs) as [_ Hrok].
    destruct (decodes_row_ok _ Hrok) as [rec Drec]. exists rec. split; [by eauto|].
    destruct (decodes_inv _ _ Hrok Drec) as (b & Eb & _ & Er & _).
    rewrite <- Et in Eb. injection Eb as <-.
    destruct (hr_timestamp rec) as [z], ts as [z']. f_equal. simpl in *. rewrite Er.
    by apply (Timestamp_be_inv (MkTimestamp z')).
  - intros (rec & (row & Hs & Drec) & <-).
    destruct (sorted_row_ok _ _ _ Hok Hs) as [Hu Hrok]. exists row.
    apply elem_of_sorted_rows in Hs as [_ Hin]. split; [|done].
    destruct (decodes_inv _ _ Hrok Drec) as (b & Eb & Lb & Er & _).
    unfold row_key. simpl. rewrite Hu, Eb. do 2 f_equal.
    unfold timestamp_as_sql_database_format. apply from_be_bytes_inj.
    + by rewrite Timestamp_as_be_bytes_length.
    + by rewrite Timestamp_be_inv.
Qed.

(** Whether an instant is already in the history of the account. *)
Definition taken (ts : Timestamp) (recs : list HistoryRecord) : bool :=
  existsb (λ r, bool_decide (hr_timestamp r = ts)) recs.

Lemma taken_spec ts recs : taken ts recs = true ↔ ∃ r, r ∈ recs ∧ hr_timestamp r = ts.
Proof.
  unfold taken. rewrite existsb_exists. setoid_rewrite <- list_elem_of_In.
  by setoid_rewrite bool_decide_eq_true.
Qed.

Lemma records_of_add u t ts sg v :
  ts_ok ts = true →
  records_of v {| t_users := t_users t; t_history := t_history t ++ [record_row u ts sg] |}
  = records_of v t ++ (if decide (u = v) then [HistoryRecord_new sg ts] else []).
Proof.
  intros Hts. unfold records_of. simpl. rewrite list.filter_app, omap_app. f_equal.
  rewrite filter_cons. simpl. destruct (decide (u = v)) as [->|]; [|done]. csimpl.
  by rewrite (proj2 (row_record_decodes _ _) (decodes_record_row v ts sg Hts)).
Qed.

Lemma run_add_record t u a ts sg :
  tables_ok t → account_of t u = Some a → ts_ok ts = true →
  let '(o, p) := add_user_record u ts sg (answering t) in
  if taken ts (a_records a)
  then o = Done (Err (Rec_InternalDataBase (Sql (SqlxDatabase UniqueViolation)))) ∧ p_tables p = t
  else o = Done (Ok tt) ∧
       account_becomes t u {| a_balance := a_balance a;
                              a_records := a_records a ++ [HistoryRecord_new sg ts] |} (p_tables p).
Proof.
  intros Hok Ha Hts. destruct (account_row _ _ _ Ha) as [r Hr].
  pose proof (wp_add_user_record u ts sg (answering t) Hok) as Hw. unfold wp in Hw.
  pose proof (record_key_taken t u ts sg Hok Hts) as Hk.
  apply account_of_Some in Ha as [Hl Hrec]. rewrite <- Hrec, <- taken_spec in Hk.
  destruct (add_user_record u ts sg (answering t)) as [[[[]|[|e]]|] p]; simpl in Hw; [| | |done].
  - destruct Hw as (_ & Hok' & Hn & E). rewrite E in *. rewrite Hk in Hn.
    destruct (taken ts (a_records a)); [done|]. split; [done|].
    unfold account_becomes. split_and!; [done| | |done].
    + apply account_of_Some. simpl. rewrite records_of_add, Hrec, decide_True by done. done.
    + intros v Hv. unfold account_of. rewrite records_of_add, decide_False by done.
      by rewrite app_nil_r.
  - destruct Hw as [_ Hw]. congruence.
  - destruct Hw as [Ht Hw]. destruct (Hw eq_refl) as [-> Hin]. apply Hk in Hin.
    by rewrite Hin.
Qed.
End Abstraction.
