(* ===== verification/SessionSpec.v ===== *)
(** * SessionSpec: a session does what its account says

    [serve] is the abstract specification of a session: what one request does to
    one account, with no database, stream or codec in sight.  The theorems show
    that [session_handler] of [ConnHandler], run on the whole stack of database,
    oracle and signer, implements it. *)
From S2P Require Import Prelude Bytes Protocol Sql Database DatabaseSpec TimeOracle Signer.
From S2P Require Import Effects ConnHandler Account.

(** ** The specification *)

(** How one request ends: a response (and whether the session is over), an error
    that closes the connection, or a panic; with the account it leaves. *)
Inductive served :=
| Replies (r : Response) (logout : bool) (a : account)
| Dies (e : InternalError) (a : account)
| Panics (msg : string) (a : account).

Definition served_account (s : served) : account :=
  match s with Replies _ _ a | Dies _ a | Panics _ a => a end.

Definition with_balance (b : Z) (a : account) : account :=
  {| a_balance := b; a_records := a_records a |}.
Definition with_record (r : HistoryRecord) (a : account) : account :=
  {| a_balance := a_balance a; a_records := a_records a ++ [r] |}.

Definition serve (sign : Sha256Hash → Timestamp → outcome (result RsaSignature SignError))
    (now : SystemTime) (a : account) (req : Request) : served :=
  match req with
  | Login _ _ => Replies (LoginFailed LoginAlreadyLoggedIn) false a
  | SignUp _ _ => Replies (SignInFailed SignInAlreadyLoggedIn) false a
  | LogOut => Replies RespOk true a
  | HowManyTokensDoIHave => Replies (TokenCount (a_balance a)) false a
  | History => Replies (RespHistory (newest (a_records a))) false a
  | PurchaseTokens n =>
      let b := a_balance a + n in
      if i64_max <? b then Replies TokenAmountTooHigh false a
      else Replies (TokenCount b) false (with_balance b a)
  | SignHash h =>
      let paid := with_balance (a_balance a - 1) a in
      let ts := Timestamp_new now in
      if a_balance a <? 1 then Replies NotEnoughTokens false a
      else if now <? 0 then Dies ClockStaggered paid
      else match sign h ts with
      | Panic msg => Panics msg paid
      | Done (Err _) => Replies (OperationError "Error while performing the operation.") false a
      | Done (Ok sg) =>
          if taken ts (a_records a)
          then Dies (DatabaseError (Sql (SqlxDatabase UniqueViolation))) paid
          else Replies (Token h sg ts) false (with_record (HistoryRecord_new sg ts) paid)
      end
  end.

(** Amounts are [u64]s. *)
Definition request_typed (req : Request) : bool :=
  match req with PurchaseTokens n => in_u64 n | _ => true end.

Section Running.
Context {SHA : Sha256Lib} {RSA : RsaLib} {HEX : HexLib} {ARGON : Argon2Lib}.
Context {S : Type} {SI : Signer S}.
Context {WREQ : Wincode Request} {WRESP : Wincode Response}.
Implicit Types (c : ctx S) (st : STSServerState S).

(** ** Running one event *)

Definition with_state st c : ctx S :=
  {| c_cur := c_cur c; c_turns := c_turns c; c_state := st; c_out := c_out c |}.

Definition quiet (e : event) : bool :=
  match e with EvNext | EvSend _ => false | _ => true end.

Lemma exec_act {A} e (f : answer e → prog A) c :
  quiet e = true →
  exec (act e ≫= f) c =
    let '(x, st) := perform (c_cur c) e (c_state c) in exec (f x) (with_state st c).
Proof.
  intros Hq. rewrite exec_bind. cbn.
  assert (next_turn e c = (c_cur c, c_turns c)) as -> by (by destruct e).
  assert (∀ x, sent e x = []) as Hs by (by destruct e).
  destruct (perform (c_cur c) e (c_state c)) as [x st]. cbn. by rewrite Hs, app_nil_r.
Qed.

Lemma on_database_answering {E A} (m : io E A) en st :
  en_faults en = [] →
  on_database m en st =
    ((m (answering (database st))).1, set_database (p_tables (m (answering (database st))).2) st).
Proof.
  intros Hf. unfold on_database, answering. rewrite Hf. by destruct (m _).
Qed.

(** The context with other tables. *)
Definition with_db (t : tables) c : ctx S := with_state (set_database t (c_state c)) c.

Lemma with_db_same c : with_db (database (c_state c)) c = c.
Proof. by destruct c as [? ? [] ?]. Qed.

End Running.

(** Run the event at the head of the goal. *)
Ltac run_event :=
  match goal with
  | |- context [exec (mbind ?f (act ?e)) ?c] =>
      match type of (exec_act e f c eq_refl) with
      | _ = ?r => replace (exec (mbind f (act e)) c) with r by (symmetry; exact (exec_act e f c eq_refl))
      end
  end; cbn [perform].

(** Run the database event at the head of the goal with the lemma about it. *)
Ltac db_event lem :=
  run_event;
  rewrite on_database_answering by done;
  let H := fresh "H" in
  pose proof lem as H;
  match type of H with let '(_, _) := ?m in _ => destruct m as [? ?] end;
  cbn [fst snd] in *.

Ltac unwind := cbn [unwinding]; rewrite ?ret_bind; cbn beta iota.

(** ** One request *)

Section Refinement.
Context {SHA : Sha256Lib} {RSA : RsaLib} {HEX : HexLib} {ARGON : Argon2Lib}.
Context {S : Type} {SI : Signer S}.
Context {WREQ : Wincode Request} {WRESP : Wincode Response}.
Implicit Types (c : ctx S) (st : STSServerState S).

Definition sign_of c (h : Sha256Hash) (ts : Timestamp) : outcome (result RsaSignature SignError) :=
  generate_timestamp_signature (signer (c_state c)) (signing_key (c_state c)) h ts
    (en_task_cancelled (c_cur c)).
Definition now_of c : SystemTime := time_now (en_clock (c_cur c)) (oracle_offset (c_state c)).

(** The database answers and the clock is a clock. *)
Definition calm c : Prop :=
  en_faults (c_cur c) = [] ∧ representable (en_clock (c_cur c)) = true ∧
  in_i64 (oracle_offset (c_state c)) = true.

Definition arm_ends (u : string) (s : served)
    : ending (result (Response * bool) HandlerError) :=
  match s with
  | Replies r l _ => Returned (Ok (r, l))
  | Dies e _ => Returned (Err (Domain (Some u) e))
  | Panics msg _ => Crashed msg
  end.

(** A run [r] from [c] that ends like [s] and only changes the tables, to [t0] with
    the account replaced. *)
Definition refines_from (t0 : tables) (u : string) (s : served) c
    (r : ending (result (Response * bool) HandlerError) * ctx S) : Prop :=
  ∃ t', r = (arm_ends u s, with_db t' c) ∧ account_becomes t0 u (served_account s) t'.

Lemma refines_same t0 u s c :
  account_becomes t0 u (served_account s) (database (c_state c)) →
  refines_from t0 u s c (arm_ends u s, c).
Proof. intros. exists (database (c_state c)). by rewrite with_db_same. Qed.

Lemma refines_with_db t0 u s c t r :
  refines_from t0 u s (with_db t c) r → refines_from t0 u s c r.
Proof. intros (t' & -> & H). by exists t'. Qed.

Lemma now_ts_ok c :
  calm c → 0 ≤ now_of c → ts_ok (Timestamp_new (now_of c)) = true.
Proof.
  intros (_ & Hr & Ho) Hnow. apply ts_ok_spec. simpl. split; [done|].
  pose proof (time_now_representable (en_clock (c_cur c)) (oracle_offset (c_state c))
    ltac:(by apply in_range_spec) Hr) as Hn.
  apply representable_spec in Hn. unfold now_of in *.
  unfold NANOS_PER_SEC, i64_max, u128_max in *. lia.
Qed.

Lemma refund_refines t0 u a c :
  calm c → tables_ok t0 → account_of t0 u = Some a → 0 < a_balance a →
  account_becomes t0 u (with_balance (a_balance a - 1) a) (database (c_state c)) →
  refines_from t0 u
    (Replies (OperationError "Error while performing the operation.") false a) c
    (exec (refund_arm u) c).
Proof.
  intros (Hf & _) Hok Ha Hpos Hb. unfold refund_arm. pose proof Hb as (Hok' & Ha' & _).
  pose proof (account_balance_bounds _ _ _ Hok Ha) as Hbd.
  db_event (run_add _ u _ 1 Hok' Ha' ltac:(lia)). simpl in H.
  replace (a_balance a - 1 + 1) with (a_balance a) in H by lia.
  rewrite (proj2 (Z.ltb_ge i64_max (a_balance a))) in H by lia.
  destruct H as [-> H]. cbn. eexists. split; [reflexivity|].
  eapply account_becomes_trans; [done|]. by destruct a.
Qed.

Lemma record_refines t0 u a c h ts sg :
  calm c → ts_ok ts = true →
  account_becomes t0 u (with_balance (a_balance a - 1) a) (database (c_state c)) →
  refines_from t0 u
    (if taken ts (a_records a)
     then Dies (DatabaseError (Sql (SqlxDatabase UniqueViolation))) (with_balance (a_balance a - 1) a)
     else Replies (Token h sg ts) false
            (with_record (HistoryRecord_new sg ts) (with_balance (a_balance a - 1) a))) c
    (exec (record_arm u h ts sg) c).
Proof.
  intros (Hf & _) Hts Hb. unfold record_arm. pose proof Hb as (Hok & Ha & _).
  db_event (run_add_record _ u _ ts sg Hok Ha Hts). simpl in H.
  destruct (taken ts (a_records a)); destruct H as [-> H]; cbn; eexists; (split; [reflexivity|]).
  - by rewrite H.
  - by eapply account_becomes_trans.
Qed.

Lemma sign_hash_refines u a c h :
  calm c → tables_ok (database (c_state c)) → account_of (database (c_state c)) u = Some a →
  refines_from (database (c_state c)) u (serve (sign_of c) (now_of c) a (SignHash h)) c
    (exec (sign_hash_arm u h) c).
Proof.
  intros Hc Hok Ha. pose proof Hc as (Hf & _). unfold sign_hash_arm, serve.
  db_event (run_subtract_one _ u _ Hok Ha).
  destruct (Z.ltb_spec (a_balance a) 1); destruct H as [-> H]; unwind.
  { change (with_state _ c) with (with_db (p_tables p) c). rewrite H, with_db_same.
    apply (refines_same _ _ (Replies _ _ _)). by apply account_becomes_refl. }
  change (with_state _ c) with (with_db (p_tables p) c). apply refines_with_db with (p_tables p).
  run_event.
  change (time_now _ _) with (now_of c).
  change (with_state _ _) with (with_db (p_tables p) c).
  unfold duration_since_epoch, UNIX_EPOCH.
  destruct (Z.leb_spec 0 (now_of c)), (Z.ltb_spec (now_of c) 0); try lia.
  2:{ apply (refines_same _ _ (Dies _ _)). done. }
  rewrite Z.sub_0_r. run_event.
  change (generate_timestamp_signature _ _ _ _ _) with (sign_of c h (Timestamp_new (now_of c))).
  change (with_state _ _) with (with_db (p_tables p) c).
  destruct (sign_of c h (Timestamp_new (now_of c))) as [[sg|e]|msg]; unwind.
  - apply record_refines; [done|by apply now_ts_ok|done].
  - by apply refund_refines; [..|lia|].
  - apply (refines_same _ _ (Panics _ _)). done.
Qed.

Lemma session_arm_refines u a c req :
  calm c → tables_ok (database (c_state c)) → account_of (database (c_state c)) u = Some a →
  request_typed req = true →
  refines_from (database (c_state c)) u (serve (sign_of c) (now_of c) a req) c
    (exec (session_arm u req) c).
Proof.
  intros Hc Hok Ha Hreq. pose proof Hc as (Hf & _).
  pose proof (account_becomes_refl _ _ _ Hok Ha) as Hrefl.
  destruct req as [| | |h|n| |]; cbn -[exec sign_hash_arm purchase_arm how_many_arm history_arm serve].
  1,2,3: by apply (refines_same _ _ (Replies _ _ _)).
  - by apply sign_hash_refines.
  - apply in_range_spec in Hreq as [Hn _]. unfold purchase_arm, serve.
    db_event (run_add _ u _ n Hok Ha Hn).
    destruct (i64_max <? a_balance a + n); destruct H as [-> H]; cbn;
      eexists; (split; [reflexivity|]); [by rewrite H|done].
  - unfold how_many_arm, serve. db_event (run_get_tokens _ u _ Hok Ha). destruct H as [-> H]; cbn.
    eexists; (split; [reflexivity|]); by rewrite H.
  - unfold history_arm, serve. db_event (run_history _ u _ Hok Ha). destruct H as [-> H]; cbn.
    eexists; (split; [reflexivity|]); by rewrite H.
Qed.

(** ** A whole session *)

(** A turn in which the client sends [req] and nothing goes wrong around it. *)
Definition turn_ok (tn : env * Request) : Prop :=
  let '(en, req) := tn in
  (∃ bytes, en_next en = Some (Ok bytes) ∧ deserialize bytes = Ok req) ∧
  request_typed req = true ∧ en_send en = Ok tt ∧ en_faults en = [] ∧
  representable (en_clock en) = true.

Inductive session_end :=
| EndedStream
| EndedLogout
| EndedDead (e : InternalError)
| EndedPanic (msg : string).

(** The specification over the turns of a session: how it ends, the responses in
    order, the final account. *)
Fixpoint serve_all st (turns : list (env * Request)) (a : account)
    : session_end * list Response * account :=
  match turns with
  | [] => (EndedStream, [], a)
  | (en, req) :: rest =>
      let sign h ts :=
        generate_timestamp_signature (signer st) (signing_key st) h ts (en_task_cancelled en) in
      match serve sign (time_now (en_clock en) (oracle_offset st)) a req with
      | Replies r true a' => (EndedLogout, [r], a')
      | Replies r false a' => let '(e, rs, a'') := serve_all st rest a' in (e, r :: rs, a'')
      | Dies e a' => (EndedDead e, [], a')
      | Panics msg a' => (EndedPanic msg, [], a')
      end
  end.

(** The specification does not look at the tables. *)
Lemma serve_all_db t st turns a : serve_all (set_database t st) turns a = serve_all st turns a.
Proof.
  revert a. induction turns as [|[en req] turns IH]; intros a; [done|]. cbn.
  destruct (serve _ _ _ _) as [r [] a1| |]; [done| |done..]. by rewrite IH.
Qed.

Definition session_ends (u : string) (e : session_end)
    : ending (result ClosedSessionReason HandlerError) :=
  match e with
  | EndedStream => Returned (Ok (ClosedStream ClientAsked))
  | EndedLogout => Returned (Ok LoggedOut)
  | EndedDead e => Returned (Err (Domain (Some u) e))
  | EndedPanic msg => Crashed msg
  end.

(** The context at the start of a turn. *)
Definition at_turn (en : env) (rest : list env) c : ctx S :=
  {| c_cur := en; c_turns := rest; c_state := c_state c; c_out := c_out c |}.

Lemma exec_fetch addr c en rest bytes req :
  c_turns c = en :: rest → cancel_token (c_state c) = false →
  en_next en = Some (Ok bytes) → deserialize bytes = Ok req →
  exec (fetch_next_request addr) c = (Returned (Ok (Some req)), at_turn en rest c).
Proof.
  intros Ht Hc Hn Hd. unfold fetch_next_request. rewrite exec_bind. cbn. rewrite Ht. cbn.
  rewrite Hc, Hn. cbn. rewrite Hd, app_nil_r. done.
Qed.

Lemma exec_fetch_end addr c :
  c_turns c = [] → cancel_token (c_state c) = false →
  exec (fetch_next_request addr) c = (Returned (Ok None), at_turn closed_stream [] c).
Proof.
  intros Ht Hc. unfold fetch_next_request. rewrite exec_bind. cbn. rewrite Ht. cbn.
  rewrite Hc. cbn. by rewrite app_nil_r.
Qed.

Definition with_out (b : list byte) c : ctx S :=
  {| c_cur := c_cur c; c_turns := c_turns c; c_state := c_state c; c_out := c_out c ++ [b] |}.

Lemma exec_respond r b c :
  serialize r = Ok b → en_send (c_cur c) = Ok tt →
  exec (respond r) c = (Returned (Ok tt), with_out b c).
Proof.
  intros Hs He. unfold respond. rewrite exec_try, Hs. cbn.
  by rewrite He.
Qed.

(** What a session did to the context: frames went out and one account changed. *)
Definition session_effect (u : string) (a : account) (rs : list Response) c c' : Prop :=
  ∃ frames t', c_out c' = c_out c ++ frames ∧ Forall2 (λ r b, serialize r = Ok b) rs frames ∧
    c_state c' = set_database t' (c_state c) ∧
    account_becomes (database (c_state c)) u a t'.

Lemma session_effect_nil u a c cur turns t' :
  account_becomes (database (c_state c)) u a t' →
  session_effect u a [] c
    {| c_cur := cur; c_turns := turns; c_state := set_database t' (c_state c); c_out := c_out c |}.
Proof. intros. exists [], t'. cbn. rewrite app_nil_r. by split_and!. Qed.

Lemma session_effect_refl u a c :
  tables_ok (database (c_state c)) → account_of (database (c_state c)) u = Some a →
  session_effect u a [] c c.
Proof.
  intros. exists [], (database (c_state c)). rewrite app_nil_r. split_and!; [done..| |].
  - by destruct c as [? ? [] ?].
  - by apply account_becomes_refl.
Qed.

Lemma session_effect_cons u a a' r b rs c en rest t1 c' :
  serialize r = Ok b → account_becomes (database (c_state c)) u a t1 →
  session_effect u a' rs (with_out b (with_db t1 (at_turn en rest c))) c' →
  session_effect u a' (r :: rs) c c'.
Proof.
  intros Hs Hb (frames & t' & Ho & HF & Hst & Hb'). exists (b :: frames), t'. cbn in *.
  rewrite Ho, Hst, <- app_assoc. split_and!; [done|by constructor|done|].
  by eapply account_becomes_trans.
Qed.
End Refinement.

(** C1: a session implements its specification.  For every sequence of requests
    of a client that is served by an answering database and a calm network, on
    tables that satisfy the invariant, the loop of [session_handler] ends as
    [serve_all] says (with a bound on its iterations larger than the number of
    turns it does not run out of it), the frames on the wire are the
    serializations of the specified responses in order, the account is the
    specified one, and no other account, password or part of the server state
    has changed. *)
Theorem session_refines
    {SHA : Sha256Lib} {RSA : RsaLib} {HEX : HexLib} {ARGON : Argon2Lib} {S : Type} {SI : Signer S}
    {WREQ : Wincode Request} {WRESP : Wincode Response}
    (n : nat) (addr : SocketAddr) (u : string) (turns : list (env * Request)) (c : ctx S)
    (a a' : account) (e : session_end) (rs : list Response) :
  (length turns < n)%nat →
  c_turns c = fst <$> turns →
  Forall turn_ok turns →
  cancel_token (c_state c) = false →
  in_i64 (oracle_offset (c_state c)) = true →
  tables_ok (database (c_state c)) →
  account_of (database (c_state c)) u = Some a →
  serve_all (c_state c) turns a = (e, rs, a') →
  Forall (λ r, is_ok (serialize r) = true) rs →
  ∃ c', exec (session_handler n (Session_bundle addr u)) c = (session_ends u e, c') ∧
        session_effect u a' rs c c'.
Proof.
  revert n c a e rs. induction turns as [|[en req] turns IH];
    intros [|n] c a e rs Hn Ht Hall Hcan Ho Hok Ha Hserve Hser; cbn in Hn; try lia.
  { cbn in Hserve. injection Hserve as <- <- <-. cbn -[fetch_next_request closed_reason].
    rewrite exec_bind, exec_fetch_end by done. cbn. rewrite Hcan. cbn. eexists. split; [done|].
    rewrite app_nil_r. rewrite <- (with_db_same c) at 2. apply session_effect_nil.
    by apply account_becomes_refl. }
  apply list.Forall_cons in Hall as [((bytes & Hnext & Hdes) & Hty & Hsend & Hf & Hclk) Hall].
  cbn in Ht. cbn -[fetch_next_request session_arm respond].
  rewrite exec_bind, (exec_fetch _ _ en (turns.*1) bytes req) by done.
  cbn -[session_arm respond]. rewrite exec_try.
  destruct (session_arm_refines u a (at_turn en turns.*1 c) req) as (t1 & -> & Hb); [by split_and!|done..|].
  cbn [serve_all] in Hserve. unfold sign_of, now_of in *. cbn [c_cur c_state at_turn] in *.
  destruct (serve _ _ a req) as [r [] a1|er a1|msg a1]; cbn [arm_ends map_ending fst snd served_account] in *.
  - injection Hserve as <- <- <-. apply list.Forall_cons in Hser as [Hr _].
    destruct (serialize r) as [b|] eqn:Eb; [|done]. rewrite exec_try, (exec_respond r b) by done. cbn.
    eexists. split; [done|]. eapply session_effect_cons; [done..|].
    by apply session_effect_refl; destruct Hb as (? & ? & _).
  - destruct (serve_all (c_state c) turns a1) as [[e' rs'] a''] eqn:Es. injection Hserve as -> <- ->.
    apply list.Forall_cons in Hser as [Hr Hser].
    destruct (serialize r) as [b|] eqn:Eb; [|done]. rewrite exec_try, (exec_respond r b) by done.
    cbn -[session_handler]. pose proof Hb as (Hok1 & Ha1 & _).
    destruct (IH n (with_out b (with_db t1 (at_turn en turns.*1 c))) a1 e rs') as (c' & E & Heff);
      [lia|done..|by cbn; rewrite serve_all_db|done|].
    exists c'. split; [done|]. by eapply session_effect_cons.
  - injection Hserve as <- <- <-. cbn. eexists. split; [done|].
    exact (session_effect_nil u a1 c en turns.*1 t1 Hb).
  - injection Hserve as <- <- <-. cbn. eexists. split; [done|].
    exact (session_effect_nil u a1 c en turns.*1 t1 Hb).
Qed.

(** ** A concrete server to evaluate on *)
Module ToyConn.
(** A codec given by a table of messages and frames. *)
Definition table_codec {T} `{!EqDecision T} (tbl : list (T * list byte)) : Wincode T := {|
  wincode_serialize _ m :=
    match list_find (λ p, p.1 = m) tbl with Some (_, p) => Ok p.2 | None => Err "unknown"%string end;
  wincode_deserialize _ b :=
    match list_find (λ p, p.2 = b) tbl with Some (_, p) => Ok p.1 | None => Err "unknown"%string end
|}.

(** Where the frames differ it reads back what it writes. *)
Lemma table_codec_laws {T} `{!EqDecision T} (tbl : list (T * list byte)) :
  NoDup (snd <$> tbl) → @WincodeLaws T (table_codec tbl).
Proof.
  intros Hn. constructor. intros cfg x l. cbn.
  destruct (list_find (λ p, p.1 = x) tbl) as [[i [y b]]|] eqn:E; [|done]. cbn. intros [= <-].
  apply list_find_Some in E as (Hi & E & _). cbn in E. subst y.
  assert (list_find (λ p, p.2 = b) tbl = Some (i, (x, b))) as ->; [|done].
  apply list_find_Some. split_and!; [done..|]. intros j [y c] Hj Hlt E. cbn in E. subst c.
  assert (i = j); [|lia]. eapply NoDup_lookup; [exact Hn|by rewrite list_lookup_fmap, Hi|].
  by rewrite list_lookup_fmap, Hj.
Qed.

Definition addr : SocketAddr := {| sa_ip := "127.0.0.1"%string; sa_port := 4000 |}.
Definition en_of (b : list byte) : env := {|
  en_handshake := Ok tt; en_cancel_first := false; en_next := Some (Ok b); en_send := Ok tt;
  en_faults := []; en_salt := "salt"%string; en_clock := 1000; en_task_cancelled := false |}.

(** The requests the table knows, with their frames. *)
Definition requests : list (Request * list byte) :=
  [(SignHash Toy.hash1, [x01]); (HowManyTokensDoIHave, [x02]); (PurchaseTokens u64_max, [x03]);
   (LogOut, [x04]); (Login ToyDb.alice "secret", [x05]); (Login ToyDb.alice "wrong", [x06]);
   (SignUp "bob" "pw", [x07]); (History, [x08])]%string.
Definition sg1 : RsaSignature :=
  match sign_with_timestamp (SHA := Toy.sha) (RSA := Toy.rsa) 256%nat Toy.hash1 (MkTimestamp 1000)
  with Done (Ok s) => s | _ => Toy.sig1 end.
Definition responses : list (Response * list byte) :=
  [(Token Toy.hash1 sg1 (MkTimestamp 1000), [x01]); (TokenCount 9, [x02]);
   (TokenAmountTooHigh, [x03]); (RespOk, [x04]); (LoginFailed LoginAlreadyLoggedIn, [x05]);
   (LoginFailed InvalidCredentials, [x06]); (NotLoggedIn, [x07]);
   (SignInFailed UsernameAlreadyTaken, [x08])].
Definition wreq : Wincode Request := table_codec requests.
Definition wresp : Wincode Response := table_codec responses.
#[export] Instance wresp_laws : @WincodeLaws Response wresp.
Proof. apply table_codec_laws. apply (bool_decide_unpack (NoDup _)). vm_compute. exact I. Qed.

Definition st0 : @STSServerState Toy.rsa SlowSigner :=
  get_slow_build (RSA := Toy.rsa) (from_bundle (RSA := Toy.rsa) ToyDb.db false 256%nat
    {| to_offset_nanos := 0%nat |} {[0%nat := 0]}).
Definition ctx_of (bs : list (list byte)) : @ctx Toy.rsa SlowSigner :=
  {| c_cur := closed_stream; c_turns := en_of <$> bs; c_state := st0; c_out := [] |}.
Definition turns : list (env * Request) :=
  [(en_of [x01], SignHash Toy.hash1); (en_of [x02], HowManyTokensDoIHave);
   (en_of [x03], PurchaseTokens u64_max); (en_of [x04], LogOut)].
Definition alice_account : account :=
  {| a_balance := 10; a_records := [HistoryRecord_new Toy.sig1 (MkTimestamp 5)] |}.
Definition alice_later : account :=
  {| a_balance := 9; a_records := [HistoryRecord_new Toy.sig1 (MkTimestamp 5);
                                   HistoryRecord_new sg1 (MkTimestamp 1000)] |}.
End ToyConn.

Lemma session_refines_witness :
  ∃ c', exec (SHA := Toy.sha) (RSA := Toy.rsa) (HEX := Toy.hex) (ARGON := ToyDb.argon)
          (SI := @slow_signer Toy.sha Toy.rsa)
          (session_handler (WREQ := ToyConn.wreq) (WRESP := ToyConn.wresp) 5
             (Session_bundle ToyConn.addr ToyDb.alice))
          (ToyConn.ctx_of [[x01]; [x02]; [x03]; [x04]]) = (Returned (Ok LoggedOut), c') ∧
        session_effect (RSA := Toy.rsa) (HEX := Toy.hex) (WRESP := ToyConn.wresp) ToyDb.alice
          ToyConn.alice_later (fst <$> take 4 ToyConn.responses)
          (ToyConn.ctx_of [[x01]; [x02]; [x03]; [x04]]) c'.
Proof.
  apply (session_refines (SHA := Toy.sha) (RSA := Toy.rsa) (HEX := Toy.hex)
    (ARGON := ToyDb.argon) (SI := @slow_signer Toy.sha Toy.rsa)
    (WREQ := ToyConn.wreq) (WRESP := ToyConn.wresp) 5 ToyConn.addr ToyDb.alice ToyConn.turns
    (ToyConn.ctx_of [[x01]; [x02]; [x03]; [x04]]) ToyConn.alice_account ToyConn.alice_later
    EndedLogout (fst <$> take 4 ToyConn.responses)).
  - cbn. lia.
  - reflexivity.
  - repeat (constructor; [split_and!; [eexists; split; [reflexivity|vm_compute; reflexivity]
      |reflexivity..]|]). constructor.
  - reflexivity.
  - reflexivity.
  - apply (bool_decide_unpack (tables_ok ToyDb.db)). vm_compute. exact I.
  - vm_compute. reflexivity.
  - vm_compute. reflexivity.
  - repeat (constructor; [vm_compute; reflexivity|]). constructor.
Defined.
