(* ===== verification/ConnSpec.v ===== *)
(** * ConnSpec: requests on either side of the login

    Theorems about single requests of [ConnHandler]: what a login or a sign-up
    answers and changes, what an anonymous client is refused, that a receipt is
    genuine, and where a token is returned or lost. *)
From S2P Require Import Prelude Bytes Protocol Sql Database DatabaseSpec TimeOracle Signer.
From S2P Require Import Effects ConnHandler Account SessionSpec.

Section Anonymous.
Context {SHA : Sha256Lib} {RSA : RsaLib} {HEX : HexLib} {ARGON : Argon2Lib}.
Context {S : Type} {SI : Signer S}.
Implicit Types (c : ctx S).

(** Whether the password is the one of the account; an error when the stored hash
    is not one. *)
Definition credentials_valid (t : tables) (u pw : string) : result bool PwHashError :=
  match select_password_hash u t with
  | None => Ok false
  | Some h =>
      match PasswordHash_new h with
      | Err e => Err e
      | Ok ph => Ok (is_ok (verify_password pw ph))
      end
  end.

(** What a login does: the response, the session, and the set of logged users. *)
Definition login_spec (addr : SocketAddr) (u pw : string) (t : tables) (logged : gset string)
    : result (Response * option Session) HandlerError * gset string :=
  match credentials_length_error u pw with
  | Some _ => (Ok (LoginFailed InvalidCredentials, None), logged)
  | None =>
      match credentials_valid t u pw with
      | Err e => (Err (Domain None (DatabaseError (Hash e))), logged)
      | Ok false => (Ok (LoginFailed InvalidCredentials, None), logged)
      | Ok true =>
          if decide (u ∈ logged) then (Ok (LoginFailed LoginAlreadyLoggedIn, None), logged)
          else (Ok (RespOk, Some (Session_bundle addr u)), {[u]} ∪ logged)
      end
  end.

Definition with_logged (l : gset string) c : ctx S :=
  with_state (set_logged_users l (c_state c)) c.

Lemma with_logged_same c : with_logged (logged_users (c_state c)) c = c.
Proof. by destruct c as [? ? [] ?]. Qed.

Lemma run_verify t u pw :
  let '(o, p) := verify_user_password u pw (answering t) in
  p_tables p = t ∧
  match o with
  | Done (Ok _) => credentials_valid t u pw = Ok true
  | Done (Err (Auth_UserNotFound _)) | Done (Err Auth_InvalidPassword) =>
      credentials_valid t u pw = Ok false
  | Done (Err (Auth_InternalDataBase (Hash e))) => credentials_valid t u pw = Err e
  | _ => False
  end.
Proof.
  pose proof (wp_verify_user_password u pw (answering t)) as Hw. unfold wp in Hw.
  destruct (verify_user_password u pw (answering t)) as [o p]. destruct Hw as [Ht Hw].
  split; [done|]. unfold credentials_valid.
  destruct o as [[[]|[v| |[e|e]]]|]; simpl in Hw; [| | |by destruct Hw| |done].
  - destruct Hw as (h & ph & -> & -> & ->). done.
  - by destruct Hw as [_ ->].
  - destruct Hw as (h & ph & e & -> & -> & ->). done.
  - destruct Hw as (h & -> & ->). done.
Qed.

Lemma exec_login addr u pw c :
  en_faults (c_cur c) = [] →
  exec (login_arm addr u pw) c =
    let '(r, l) := login_spec addr u pw (database (c_state c)) (logged_users (c_state c)) in
    (Returned r, with_logged l c).
Proof.
  intros Hf. unfold login_arm, login_spec.
  destruct (credentials_length_error u pw); [by rewrite with_logged_same|].
  run_event. rewrite on_database_answering by done.
  pose proof (run_verify (database (c_state c)) u pw) as Hv.
  destruct (verify_user_password u pw _) as [o p]. destruct Hv as [Ht Hv]. cbn [fst snd].
  rewrite Ht. change (with_state _ c) with (with_db (database (c_state c)) c). rewrite with_db_same.
  destruct o as [[[]|[v| |[e|e]]]|]; try done; unwind; rewrite Hv; try by rewrite with_logged_same.
  run_event. destruct (decide (u ∈ logged_users (c_state c))) as [Hin|Hout].
  - rewrite bool_decide_false by naive_solver. rewrite (subseteq_union_1_L {[u]}) by set_solver.
    change (with_state _ c) with (with_logged (logged_users (c_state c)) c). done.
  - by rewrite bool_decide_true.
Qed.
End Anonymous.

(** C18: a login, on every branch: over-long credentials, an unknown user and a
    wrong password all answer [InvalidCredentials]; the right password answers
    [AlreadyLoggedIn] when the user is online, and otherwise opens a session and
    adds exactly that user to the logged ones; nothing else changes. *)
Theorem login_outcome {SHA : Sha256Lib} {RSA : RsaLib} {HEX : HexLib} {ARGON : Argon2Lib}
    {S : Type} {SI : Signer S} (addr : SocketAddr) (u pw : string) (c : ctx S) :
  en_faults (c_cur c) = [] →
  exec (conn_arm addr (Login u pw)) c =
    let '(r, l) := login_spec addr u pw (database (c_state c)) (logged_users (c_state c)) in
    (Returned r, with_logged l c).
Proof. apply exec_login. Qed.

Lemma login_outcome_witness :
  exec (SHA := Toy.sha) (RSA := Toy.rsa) (HEX := Toy.hex) (ARGON := ToyDb.argon)
    (SI := @slow_signer Toy.sha Toy.rsa) (conn_arm ToyConn.addr (Login ToyDb.alice "secret"))
    (ToyConn.ctx_of []) =
  (Returned (Ok (RespOk, Some (Session_bundle ToyConn.addr ToyDb.alice))),
   with_logged {[ToyDb.alice]} (ToyConn.ctx_of [])).
Proof.
  rewrite (login_outcome (SHA := Toy.sha) (RSA := Toy.rsa) (HEX := Toy.hex)
    (ARGON := ToyDb.argon) (SI := @slow_signer Toy.sha Toy.rsa)) by reflexivity.
  vm_compute. reflexivity.
Defined.

(** C19: no user enumeration.  To a client that does not have the password, two
    servers answer a login alike, whichever accounts exist and whoever is online
    in them. *)
Theorem login_hides_accounts {SHA : Sha256Lib} {RSA : RsaLib} {HEX : HexLib} {ARGON : Argon2Lib}
    {S : Type} {SI : Signer S} (addr : SocketAddr) (u pw : string) (c1 c2 : ctx S) :
  en_faults (c_cur c1) = [] → en_faults (c_cur c2) = [] →
  credentials_valid (database (c_state c1)) u pw = Ok false →
  credentials_valid (database (c_state c2)) u pw = Ok false →
  (exec (conn_arm addr (Login u pw)) c1).1 = (exec (conn_arm addr (Login u pw)) c2).1 ∧
  (exec (conn_arm addr (Login u pw)) c1).2 = c1 ∧
  (exec (conn_arm addr (Login u pw)) c2).2 = c2.
Proof.
  intros H1 H2 V1 V2. cbn [conn_arm]. rewrite !exec_login by done.
  unfold login_spec. rewrite V1, V2.
  destruct (credentials_length_error u pw); cbn; by rewrite !with_logged_same.
Qed.

Lemma login_hides_accounts_witness :
  let run t pw := exec (SHA := Toy.sha) (RSA := Toy.rsa) (HEX := Toy.hex) (ARGON := ToyDb.argon)
    (SI := @slow_signer Toy.sha Toy.rsa) (conn_arm ToyConn.addr (Login ToyDb.alice pw))
    (with_db t (ToyConn.ctx_of [])) in
  (run ToyDb.db "guess"%string).1 = (run empty_tables "guess"%string).1.
Proof.
  intros run. apply (login_hides_accounts (SHA := Toy.sha) (RSA := Toy.rsa) (HEX := Toy.hex)
    (ARGON := ToyDb.argon) (SI := @slow_signer Toy.sha Toy.rsa) ToyConn.addr ToyDb.alice "guess"
    (with_db ToyDb.db (ToyConn.ctx_of [])) (with_db empty_tables (ToyConn.ctx_of []))); reflexivity.
Defined.

(** A frame that decodes to neither a login nor a sign-up, and a client that reads. *)
Definition anonymous_turn {WREQ : Wincode Request} (en : env) : bool :=
  match en_next en, en_send en with
  | Some (Ok bytes), Ok _ =>
      match deserialize bytes with
      | Ok (Login _ _) | Ok (SignUp _ _) | Err _ => false
      | Ok _ => true
      end
  | _, _ => false
  end.

(** C21: an anonymous client is refused.  A connection on which no login and no
    sign-up arrives answers every request with [NotLoggedIn], one frame each, and
    ends with the state of the server untouched, whatever the database and the
    clock do. *)
Theorem anonymous_refused {SHA : Sha256Lib} {RSA : RsaLib} {HEX : HexLib} {ARGON : Argon2Lib}
    {S : Type} {SI : Signer S} {WREQ : Wincode Request} {WRESP : Wincode Response}
    (n : nat) (addr : SocketAddr) (b : list byte) (c : ctx S) :
  (length (c_turns c) < n)%nat →
  forallb anonymous_turn (c_turns c) = true →
  cancel_token (c_state c) = false →
  serialize NotLoggedIn = Ok b →
  ∃ c', exec (conn_handler n addr) c = (Returned (Ok ClientAsked), c') ∧
        c_state c' = c_state c ∧ c_out c' = c_out c ++ replicate (length (c_turns c)) b.
Proof.
  revert c. induction n as [|n IH]; intros c Hn Hall Hc Hb; [lia|].
  unfold conn_handler in *. cbn [conn_handler_core]. rewrite exec_bind.
  destruct (c_turns c) as [|en turns] eqn:Et.
  { rewrite exec_fetch_end by done. cbn. rewrite Hc. eexists. split; [reflexivity|].
    cbn. by rewrite !app_nil_r. }
  cbn [forallb] in Hall. apply andb_true_iff in Hall as [Ha Hall]. unfold anonymous_turn in Ha.
  destruct (en_next en) as [[bytes|]|] eqn:En; try done.
  destruct (en_send en) as [[]|] eqn:Esend; try done.
  destruct (deserialize bytes) as [req|] eqn:Ed; [|done].
  rewrite (exec_fetch addr c en turns bytes req) by done.
  destruct (IH (with_out b (at_turn en turns c))) as (c' & Ec & Est & Eout);
    [cbn in *; lia|done..|].
  exists c'. cbn [map_ending network map_err]. split.
  - destruct req; try done; cbn [conn_arm]; rewrite exec_try; cbn [exec mret prog_ret map_ending];
      rewrite exec_try, (exec_respond _ b) by done; exact Ec.
  - rewrite Est, Eout. cbn. by rewrite <- app_assoc.
Qed.

Lemma anonymous_refused_witness :
  ∃ c', exec (SHA := Toy.sha) (RSA := Toy.rsa) (HEX := Toy.hex) (ARGON := ToyDb.argon)
          (SI := @slow_signer Toy.sha Toy.rsa)
          (conn_handler (WREQ := ToyConn.wreq) (WRESP := ToyConn.wresp) 3 ToyConn.addr)
          (ToyConn.ctx_of [[x01]; [x08]]) = (Returned (Ok ClientAsked), c') ∧
        c_state c' = ToyConn.st0 ∧ c_out c' = [[x07]; [x07]].
Proof.
  apply (anonymous_refused (SHA := Toy.sha) (RSA := Toy.rsa) (HEX := Toy.hex)
    (ARGON := ToyDb.argon) (SI := @slow_signer Toy.sha Toy.rsa) (WREQ := ToyConn.wreq)
    (WRESP := ToyConn.wresp) 3 ToyConn.addr [x07] (ToyConn.ctx_of [[x01]; [x08]]));
    [cbn; lia|vm_compute; reflexivity..].
Defined.

Section SignUp.
Context {SHA : Sha256Lib} {RSA : RsaLib} {HEX : HexLib} {ARGON : Argon2Lib}.

(** An account that does not exist has no records. *)
Lemma no_user_no_records t u : tables_ok t → t_users t !! u = None → records_of u t = [].
Proof.
  intros (_ & _ & Hf & _) Hu. unfold records_of.
  assert (filter (λ r, h_username r = u) (t_history t) = []) as ->; [|done].
  induction (t_history t) as [|r rows IH]; [done|].
  apply list.Forall_cons in Hf as [Hr Hf]. rewrite filter_cons_False; [by apply IH|].
  intros E. rewrite E, Hu in Hr. by destruct Hr.
Qed.

(** [t'] is [t] with a fresh account. *)
Definition account_opened (t : tables) (u : string) (t' : tables) : Prop :=
  tables_ok t' ∧ account_of t' u = Some {| a_balance := 0; a_records := [] |} ∧
  ∀ v, v ≠ u → account_of t' v = account_of t v ∧
               select_password_hash v t' = select_password_hash v t.

Lemma register_opens t t' u r :
  tables_ok t → t_users t !! u = None → tables_ok t' → t_history t' = t_history t →
  u_available_tokens r = SqlInteger 0 → t_users t' = <[u := r]> (t_users t) →
  account_opened t u t'.
Proof.
  intros Hok Hu Hok' Hh Hz Hus. unfold account_opened.
  split_and!; [done| |]; unfold account_of, records_of, select_password_hash; rewrite Hh.
  - rewrite ledger_lookup, Hus, lookup_insert_eq. cbn. unfold row_balance. rewrite Hz. cbn.
    do 2 f_equal. by apply no_user_no_records.
  - intros v Hv. by rewrite !ledger_lookup, Hus, lookup_insert_ne.
Qed.
End SignUp.

(** C20: a sign-up.  Over-long credentials are answered with the reason and a
    taken name with [UsernameAlreadyTaken], both without any change; otherwise the
    answer is [Ok], the new account has no tokens and no records, its password is
    accepted, and every other account is as it was.  It never opens a session. *)
Theorem sign_up_outcome {SHA : Sha256Lib} {RSA : RsaLib} {HEX : HexLib}
    {ARGON : Argon2Lib} {ARGONL : Argon2Laws} {S : Type} {SI : Signer S}
    (addr : SocketAddr) (u pw h : string) (c : ctx S) :
  en_faults (c_cur c) = [] → tables_ok (database (c_state c)) →
  hash_password pw (en_salt (c_cur c)) = Ok h →
  match credentials_length_error u pw with
  | Some reason =>
      exec (conn_arm addr (SignUp u pw)) c = (Returned (Ok (OperationError reason, None)), c)
  | None =>
      match t_users (database (c_state c)) !! u with
      | Some _ => exec (conn_arm addr (SignUp u pw)) c =
                    (Returned (Ok (SignInFailed UsernameAlreadyTaken, None)), c)
      | None => ∃ t', exec (conn_arm addr (SignUp u pw)) c =
                        (Returned (Ok (RespOk, None)), with_db t' c) ∧
                      account_opened (database (c_state c)) u t' ∧
                      credentials_valid t' u pw = Ok true
      end
  end.
Proof.
  intros Hf Hok Hh. cbn [conn_arm]. unfold sign_up_arm.
  destruct (credentials_length_error u pw); [done|].
  pose proof (wp_try_register_user (en_salt (c_cur c)) u pw (sa_ip addr)
    (answering (database (c_state c))) Hok) as Hw. unfold wp in Hw.
  run_event. rewrite on_database_answering by done.
  destruct (try_register_user _ u pw _ _) as [[[[]|[v|e]]|] p]; cbn [fst snd]; unwind; [| | |done].
  - destruct Hw as (h' & Eh & Eu & Hok' & Ehist & Eus). simpl in Eu. rewrite Eu.
    exists (p_tables p). split; [done|]. split; [eapply register_opens; [done..| |exact Eus]; done|].
    unfold credentials_valid, select_password_hash. rewrite Eus, lookup_insert_eq. cbn.
    destruct (argon2_roundtrip _ _ _ Eh) as (ph & -> & ->). done.
  - destruct Hw as (_ & Et & Hex). destruct (Hex eq_refl) as [r Hr]. simpl in Hr. rewrite Hr, Et.
    change (with_state _ c) with (with_db (database (c_state c)) c). by rewrite with_db_same.
  - destruct Hw as [_ He]. destruct (He eq_refl) as [e' ?]. congruence.
Qed.

Lemma sign_up_outcome_witness :
  ∃ t', exec (SHA := Toy.sha) (RSA := Toy.rsa) (HEX := Toy.hex) (ARGON := ToyDb.argon)
    (SI := @slow_signer Toy.sha Toy.rsa) (conn_arm ToyConn.addr (SignUp "bob" "pw"))
    (ToyConn.ctx_of []) = (Returned (Ok (RespOk, None)), with_db t' (ToyConn.ctx_of [])) ∧
  account_opened (HEX := Toy.hex) ToyDb.db "bob" t' ∧
  credentials_valid (ARGON := ToyDb.argon) t' "bob" "pw" = Ok true.
Proof.
  apply (sign_up_outcome (SHA := Toy.sha) (RSA := Toy.rsa) (HEX := Toy.hex)
    (ARGON := ToyDb.argon) (ARGONL := ToyDb.argon_laws) (SI := @slow_signer Toy.sha Toy.rsa)
    ToyConn.addr "bob" "pw" "pw" (ToyConn.ctx_of [])); [reflexivity| |reflexivity].
  apply (bool_decide_unpack (tables_ok ToyDb.db)). vm_compute. exact I.
Defined.

(** ** Receipts *)

Section Receipts.
Context {SHA : Sha256Lib} {RSA : RsaLib} {RSAL : RsaLaws} {HEX : HexLib} {ARGON : Argon2Lib}.
Context {S : Type} {SI : Signer S} {SL : SignerLaws S}.
Implicit Types (c : ctx S).

Lemma signature_verifies k h ts sg :
  sign_with_timestamp k h ts = Done (Ok sg) →
  verify_timestamp_signature (RsaPublicKey_from k) h ts sg = Ok tt.
Proof using RSAL.
  unfold sign_with_timestamp, verify_timestamp_signature.
  destruct (rsa_sign k _) as [l|] eqn:E; [|done]. destruct (array_try_from _ l) as [arr|] eqn:Ea; [|done].
  intros [= <-]. apply array_try_from_Some in Ea. unfold RsaSignature_as_ref; cbn. rewrite Ea.
  by apply rsa_sign_verifies.
Qed.

(** A database event, faults included. *)
Definition pool_of (en : env) (st : STSServerState S) : pool :=
  {| p_tables := database st; p_faults := en_faults en |}.

Lemma on_database_wp {E A} (m : io E A) en (st : STSServerState S) Q :
  wp m Q (pool_of en st) →
  ∃ o p, on_database m en st = (o, set_database (p_tables p) st) ∧ Q o p.
Proof.
  unfold wp, on_database, pool_of. destruct (m _) as [o p]. by exists o, p.
Qed.

Lemma record_token u h ts sg c r lo c' :
  tables_ok (database (c_state c)) →
  exec (record_arm u h ts sg) c = (Returned (Ok (r, lo)), c') →
  r = Token h sg ts ∧
  ledger (database (c_state c')) = ledger (database (c_state c)) ∧
  t_history (database (c_state c')) = t_history (database (c_state c)) ++ [record_row u ts sg].
Proof.
  intros Hok. unfold record_arm. run_event.
  destruct (on_database_wp (add_user_record u ts sg) (c_cur c) (c_state c) _
    (wp_add_user_record u ts sg (pool_of (c_cur c) (c_state c)) Hok)) as (o & p & -> & Hw).
  destruct o as [[[]|[]]|]; unwind; try done. intros [= <- <- <-]. cbn.
  destruct Hw as (_ & _ & _ & ->). done.
Qed.

Lemma refund_no_token u c h sg ts lo c' :
  exec (refund_arm u) c ≠ (Returned (Ok (Token h sg ts, lo)), c').
Proof.
  unfold refund_arm. run_event. destruct (on_database _ _ _) as [[r|msg] st]; unwind; done.
Qed.

(** What a token says, and what it cost. *)
Lemma sign_hash_token u h h' sg ts lo c c' :
  tables_ok (database (c_state c)) →
  exec (session_arm u (SignHash h)) c = (Returned (Ok (Token h' sg ts, lo)), c') →
  h' = h ∧ ts = Timestamp_new (now_of c) ∧ 0 ≤ now_of c ∧
  verify_timestamp_signature (RsaPublicKey_from (signing_key (c_state c))) h ts sg = Ok tt ∧
  (∃ b, ledger (database (c_state c)) !! u = Some b ∧ 1 ≤ b ∧
        ledger (database (c_state c')) = <[u := b - 1]> (ledger (database (c_state c)))) ∧
  t_history (database (c_state c')) = t_history (database (c_state c)) ++ [record_row u ts sg].
Proof using RSAL SL.
  intros Hok. cbn [session_arm]. unfold sign_hash_arm. run_event.
  destruct (on_database_wp (subtract_user_tokens u 1) (c_cur c) (c_state c) _
    (wp_subtract_user_tokens u 1 (pool_of (c_cur c) (c_state c)) Hok ltac:(lia))) as (o & p & -> & Hw).
  destruct o as [[b|[]]|]; unwind; try done. destruct Hw as (Habs & Hok' & Hsame & _).
  cbn [p_tables] in *. change (with_state _ c) with (with_db (p_tables p) c).
  run_event. change (time_now _ _) with (now_of c).
  change (with_state _ _) with (with_db (p_tables p) c).
  unfold duration_since_epoch, UNIX_EPOCH. destruct (Z.leb_spec 0 (now_of c)); [|done].
  rewrite Z.sub_0_r. run_event.
  change (generate_timestamp_signature _ _ _ _ _) with (sign_of c h (Timestamp_new (now_of c))).
  change (with_state _ _) with (with_db (p_tables p) c).
  destruct (sign_of c h (Timestamp_new (now_of c))) as [[sg'|e]|msg] eqn:Es; unwind; [| |done].
  2:{ intros H'. by apply refund_no_token in H'. }
  intros (Er & El & Eh)%record_token; [|done]. simplify_eq. cbn in *.
  apply (signer_sound (signer (c_state c))), signature_verifies in Es. split_and!; [done..| |congruence].
  unfold Ledger.debit in Habs. cbn [Z.ltb] in Habs.
  destruct (ledger (database (c_state c)) !! u) as [b'|] eqn:Eb; [|done].
  destruct (Z.ltb_spec b' 1); [done|]. injection Habs as <- Habs. exists b'.
  split_and!; [done..|]. congruence.
Qed.
End Receipts.

(** C4: a receipt is genuine.  When a session answers a [SignHash] with a token,
    on whatever faults, the token carries the hash that was asked for and the
    instant the oracle told, its signature verifies under the server's public
    key, exactly one token was taken from that account, and exactly that record
    was appended to the history. *)
Theorem receipt_is_genuine {SHA : Sha256Lib} {RSA : RsaLib} {RSAL : RsaLaws} {HEX : HexLib}
    {ARGON : Argon2Lib} {S : Type} {SI : Signer S} {SL : SignerLaws S}
    (u : string) (h h' : Sha256Hash) (sg : RsaSignature) (ts : Timestamp) (lo : bool) (c c' : ctx S) :
  tables_ok (database (c_state c)) →
  exec (session_arm u (SignHash h)) c = (Returned (Ok (Token h' sg ts, lo)), c') →
  h' = h ∧ ts = Timestamp_new (now_of c) ∧ 0 ≤ now_of c ∧
  verify_timestamp_signature (RsaPublicKey_from (signing_key (c_state c))) h ts sg = Ok tt ∧
  (∃ b, ledger (database (c_state c)) !! u = Some b ∧ 1 ≤ b ∧
        ledger (database (c_state c')) = <[u := b - 1]> (ledger (database (c_state c)))) ∧
  t_history (database (c_state c')) = t_history (database (c_state c)) ++ [record_row u ts sg].
Proof. apply sign_hash_token. Qed.

Lemma receipt_is_genuine_witness :
  verify_timestamp_signature (SHA := Toy.sha) (RSA := Toy.rsa) 256%nat Toy.hash1
    (MkTimestamp 1000) ToyConn.sg1 = Ok tt.
Proof.
  pose (c := with_db (RSA := Toy.rsa) ToyDb.db
    {| c_cur := ToyConn.en_of []; c_turns := []; c_state := ToyConn.st0; c_out := [] |}).
  refine (proj1 (proj2 (proj2 (proj2 (receipt_is_genuine (SHA := Toy.sha) (RSA := Toy.rsa)
    (RSAL := Toy.rsa_laws) (HEX := Toy.hex) (ARGON := ToyDb.argon)
    (SI := @slow_signer Toy.sha Toy.rsa) ToyDb.alice Toy.hash1 Toy.hash1 ToyConn.sg1
    (MkTimestamp 1000) false c
    (exec (SHA := Toy.sha) (RSA := Toy.rsa) (HEX := Toy.hex) (ARGON := ToyDb.argon)
       (SI := @slow_signer Toy.sha Toy.rsa) (session_arm ToyDb.alice (SignHash Toy.hash1)) c).2 _ _))))).
  - apply (bool_decide_unpack (tables_ok ToyDb.db)). vm_compute. exact I.
  - vm_compute. reflexivity.
Defined.

(** ** Where the token of a failed signature goes *)

Section Refund.
Context {SHA : Sha256Lib} {RSA : RsaLib} {HEX : HexLib} {ARGON : Argon2Lib}.
Context {S : Type} {SI : Signer S}.
Implicit Type st : STSServerState S.

(** The next events of a program, each in an environment of its own. *)
Definition run_events {A} (ens : list env) (p : prog A) st : prog A * STSServerState S :=
  foldl (λ x en, step_prog en x.1 x.2) (p, st) ens.

Lemma run_events_app {A} ens ens' (p : prog A) st :
  run_events (ens ++ ens') p st =
    run_events ens' (run_events ens p st).1 (run_events ens p st).2.
Proof. unfold run_events. rewrite foldl_app. by destruct (foldl _ _ ens). Qed.

Lemma step_act {A} en e (f : answer e → prog A) st :
  step_prog en (act e ≫= f) st = (f (perform en e st).1, (perform en e st).2).
Proof. cbn. by destruct (perform en e st). Qed.

(** A debit that was answered. *)
Lemma debit_answered u a b en st :
  tables_ok (database st) → account_of (database st) u = Some a →
  (perform en (EvSubtractTokens u 1) st).1 = Done (Ok b) →
  ∃ t, perform en (EvSubtractTokens u 1) st = (Done (Ok b), set_database t st) ∧ 1 ≤ a_balance a ∧
       account_becomes (database st) u (with_balance (a_balance a - 1) a) t.
Proof.
  intros Hok Ha. cbn.
  destruct (on_database_wp (subtract_user_tokens u 1) en st _
    (wp_subtract_user_tokens u 1 (pool_of en st) Hok ltac:(lia))) as (o & p & -> & Hw).
  intros [= ->]. destruct Hw as (Habs & Hok' & Hsame). exists (p_tables p). split; [done|].
  pose proof (proj1 (proj1 (account_of_Some _ _ _) Ha)) as Hl. cbn [pool_of p_tables] in *.
  unfold Ledger.debit in Habs. rewrite Hl in Habs. cbn [Z.ltb] in Habs.
  destruct (Z.ltb_spec (a_balance a) 1); [done|]. injection Habs as <- Habs. split; [done|].
  by apply account_becomes_balance.
Qed.

(** The refund, whatever the database answers. *)
Lemma refund_answered u a en st :
  tables_ok (database st) → account_of (database st) u = Some a → a_balance a < i64_max →
  ∃ refunded t, perform en (EvAddTokens u 1) st = (Done refunded, set_database t st) ∧
    match refunded with
    | Ok _ => account_becomes (database st) u (with_balance (a_balance a + 1) a) t
    | Err _ => t = database st
    end ∧ (en_faults en = [] → is_ok refunded = true).
Proof.
  intros Hok Ha Hb. cbn.
  destruct (on_database_wp (add_user_tokens u 1) en st _
    (wp_add_user_tokens u 1 (pool_of en st) Hok ltac:(lia))) as (o & p & -> & Hw).
  pose proof (proj1 (proj1 (account_of_Some _ _ _) Ha)) as Hl. cbn [pool_of p_tables] in *.
  unfold ledger_sim, Ledger.credit in Hw. cbn [pool_of p_tables p_faults] in Hw. rewrite Hl in Hw.
  rewrite (proj2 (Z.ltb_ge i64_max 1)), (proj2 (Z.ltb_ge i64_max _)) in Hw by (bounds || lia).
  destruct o as [[b|e]|]; [| |done]; eexists _, (p_tables p).
  - destruct Hw as (E & Hok' & Hs). injection E as <- Hl'. split_and!; [done| |done].
    by apply account_becomes_balance.
  - destruct Hw as [Ht He]. split_and!; [done..|]. intros Hf. exfalso.
    destruct e; simpl in He; naive_solver.
Qed.
End Refund.

(** C22: a signing failure.  After a token was taken and the signer reported an error
    (a cryptographic one, or a task that panicked or was cancelled), the session asks for
    the refund and answers [OperationError], whatever the database answers; each event
    may meet its own faults.  Where the refund is done the account is what it was;
    where it fails (which takes a fault of the database) nothing else is tried and the
    token is gone. *)
Theorem signing_failure_refunded {SHA : Sha256Lib} {RSA : RsaLib} {HEX : HexLib}
    {ARGON : Argon2Lib} {S : Type} {SI : Signer S} (u : string) (h : Sha256Hash) (e : SignError)
    (a : account) (b : Z) (st : STSServerState S) (en1 en2 en3 en4 : env) :
  let now := time_now (en_clock en2) (oracle_offset st) in
  tables_ok (database st) → account_of (database st) u = Some a →
  (perform en1 (EvSubtractTokens u 1) st).1 = Done (Ok b) → 0 ≤ now →
  generate_timestamp_signature (signer st) (signing_key st) h (Timestamp_new now)
    (en_task_cancelled en3) = Done (Err e) →
  ∃ st3 refunded t,
    run_events [en1; en2; en3] (session_arm u (SignHash h)) st = (refund_arm u, st3) ∧
    perform en4 (EvAddTokens u 1) st3 = (Done refunded, set_database t st) ∧
    run_events [en1; en2; en3; en4] (session_arm u (SignHash h)) st =
      (Ret (Ok (OperationError "Error while performing the operation.", false)), set_database t st) ∧
    account_becomes (database st) u
      (if is_ok refunded then a else with_balance (a_balance a - 1) a) t ∧
    (en_faults en4 = [] → is_ok refunded = true).
Proof.
  intros now Hok Ha Hsub Hnow Hsign.
  destruct (debit_answered u a b en1 st Hok Ha Hsub) as (t1 & E1 & Hb & Hbec).
  pose proof (account_balance_bounds _ _ _ Hok Ha) as Hmax.
  pose proof Hbec as (Hok1 & Ha1 & _).
  destruct (refund_answered u _ en4 (set_database t1 st) Hok1 Ha1) as (refunded & t & E4 & Hr & Hf);
    [cbn; lia|].
  assert (run_events [en1; en2; en3] (session_arm u (SignHash h)) st
    = (refund_arm u, set_database t1 st)) as E3.
  { unfold run_events. cbn [foldl session_arm fst snd]. unfold sign_hash_arm.
    rewrite (step_act en1 (EvSubtractTokens u 1)), E1. cbn [fst snd unwinding].
    rewrite ret_bind, (step_act en2 EvTimeNow). cbn [perform fst snd].
    change (oracle_offset (set_database t1 st)) with (oracle_offset st). fold now.
    unfold duration_since_epoch, UNIX_EPOCH. rewrite (proj2 (Z.leb_le 0 now)), Z.sub_0_r by done.
    rewrite (step_act en3 (EvSign h (Timestamp_new now))).
    cbn [perform fst snd signer signing_key set_database]. by rewrite Hsign. }
  exists (set_database t1 st), refunded, t. split; [exact E3|]. split; [exact E4|]. split.
  - change [en1; en2; en3; en4] with ([en1; en2; en3] ++ [en4]). rewrite run_events_app, E3.
    unfold run_events, refund_arm. cbn [foldl fst snd]. by rewrite (step_act en4 (EvAddTokens u 1)), E4.
  - split; [|done]. destruct refunded as [b'|e']; cbn [is_ok]; [|by rewrite Hr].
    cbn in Hr. eapply account_becomes_trans; [done|]. destruct a as [ba rs]. unfold with_balance in *.
    cbn in *. by replace (ba - 1 + 1) with ba in Hr by lia.
Qed.

(** The task that signs is cancelled, and the refund meets a locked database. *)
Lemma signing_failure_refunded_witness :
  let en faults := {| en_handshake := Ok tt; en_cancel_first := false; en_next := None;
                      en_send := Ok tt; en_faults := faults; en_salt := EmptyString;
                      en_clock := 1000; en_task_cancelled := true |} in
  ∃ st3 refunded t,
    run_events (SHA := Toy.sha) (RSA := Toy.rsa) (HEX := Toy.hex) (ARGON := ToyDb.argon)
      (SI := @slow_signer Toy.sha Toy.rsa) [en []; en []; en []]
      (session_arm ToyDb.alice (SignHash Toy.hash1)) ToyConn.st0 = (refund_arm ToyDb.alice, st3) ∧
    perform (SHA := Toy.sha) (HEX := Toy.hex) (ARGON := ToyDb.argon)
      (SI := @slow_signer Toy.sha Toy.rsa) (en [Some (SqlxOther "database is locked")])
      (EvAddTokens ToyDb.alice 1) st3 = (Done refunded, set_database t ToyConn.st0) ∧
    is_ok refunded = false ∧
    account_becomes (HEX := Toy.hex) ToyDb.db ToyDb.alice (with_balance 9 ToyConn.alice_account) t.
Proof.
  intros en.
  destruct (signing_failure_refunded (SHA := Toy.sha) (RSA := Toy.rsa) (HEX := Toy.hex)
    (ARGON := ToyDb.argon) (SI := @slow_signer Toy.sha Toy.rsa) ToyDb.alice Toy.hash1
    (ThreadPanic JoinCancelled) ToyConn.alice_account 9 ToyConn.st0 (en []) (en []) (en [])
    (en [Some (SqlxOther "database is locked")])) as (st3 & refunded & t & E3 & E4 & _ & Hbec & _).
  - apply (bool_decide_unpack (tables_ok ToyDb.db)). vm_compute. exact I.
  - vm_compute. reflexivity.
  - vm_compute. reflexivity.
  - vm_compute. done.
  - reflexivity.
  - exists st3, refunded, t. split; [exact E3|]. split; [exact E4|].
    assert (is_ok refunded = false) as Hr.
    { vm_compute in E3. injection E3 as <-. vm_compute in E4. by injection E4 as <- _. }
    split; [exact Hr|]. rewrite Hr in Hbec. exact Hbec.
Defined.

(** C23: a token can be lost.  When the oracle tells a time before the epoch, or
    the account already has a record of that instant, the session is closed with
    an error after the token was taken: no receipt is sent, no record is kept and
    nothing is refunded. *)
Theorem unsigned_token_lost {SHA : Sha256Lib} {RSA : RsaLib} {HEX : HexLib}
    {ARGON : Argon2Lib} {S : Type} {SI : Signer S} (u : string) (h : Sha256Hash)
    (a : account) (c : ctx S) :
  calm c → tables_ok (database (c_state c)) → account_of (database (c_state c)) u = Some a →
  1 ≤ a_balance a →
  now_of c < 0 ∨
  (0 ≤ now_of c ∧ taken (Timestamp_new (now_of c)) (a_records a) = true ∧
   ∃ sg, sign_of c h (Timestamp_new (now_of c)) = Done (Ok sg)) →
  ∃ e t', exec (session_arm u (SignHash h)) c =
            (Returned (Err (Domain (Some u) e)), with_db t' c) ∧
          account_becomes (database (c_state c)) u (with_balance (a_balance a - 1) a) t'.
Proof.
  intros Hc Hok Ha Hb Hcase.
  destruct (session_arm_refines u a c (SignHash h) Hc Hok Ha eq_refl) as (t' & E & Hbec).
  unfold serve in *. rewrite (proj2 (Z.ltb_ge _ _) Hb) in *.
  destruct Hcase as [Hn|(Hn & Ht & sg & Hs)].
  - rewrite (proj2 (Z.ltb_lt _ _) Hn) in *. by eexists _, t'.
  - rewrite (proj2 (Z.ltb_ge _ _) Hn), Hs, Ht in *. by eexists _, t'.
Qed.

Lemma unsigned_token_lost_witness :
  let c := {| c_cur := {| en_handshake := Ok tt; en_cancel_first := false; en_next := None;
                          en_send := Ok tt; en_faults := []; en_salt := EmptyString;
                          en_clock := 5; en_task_cancelled := false |};
              c_turns := []; c_state := ToyConn.st0; c_out := [] |} in
  ∃ e t', exec (SHA := Toy.sha) (RSA := Toy.rsa) (HEX := Toy.hex) (ARGON := ToyDb.argon)
            (SI := @slow_signer Toy.sha Toy.rsa) (session_arm ToyDb.alice (SignHash Toy.hash1)) c =
            (Returned (Err (Domain (Some ToyDb.alice) e)), with_db t' c) ∧
          account_becomes (HEX := Toy.hex) ToyDb.db ToyDb.alice
            (with_balance 9 ToyConn.alice_account) t'.
Proof.
  intros c. apply (unsigned_token_lost (SHA := Toy.sha) (RSA := Toy.rsa) (HEX := Toy.hex)
    (ARGON := ToyDb.argon) (SI := @slow_signer Toy.sha Toy.rsa) ToyDb.alice Toy.hash1
    ToyConn.alice_account c).
  - by split_and!.
  - apply (bool_decide_unpack (tables_ok ToyDb.db)). vm_compute. exact I.
  - vm_compute. reflexivity.
  - vm_compute. done.
  - right. split_and!; [vm_compute; done|vm_compute; reflexivity|eexists; vm_compute; reflexivity].
Defined.
