(* ===== verification/Server.v ===== *)
(** * Server: all the connections at once

    Models [accept_loop] of [server/src/server.rs]: the acceptor spawns one task per
    connection, and the runtime interleaves the events of the tasks in any
    order.  A [world] is the shared state with the tasks and what each has done;
    a [move] is one step of one of them, of the acceptor, of the operator or of the
    task of the time worker, which [run_with_signal] spawns.  A task waits where its
    next move is not made.  [phase] is the protocol a connection has to follow, as an
    automaton over its events. *)
From S2P Require Import Prelude Bytes Protocol Sql Database DatabaseSpec TimeOracle Signer.
From S2P Require Import Effects ConnHandler Account SessionSpec.

(** ** The task of a connection *)

Section Task.
Context {WREQ : Wincode Request} {WRESP : Wincode Response}.

(** The body given to [tracker.spawn]. *)
Definition connection_task (n : nat) (new_address : SocketAddr) : prog (result unit IoError) :=
  try _ ← act EvHandshake;
  ended ← conn_handler n new_address;
  match ended with
  | Err (Network ServerNetworkDown) =>
      _ ← act EvCancel;
      mret (Ok tt)
  | _ => mret (Ok tt)
  end.
End Task.

(** ** Worlds and moves *)

Record task := {
  tk_addr : SocketAddr;
  tk_bound : nat;                    (* the iterations it was given *)
  tk_trace : trace;                  (* what it has done, oldest first *)
  tk_prog : prog (result unit IoError)   (* what it has left to do *)
}.

(** The task of the time worker. *)
Inductive worker_task :=
| NotSpawned
| Running (worker : TimeSyncWorker)
| WorkerEnded.

Record world {RSA : RsaLib} (S : Type) := {
  w_state : STSServerState S;
  w_accepting : bool;
  w_worker : worker_task;
  w_tasks : list task
}.
Arguments w_state {RSA S} _.
Arguments w_accepting {RSA S} _.
Arguments w_worker {RSA S} _.
Arguments w_tasks {RSA S} _.

Inductive move :=
| MoveAccept (n : nat) (address : SocketAddr)  (* [listener.accept()] yields a connection *)
| MoveStop                                     (* the acceptor sees the cancellation *)
| MoveSignal                                   (* the operator cancels *)
| MoveSpawn (from_std : result unit string) (worker : TimeSyncWorker)
                                               (* [start_syncing] up to its loop *)
| MoveTick (checked : result (option Z) TimeOracleError)
                                               (* the worker handles a tick *)
| MoveTask (i : nat) (en : env).               (* task [i] performs its next event *)

Section Moves.
Context {SHA : Sha256Lib} {RSA : RsaLib} {HEX : HexLib} {ARGON : Argon2Lib}.
Context {S : Type} {SI : Signer S}.
Context {WREQ : Wincode Request} {WRESP : Wincode Response}.
Implicit Types (w : world S).

Definition init (st : STSServerState S) : world S :=
  {| w_state := st; w_accepting := true; w_worker := NotSpawned; w_tasks := [] |}.

(** The worlds that differ in one part. *)
Definition with_state (st : STSServerState S) w : world S :=
  {| w_state := st; w_accepting := w_accepting w; w_worker := w_worker w; w_tasks := w_tasks w |}.
Definition with_tasks (tks : list task) w : world S :=
  {| w_state := w_state w; w_accepting := w_accepting w; w_worker := w_worker w; w_tasks := tks |}.
Definition with_worker (t : worker_task) w : world S :=
  {| w_state := w_state w; w_accepting := w_accepting w; w_worker := t; w_tasks := w_tasks w |}.

(** The offset of a tick is an [i64]. *)
Definition tick_typed (checked : option Z) : bool :=
  match checked with Some offset => in_i64 offset | None => true end.

(** The worker's task: when [start_syncing] returns an error the token is cancelled; a
    zero interval panics, which ends the task and nothing else. *)
Definition worker_fails w : world S :=
  with_worker WorkerEnded (with_state (set_cancelled (w_state w)) w).

Definition spawn_worker (from_std : result unit string) (worker : TimeSyncWorker) w : world S :=
  match from_std with
  | Err _ => worker_fails w
  | Ok _ => if tw_sync_interval worker =? 0 then with_worker WorkerEnded w
            else with_worker (Running worker) w
  end.

Definition tick_worker (checked : result (option Z) TimeOracleError) (worker : TimeSyncWorker) w
    : option (world S) :=
  match checked with
  | Err _ => Some (worker_fails w)
  | Ok checked =>
      if tick_typed checked
      then Some (with_state (set_heap (sync_store worker checked (heap (w_state w))) (w_state w)) w)
      else None
  end.

Definition apply_move (m : move) w : option (world S) :=
  match m with
  | MoveAccept n address =>
      if w_accepting w then
        Some (with_tasks (w_tasks w ++ [{| tk_addr := address; tk_bound := n; tk_trace := [];
                                           tk_prog := connection_task n address |}]) w)
      else None
  | MoveStop =>
      if w_accepting w && cancel_token (w_state w) then
        Some {| w_state := w_state w; w_accepting := false; w_worker := w_worker w;
                w_tasks := w_tasks w |}
      else None
  | MoveSignal => Some (with_state (set_cancelled (w_state w)) w)
  | MoveSpawn from_std worker =>
      match w_worker w with NotSpawned => Some (spawn_worker from_std worker w) | _ => None end
  | MoveTick checked =>
      match w_worker w with Running worker => tick_worker checked worker w | _ => None end
  | MoveTask i en =>
      tk ← w_tasks w !! i;
      match tk_prog tk with
      | Act e k =>
          let '(x, st) := perform en e (w_state w) in
          Some (with_tasks (<[i := {| tk_addr := tk_addr tk; tk_bound := tk_bound tk;
                                      tk_trace := tk_trace tk ++ [existT e x];
                                      tk_prog := k x |}]> (w_tasks w)) (with_state st w))
      | _ => None
      end
  end.

Fixpoint run_moves (ms : list move) w : option (world S) :=
  match ms with
  | [] => Some w
  | m :: ms => w' ← apply_move m w; run_moves ms w'
  end.

(** The worlds some interleaving leads to. *)
Inductive reachable w : world S → Prop :=
| reachable_refl : reachable w w
| reachable_step w1 m w2 : reachable w w1 → apply_move m w1 = Some w2 → reachable w w2.

Lemma reachable_trans w1 w2 w3 : reachable w1 w2 → reachable w2 w3 → reachable w1 w3.
Proof. intros H12 H23. induction H23; [done|]. by eapply reachable_step. Qed.

(** The moves of the worker's task leave the acceptor and the connections alone, and of the
    state only the heap and the token change. *)
Lemma worker_move_frame m w w' :
  apply_move m w = Some w' →
  match m with MoveSpawn _ _ | MoveTick _ => True | _ => False end →
  w_tasks w' = w_tasks w ∧ w_accepting w' = w_accepting w ∧
  database (w_state w') = database (w_state w) ∧
  logged_users (w_state w') = logged_users (w_state w) ∧
  time_oracle (w_state w') = time_oracle (w_state w) ∧
  signing_key (w_state w') = signing_key (w_state w) ∧ signer (w_state w') = signer (w_state w) ∧
  (cancel_token (w_state w) = true → cancel_token (w_state w') = true) ∧
  (in_i64 (oracle_offset (w_state w)) = true → in_i64 (oracle_offset (w_state w')) = true).
Proof.
  destruct m as [| | |from tw|ck|]; [done..| | |done]; intros H _; revert H; cbn.
  - destruct (w_worker w); [|done..]. intros [= <-]. unfold spawn_worker.
    destruct from; [destruct (_ =? 0)|]; done.
  - destruct (w_worker w) as [|tw|]; [done| |done]. unfold tick_worker.
    destruct ck as [ck|e]; [|by intros [= <-]]. destruct (tick_typed ck) eqn:Et; [|done].
    intros [= <-]. split_and!; try done. unfold oracle_offset. cbn.
    destruct ck as [o|]; cbn; [|done]. unfold load. rewrite lookup_insert. by case_decide.
Qed.

Lemma run_moves_app ms ms' w : run_moves (ms ++ ms') w = (w' ← run_moves ms w; run_moves ms' w').
Proof.
  revert w. induction ms as [|m ms IH]; intros w; [done|]. cbn.
  destruct (apply_move m w); cbn; [apply IH|done].
Qed.

Lemma run_moves_reachable ms w w' : run_moves ms w = Some w' → reachable w w'.
Proof.
  revert w. induction ms as [|m ms IH]; intros w H; cbn in H; [simplify_eq; constructor|].
  destruct (apply_move m w) as [w1|] eqn:E; [|done]. cbn in H.
  eapply reachable_trans; [|by apply IH]. by eapply reachable_step; [constructor|].
Qed.
End Moves.

(** ** The protocol of a connection *)

(** Inside a session: where the payment of a signature stands. *)
Inductive paying :=
| Entered                          (* among the logged users, the login not yet answered *)
| Idle
| Paid
| Signed (ts : Timestamp) (sg : RsaSignature)
| SignFailed.

Inductive phase :=
| Anon
| Checked (u : string)             (* the password of [u] was just accepted *)
| Inside (u : string) (p : paying).

Definition own (ph : phase) : option string :=
  match ph with Inside u _ => Some u | _ => None end.

(** The next phase, or [None] for an event the protocol forbids: accounts are
    touched only by the session of their user; a session begins only with an
    accepted password, a successful entry among the logged users and a reply that was
    sent; the key
    signs only after a token was taken, once per token; only the signature just
    made is recorded; a refund is one token after a failed signature. *)
Definition phase_step (ph : phase) (e : event) : answer e → option phase :=
  match e with
  | EvHandshake | EvIsCancelled => λ _,
      match ph with Checked _ | Inside _ Entered => None | _ => Some ph end
  | EvCancel => λ _, match ph with Checked _ => None | _ => Some ph end
  | EvSend _ => λ r,
      match ph with
      | Checked _ => None
      | Inside u Entered => Some (Inside u (match r with Ok _ => Idle | Err _ => Entered end))
      | _ => Some ph
      end
  | EvNext => λ _,
      match ph with
      | Anon => Some Anon
      | Checked _ | Inside _ Entered => None
      | Inside u _ => Some (Inside u Idle)
      end
  | EvVerify u _ => λ r,
      match ph with
      | Anon => Some (match r with Done (Ok _) => Checked u | _ => Anon end)
      | _ => None
      end
  | EvRegister _ _ _ => λ _, match ph with Anon => Some Anon | _ => None end
  | EvLoggedInsert u => λ fresh,
      match ph with
      | Checked v => if decide (v = u) then Some (if fresh : bool then Inside u Entered else Anon)
                     else None
      | _ => None
      end
  | EvLoggedRemove u => λ _,
      match ph with Inside v _ => if decide (v = u) then Some Anon else None | _ => None end
  | EvGetTokens u | EvHistory u => λ _,
      match ph with Inside v Idle => if decide (v = u) then Some ph else None | _ => None end
  | EvAddTokens u n => λ _,
      match ph with
      | Inside v Idle => if decide (v = u ∧ in_u64 n = true) then Some ph else None
      | Inside v SignFailed => if decide (v = u ∧ n = 1) then Some (Inside v Idle) else None
      | _ => None
      end
  | EvSubtractTokens u n => λ r,
      match ph with
      | Inside v Idle => if decide (v = u ∧ n = 1)
                         then Some (Inside v (match r with Done (Ok _) => Paid | _ => Idle end))
                         else None
      | _ => None
      end
  | EvTimeNow => λ _, match ph with Inside _ Paid => Some ph | _ => None end
  | EvSign _ ts => λ r,
      match ph with
      | Inside v Paid => Some (Inside v (match r with Done (Ok sg) => Signed ts sg | _ => SignFailed end))
      | _ => None
      end
  | EvAddRecord u ts sg => λ _,
      match ph with
      | Inside v (Signed ts' sg') =>
          if decide (v = u ∧ ts' = ts ∧ sg' = sg) then Some (Inside v Idle) else None
      | _ => None
      end
  end.

(** Where an automaton is after a trace. *)
Definition run_trace {X} (step : X → ∀ e, answer e → option X) (x0 : X) (tr : trace) : option X :=
  foldl (λ o ev, x ← o; step x (projT1 ev) (projT2 ev)) (Some x0) tr.

Lemma run_trace_snoc {X} (step : X → ∀ e, answer e → option X) x0 tr e y x :
  run_trace step x0 tr = Some x → run_trace step x0 (tr ++ [existT e y]) = step x e y.
Proof. unfold run_trace. rewrite foldl_app. intros ->. done. Qed.

Definition trace_phase (tr : trace) : option phase := run_trace phase_step Anon tr.

(** The user a task has entered among the logged ones and not removed. *)
Definition inside (tk : task) : option string := trace_phase (tk_trace tk) ≫= own.

(** ** Programs that follow an automaton *)

(** An automaton over events: from a state, an event and its answer lead to the
    next state, or are forbidden.  From state [x], whatever the answers, [p] only
    does what is allowed, and where it returns, the state and the result satisfy
    [Q]; where it reaches the bound of a loop, the state satisfies [cut]. *)
Section Tracked.
Context {X : Type} (step : X → ∀ e, answer e → option X) (cut : X → Prop).

Fixpoint tracked {A} (Q : X → A → Prop) (x : X) (p : prog A) : Prop :=
  match p with
  | Ret a => Q x a
  | Act e k => ∀ y, match step x e y with Some x' => tracked Q x' (k y) | None => False end
  | Crash _ => True
  | Cut => cut x
  end.

Lemma tracked_mono {A} (Q R : X → A → Prop) x p :
  (∀ x a, Q x a → R x a) → tracked Q x p → tracked R x p.
Proof.
  intros HQR. revert x. induction p as [a|e k IH|msg|]; intros x H; cbn in *; [by apply HQR| |done..].
  intros y. specialize (H y). destruct (step x e y); [by apply IH|done].
Qed.

Lemma tracked_bind {A B} (Q : X → B → Prop) x (p : prog A) (f : A → prog B) :
  tracked (λ x a, tracked Q x (f a)) x p → tracked Q x (p ≫= f).
Proof.
  revert x. induction p as [a|e k IH|msg|]; intros x H; cbn in *; [done| |done..].
  intros y. specialize (H y). destruct (step x e y); [by apply IH|done].
Qed.

Lemma tracked_try {A B E} (Q : X → result B E → Prop) x (p : prog (result A E))
    (f : A → prog (result B E)) :
  tracked (λ x r, match r with Ok a => tracked Q x (f a) | Err e => Q x (Err e) end) x p →
  tracked Q x (try_bind p f).
Proof. intros H. apply tracked_bind. eapply tracked_mono; [|exact H]. by intros x' [a|e]. Qed.

(** A single event. *)
Lemma tracked_act {A} (Q : X → A → Prop) x e (f : answer e → prog A) :
  (∀ y, match step x e y with Some x' => tracked Q x' (f y) | None => False end) →
  tracked Q x (act e ≫= f).
Proof. done. Qed.
End Tracked.

(** Where every connection follows an automaton from its start, every task of every
    reachable world has followed it and will go on doing so. *)
Section Everywhere.
Context {SHA : Sha256Lib} {RSA : RsaLib} {HEX : HexLib} {ARGON : Argon2Lib}.
Context {S : Type} {SI : Signer S}.
Context {WREQ : Wincode Request} {WRESP : Wincode Response}.
Context {X : Type} (step : X → ∀ e, answer e → option X) (cut : X → Prop) (x0 : nat → X).

Definition task_tracked (tk : task) : Prop :=
  ∃ x, run_trace step (x0 (tk_bound tk)) (tk_trace tk) = Some x ∧
       tracked step cut (λ _ _, True) x (tk_prog tk).

Lemma reachable_tracked (st : STSServerState S) w i tk :
  (∀ n addr, tracked step cut (λ _ _, True) (x0 n) (connection_task n addr)) →
  reachable (init st) w → w_tasks w !! i = Some tk → task_tracked tk.
Proof.
  intros Hall Hr. revert i tk. induction Hr as [|w m w' _ IH Hm]; intros i tk; [done|].
  destruct m as [n a| | |fr tw|ck|j en].
  4,5: destruct (worker_move_frame _ _ _ Hm I) as [-> _]; apply IH.
  all: cbn in Hm; try (case_match; simplify_eq; apply IH).
  - case_match; simplify_eq. cbn. rewrite lookup_app.
    destruct (w_tasks w !! i) eqn:Ei; [intros; simplify_eq; by eapply IH|].
    destruct (i - length (w_tasks w))%nat as [|[]]; cbn; intros; simplify_eq.
    exists (x0 n). split; [done|apply Hall].
  - simplify_eq. apply IH.
  - destruct (w_tasks w !! j) as [tk'|] eqn:Ej; [|done]. cbn in Hm.
    destruct (IH _ _ Ej) as (x & Hx & Ht). destruct (tk_prog tk') as [|e k| |]; try done.
    destruct (perform en e (w_state w)) as [y st']. simplify_eq. cbn.
    rewrite list_lookup_insert. case_decide as Hd; [|apply IH]. intros [= <-].
    specialize (Ht y). destruct (step x e y) as [x'|] eqn:Es; [|done]. exists x'.
    split; [|done]. rewrite <- Es. by apply run_trace_snoc.
Qed.
End Everywhere.

(** The programs that follow the protocol of a connection. *)
Abbreviation safe := (tracked phase_step (λ _, True)).
