(* ===== verification/ServerSpec.v ===== *)
(** * ServerSpec: what holds of every interleaving

    Every connection follows the protocol of [Server]; the logged users are those of
    the running sessions, one each, and those left behind by a connection that panicked
    or whose login was never answered; the tables keep their invariant; and what happens
    to a user who was left behind. *)
From S2P Require Import Prelude Bytes Protocol Sql Database DatabaseSpec TimeOracle Signer.
From S2P Require Import Effects ConnHandler Account SessionSpec Server.

(** What the type of [PurchaseTokens] says of a decoded request. *)
Class RequestsTyped {W : Wincode Request} : Prop :=
  decoded_typed cfg bytes req :
    wincode_deserialize cfg bytes = Ok req → request_typed req = true.

(** ** The handlers follow the protocol *)

Section Protocol.
Context {WREQ : Wincode Request} {WRESP : Wincode Response} {RT : RequestsTyped}.

(** In the session of [u]. *)
Definition inside_of (u : string) (ph : phase) : Prop := ∃ p, ph = Inside u p ∧ p ≠ Entered.

(** No login is under way. *)
Definition settled (ph : phase) : Prop :=
  match ph with Checked _ | Inside _ Entered => False | _ => True end.

(** The phase at the start of a turn. *)
Definition rested (ph : phase) : phase :=
  match ph with Inside u _ => Inside u Idle | ph => ph end.

Lemma safe_fetch addr ph :
  settled ph →
  safe (λ ph' r, ph' = rested ph ∧
          match r with Ok (Some req) => request_typed req = true | _ => True end) ph
    (fetch_next_request addr).
Proof using RT.
  intros Hs. unfold fetch_next_request. apply tracked_act. intros x.
  assert (phase_step ph EvNext x = Some (rested ph)) as -> by (by destruct ph as [| |u []]).
  destruct x as [[[bytes|e]|]|]; cbn; [|by split; [|repeat case_match]..|done|done].
  split; [done|]. unfold deserialize.
  destruct (wincode_deserialize BINCODE_CONFIG bytes) as [req|e] eqn:E; cbn; [|done].
  by eapply decoded_typed.
Qed.

Lemma safe_closed_reason ph :
  settled ph → safe (λ ph' _, ph' = ph) ph closed_reason.
Proof. intros Hs x. by destruct ph as [| |u []]. Qed.

Lemma safe_respond r ph : settled ph → safe (λ ph' _, ph' = ph) ph (respond r).
Proof.
  intros Hs. unfold respond. apply tracked_try. cbn.
  destruct (serialize r) as [b|e]; cbn; [|done]. intros x. by destruct ph as [| |u []].
Qed.

Lemma send_error_logger_err e : ∃ ne, send_error_logger e = Err ne.
Proof. unfold send_error_logger. destruct (io_kind e); by eexists. Qed.

(** The reply to a login opens the session, or was not delivered. *)
Lemma safe_respond_login r u :
  safe (λ ph x, ph = Inside u (match x with Ok _ => Idle | Err _ => Entered end)) (Inside u Entered)
    (respond r).
Proof.
  unfold respond. apply tracked_try. cbn. destruct (serialize r) as [b|e]; cbn; [|done].
  intros [[]|e]; cbn; [done|]. by destruct (send_error_logger_err e) as [ne ->].
Qed.

(** Symbolic execution of a handler against the protocol. *)
Ltac safe_step :=
  match goal with
  | |- safe _ _ (mbind _ (act _)) => apply tracked_act; intros ?; cbn [phase_step]; cbn beta iota
  | |- safe _ _ (mbind _ (unwinding ?o)) =>
      destruct o; cbn [unwinding]; [rewrite ret_bind; cbn beta iota|exact I]
  | |- context [decide (?P)] => rewrite (decide_True (P := P)) by (done || split_and!; done || lia)
  | |- safe _ _ (mret _) => cbn
  | |- safe _ _ (reply _) => cbn
  | |- safe _ _ (fatal _ _) => cbn
  | |- safe _ _ (match ?x with _ => _ end) => destruct x
  end.
Ltac safe_steps := repeat safe_step; try (by eexists).

Lemma safe_session_arm u req :
  request_typed req = true →
  safe (λ ph _, inside_of u ph) (Inside u Idle) (session_arm u req).
Proof.
  intros Hreq. unfold inside_of. destruct req as [| | |h|n| |]; cbn [session_arm]; try by eexists.
  - unfold sign_hash_arm, record_arm, refund_arm. safe_steps.
  - cbn in Hreq. unfold purchase_arm. safe_steps.
  - unfold how_many_arm. safe_steps.
  - unfold history_arm. safe_steps.
Qed.

Lemma safe_session_handler n s p :
  p ≠ Entered →
  safe (λ ph _, inside_of (s_username s) ph) (Inside (s_username s) p) (session_handler n s).
Proof using RT.
  revert p. induction n as [|n IH]; intros p Hp; cbn [session_handler]; [done|].
  apply tracked_bind. eapply tracked_mono; [|apply safe_fetch; by destruct p]. intros ph r [-> Hreq].
  destruct r as [[req|]|e]; cbn -[tracked closed_reason session_arm respond session_handler].
  - apply tracked_try. eapply tracked_mono; [|by apply safe_session_arm].
    intros ph' [[resp lo]|e] (p' & -> & Hp'); [|by eexists].
    apply tracked_try. eapply tracked_mono; [|apply safe_respond; by destruct p'].
    intros ph'' [[]|e] ->; [|by eexists]. cbn [snd]. destruct lo; [by eexists|by apply IH].
  - apply tracked_bind. eapply tracked_mono; [|by apply safe_closed_reason]. intros ph r ->. by eexists.
  - by eexists.
Qed.

(** However a session ends, its user is removed. *)
Lemma safe_run_session n s :
  safe (λ ph _, ph = Anon) (Inside (s_username s) Idle) (run_session n s).
Proof using RT.
  unfold run_session. apply tracked_bind. eapply tracked_mono; [|by apply safe_session_handler].
  intros ph r (p' & -> & _). safe_steps.
Qed.

Lemma safe_conn_arm addr req :
  safe (λ ph r, match r with
                | Ok (_, Some s) => ph = Inside (s_username s) Entered
                | _ => ph = Anon
                end) Anon (conn_arm addr req).
Proof.
  destruct req; cbn [conn_arm]; try done.
  - unfold login_arm. destruct (credentials_length_error _ _); [done|]. safe_steps; try done.
    by destruct y.
  - unfold sign_up_arm. destruct (credentials_length_error _ _); [done|]. safe_steps; done.
Qed.

(** Where a connection may end: outside of any session, or, with an error, when the
    login it had just accepted could not be answered. *)
Definition conn_ends (ph : phase) (r : result ClosedStreamReason HandlerError) : Prop :=
  ph = Anon ∨ ∃ u e, ph = Inside u Entered ∧ r = Err e.

Lemma safe_conn_handler n addr : safe conn_ends Anon (conn_handler_core n addr).
Proof using RT.
  induction n as [|n IH]; cbn [conn_handler_core]; [done|].
  apply tracked_bind. eapply tracked_mono; [|by apply safe_fetch]. intros ph r [-> Hreq].
  destruct r as [[req|]|e];
    cbn -[tracked closed_reason conn_arm respond conn_handler_core run_session].
  - apply tracked_try. eapply tracked_mono; [|apply safe_conn_arm].
    intros ph' [[resp [s|]]|e] ->; [| |by left]; apply tracked_try; cbn [snd fst].
    + eapply tracked_mono; [|apply safe_respond_login]. intros ph'' [[]|e] ->.
      * apply tracked_try. eapply tracked_mono; [|apply safe_run_session].
        intros ph'' [[reason|]|e] ->; [by left|apply IH|by left].
      * right. by eexists _, _.
    + eapply tracked_mono; [|by apply safe_respond]. intros ph'' [[]|e] ->; [apply IH|by left].
  - apply tracked_bind. eapply tracked_mono; [|by apply safe_closed_reason]. intros ph r ->. by left.
  - by left.
Qed.

Definition task_ends (ph : phase) (_ : result unit IoError) : Prop :=
  ph = Anon ∨ ∃ u, ph = Inside u Entered.

Lemma safe_connection_task n addr : safe task_ends Anon (connection_task n addr).
Proof using RT.
  unfold connection_task. apply tracked_try. cbn.
  intros [[]|e]; cbn -[tracked conn_handler]; [|by left].
  apply tracked_bind. eapply tracked_mono; [|apply safe_conn_handler].
  intros ph r H.
  assert (task_ends ph (Ok tt)) as He by (destruct H as [->|(u & e & -> & _)]; [by left|right; eauto]).
  destruct r as [|[[]|]]; try exact He. intros x. by destruct H as [->|(u & e & -> & _)].
Qed.
End Protocol.

(** ** The invariant of the world *)

Section Invariant.
Context {SHA : Sha256Lib} {RSA : RsaLib} {HEX : HexLib} {ARGON : Argon2Lib}.
Context {S : Type} {SI : Signer S}.
Context {WREQ : Wincode Request} {WRESP : Wincode Response} {RT : RequestsTyped}.
Implicit Types (w : world S) (st : STSServerState S).

(** Each task has followed the protocol and will go on doing so. *)
Definition task_ok (tk : task) : Prop :=
  ∃ ph, trace_phase (tk_trace tk) = Some ph ∧ safe task_ends ph (tk_prog tk).

(** The logged users are those a task has entered and not removed, one task each.
    [os] lists the user of each task. *)
Definition sessions_ok (logged : gset string) (os : list (option string)) : Prop :=
  (∀ u, u ∈ logged ↔ ∃ i, os !! i = Some (Some u)) ∧
  (∀ i j u, os !! i = Some (Some u) → os !! j = Some (Some u) → i = j).

Definition world_ok w : Prop :=
  tables_ok (database (w_state w)) ∧ in_i64 (oracle_offset (w_state w)) = true ∧
  (∀ i tk, w_tasks w !! i = Some tk → task_ok tk) ∧
  sessions_ok (logged_users (w_state w)) (inside <$> w_tasks w).

Lemma owner_lookup (tks : list task) i u :
  (inside <$> tks) !! i = Some (Some u) ↔ ∃ tk, tks !! i = Some tk ∧ inside tk = Some u.
Proof.
  rewrite list_lookup_fmap. destruct (tks !! i) as [tk|]; cbn; split.
  - intros [= H]. by exists tk.
  - intros (tk' & [= <-] & ->). done.
  - done.
  - by intros (tk' & ? & _).
Qed.

Lemma trace_phase_snoc tr e x ph :
  trace_phase tr = Some ph → trace_phase (tr ++ [existT e x]) = phase_step ph e x.
Proof. apply (run_trace_snoc phase_step). Qed.

(** *** The tables *)

(** The database call of an event. *)
Definition db_call_of (salt : string) (e : event) : option db_call :=
  match e with
  | EvVerify u pw => Some (CallVerify u pw)
  | EvRegister u pw ip => Some (CallRegister salt u pw ip)
  | EvGetTokens u => Some (CallGetTokens u)
  | EvAddTokens u n => Some (CallAddTokens u n)
  | EvSubtractTokens u n => Some (CallSubtractTokens u n)
  | EvAddRecord u ts sg => Some (CallAddRecord u ts sg)
  | EvHistory u => Some (CallHistory u)
  | _ => None
  end.

Lemma perform_database en e st :
  database (perform en e st).2 =
    match db_call_of (en_salt en) e with
    | Some c => p_tables (after_call c {| p_tables := database st; p_faults := en_faults en |})
    | None => database st
    end.
Proof.
  destruct e; cbn; try done; unfold on_database;
    match goal with |- context [let '(_, _) := ?m in _] => destruct m end; done.
Qed.

(** An event the protocol allows keeps the invariant of the tables. *)
Lemma perform_tables_ok en e st ph :
  (∀ x, is_Some (phase_step ph e x)) →
  tables_ok (database st) → tables_ok (database (perform en e st).2).
Proof.
  intros Hph Hok. rewrite perform_database.
  destruct (db_call_of (en_salt en) e) as [c|] eqn:E; [|done]. apply after_call_ok; [|done].
  destruct e; cbn in E; simplify_eq; cbn; try done;
    destruct (Hph (Panic EmptyString)) as [ph' Hs]; cbn in Hs;
    repeat case_match; simplify_eq; destruct_and?; subst; first [by apply in_range_spec|bounds].
Qed.

(** *** The logged users *)

Lemma perform_logged en e st :
  logged_users (perform en e st).2 =
    match e with
    | EvLoggedInsert u => {[u]} ∪ logged_users st
    | EvLoggedRemove u => logged_users st ∖ {[u]}
    | _ => logged_users st
    end.
Proof. destruct e; cbn; try done; unfold on_database; by case_match. Qed.

Lemma perform_oracle en e st : oracle_offset (perform en e st).2 = oracle_offset st.
Proof. destruct e; cbn; try done; unfold on_database; by case_match. Qed.

(** Only entering and leaving the set changes the user a task is inside of. *)
Lemma phase_step_own ph ph' e x :
  phase_step ph e x = Some ph' →
  match e return answer e → Prop with
  | EvLoggedInsert u => λ x, own ph = None ∧ own ph' = if x : bool then Some u else None
  | EvLoggedRemove u => λ _, own ph = Some u ∧ own ph' = None
  | _ => λ _, own ph' = own ph
  end x.
Proof.
  destruct e; cbn; intros H; repeat case_match; simplify_eq; try done;
    repeat match goal with
    | Hd : decide _ = left _ |- _ => clear Hd
    | Hc : _ ∧ _ |- _ => destruct Hc
    end; subst; done.
Qed.

Lemma sessions_same L os i o : sessions_ok L os → os !! i = Some o → sessions_ok L (<[i := o]> os).
Proof. intros H Hi. by rewrite list_insert_id. Qed.

Lemma sessions_enter L os i u :
  sessions_ok L os → os !! i = Some None → u ∉ L → sessions_ok ({[u]} ∪ L) (<[i := Some u]> os).
Proof.
  intros [H1 H2] Hi Hu. pose proof (lookup_lt_Some _ _ _ Hi) as Hlt.
  assert (∀ j v, <[i := Some u]> os !! j = Some (Some v) ↔
            (j = i ∧ v = u) ∨ (j ≠ i ∧ os !! j = Some (Some v))) as Hj.
  { intros j v. destruct (decide (j = i)) as [->|].
    - rewrite list_lookup_insert_eq by done. naive_solver.
    - rewrite list_lookup_insert_ne by done. naive_solver. }
  split.
  - intros v. setoid_rewrite Hj. rewrite elem_of_union, elem_of_singleton, H1. split.
    + intros [->|[j E]]; [eauto|]. exists j. right. split; [congruence|done].
    + naive_solver.
  - intros j k v. rewrite !Hj.
    assert (∀ j', ¬ os !! j' = Some (Some u)) as Hn by (intros j' E; apply Hu, H1; eauto).
    intros [[-> ->]|[? E1]] [[-> ?]|[? E2]]; [done|by destruct (Hn k)|subst; by destruct (Hn j)|eauto].
Qed.

Lemma sessions_leave L os i u :
  sessions_ok L os → os !! i = Some (Some u) → sessions_ok (L ∖ {[u]}) (<[i := None]> os).
Proof.
  intros [H1 H2] Hi. pose proof (lookup_lt_Some _ _ _ Hi) as Hlt.
  assert (∀ j v, <[i := None]> os !! j = Some (Some v) ↔ j ≠ i ∧ os !! j = Some (Some v)) as Hj.
  { intros j v. destruct (decide (j = i)) as [->|].
    - rewrite list_lookup_insert_eq by done. naive_solver.
    - rewrite list_lookup_insert_ne by done. naive_solver. }
  split.
  - intros v. setoid_rewrite Hj. rewrite elem_of_difference, elem_of_singleton, H1. split.
    + intros [[j E] Hne]. exists j. split; [|done]. intros ->. congruence.
    + intros (j & Hne & E). split; [by eauto|]. intros ->. by destruct Hne; eapply H2.
  - intros j k v [_ E1]%Hj [_ E2]%Hj. eauto.
Qed.

Lemma sessions_new L os : sessions_ok L os → sessions_ok L (os ++ [None]).
Proof.
  intros [H1 H2].
  assert (∀ j v, (os ++ [None]) !! j = Some (Some v) ↔ os !! j = Some (Some v)) as Hj.
  { intros j v. rewrite lookup_app. destruct (os !! j) eqn:E; [done|].
    destruct (j - length os)%nat as [|[]]; done. }
  split; [intros v; setoid_rewrite Hj; apply H1|]. intros j k v. rewrite !Hj. apply H2.
Qed.

(** The step of one task. *)
Lemma sessions_perform en e st os i ph ph' x st' :
  sessions_ok (logged_users st) os → os !! i = Some (own ph) →
  perform en e st = (x, st') → phase_step ph e x = Some ph' →
  sessions_ok (logged_users st') (<[i := own ph']> os).
Proof.
  intros Hs Hi Hp Hph. pose proof (phase_step_own _ _ _ _ Hph) as Hown.
  pose proof (perform_logged en e st) as Hl. rewrite Hp in Hl. cbn in Hl. rewrite Hl.
  destruct e; try (rewrite Hown; by apply sessions_same).
  - destruct Hown as [E1 E2]. cbn in Hp. injection Hp as <- _. rewrite E1 in Hi. rewrite E2.
    case_bool_decide; [by apply sessions_enter|].
    rewrite (subseteq_union_1_L {[username]}) by set_solver. by apply sessions_same.
  - destruct Hown as [E1 E2]. rewrite E1 in Hi. rewrite E2. by apply sessions_leave.
Qed.

(** *** Every move keeps the invariant *)

Lemma world_ok_init st :
  tables_ok (database st) → in_i64 (oracle_offset st) = true → logged_users st = ∅ →
  world_ok (init st).
Proof.
  intros Ht Ho Hl. split_and!; [done..|]. cbn. rewrite Hl. split; [|done].
  intros u. split; [set_solver|]. intros [i Hi]. done.
Qed.

Lemma world_ok_task en i w w' :
  world_ok w → apply_move (MoveTask i en) w = Some w' → world_ok w'.
Proof.
  intros (Ht & Ho & Htk & Hs). cbn. destruct (w_tasks w !! i) as [tk|] eqn:Ei; [|done]. cbn.
  destruct (Htk i tk Ei) as (ph & Hph & Hsafe).
  destruct (tk_prog tk) as [|e k| |] eqn:Ep; try done. cbn in Hsafe.
  destruct (perform en e (w_state w)) as [x st'] eqn:Eperf. intros [= <-].
  pose proof (Hsafe x) as Hx. destruct (phase_step ph e x) as [ph'|] eqn:Eph; [|done].
  split_and!; cbn.
  - pose proof (perform_tables_ok en e (w_state w) ph) as Hok. rewrite Eperf in Hok. apply Hok; [|done].
    intros y. specialize (Hsafe y). by destruct (phase_step ph e y).
  - pose proof (perform_oracle en e (w_state w)) as Hor. rewrite Eperf in Hor. cbn in Hor. by rewrite Hor.
  - intros j tk'. rewrite list_lookup_insert. case_decide as Hd; [|apply Htk].
    intros [= <-]. exists ph'. cbn. split; [by erewrite trace_phase_snoc|done].
  - rewrite list_fmap_insert.
    assert (inside {| tk_addr := tk_addr tk; tk_bound := tk_bound tk; tk_trace := tk_trace tk ++ [existT e x];
                      tk_prog := k x |} = own ph') as ->.
    { unfold inside. cbn. by erewrite trace_phase_snoc, Eph. }
    eapply sessions_perform; [done| |done|done].
    rewrite list_lookup_fmap, Ei. cbn. unfold inside. by rewrite Hph.
Qed.

Lemma world_ok_move m w w' : world_ok w → apply_move m w = Some w' → world_ok w'.
Proof using RT.
  intros Hw. destruct m as [n addr| | |fr tw|ck|i en].
  6: by apply world_ok_task.
  4,5: intros Hm; destruct (worker_move_frame _ _ _ Hm I) as (E1 & _ & E2 & E3 & _ & _ & _ & _ & E4);
    unfold world_ok in *; rewrite E1, E2, E3; destruct Hw as (? & ? & ? & ?); by split_and!; auto.
  all: destruct Hw as (Ht & Ho & Htk & Hs); cbn; try case_match; intros; simplify_eq.
  - split_and!; [done..| |]; cbn.
    + intros j tk. rewrite lookup_app. destruct (w_tasks w !! j) eqn:Ej; [intros; simplify_eq; by eapply Htk|].
      destruct (j - length (w_tasks w))%nat as [|[]]; cbn; intros; simplify_eq. exists Anon.
      split; [done|]. apply safe_connection_task.
    + rewrite fmap_app. by apply sessions_new.
  - by split_and!.
  - by split_and!.
Qed.

Lemma world_ok_reachable w w' : world_ok w → reachable w w' → world_ok w'.
Proof using RT. induction 2; [done|]. by eapply world_ok_move; [apply IHreachable|]. Qed.
End Invariant.

(** ** Sessions, and users left behind *)

(** A task that has returned or unwound; one at the bound of its loop is still running. *)
Definition ended (tk : task) : bool :=
  match tk_prog tk with Ret _ | Crash _ => true | _ => false end.

(** The user of the session a task is running, and the one a task that is no more has
    left among the logged users. *)
Definition in_session (tk : task) : option string := if ended tk then None else inside tk.
Definition left_behind (tk : task) : option string := if ended tk then inside tk else None.

(** The last thing a connection did was to enter [u] among the logged users: the reply to
    that login was not delivered. *)
Definition undelivered (ev : {e : event & answer e}) : bool :=
  match ev with
  | existT (EvSend _) (Err _) => true
  | existT EvCancel _ => true
  | _ => false
  end.
Definition unanswered_login (u : string) (tr : trace) : Prop :=
  ∃ before after, tr = before ++ existT (EvLoggedInsert u) true :: after ∧
    forallb undelivered after = true.

Lemma entered_unanswered ph tr u :
  run_trace phase_step ph tr = Some (Inside u Entered) → ph ≠ Inside u Entered →
  unanswered_login u tr.
Proof.
  intros H Hne. induction tr as [|[e x] tr IH] using rev_ind; [by injection H as ->|].
  unfold run_trace in H. rewrite foldl_app in H. fold (run_trace phase_step ph tr) in H.
  destruct (run_trace phase_step ph tr) as [ph1|]; [|done]. cbn in H.
  assert (ph1 = Inside u Entered → undelivered (existT e x) = true →
          unanswered_login u (tr ++ [existT e x])) as Hstay.
  { intros -> Hu. destruct (IH eq_refl) as (before & after & -> & Ha).
    exists before, (after ++ [existT e x]). rewrite <- app_assoc. split; [done|].
    rewrite forallb_app. cbn [forallb]. by rewrite Ha, Hu. }
  destruct e; cbn in H, x; repeat case_match; simplify_eq; try done; try (by apply Hstay).
  by exists tr, [].
Qed.

(** A user is logged exactly when a task is in a session of it or has left it behind, and
    then exactly one; and a user is left behind only by a task that unwound or whose
    login was not answered. *)
Definition sessions_sound {RSA : RsaLib} {S : Type} (w : world S) : Prop :=
  (∀ u, u ∈ logged_users (w_state w) ↔
        ∃ i tk, w_tasks w !! i = Some tk ∧ (in_session tk = Some u ∨ left_behind tk = Some u)) ∧
  (∀ i j tk tk' u, w_tasks w !! i = Some tk → w_tasks w !! j = Some tk' →
     in_session tk = Some u ∨ left_behind tk = Some u →
     in_session tk' = Some u ∨ left_behind tk' = Some u → i = j) ∧
  (∀ i tk u, w_tasks w !! i = Some tk → left_behind tk = Some u →
     (∃ msg, tk_prog tk = Crash msg) ∨ unanswered_login u (tk_trace tk)).

Lemma inside_cases tk u : in_session tk = Some u ∨ left_behind tk = Some u ↔ inside tk = Some u.
Proof. unfold in_session, left_behind. destruct (ended tk); naive_solver. Qed.

Lemma task_ok_left_behind tk u :
  task_ok tk → left_behind tk = Some u →
  (∃ msg, tk_prog tk = Crash msg) ∨ unanswered_login u (tk_trace tk).
Proof.
  intros (ph & Hph & Hs) Hl. unfold left_behind, ended in Hl.
  destruct (tk_prog tk) as [a|e k|msg|]; try done; [|left; by eexists]. right. cbn in Hs.
  unfold inside in Hl. rewrite Hph in Hl. destruct Hs as [->|[v ->]]; [done|].
  injection Hl as ->. by apply (entered_unanswered Anon).
Qed.

Lemma world_ok_sessions {RSA : RsaLib} {S : Type} (w : world S) :
  world_ok w → sessions_sound w.
Proof.
  intros (_ & _ & Htk & H1 & H2). unfold sessions_sound. setoid_rewrite inside_cases.
  setoid_rewrite owner_lookup in H1. split_and!; [exact H1| |].
  - intros i j tk tk' u E1 E2 I1 I2. apply (H2 i j u); apply owner_lookup; eauto.
  - intros i tk u Hi Hl. by eapply task_ok_left_behind; [eapply Htk|].
Qed.

(** C2: every connection follows the protocol of [phase_step], in every
    interleaving of any number of connections, of resynchronisations and of the
    shutdown, with any faults and any input: an account is touched only by a
    session of its user, a session starts with the accepted password of its
    user and an entry among the logged users, the signing key is used once per
    token taken and only after it was taken, only the signature just made is
    recorded, and a refund is one token after a failed signature. *)
Theorem connections_follow_protocol
    {SHA : Sha256Lib} {RSA : RsaLib} {HEX : HexLib} {ARGON : Argon2Lib} {S : Type} {SI : Signer S}
    {WREQ : Wincode Request} {WRESP : Wincode Response} {RT : RequestsTyped}
    (st : STSServerState S) (w : world S) (i : nat) (tk : task) :
  tables_ok (database st) → in_i64 (oracle_offset st) = true → logged_users st = ∅ →
  reachable (init st) w → w_tasks w !! i = Some tk →
  is_Some (trace_phase (tk_trace tk)).
Proof.
  intros Ht Ho Hl Hr Hi.
  destruct (world_ok_reachable _ _ (world_ok_init _ Ht Ho Hl) Hr) as (_ & _ & Htk & _).
  destruct (Htk _ _ Hi) as (ph & -> & _). by eexists.
Qed.

(** C3: sessions are exclusive.  In every reachable world the logged users are exactly
    the users of the sessions that are running and those a finished connection has left
    behind, no user is held by two connections, running or finished; and a connection
    leaves its user behind only when it unwound, or when the last thing it did was to
    enter the user and the reply to that login was not delivered.  A session that ends in
    any other way, network errors included, has removed its user. *)
Theorem sessions_are_exclusive
    {SHA : Sha256Lib} {RSA : RsaLib} {HEX : HexLib} {ARGON : Argon2Lib} {S : Type} {SI : Signer S}
    {WREQ : Wincode Request} {WRESP : Wincode Response} {RT : RequestsTyped}
    (st : STSServerState S) (w : world S) :
  tables_ok (database st) → in_i64 (oracle_offset st) = true → logged_users st = ∅ →
  reachable (init st) w → sessions_sound w.
Proof.
  intros Ht Ho Hl Hr. by apply world_ok_sessions, (world_ok_reachable _ _ (world_ok_init _ Ht Ho Hl) Hr).
Qed.

(** C6: the tables keep their invariant in every interleaving: no balance is
    negative or overflows and no record is malformed, orphaned or duplicated,
    whatever the clients send and whichever database calls fail. *)
Theorem server_keeps_tables
    {SHA : Sha256Lib} {RSA : RsaLib} {HEX : HexLib} {ARGON : Argon2Lib} {S : Type} {SI : Signer S}
    {WREQ : Wincode Request} {WRESP : Wincode Response} {RT : RequestsTyped}
    (st : STSServerState S) (w : world S) :
  tables_ok (database st) → in_i64 (oracle_offset st) = true → logged_users st = ∅ →
  reachable (init st) w → tables_ok (database (w_state w)).
Proof.
  intros Ht Ho Hl Hr. by destruct (world_ok_reachable _ _ (world_ok_init _ Ht Ho Hl) Hr).
Qed.

Section Lockout.
Context {SHA : Sha256Lib} {RSA : RsaLib} {HEX : HexLib} {ARGON : Argon2Lib}.
Context {S : Type} {SI : Signer S}.
Context {WREQ : Wincode Request} {WRESP : Wincode Response}.
Implicit Types (w : world S).

(** A task that has nothing left to do. *)
Definition over (tk : task) : bool :=
  match tk_prog tk with Act _ _ => false | _ => true end.

Lemma over_stays w w' i tk :
  reachable w w' → w_tasks w !! i = Some tk → over tk = true → w_tasks w' !! i = Some tk.
Proof.
  intros Hr Hi Hover. induction Hr as [|w1 m w2 _ IH Hm]; [done|].
  destruct m as [n a| | |fr tw|ck|j en].
  4,5: destruct (worker_move_frame _ _ _ Hm I) as [-> _]; exact IH.
  all: cbn in Hm; try case_match; simplify_eq; try done.
  - cbn. apply lookup_app_l_Some. done.
  - destruct (w_tasks w1 !! j) as [tk'|] eqn:Ej; [|done]. cbn in Hm.
    destruct (tk_prog tk') as [|e k| |] eqn:Ep; try done.
    destruct (perform en e (w_state w1)) as [x st']. simplify_eq. cbn.
    rewrite list_lookup_insert_ne; [done|]. intros ->.
    rewrite IH in Ej. injection Ej as <-. unfold over in Hover. by rewrite Ep in Hover.
Qed.
End Lockout.

(** C17: a leaked login is for ever.  Once a connection has ended while its user
    was still among the logged ones (which happens when the reply to a correct
    login cannot be sent, and when a task panics), that user stays among them in
    every later world, and no other connection ever gets a session for it. *)
Theorem leaked_login_locks_out
    {SHA : Sha256Lib} {RSA : RsaLib} {HEX : HexLib} {ARGON : Argon2Lib} {S : Type} {SI : Signer S}
    {WREQ : Wincode Request} {WRESP : Wincode Response} {RT : RequestsTyped}
    (st : STSServerState S) (w w' : world S) (i : nat) (tk : task) (u : string) :
  tables_ok (database st) → in_i64 (oracle_offset st) = true → logged_users st = ∅ →
  reachable (init st) w →
  w_tasks w !! i = Some tk → over tk = true → inside tk = Some u →
  reachable w w' →
  u ∈ logged_users (w_state w') ∧
  ∀ j tk', w_tasks w' !! j = Some tk' → j ≠ i → inside tk' ≠ Some u.
Proof.
  intros Ht Ho Hl Hr Hi Hover Hin Hr'.
  destruct (world_ok_reachable _ _ (world_ok_init _ Ht Ho Hl) (reachable_trans _ _ _ Hr Hr'))
    as (_ & _ & _ & H1 & H2).
  pose proof (over_stays _ _ _ _ Hr' Hi Hover) as Hi'.
  assert ((inside <$> w_tasks w') !! i = Some (Some u)) as Hu by (apply owner_lookup; eauto).
  split; [apply H1; by eauto|]. intros j tk' Hj Hne Hin'. apply Hne, (H2 j i u); [|done].
  apply owner_lookup. eauto.
Qed.

(** ** Concrete interleavings *)
Module ToyServer.
Definition st0 := ToyConn.st0.

#[export] Instance requests_typed : @RequestsTyped ToyConn.wreq.
Proof.
  intros cfg bytes req H. cbn [wincode_deserialize ToyConn.wreq ToyConn.table_codec] in H.
  destruct (list_find _ ToyConn.requests) as [[i p]|] eqn:E; [|done]. injection H as <-.
  apply list_find_Some in E as (E & _ & _). apply list_elem_of_lookup_2 in E.
  assert (Forall (λ p, request_typed p.1 = true) ToyConn.requests) as HF
    by (repeat constructor).
  rewrite Forall_forall in HF. by apply HF, list_elem_of_In.
Qed.

Definition apply := apply_move (SHA := Toy.sha) (RSA := Toy.rsa) (HEX := Toy.hex)
  (ARGON := ToyDb.argon) (SI := @slow_signer Toy.sha Toy.rsa)
  (WREQ := ToyConn.wreq) (WRESP := ToyConn.wresp).
Definition run := run_moves (SHA := Toy.sha) (RSA := Toy.rsa) (HEX := Toy.hex)
  (ARGON := ToyDb.argon) (SI := @slow_signer Toy.sha Toy.rsa)
  (WREQ := ToyConn.wreq) (WRESP := ToyConn.wresp).

(** A turn whose reply meets a broken pipe. *)
Definition broken (b : list byte) : env := {|
  en_handshake := Ok tt; en_cancel_first := false; en_next := Some (Ok b);
  en_send := Err {| io_kind := BrokenPipe; io_text := "broken pipe"%string |};
  en_faults := []; en_salt := EmptyString; en_clock := 1000; en_task_cancelled := false |}.

(** Alice logs in with the right password; two connections, interleaved. *)
Definition login_twice : list move :=
  let en := ToyConn.en_of [x05] in
  [MoveAccept 9 ToyConn.addr; MoveAccept 9 ToyConn.addr;
   MoveTask 0 en; MoveTask 1 en; MoveTask 0 en; MoveTask 1 en;   (* handshakes, requests *)
   MoveTask 0 en; MoveTask 1 en;                                 (* passwords *)
   MoveTask 1 en; MoveTask 0 en; MoveTask 0 en; MoveTask 1 en].   (* the set, replies *)

(** Alice logs in, and the reply to her cannot be sent. *)
Definition login_broken : list move :=
  let en := broken [x05] in
  [MoveAccept 9 ToyConn.addr; MoveTask 0 en; MoveTask 0 en; MoveTask 0 en; MoveTask 0 en;
   MoveTask 0 en].

(** Then she tries again on another connection. *)
Definition login_again : list move :=
  let en := ToyConn.en_of [x05] in
  [MoveAccept 9 ToyConn.addr; MoveTask 1 en; MoveTask 1 en; MoveTask 1 en; MoveTask 1 en].

(** What one sees of a world: the logged users, and for each task its phase and
    whether it is over. *)
Definition view (w : @world Toy.rsa SlowSigner) : list string * list (option phase * bool) :=
  (elements (logged_users (w_state w)),
   (λ tk, (trace_phase (tk_trace tk), over tk)) <$> w_tasks w).

Lemma login_twice_view :
  view <$> run login_twice (init st0) =
    Some ([ToyDb.alice], [(Some Anon, false); (Some (Inside ToyDb.alice Idle), false)]).
Proof. vm_compute. reflexivity. Qed.

Lemma login_broken_view :
  view <$> run login_broken (init st0) =
    Some ([ToyDb.alice], [(Some (Inside ToyDb.alice Entered), true)]).
Proof. vm_compute. reflexivity. Qed.

Lemma login_again_view :
  view <$> run (login_broken ++ login_again) (init st0) =
    Some ([ToyDb.alice], [(Some (Inside ToyDb.alice Entered), true); (Some Anon, false)]).
Proof. vm_compute. reflexivity. Qed.

Definition reach := reachable (SHA := Toy.sha) (RSA := Toy.rsa) (HEX := Toy.hex)
  (ARGON := ToyDb.argon) (SI := @slow_signer Toy.sha Toy.rsa)
  (WREQ := ToyConn.wreq) (WRESP := ToyConn.wresp).

Lemma run_view ms w v : view <$> run ms w = Some v → ∃ w', reach w w' ∧ view w' = v.
Proof.
  destruct (run ms w) as [w'|] eqn:E; [|done]. intros [= <-]. exists w'.
  split; [by eapply run_moves_reachable|done].
Qed.

(** A task of a world, from its view. *)
Lemma view_task w v i ph o :
  view w = v → v.2 !! i = Some (Some ph, o) →
  ∃ tk, w_tasks w !! i = Some tk ∧ trace_phase (tk_trace tk) = Some ph ∧ over tk = o ∧
        inside tk = own ph.
Proof.
  intros <- H. cbn in H. rewrite list_lookup_fmap in H.
  destruct (w_tasks w !! i) as [tk|]; [|done]. injection H as Hp Ho. exists tk.
  unfold inside. by rewrite Hp.
Qed.

Lemma st0_tables : tables_ok (database st0).
Proof. apply (bool_decide_unpack (tables_ok ToyDb.db)). vm_compute. exact I. Qed.
End ToyServer.


Lemma connections_follow_protocol_witness :
  ∃ w tk, ToyServer.reach (init ToyServer.st0) w ∧ w_tasks w !! 1%nat = Some tk ∧
    inside tk = Some ToyDb.alice ∧ is_Some (trace_phase (tk_trace tk)).
Proof.
  destruct (ToyServer.run_view _ _ _ ToyServer.login_twice_view) as (w & Hr & Hv).
  destruct (ToyServer.view_task _ _ 1 _ _ Hv eq_refl) as (tk & Htk & Hph & _ & Hin).
  exists w, tk. split_and!; [exact Hr|exact Htk|exact Hin|].
  exact (connections_follow_protocol (RT := ToyServer.requests_typed) ToyServer.st0 w 1 tk
    ToyServer.st0_tables eq_refl eq_refl Hr Htk).
Defined.

(** Alice's first connection is over and has left her behind; a second one does not get
    a session. *)
Lemma sessions_are_exclusive_witness :
  ∃ w tk, ToyServer.reach (init ToyServer.st0) w ∧ sessions_sound w ∧
    w_tasks w !! 0%nat = Some tk ∧ over tk = true ∧ inside tk = Some ToyDb.alice ∧
    ToyDb.alice ∈ logged_users (w_state w).
Proof.
  destruct (ToyServer.run_view _ _ _ ToyServer.login_again_view) as (w & Hr & Hv).
  destruct (ToyServer.view_task _ _ 0 _ _ Hv eq_refl) as (tk & Htk & _ & Hover & Hin).
  pose proof (sessions_are_exclusive (RT := ToyServer.requests_typed) ToyServer.st0 w
    ToyServer.st0_tables eq_refl eq_refl Hr) as Hs.
  exists w, tk. split_and!; [exact Hr|exact Hs|exact Htk|exact Hover|exact Hin|].
  apply (proj1 Hs). exists 0%nat, tk. split; [exact Htk|]. by apply inside_cases.
Defined.

Lemma server_keeps_tables_witness :
  ∃ w, ToyServer.reach (init ToyServer.st0) w ∧ length (w_tasks w) = 2%nat ∧
    tables_ok (database (w_state w)).
Proof.
  destruct (ToyServer.run_view _ _ _ ToyServer.login_again_view) as (w & Hr & Hv).
  exists w. split_and!; [exact Hr| |].
  - apply (f_equal (length ∘ snd)) in Hv. cbn in Hv. by rewrite length_fmap in Hv.
  - exact (server_keeps_tables (RT := ToyServer.requests_typed) ToyServer.st0 w
      ToyServer.st0_tables eq_refl eq_refl Hr).
Defined.

(** Alice's first connection is over, she is still logged, and so she remains. *)
Lemma leaked_login_locks_out_witness :
  ∃ w, ToyServer.reach (init ToyServer.st0) w ∧
    ∀ w', ToyServer.reach w w' → ToyDb.alice ∈ logged_users (w_state w') ∧
      ∀ j tk', w_tasks w' !! j = Some tk' → j ≠ 0%nat → inside tk' ≠ Some ToyDb.alice.
Proof.
  destruct (ToyServer.run_view _ _ _ ToyServer.login_broken_view) as (w & Hr & Hv).
  destruct (ToyServer.view_task _ _ 0 _ _ Hv eq_refl) as (tk & Htk & _ & Hover & Hin).
  exists w. split; [exact Hr|]. intros w' Hr'.
  exact (leaked_login_locks_out (RT := ToyServer.requests_typed) ToyServer.st0 w w' 0 tk
    ToyDb.alice ToyServer.st0_tables eq_refl eq_refl Hr Htk Hover Hin Hr').
Defined.

(** ** One connection to its end *)

Section Alone.
Context {SHA : Sha256Lib} {RSA : RsaLib} {HEX : HexLib} {ARGON : Argon2Lib}.
Context {S : Type} {SI : Signer S}.
Context {WREQ : Wincode Request} {WRESP : Wincode Response}.
Implicit Types (c : ctx S).

Lemma exec_turns_le {A} (p : prog A) c : (length (c_turns (exec p c).2) ≤ length (c_turns c))%nat.
Proof.
  revert c. induction p as [a|e k IH|msg|]; intros c; cbn; try done.
  destruct (next_turn e c) as [cur turns] eqn:En.
  assert (length turns ≤ length (c_turns c))%nat.
  { destruct e; cbn in En; injection En as _ <-; try lia. destruct (c_turns c); cbn; lia. }
  destruct (perform cur e (c_state c)) as [x st]. etrans; [apply IH|done].
Qed.

(** A program without loops has no bound to run into. *)
Fixpoint straight {A} (p : prog A) : Prop :=
  match p with
  | Ret _ | Crash _ => True
  | Cut => False
  | Act e k => ∀ x, straight (k x)
  end.

Lemma exec_straight {A} (p : prog A) c : straight p → (exec p c).1 ≠ Unfinished.
Proof.
  revert c. induction p as [a|e k IH|msg|]; intros c H; cbn in *; try done.
  destruct (next_turn e c) as [cur turns]. destruct (perform cur e (c_state c)) as [x st].
  by apply IH.
Qed.

Lemma straight_bind {A B} (p : prog A) (f : A → prog B) :
  straight p → (∀ a, straight (f a)) → straight (p ≫= f).
Proof. intros Hp Hf. induction p; cbn in *; [apply Hf|eauto|done..]. Qed.

Ltac straight_steps :=
  repeat match goal with
  | |- straight (mbind _ _) => apply straight_bind; [|intros ?]
  | |- straight (try_bind _ _) => apply straight_bind; [|intros ?]
  | |- straight (act _) => by intros ?
  | |- straight (unwinding ?o) => by destruct o
  | |- straight (mret _) => exact I
  | |- straight (reply _) => exact I
  | |- straight (fatal _ _) => exact I
  | |- straight (match ?x with _ => _ end) => destruct x
  end.

Lemma straight_session_arm u req : straight (session_arm u req).
Proof.
  destruct req; cbn [session_arm]; unfold sign_hash_arm, record_arm, refund_arm, purchase_arm,
    how_many_arm, history_arm; straight_steps.
Qed.
Lemma straight_conn_arm addr req : straight (conn_arm addr req).
Proof. destruct req; cbn [conn_arm]; unfold login_arm, sign_up_arm; straight_steps. Qed.
Lemma straight_respond r : straight (respond r).
Proof. unfold respond. straight_steps. Qed.
Lemma straight_fetch addr : straight (fetch_next_request addr).
Proof. unfold fetch_next_request. straight_steps. Qed.
Lemma straight_closed_reason : straight closed_reason.
Proof. unfold closed_reason. straight_steps. Qed.

(** A request takes a turn. *)
Lemma fetch_takes_turn addr c req c' :
  exec (fetch_next_request addr) c = (Returned (Ok (Some req)), c') →
  (length (c_turns c') < length (c_turns c))%nat.
Proof.
  unfold fetch_next_request. rewrite exec_bind. cbn.
  destruct (c_turns c) as [|en turns] eqn:Et; cbn.
  - destruct (cancel_token (c_state c) && false); cbn; done.
  - destruct (cancel_token (c_state c) && en_cancel_first en); cbn; [done|].
    destruct (en_next en) as [[bytes|e]|]; cbn; [| |done]; intros [= _ <-]; cbn; lia.
Qed.

(** What follows a step of a program, with the turns it may have used. *)
Lemma bind_ends {A B} (p : prog A) (f : A → prog B) c :
  (exec p c).1 ≠ Unfinished →
  (∀ a c', exec p c = (Returned a, c') → (length (c_turns c') ≤ length (c_turns c))%nat →
     (exec (f a) c').1 ≠ Unfinished) →
  (exec (p ≫= f) c).1 ≠ Unfinished.
Proof.
  intros Hp Hf. rewrite exec_bind. pose proof (exec_turns_le p c) as Hle.
  destruct (exec p c) as [[a|msg|] c']; cbn in *; [by apply Hf|done|done].
Qed.

Lemma try_ends {A B E} (p : prog (result A E)) (f : A → prog (result B E)) c :
  (exec p c).1 ≠ Unfinished →
  (∀ a c', exec p c = (Returned (Ok a), c') → (length (c_turns c') ≤ length (c_turns c))%nat →
     (exec (f a) c').1 ≠ Unfinished) →
  (exec (try_bind p f) c).1 ≠ Unfinished.
Proof. intros Hp Hf. apply bind_ends; [done|]. intros [a|e] c' E' Hle; [by apply Hf|done]. Qed.

Lemma session_ends_in n s c :
  (length (c_turns c) < n)%nat → (exec (session_handler n s) c).1 ≠ Unfinished.
Proof.
  revert c. induction n as [|n IH]; intros c Hn; [lia|]. cbn [session_handler].
  apply bind_ends; [apply exec_straight, straight_fetch|]. intros r c1 Ef Hle.
  destruct r as [[req|]|e]; cbn -[exec session_arm respond session_handler closed_reason]; [| |done].
  - apply fetch_takes_turn in Ef.
    apply try_ends; [apply exec_straight, straight_session_arm|]. intros [resp lo] c2 _ Hle2.
    apply try_ends; [apply exec_straight, straight_respond|]. intros _ c3 _ Hle3.
    cbn [snd]. destruct lo; [done|]. apply IH. lia.
  - apply bind_ends; [apply exec_straight, straight_closed_reason|done].
Qed.

Lemma run_session_ends n s c :
  (length (c_turns c) < n)%nat → (exec (run_session n s) c).1 ≠ Unfinished.
Proof.
  intros Hn. apply bind_ends; [by apply session_ends_in|]. intros r c' _ _.
  apply exec_straight. straight_steps.
Qed.

Lemma conn_handler_ends n addr c :
  (length (c_turns c) < n)%nat → (exec (conn_handler_core n addr) c).1 ≠ Unfinished.
Proof.
  revert c. induction n as [|n IH]; intros c Hn; [lia|]. cbn [conn_handler_core].
  apply bind_ends; [apply exec_straight, straight_fetch|]. intros r c1 Ef Hle.
  destruct r as [[req|]|e];
    cbn -[exec conn_arm respond conn_handler_core closed_reason run_session]; [| |done].
  - apply fetch_takes_turn in Ef.
    apply try_ends; [apply exec_straight, straight_conn_arm|]. intros [resp os] c2 _ Hle2.
    apply try_ends; [apply exec_straight, straight_respond|]. intros _ c3 _ Hle3. cbn [snd].
    destruct os as [s|]; [|apply IH; lia].
    apply try_ends; [apply run_session_ends; lia|]. intros [reason|] c4 _ Hle4; [done|apply IH; lia].
  - apply bind_ends; [apply exec_straight, straight_closed_reason|done].
Qed.

(** The logged users while a connection runs alone: those of the others, and the
    user it is inside of. *)
Definition held (base : gset string) (ph : phase) (logged : gset string) : Prop :=
  match own ph with
  | Some u => (u ∉ base) ∧ logged = {[u]} ∪ base
  | None => logged = base
  end.

Lemma held_perform base en e ph ph' (st st' : STSServerState S) x :
  held base ph (logged_users st) → perform en e st = (x, st') → phase_step ph e x = Some ph' →
  held base ph' (logged_users st').
Proof.
  unfold held. intros Hh Hp Hph. pose proof (phase_step_own _ _ _ _ Hph) as Hown.
  pose proof (perform_logged en e st) as Hl. rewrite Hp in Hl. cbn in Hl. rewrite Hl.
  destruct e; try (by rewrite Hown).
  - destruct Hown as [E1 ->]. cbn in Hp. injection Hp as <- _. rewrite E1 in Hh. subst base.
    case_bool_decide; [done|]. by apply subseteq_union_1_L; set_solver.
  - destruct Hown as [E1 ->]. rewrite E1 in Hh. destruct Hh as [Hn ->]. set_solver.
Qed.

Lemma exec_safe {A} (Q : phase → A → Prop) base ph (p : prog A) c r c' :
  safe Q ph p → held base ph (logged_users (c_state c)) → exec p c = (r, c') →
  ∃ ph', run_trace phase_step ph (exec_trace p c) = Some ph' ∧
    held base ph' (logged_users (c_state c')) ∧
    match r with Returned a => Q ph' a | _ => True end.
Proof.
  revert ph c. induction p as [a0|e k IH|msg|]; intros ph c Hs Hh He; cbn in *; simplify_eq; try (by eauto).
  destruct (next_turn e c) as [cur turns].
  destruct (perform cur e (c_state c)) as [x st] eqn:Ep. specialize (Hs x).
  destruct (phase_step ph e x) as [ph'|] eqn:Eph; [|done].
  pose proof (held_perform _ _ _ _ _ _ _ _ Hh Ep Eph) as Hh'.
  destruct (IH x ph' {| c_cur := cur; c_turns := turns; c_state := st; c_out := c_out c ++ sent e x |}
    Hs Hh' He) as (ph'' & Ht & Hrest).
  exists ph''. split; [|done]. unfold run_trace in *. cbn. by rewrite Eph.
Qed.
End Alone.

(** A connection whose client closes the stream after finitely many frames, whatever they
    hold and whatever fails on the way, returns or unwinds: the bound on its iterations is
    not reached when it exceeds the number of turns. *)
Theorem closed_connection_ends {SHA : Sha256Lib} {RSA : RsaLib} {HEX : HexLib} {ARGON : Argon2Lib}
    {S : Type} {SI : Signer S} {WREQ : Wincode Request} {WRESP : Wincode Response}
    (n : nat) (addr : SocketAddr) (c : ctx S) :
  (length (c_turns c) < n)%nat → (exec (conn_handler n addr) c).1 ≠ Unfinished.
Proof. apply conn_handler_ends. Qed.

(** C14: a connection releases its user.  However many sessions it had and however it
    ends (its client closes the stream after its last frame, if it gets there), by
    returning or by unwinding, the logged users are afterwards as it found them,
    or there is exactly one more; and then it unwound, or it returned an error right
    after a login whose reply was not delivered.  In particular no session, whichever
    error ends it, leaves its user behind by returning. *)
Theorem connection_releases_user
    {SHA : Sha256Lib} {RSA : RsaLib} {HEX : HexLib} {ARGON : Argon2Lib} {S : Type} {SI : Signer S}
    {WREQ : Wincode Request} {WRESP : Wincode Response} {RT : RequestsTyped}
    (n : nat) (addr : SocketAddr) (c c' : ctx S)
    (r : ending (result ClosedStreamReason HandlerError)) :
  (length (c_turns c) < n)%nat →
  exec (conn_handler n addr) c = (r, c') →
  logged_users (c_state c') = logged_users (c_state c) ∨
  ∃ u, (u ∉ logged_users (c_state c)) ∧
       logged_users (c_state c') = {[u]} ∪ logged_users (c_state c) ∧
       ((∃ msg, r = Crashed msg) ∨
        (∃ e, r = Returned (Err e)) ∧ unanswered_login u (exec_trace (conn_handler n addr) c)).
Proof.
  intros Hn He. pose proof (conn_handler_ends n addr c Hn) as Hfin.
  destruct (exec_safe _ (logged_users (c_state c)) Anon _ _ _ _
    (safe_conn_handler n addr) eq_refl He) as (ph & Ht & Hh & Hq).
  unfold conn_handler in *. rewrite He in Hfin. unfold held in Hh.
  destruct (own ph) as [u|] eqn:Eo; [right; exists u|by left]. destruct Hh as [Hu Hl].
  split_and!; [done..|]. destruct r as [r|msg|]; [right|left; by eexists|done].
  destruct Hq as [->|(v & e & -> & ->)]; [done|]. injection Eo as ->.
  split; [by eexists|]. by apply (entered_unanswered Anon).
Qed.

(** The reply to Alice's login meets a broken pipe: she is left behind. *)
Lemma connection_releases_user_witness :
  let handler := conn_handler (WREQ := ToyConn.wreq) (WRESP := ToyConn.wresp) 5 ToyConn.addr in
  let c := {| c_cur := closed_stream; c_turns := [ToyServer.broken [x05]];
              c_state := ToyConn.st0; c_out := [] |} in
  let res := exec (SHA := Toy.sha) (RSA := Toy.rsa) (HEX := Toy.hex) (ARGON := ToyDb.argon)
    (SI := @slow_signer Toy.sha Toy.rsa) handler c in
  res.1 = Returned (Err (Network ConnectionDropped)) ∧
  (logged_users (c_state res.2) = ∅ ∨
   ∃ u, (u ∉ (∅ : gset string)) ∧ logged_users (c_state res.2) = {[u]} ∪ ∅ ∧
     ((∃ msg, res.1 = Crashed msg) ∨ (∃ e, res.1 = Returned (Err e)) ∧
      unanswered_login u (exec_trace (SHA := Toy.sha) (RSA := Toy.rsa) (HEX := Toy.hex)
        (ARGON := ToyDb.argon) (SI := @slow_signer Toy.sha Toy.rsa) handler c))).
Proof.
  intros handler c res. split; [vm_compute; reflexivity|].
  apply (connection_releases_user (SHA := Toy.sha) (RSA := Toy.rsa) (HEX := Toy.hex)
    (ARGON := ToyDb.argon) (SI := @slow_signer Toy.sha Toy.rsa)
    (WREQ := ToyConn.wreq) (WRESP := ToyConn.wresp) (RT := ToyServer.requests_typed) 5 ToyConn.addr
    c res.2 res.1); [cbn; lia|]. unfold res. by destruct (exec _ _).
Defined.
