(* ===== verification/ServerTypes.v ===== *)
(** * ServerTypes: what crosses the boundaries of a connection has its Rust type

    The model keeps machine integers as [Z] and vectors as lists.  The Rust types
    bound them: token counts are [u64]s, timestamps [u128]s, and the history query has
    its limit.  The theorem shows that in every interleaving every value a connection
    passes to the database, to the signer and to its client has its type, and that no
    token or history method of the database panics. *)
From S2P Require Import Prelude Bytes Protocol Sql Database DatabaseSpec TimeOracle Signer.
From S2P Require Import Effects ConnHandler Account SessionSpec Server ServerSpec.

Definition record_typed (r : HistoryRecord) : bool := ts_ok (hr_timestamp r).

Definition response_typed (r : Response) : bool :=
  match r with
  | TokenCount n => in_u64 n
  | Token _ _ ts => ts_ok ts
  | RespHistory records => (length records <=? HISTORY_LIMIT)%nat && forallb record_typed records
  | _ => true
  end.

Definition balance_typed {E} (o : outcome (result Z E)) : bool :=
  match o with Done (Ok n) => in_u64 n | Done (Err _) => true | Panic _ => false end.

(** The values an event hands over. *)
Definition event_typed {WRESP : Wincode Response} (e : event) : bool :=
  match e with
  | EvSend b => match deserialize b with Ok r => response_typed r | Err _ => false end
  | EvAddTokens _ n | EvSubtractTokens _ n => in_u64 n
  | EvAddRecord _ ts _ | EvSign _ ts => ts_ok ts
  | _ => true
  end.

(** The values an answer brings back. *)
Definition answer_typed (e : event) : answer e → bool :=
  match e with
  | EvGetTokens _ => balance_typed
  | EvAddTokens _ _ => balance_typed
  | EvSubtractTokens _ _ => balance_typed
  | EvHistory _ => λ o,
      match o with
      | Done (Ok records) => response_typed (RespHistory records)
      | Done (Err _) => true
      | Panic _ => false
      end
  | EvAddRecord _ _ _ => λ o, match o with Done _ => true | Panic _ => false end
  | EvTimeNow => representable
  | _ => λ _, true
  end.

(** ** The handlers keep the types *)

Section Handlers.
Context {WREQ : Wincode Request} {WRESP : Wincode Response}.
Context {LRESP : WincodeLaws Response} {RT : RequestsTyped}.

(** Typed events only, as long as the answers were typed; [false] is the state after
    one that was not. *)
Definition type_step (x : bool) (e : event) (y : answer e) : option bool :=
  if x then (if event_typed e then Some (answer_typed e y) else None) else Some false.

Abbreviation typed := (tracked type_step (λ _, True)).

Lemma typed_sink {A} (p : prog A) : typed (λ x _, x = false) false p.
Proof. induction p; cbn; done. Qed.

(** One event whose answer decides how to go on. *)
Lemma typed_act {A} (Q : bool → A → Prop) e (f : answer e → prog A) :
  event_typed e = true → (∀ a, Q false a) →
  (∀ y, answer_typed e y = true → typed Q true (f y)) → typed Q true (act e ≫= f).
Proof.
  intros He Hf Hy. apply tracked_act. intros y. unfold type_step. rewrite He.
  destruct (answer_typed e y) eqn:E; [by apply Hy|].
  eapply tracked_mono; [|apply typed_sink]. by intros x a ->.
Qed.

(** What holds of the results of a handler that saw typed answers. *)
Definition when_typed {A} (P : A → Prop) (x : bool) (a : A) : Prop := x = true → P a.

Lemma typed_bind {A B} (Q : bool → B → Prop) (P : A → Prop) (p : prog A) (f : A → prog B) :
  typed (when_typed P) true p → (∀ b, Q false b) → (∀ a, P a → typed Q true (f a)) →
  typed Q true (p ≫= f).
Proof.
  intros Hp Hn Hf. apply tracked_bind. eapply tracked_mono; [|exact Hp]. intros [] a Ha.
  - by apply Hf, Ha.
  - eapply tracked_mono; [|apply typed_sink]. by intros x b ->.
Qed.

Lemma now_typed now ts :
  representable now = true → duration_since_epoch now = Some ts → ts_ok (Timestamp_new ts) = true.
Proof.
  intros Hr%representable_spec. unfold duration_since_epoch, UNIX_EPOCH.
  destruct (Z.leb_spec 0 now); [|done]. intros [= <-]. apply ts_ok_spec. cbn.
  unfold NANOS_PER_SEC, i64_max, u128_max in *. lia.
Qed.

Definition arm_typed {B} (r : result (Response * B) HandlerError) : Prop :=
  match r with Ok (resp, _) => response_typed resp = true | Err _ => True end.

Ltac typed_steps :=
  repeat match goal with
  | |- typed _ true (mbind _ (act _)) => apply typed_act; [first [done|by eapply now_typed]|done|intros ? ?]; cbn beta
  | |- typed _ true (mbind _ (unwinding ?o)) =>
      destruct o; cbn [unwinding]; [rewrite ret_bind; cbn beta|exact I]
  | |- typed _ true (match ?x with _ => _ end) => destruct x eqn:?
  end; try done; try (intros _; first [assumption|by eapply now_typed]).

Lemma typed_session_arm u req :
  request_typed req = true → typed (when_typed arm_typed) true (session_arm u req).
Proof.
  intros Hreq. destruct req; cbn [session_arm]; unfold sign_hash_arm, record_arm, refund_arm,
    purchase_arm, how_many_arm, history_arm; typed_steps.
Qed.

Lemma typed_conn_arm addr req : typed (when_typed arm_typed) true (conn_arm addr req).
Proof.
  destruct req; cbn [conn_arm]; unfold login_arm, sign_up_arm; typed_steps.
  match goal with inserted : answer (EvLoggedInsert _) |- _ => by destruct inserted end.
Qed.

Lemma typed_fetch addr :
  typed (when_typed (λ r, match r with Ok (Some req) => request_typed req = true | _ => True end))
    true (fetch_next_request addr).
Proof using RT.
  unfold fetch_next_request. apply typed_act; [done..|]. intros y _.
  destruct y as [[[bytes|e]|]|]; cbn; [|intros _; by repeat case_match|done|done].
  intros _. unfold deserialize.
  destruct (wincode_deserialize BINCODE_CONFIG bytes) as [req|e] eqn:E; cbn; [|done].
  by eapply decoded_typed.
Qed.

Lemma typed_respond r : response_typed r = true → typed (when_typed (λ _, True)) true (respond r).
Proof using LRESP.
  intros Hr. unfold respond. apply tracked_try. cbn.
  destruct (serialize r) as [b|e] eqn:Eb; cbn; [|done]. intros y. unfold type_step. cbn.
  unfold serialize in Eb. apply map_err_ok in Eb. unfold deserialize.
  rewrite (wincode_roundtrip _ _ _ Eb). cbn. by rewrite Hr.
Qed.

Lemma typed_closed_reason : typed (when_typed (λ _, True)) true closed_reason.
Proof. done. Qed.

Lemma typed_try {A B E} (P : A → Prop) (p : prog (result A E)) (f : A → prog (result B E)) :
  typed (when_typed (λ r, match r with Ok a => P a | Err _ => True end)) true p →
  (∀ a, P a → typed (when_typed (λ _, True)) true (f a)) →
  typed (when_typed (λ _, True)) true (try_bind p f).
Proof.
  intros Hp Hf. eapply typed_bind; [exact Hp|done|]. intros [a|e] H; [by apply Hf|done].
Qed.

Lemma typed_session_handler n s : typed (when_typed (λ _, True)) true (session_handler n s).
Proof using LRESP RT.
  induction n as [|n IH]; cbn [session_handler]; [done|].
  eapply typed_bind; [apply typed_fetch|done|]. intros [[req|]|e] Hreq;
    cbn -[tracked closed_reason session_arm respond session_handler]; [| |done].
  - eapply (typed_try (λ a, response_typed a.1 = true)).
    + eapply tracked_mono; [|by apply typed_session_arm]. intros x [[]|] H; exact H.
    + intros [resp lo] Hr. cbn [fst snd] in *.
      apply (typed_try (λ _, True)).
      * eapply tracked_mono; [|by apply typed_respond]. by intros x [] _ _.
      * intros _ _. by destruct lo.
  - eapply typed_bind; [apply typed_closed_reason|done|done].
Qed.

Lemma typed_run_session n s : typed (when_typed (λ _, True)) true (run_session n s).
Proof using LRESP RT.
  unfold run_session. eapply typed_bind; [apply typed_session_handler|done|].
  by intros [[[]|]|e] _.
Qed.

Lemma typed_conn_handler n addr : typed (when_typed (λ _, True)) true (conn_handler_core n addr).
Proof using LRESP RT.
  induction n as [|n IH]; cbn [conn_handler_core]; [done|].
  eapply typed_bind; [apply typed_fetch|done|]. intros [[req|]|e] _;
    cbn -[tracked closed_reason conn_arm respond conn_handler_core run_session]; [| |done].
  - eapply (typed_try (λ a, response_typed a.1 = true)).
    + eapply tracked_mono; [|by apply typed_conn_arm]. intros x [[]|] H; exact H.
    + intros [resp os] Hr. cbn [fst snd] in *. apply (typed_try (λ _, True)).
      * eapply tracked_mono; [|by apply typed_respond]. by intros x [] _ _.
      * intros _ _. destruct os as [s|]; [|done]. apply (typed_try (λ _, True)).
        -- eapply tracked_mono; [|apply typed_run_session]. by intros x [] _ _.
        -- by intros [reason|] _.
  - eapply typed_bind; [apply typed_closed_reason|done|done].
Qed.

Lemma typed_connection_task n addr : typed (λ _ _, True) true (connection_task n addr).
Proof using LRESP RT.
  apply (tracked_mono type_step _ (when_typed (λ _, True))); [done|].
  unfold connection_task. apply (typed_try (λ _, True)).
  - by intros [].
  - intros _ _. eapply typed_bind; [apply typed_conn_handler|done|].
    by intros [|[[]|]] _.
Qed.
End Handlers.

(** ** The database, the oracle and the clock answer with typed values *)

Section Answers.
Context {SHA : Sha256Lib} {RSA : RsaLib} {HEX : HexLib} {ARGON : Argon2Lib}.
Context {S : Type} {SI : Signer S}.
Context {WREQ : Wincode Request} {WRESP : Wincode Response}.
Context {LRESP : WincodeLaws Response} {RT : RequestsTyped}.
Implicit Types (w : world S) (st : STSServerState S).

Lemma on_database_typed {E A} (m : io E A) (P : outcome (result A E) → bool) en st :
  wp m (λ o _, P o = true) {| p_tables := database st; p_faults := en_faults en |} →
  P (on_database m en st).1 = true.
Proof. unfold wp, on_database. by destruct (m _). Qed.

Lemma ledger_bounds t u b : tables_ok t → ledger t !! u = Some b → 0 ≤ b ≤ i64_max.
Proof.
  intros Hok. rewrite ledger_lookup. destruct (t_users t !! u) as [r|] eqn:E; [|done].
  destruct (tables_ok_row _ _ _ Hok E) as (z & Ez & Hz & _ & _).
  cbn. unfold row_balance. rewrite Ez. by intros [= <-].
Qed.

Lemma balance_of_sim {E} (classify : E → option Ledger.error) abs t sick o p' :
  (∀ b l, abs = Ok (b, l) → 0 ≤ b ≤ i64_max) →
  ledger_sim classify abs t sick o p' → balance_typed o = true.
Proof.
  intros Hb. destruct o as [[b|e]|]; cbn; [|done..]. intros (Ha & _).
  apply in_range_spec. pose proof (Hb _ _ Ha). bounds.
Qed.

Lemma history_typed u t recs :
  tables_ok t → Forall2 decodes (select_history u t) recs →
  response_typed (RespHistory recs) = true.
Proof.
  intros Hok HF. cbn. apply andb_true_iff. split.
  - rewrite <- (Forall2_length HF), select_history_length. apply Nat.leb_le. lia.
  - apply forallb_forall. intros rec Hin. apply list_elem_of_In in Hin.
    destruct (Forall2_elem_r _ _ _ _ HF Hin) as (row & Hrow & D).
    pose proof (select_history_ok u t Hok) as Hall. rewrite Forall_forall in Hall.
    destruct (decodes_inv row rec) as (b & _ & Lb & Er & _);
      [by apply Hall, list_elem_of_In|done|].
    unfold record_typed. apply ts_ok_spec. rewrite Er.
    pose proof (from_be_bytes_range b) as R. rewrite Lb, u128_pow in R. lia.
Qed.

(** On tables in order, with a clock that shows a [SystemTime], a typed event has a
    typed answer. *)
Lemma perform_typed en e st :
  tables_ok (database st) → in_i64 (oracle_offset st) = true → representable (en_clock en) = true →
  event_typed e = true → answer_typed e (perform en e st).1 = true.
Proof.
  intros Hok Ho Hc He.
  destruct e; cbn in He |- *; try done; try apply on_database_typed.
  - eapply wp_mono; [|by apply wp_get_user_tokens]. intros [[b|[]]|] p' [_ H]; try done.
    apply in_range_spec. pose proof (ledger_bounds _ _ _ Hok H). bounds.
  - apply in_range_spec in He.
    eapply wp_mono; [|by apply wp_add_user_tokens; [|lia]]. intros o p'. apply balance_of_sim.
    intros b l. unfold Ledger.credit. cbn. destruct (i64_max <? amount); [done|].
    destruct (ledger (database st) !! username) as [z|] eqn:E; [|done].
    pose proof (ledger_bounds _ _ _ Hok E). destruct (Z.ltb_spec i64_max (z + amount)); [done|].
    intros [= <- _]. lia.
  - apply in_range_spec in He.
    eapply wp_mono; [|by apply wp_subtract_user_tokens; [|lia]]. intros o p'. apply balance_of_sim.
    intros b l. unfold Ledger.debit. cbn. destruct (i64_max <? amount); [done|].
    destruct (ledger (database st) !! username) as [z|] eqn:E; [|done].
    pose proof (ledger_bounds _ _ _ Hok E). destruct (Z.ltb_spec z amount); [done|].
    intros [= <- _]. lia.
  - apply (on_database_typed _ (answer_typed (EvAddRecord username timestamp sign))).
    eapply wp_mono; [|by apply wp_add_user_record]. by intros [[[]|[]]|] p'.
  - apply (on_database_typed _ (answer_typed (EvHistory username))).
    eapply wp_mono; [|by apply wp_get_user_history]. intros [[recs|[]]|] p' [_ H]; try done.
    destruct H as [_ HF]. by apply (history_typed username (database st)).
  - by apply time_now_representable; [apply in_range_spec|].
Qed.
End Answers.

(** The clock of a move shows a [SystemTime]. *)
Definition move_clock_ok (m : move) : bool :=
  match m with MoveTask _ en => representable (en_clock en) | _ => true end.

Definition entry_typed {WRESP : Wincode Response} (ev : {e : event & answer e}) : bool :=
  event_typed (projT1 ev) && answer_typed (projT1 ev) (projT2 ev).

Section Worlds.
Context {SHA : Sha256Lib} {RSA : RsaLib} {HEX : HexLib} {ARGON : Argon2Lib}.
Context {S : Type} {SI : Signer S}.
Context {WREQ : Wincode Request} {WRESP : Wincode Response}.
Context {LRESP : WincodeLaws Response} {RT : RequestsTyped}.
Implicit Types (w : world S).

Definition task_typed (tk : task) : Prop :=
  forallb entry_typed (tk_trace tk) = true ∧
  tracked type_step (λ _, True) (λ _ _, True) true (tk_prog tk).

Lemma typed_move m w w' :
  world_ok w → move_clock_ok m = true → apply_move m w = Some w' →
  (∀ i tk, w_tasks w !! i = Some tk → task_typed tk) →
  ∀ i tk, w_tasks w' !! i = Some tk → task_typed tk.
Proof using LRESP RT.
  intros (Hok & Ho & _) Hc Hm IH i tk.
  destruct m as [n a| | |fr tw|ck|j en].
  4,5: destruct (worker_move_frame _ _ _ Hm I) as [-> _]; apply IH.
  all: cbn in Hm; try (case_match; simplify_eq; apply IH).
  - case_match; simplify_eq. cbn. rewrite lookup_app.
    destruct (w_tasks w !! i) eqn:Ei; [intros; simplify_eq; by eapply IH|].
    destruct (i - length (w_tasks w))%nat as [|[]]; cbn; intros; simplify_eq.
    split; [done|apply typed_connection_task].
  - simplify_eq. apply IH.
  - destruct (w_tasks w !! j) as [tk'|] eqn:Ej; [|done]. cbn in Hm, Hc.
    destruct (IH _ _ Ej) as (Htr & Ht). destruct (tk_prog tk') as [|e k| |]; try done.
    pose proof (perform_typed en e (w_state w) Hok Ho Hc) as Hp.
    destruct (perform en e (w_state w)) as [y st']. simplify_eq. cbn.
    rewrite list_lookup_insert. case_decide; [|apply IH]. intros [= <-].
    specialize (Ht y). unfold type_step in Ht. destruct (event_typed e) eqn:He; [|done].
    cbn in Hp. rewrite (Hp eq_refl) in Ht. split; [|done]. cbn.
    rewrite forallb_app, Htr. cbn. unfold entry_typed. cbn. by rewrite He, (Hp eq_refl).
Qed.

Lemma run_moves_snoc ms m w w' :
  run_moves (ms ++ [m]) w = Some w' ↔ ∃ w1, run_moves ms w = Some w1 ∧ apply_move m w1 = Some w'.
Proof.
  rewrite run_moves_app. destruct (run_moves ms w) as [w1|]; cbn; [|naive_solver].
  destruct (apply_move m w1) eqn:E; cbn; naive_solver.
Qed.
End Worlds.

(** C7: values have their Rust types.  Along every interleaving whose clocks show a
    [SystemTime], from a state in order, everything a connection hands to the database,
    the signer or its client is typed, and so is every answer it gets: amounts and
    balances are [u64]s, signed and recorded instants [u128]s, every frame it sends
    decodes to a response whose numbers fit and whose history has at most a hundred
    records, and no token, record or history method of the database panics. *)
Theorem values_are_typed
    {SHA : Sha256Lib} {RSA : RsaLib} {HEX : HexLib} {ARGON : Argon2Lib} {S : Type} {SI : Signer S}
    {WREQ : Wincode Request} {WRESP : Wincode Response}
    {LRESP : WincodeLaws Response} {RT : RequestsTyped}
    (st : STSServerState S) (ms : list move) (w : world S) (i : nat) (tk : task) :
  tables_ok (database st) → in_i64 (oracle_offset st) = true → logged_users st = ∅ →
  forallb move_clock_ok ms = true →
  run_moves ms (init st) = Some w → w_tasks w !! i = Some tk →
  forallb entry_typed (tk_trace tk) = true.
Proof.
  intros Ht Ho Hl Hms Hrun Hi.
  assert (∀ j tk', w_tasks w !! j = Some tk' → task_typed tk') as Hall;
    [|by destruct (Hall _ _ Hi)].
  clear i tk Hi. revert w Hrun. induction ms as [|m ms IH] using rev_ind; intros w Hrun.
  { cbn in Hrun. injection Hrun as <-. done. }
  rewrite forallb_app in Hms. apply andb_true_iff in Hms as [Hms Hm]. cbn in Hm.
  rewrite andb_true_r in Hm. apply run_moves_snoc in Hrun as (w1 & Hrun & Hmv).
  eapply typed_move; [|exact Hm|exact Hmv|by apply IH].
  eapply world_ok_reachable; [by apply world_ok_init|by eapply run_moves_reachable].
Qed.

(** Alice logs in and has a hash signed. *)
Lemma values_are_typed_witness :
  let ms := MoveAccept 9 ToyConn.addr :: replicate 5 (MoveTask 0 (ToyConn.en_of [x05]))
            ++ replicate 6 (MoveTask 0 (ToyConn.en_of [x01])) in
  ∃ w tk, ToyServer.run ms (init ToyServer.st0) = Some w ∧ w_tasks w !! 0%nat = Some tk ∧
    length (tk_trace tk) = 11%nat ∧
    forallb (entry_typed (WRESP := ToyConn.wresp)) (tk_trace tk) = true.
Proof.
  intros ms.
  assert ((λ w, (λ tk, length (tk_trace tk)) <$> w_tasks w) <$>
    ToyServer.run ms (init ToyServer.st0) = Some [11%nat]) as Hv by (vm_compute; reflexivity).
  destruct (ToyServer.run ms (init ToyServer.st0)) as [w|] eqn:Er; [|discriminate Hv].
  cbn in Hv. injection Hv as Hv. destruct (w_tasks w) as [|tk [|tk2 tks]] eqn:Ew;
    [discriminate Hv| |discriminate Hv].
  injection Hv as Hv. exists w, tk. split_and!; [reflexivity|rewrite Ew; reflexivity|exact Hv|].
  refine (values_are_typed (LRESP := ToyConn.wresp_laws) (RT := ToyServer.requests_typed)
    ToyServer.st0 ms w 0 tk ToyServer.st0_tables eq_refl eq_refl _ Er _).
  - vm_compute. reflexivity.
  - rewrite Ew. reflexivity.
Defined.
