(* ===== verification/Shutdown.v ===== *)
(** * Shutdown: how much a connection does, and when the server stops

    [run] of [server/src/server.rs] cancels a token and waits for the tasks of all
    connections; whether it ever returns depends on them.  The theorems bound what a
    task does per frame of its client, and what it still does once its stream is closed
    or the token is cancelled: it finishes the request in hand, leaves its session, and
    is over, unless its client keeps it waiting where the cancellation is not looked
    at, in the TLS handshake or while a reply is sent. *)
From S2P Require Import Prelude Bytes Protocol Sql Database DatabaseSpec TimeOracle Signer.
From S2P Require Import Effects ConnHandler Account SessionSpec Server ServerSpec.

(** The events between two reads of a connection, and after the last: the longest
    turn takes a token, reads the clock, signs, records and replies; then the loop
    comes back to the [select!], asks for the reason and leaves the session. *)
Definition TURN_STEPS : nat := 8.

(** The automaton of a budget: the frames it may still read, and the events left
    before the next one.  The end of the stream and the cancellation are no frames. *)
Definition drain_step (x : nat * nat) (e : event) : answer e → option (nat * nat) :=
  match x with
  | (_, O) => λ _, None
  | (r, S k) =>
      match e with
      | EvNext => λ y, match y with
                       | SelectNext (Some _) => Some (pred r, Nat.max k TURN_STEPS)
                       | SelectNext None | SelectCancelled => Some (r, k)
                       end
      | _ => λ _, Some (r, k)
      end
  end.

Abbreviation drains := (tracked drain_step (λ x, x.1 = 0%nat)).

(** ** Straight pieces *)

Definition is_read (e : event) : bool := match e with EvNext => true | _ => false end.

(** A program of at most [c] events, none of which reads. *)
Fixpoint spends {A} (c : nat) (p : prog A) {struct p} : Prop :=
  match p with
  | Ret _ | Crash _ => True
  | Cut => False
  | Act e k => match c with O => False | S c => is_read e = false ∧ ∀ x, spends c (k x) end
  end.

Lemma spends_mono {A} c c' (p : prog A) : (c ≤ c')%nat → spends c p → spends c' p.
Proof.
  revert c c'. induction p as [a|e k IH|msg|]; intros c c' Hle; cbn; try done.
  destruct c as [|c]; [done|]. destruct c' as [|c']; [lia|]. intros [He Hk]. split; [done|].
  intros x. apply (IH x c c'); [lia|done].
Qed.

Lemma spends_act {A} c e (f : answer e → prog A) :
  (∀ x, spends c (f x)) → is_read e = false → spends (S c) (act e ≫= f).
Proof. done. Qed.

Lemma drains_spends {A} c r k (p : prog A) :
  (c ≤ k)%nat → spends c p → drains (λ x _, x.1 = r ∧ (k - c ≤ x.2)%nat) (r, k) p.
Proof.
  revert c k. induction p as [a|e f IH|msg|]; intros c k Hle; cbn -[drain_step]; try done; [lia|].
  destruct c as [|c]; [done|]. destruct k as [|k]; [lia|]. intros [He Hk] x.
  assert (drain_step (r, S k) e x = Some (r, k)) as -> by (by destruct e).
  apply (IH x c k); [lia|done].
Qed.

(** A straight piece, then the rest. *)
Lemma drains_after {A B} (Q : nat * nat → B → Prop) c r k (p : prog A) (f : A → prog B) :
  spends c p → (c ≤ k)%nat →
  (∀ a k', (k - c ≤ k')%nat → drains Q (r, k') (f a)) → drains Q (r, k) (p ≫= f).
Proof.
  intros Hp Hc Hf. apply tracked_bind. eapply tracked_mono; [|by apply (drains_spends c)].
  intros [r' k'] a [E Hk]. cbn in *. subst. by apply Hf.
Qed.

Section Handlers.
Context {WREQ : Wincode Request} {WRESP : Wincode Response}.

Ltac spend_steps :=
  repeat match goal with
  | |- spends _ (mbind _ (act _)) => apply spends_act; [intros ?; cbn beta|done]
  | |- spends _ (mbind _ (unwinding ?o)) => destruct o; cbn [unwinding]; [rewrite ret_bind; cbn beta|exact I]
  | |- spends _ (match ?x with _ => _ end) => destruct x
  end; try done.

Lemma spends_session_arm u req : spends 4 (session_arm u req).
Proof.
  destruct req; cbn [session_arm]; unfold sign_hash_arm, record_arm, refund_arm, purchase_arm,
    how_many_arm, history_arm; spend_steps.
Qed.
Lemma spends_conn_arm addr req : spends 2 (conn_arm addr req).
Proof. destruct req; cbn [conn_arm]; unfold login_arm, sign_up_arm; spend_steps. Qed.
Lemma spends_respond r : spends 1 (respond r).
Proof. unfold respond. destruct (serialize r) as [b|e]; cbn; done. Qed.
Lemma spends_closed_reason : spends 1 closed_reason.
Proof. done. Qed.

(** Reading yields the next frame with a new budget, or the end of the stream. *)
Lemma drains_fetch addr r k :
  drains (λ x res, match res with
                   | Ok None => (x.1 ≤ r)%nat ∧ (k ≤ x.2)%nat
                   | _ => x.1 = pred r ∧ (TURN_STEPS ≤ x.2)%nat
                   end) (r, S k) (fetch_next_request addr).
Proof.
  unfold fetch_next_request. apply tracked_act. intros [[[bytes|e]|]|]; cbn.
  - destruct (deserialize bytes); cbn; split; lia.
  - destruct (io_kind e); (split; [done|lia]).
  - split; lia.
  - split; lia.
Qed.

Lemma drains_session_handler n s r k :
  (r ≤ n)%nat → (3 ≤ k)%nat →
  drains (λ x res, (x.1 ≤ r)%nat ∧
            match res with
            | Ok LoggedOut => (3 ≤ x.2)%nat
            | Ok (ClosedStream _) => (1 ≤ x.2)%nat
            | Err _ => (2 ≤ x.2)%nat
            end) (r, k) (session_handler n s).
Proof.
  revert r k. induction n as [|n IH]; intros r k Hr Hk; cbn [session_handler]; [cbn; lia|].
  destruct k as [|k]; [lia|]. apply tracked_bind. eapply tracked_mono; [|apply drains_fetch].
  intros [r1 k1] res H. unfold TURN_STEPS in H. cbn [fst snd] in H.
  destruct res as [[req|]|e]; cbn -[tracked closed_reason session_arm respond session_handler].
  - destruct H as [-> Hk1]. apply (drains_after _ 4); [apply spends_session_arm|lia|].
    intros [[resp lo]|e] k2 Hk2; cbn -[tracked respond session_handler]; [|cbn; lia].
    apply (drains_after _ 1); [apply spends_respond|lia|].
    intros [[]|e] k3 Hk3; cbn -[tracked session_handler]; [|cbn; lia].
    destruct lo; [cbn; lia|]. eapply tracked_mono; [|apply IH; lia].
    intros [r' k'] res [H1 H2]. split; [cbn in *; lia|done].
  - apply (drains_after _ 1); [apply spends_closed_reason|lia|]. intros a k2 Hk2. cbn. lia.
  - cbn. lia.
Qed.

Lemma drains_run_session n s r k :
  (r ≤ n)%nat → (3 ≤ k)%nat →
  drains (λ x res, (x.1 ≤ r)%nat ∧
            match res with
            | Ok None => (2 ≤ x.2)%nat
            | Ok (Some _) => True
            | Err _ => (1 ≤ x.2)%nat
            end) (r, k) (run_session n s).
Proof.
  intros Hr Hk. unfold run_session. apply tracked_bind.
  eapply tracked_mono; [|by apply drains_session_handler].
  intros [r1 [|k1]] res [H1 H2]; cbn [fst snd] in *; destruct res as [[[]|]|]; try lia;
    intros y; cbn; lia.
Qed.

Lemma drains_conn_handler n addr r k :
  (r ≤ n)%nat → (2 ≤ k)%nat →
  drains (λ x res, match res with Ok _ => True | Err _ => (1 ≤ x.2)%nat end) (r, k)
    (conn_handler_core n addr).
Proof.
  revert r k. induction n as [|n IH]; intros r k Hr Hk; cbn [conn_handler_core]; [cbn; lia|].
  destruct k as [|k]; [lia|]. apply tracked_bind. eapply tracked_mono; [|apply drains_fetch].
  intros [r1 k1] res H. unfold TURN_STEPS in H. cbn [fst snd] in H.
  destruct res as [[req|]|e];
    cbn -[tracked closed_reason conn_arm respond conn_handler_core run_session].
  - destruct H as [-> Hk1]. apply (drains_after _ 2); [apply spends_conn_arm|lia|].
    intros [[resp os]|e] k2 Hk2; cbn -[tracked respond conn_handler_core run_session]; [|cbn; lia].
    apply (drains_after _ 1); [apply spends_respond|lia|].
    intros [[]|e] k3 Hk3; cbn -[tracked conn_handler_core run_session]; [|cbn; lia].
    destruct os as [s|]; [|apply IH; lia].
    apply tracked_try. eapply tracked_mono; [|apply drains_run_session; lia].
    intros [r4 k4] [[reason|]|e] [H1 H2]; cbn [fst snd] in *; [done|apply IH; lia|done].
  - apply (drains_after _ 1); [apply spends_closed_reason|lia|done].
  - cbn. lia.
Qed.

Lemma drains_connection_task n addr :
  drains (λ _ _, True) (n, TURN_STEPS) (connection_task n addr).
Proof.
  unfold connection_task. apply (drains_after _ 1); [done|unfold TURN_STEPS; lia|].
  intros [[]|e] k Hk; unfold TURN_STEPS in Hk; [|done]. apply tracked_bind.
  eapply tracked_mono; [|apply drains_conn_handler; lia].
  intros [r k'] res H. destruct res as [|[[]|]]; try done. cbn [snd] in H.
  destruct k'; [lia|]. by intros y.
Qed.
End Handlers.

(** ** The budget along a run *)

(** The frames a task has been handed, broken ones included. *)
Definition took_frame (ev : {e : event & answer e}) : bool :=
  match ev with existT EvNext (SelectNext (Some _)) => true | _ => false end.
Definition frames (tr : trace) : nat := length (List.filter took_frame tr).

Lemma drain_trace n tr r k :
  run_trace drain_step (n, TURN_STEPS) tr = Some (r, k) →
  r = (n - frames tr)%nat ∧ (k ≤ TURN_STEPS)%nat ∧
  (length tr + k ≤ TURN_STEPS * S (frames tr))%nat.
Proof.
  revert r k. induction tr as [|[e y] tr IH] using rev_ind; intros r k.
  { cbn. intros [= <- <-]. unfold frames, TURN_STEPS. cbn. lia. }
  unfold run_trace. rewrite foldl_app. fold (run_trace drain_step (n, TURN_STEPS) tr).
  destruct (run_trace drain_step (n, TURN_STEPS) tr) as [[r1 k1]|]; [|done].
  destruct (IH r1 k1 eq_refl) as (-> & Hk & Hl). unfold frames. rewrite List.filter_app, !length_app.
  fold (frames tr). cbn [foldl projT1 projT2 mbind option_bind List.filter]. unfold TURN_STEPS in *.
  destruct k1 as [|k1]; [done|]. destruct e; cbn -[Nat.max]; try (intros [= <- <-]; lia).
  destruct y as [[|]|]; intros [= <- <-]; cbn -[Nat.max]; unfold TURN_STEPS; lia.
Qed.

Section Runs.
Context {SHA : Sha256Lib} {RSA : RsaLib} {HEX : HexLib} {ARGON : Argon2Lib}.
Context {S : Type} {SI : Signer S}.
Context {WREQ : Wincode Request} {WRESP : Wincode Response}.
Implicit Types (w : world S) (st : STSServerState S).

Definition moves_task (i : nat) (m : move) : bool :=
  match m with MoveTask j _ => (j =? i)%nat | _ => false end.
Definition moves_of (i : nat) (ms : list move) : nat := length (List.filter (moves_task i) ms).

(** A move in which task [i], if it reads, is not handed a frame: its client has closed
    the stream, or the token is cancelled and its [select!] yields to that. *)
Definition no_frame (i : nat) (cancelled : bool) (m : move) : bool :=
  match m with
  | MoveTask j en => negb (j =? i)%nat || match en_next en with None => true | Some _ => false end
                     || (cancelled && en_cancel_first en)
  | _ => true
  end.

Lemma perform_cancelled en e st :
  cancel_token st = true → cancel_token (perform en e st).2 = true.
Proof. intros H. destruct e; cbn; try done; unfold on_database; by case_match. Qed.

Lemma apply_move_cancelled m w w' :
  cancel_token (w_state w) = true → apply_move m w = Some w' → cancel_token (w_state w') = true.
Proof.
  intros Hc Hm. destruct m as [n a| | |fr tw|ck|j en].
  4,5: by apply (worker_move_frame _ _ _ Hm I).
  all: cbn in Hm; try (case_match; simplify_eq; done).
  - by injection Hm as <-.
  - destruct (w_tasks w !! j) as [tk|]; [|done]. cbn in Hm. destruct (tk_prog tk) as [|e k| |]; try done.
    pose proof (perform_cancelled en e (w_state w) Hc) as Hp.
    destruct (perform en e (w_state w)). by injection Hm as <-.
Qed.

(** What the move of another task, or of none, does to a task. *)
Lemma other_move m w w' i tk :
  apply_move m w = Some w' → moves_task i m = false → w_tasks w !! i = Some tk →
  w_tasks w' !! i = Some tk.
Proof.
  intros Hm Hi Ht. destruct m as [n a| | |fr tw|ck|j en].
  4,5: by destruct (worker_move_frame _ _ _ Hm I) as [-> _].
  all: cbn in Hm; try (case_match; simplify_eq; try done; by apply lookup_app_l_Some).
  - by injection Hm as <-.
  - cbn in Hi. apply Nat.eqb_neq in Hi. destruct (w_tasks w !! j) as [tkj|]; [|done]. cbn in Hm.
    destruct (tk_prog tkj); try done. destruct (perform _ _ _). injection Hm as <-. cbn.
    by rewrite list_lookup_insert_ne.
Qed.

(** A move of task [i] itself: one event of its program. *)
Lemma own_move i en w w' tk :
  apply_move (MoveTask i en) w = Some w' → w_tasks w !! i = Some tk →
  ∃ e k y, tk_prog tk = Act e k ∧ y = (perform en e (w_state w)).1 ∧
    w_tasks w' !! i = Some {| tk_addr := tk_addr tk; tk_bound := tk_bound tk;
                              tk_trace := tk_trace tk ++ [existT e y]; tk_prog := k y |}.
Proof.
  intros Hm Hi. cbn in Hm. rewrite Hi in Hm. cbn in Hm.
  destruct (tk_prog tk) as [|e k| |]; try done. exists e, k. destruct (perform en e (w_state w)) as [y st'].
  exists y. injection Hm as <-. split_and!; [done..|]. cbn.
  apply list_lookup_insert_eq. by eapply lookup_lt_Some.
Qed.

(** As long as no frame arrives the budget of frames stays and the other one shrinks. *)
Lemma drains_move cancelled m w w' i tk r k :
  (cancelled = true → cancel_token (w_state w) = true) →
  no_frame i cancelled m = true → apply_move m w = Some w' →
  w_tasks w !! i = Some tk → drains (λ _ _, True) (r, k) (tk_prog tk) →
  ∃ tk' k', w_tasks w' !! i = Some tk' ∧ drains (λ _ _, True) (r, k') (tk_prog tk') ∧
    k = (k' + moves_of i [m])%nat ∧ tk_bound tk' = tk_bound tk ∧
    frames (tk_trace tk') = frames (tk_trace tk).
Proof.
  intros Hc Hy Hm Hi Hd. unfold moves_of. cbn [List.filter].
  destruct (moves_task i m) eqn:Ei; [|exists tk, k; split_and!; [by eapply other_move|done|cbn; lia|done..]].
  destruct m as [| | | | |j en]; try done. cbn in Ei, Hy. apply Nat.eqb_eq in Ei as ->.
  rewrite Nat.eqb_refl in Hy. cbn in Hy.
  destruct (own_move _ _ _ _ _ Hm Hi) as (e & f & y & Ep & Ey & Hi').
  rewrite Ep in Hd. specialize (Hd y). destruct k as [|k]; [done|].
  assert (drain_step (r, Datatypes.S k) e y = Some (r, k) ∧ took_frame (existT e y) = false) as [E Ef].
  { destruct e; try done. cbn in Ey. subst y. apply orb_true_iff in Hy as [Hy|Hy].
    - destruct (en_next en); [done|]. by destruct (_ && _).
    - apply andb_true_iff in Hy as [-> Hy]. by rewrite Hc, Hy. }
  rewrite E in Hd. eexists _, k. split_and!; [exact Hi'|exact Hd|cbn; lia|done|].
  unfold frames. cbn [tk_trace]. rewrite List.filter_app. cbn [List.filter]. by rewrite Ef, app_nil_r.
Qed.

Lemma drains_run cancelled ms w w' i tk r k :
  (cancelled = true → cancel_token (w_state w) = true) →
  forallb (no_frame i cancelled) ms = true → run_moves ms w = Some w' →
  w_tasks w !! i = Some tk → drains (λ _ _, True) (r, k) (tk_prog tk) →
  (moves_of i ms ≤ k)%nat.
Proof.
  revert w tk k. induction ms as [|m ms IH]; intros w tk k Hc Hy Hr Hi Hd; cbn in Hr; [cbn; lia|].
  cbn in Hy. apply andb_true_iff in Hy as [Hm Hy].
  destruct (apply_move m w) as [w1|] eqn:E; [|done]. cbn in Hr.
  destruct (drains_move _ _ _ _ _ _ _ _ Hc Hm E Hi Hd) as (tk1 & k1 & Hi1 & Hd1 & -> & _).
  assert (moves_of i ms ≤ k1)%nat.
  { eapply IH; [|done..]. intros Hc'. eapply apply_move_cancelled; [by apply Hc|exact E]. }
  unfold moves_of in *. cbn. destruct (moves_task i m); cbn; lia.
Qed.

(** Where a task stands in its budget. *)
Lemma reachable_drains st w i tk :
  reachable (init st) w → w_tasks w !! i = Some tk →
  ∃ k, (k ≤ TURN_STEPS)%nat ∧
    (length (tk_trace tk) + k ≤ TURN_STEPS * Datatypes.S (frames (tk_trace tk)))%nat ∧
    drains (λ _ _, True) ((tk_bound tk - frames (tk_trace tk))%nat, k) (tk_prog tk).
Proof.
  intros Hr Hi.
  destruct (reachable_tracked drain_step (λ x, x.1 = 0%nat) (λ n, (n, TURN_STEPS)) st w i tk)
    as ([r k] & Htr & Hd); [apply drains_connection_task|done..|].
  destruct (drain_trace _ _ _ _ Htr) as (-> & Hk & Hl). by exists k.
Qed.
End Runs.

(** C15: the work of a connection is bounded by what its client sends.  In every reachable
    world, a connection that has been handed [f] frames has made at most [8 * (f + 1)]
    steps; once its stream is closed it makes at most eight more, along every further
    interleaving and whatever fails, and likewise once the token is cancelled and its
    [select!] yields to that; and the bound on its iterations stops it only when it was
    handed as many frames as the bound.  (A client that neither sends nor closes keeps
    it waiting: there is no timeout.) *)
Theorem connection_work_bounded
    {SHA : Sha256Lib} {RSA : RsaLib} {HEX : HexLib} {ARGON : Argon2Lib} {S : Type} {SI : Signer S}
    {WREQ : Wincode Request} {WRESP : Wincode Response}
    (st : STSServerState S) (w : world S) (i : nat) (tk : task) :
  reachable (init st) w → w_tasks w !! i = Some tk →
  (length (tk_trace tk) ≤ TURN_STEPS * Datatypes.S (frames (tk_trace tk)))%nat ∧
  (tk_prog tk = Cut → (tk_bound tk ≤ frames (tk_trace tk))%nat) ∧
  (∀ ms w', run_moves ms w = Some w' → forallb (no_frame i (cancel_token (w_state w))) ms = true →
     (moves_of i ms ≤ TURN_STEPS)%nat).
Proof.
  intros Hr Hi. destruct (reachable_drains st w i tk Hr Hi) as (k & Hk & Hl & Hd). split_and!.
  - lia.
  - intros E. rewrite E in Hd. cbn in Hd. lia.
  - intros ms w' Hrun Hms. etrans; [|exact Hk]. by eapply (drains_run _ ms w w'); [|exact Hms| | |].
Qed.

(** Alice has logged in and had a hash signed; then her client closes. *)
Module ToyWork.
Definition asked : list move :=
  MoveAccept 9 ToyConn.addr :: replicate 5 (MoveTask 0 (ToyConn.en_of [x05]))
    ++ replicate 6 (MoveTask 0 (ToyConn.en_of [x01])).
Definition closing : env := {|
  en_handshake := Ok tt; en_cancel_first := false; en_next := None; en_send := Ok tt;
  en_faults := []; en_salt := EmptyString; en_clock := 0; en_task_cancelled := false |}.
Definition closed : list move := replicate 3 (MoveTask 0 closing).
Lemma closed_view :
  (λ w, (cancel_token (w_state w),
         (λ tk, (length (tk_trace tk), frames (tk_trace tk))) <$> w_tasks w)) <$>
    ToyServer.run asked (init ToyServer.st0) = Some (false, [(11%nat, 2%nat)]) ∧
  ToyServer.view <$> ToyServer.run (asked ++ closed) (init ToyServer.st0)
    = Some ([], [(Some Anon, true)]).
Proof. split; vm_compute; reflexivity. Qed.
End ToyWork.

Lemma connection_work_bounded_witness :
  ∃ w tk, ToyServer.reach (init ToyServer.st0) w ∧ w_tasks w !! 0%nat = Some tk ∧
    frames (tk_trace tk) = 2%nat ∧ (length (tk_trace tk) ≤ TURN_STEPS * 3)%nat ∧
    ∀ w', ToyServer.run ToyWork.closed w = Some w' → (moves_of 0 ToyWork.closed ≤ TURN_STEPS)%nat.
Proof.
  destruct ToyWork.closed_view as [Hv _].
  destruct (ToyServer.run ToyWork.asked (init ToyServer.st0)) as [w|] eqn:Er; [|discriminate Hv].
  cbn in Hv. injection Hv as Hc Hv.
  destruct (w_tasks w) as [|tk [|tk2 tks]] eqn:Ew; [discriminate Hv| |discriminate Hv].
  cbn in Hv. injection Hv as _ Hf.
  assert (ToyServer.reach (init ToyServer.st0) w) as Hr by (eapply run_moves_reachable; exact Er).
  destruct (connection_work_bounded ToyServer.st0 w 0 tk Hr) as (H1 & _ & H3); [by rewrite Ew|].
  exists w, tk. split_and!; [exact Hr|by rewrite Ew|exact Hf|by rewrite Hf in H1|].
  intros w' Hw'. apply (H3 ToyWork.closed w' Hw'). by rewrite Hc.
Defined.

(** ** The shutdown *)

Section Draining.
Context {SHA : Sha256Lib} {RSA : RsaLib} {HEX : HexLib} {ARGON : Argon2Lib}.
Context {S : Type} {SI : Signer S}.
Context {WREQ : Wincode Request} {WRESP : Wincode Response}.
Implicit Types (w : world S) (st : STSServerState S) (silent : nat → bool).

(** The acceptor has left its loop and every task is over: [tracker.wait()] returns. *)
Definition run_returns w : bool := negb (w_accepting w) && forallb ended (w_tasks w).

(** The events that the other end has to answer, and that no [select!] couples with the
    cancellation: the TLS handshake, and sending while the client does not read. *)
Definition awaits_client (e : event) : bool :=
  match e with EvHandshake | EvSend _ => true | _ => false end.

(** [silent] tells the tasks whose clients neither answer nor read any more. *)
Definition blocked silent (i : nat) (tk : task) : bool :=
  silent i && match tk_prog tk with Act e _ => awaits_client e | _ => false end.

(** The moves of a shutdown: the acceptor sees the cancellation, or a task that is not
    blocked goes on, its [select!] yielding to the cancellation. *)
Definition drain_move silent w (m : move) : bool :=
  match m with
  | MoveStop => true
  | MoveTask i en => en_cancel_first en &&
      match w_tasks w !! i with Some tk => negb (blocked silent i tk) | None => false end
  | _ => false
  end.
Fixpoint run_drain silent (ms : list move) w : option (world S) :=
  match ms with
  | [] => Some w
  | m :: ms => if drain_move silent w m then w' ← apply_move m w; run_drain silent ms w' else None
  end.

Lemma run_drain_app silent ms ms' w w1 :
  run_drain silent ms w = Some w1 → run_drain silent (ms ++ ms') w = run_drain silent ms' w1.
Proof.
  revert w. induction ms as [|m ms IH]; intros w; cbn; [by intros [= ->]|].
  destruct (drain_move silent w m); [|done]. destruct (apply_move m w); [|done]. apply IH.
Qed.

(** A task is settled: it is over, or blocked, or was handed more frames than its bound. *)
Definition settles silent (i : nat) (tk : task) : Prop :=
  ended tk = true ∨ blocked silent i tk = true ∨ (tk_bound tk ≤ frames (tk_trace tk))%nat.

Definition yielding : env := {|
  en_handshake := Ok tt; en_cancel_first := true; en_next := None; en_send := Ok tt;
  en_faults := []; en_salt := EmptyString; en_clock := 0; en_task_cancelled := false |}.

(** One task, run until it is settled; the others stay where they are. *)
Lemma settle_task silent i w tk k :
  cancel_token (w_state w) = true → w_tasks w !! i = Some tk →
  drains (λ _ _, True) ((tk_bound tk - frames (tk_trace tk))%nat, k) (tk_prog tk) →
  ∃ ms w' tk', run_drain silent ms w = Some w' ∧ cancel_token (w_state w') = true ∧
    w_accepting w' = w_accepting w ∧ length (w_tasks w') = length (w_tasks w) ∧
    w_tasks w' !! i = Some tk' ∧ settles silent i tk' ∧
    ∀ j, j ≠ i → w_tasks w' !! j = w_tasks w !! j.
Proof.
  revert w tk. induction k as [|k IH]; intros w tk Hc Hi Hd.
  { exists [], w, tk. split_and!; try done. unfold settles, ended.
    destruct (tk_prog tk) as [|e f| |]; [by left| |by left|].
    - exfalso. destruct e; try (by destruct (Hd (Panic EmptyString))); try (by destruct (Hd true)).
      + by destruct (Hd (Ok tt)).
      + by destruct (Hd SelectCancelled).
      + by destruct (Hd tt).
      + by destruct (Hd (Ok tt)).
      + by destruct (Hd 0).
    - cbn in Hd. right. right. lia. }
  destruct (blocked silent i tk) eqn:Eb.
  { exists [], w, tk. split_and!; try done. by right; left. }
  destruct (apply_move (MoveTask i yielding) w) as [w1|] eqn:E.
  - destruct (drains_move true (MoveTask i yielding) w w1 i tk _ _ (λ _, Hc)
      ltac:(cbn; by rewrite Nat.eqb_refl) E Hi Hd) as (tk1 & k1 & Hi1 & Hd1 & Hk & Hb & Hf).
    unfold moves_of in Hk. cbn in Hk. rewrite Nat.eqb_refl in Hk. cbn in Hk.
    assert (k1 = k) as -> by lia. rewrite <- Hb, <- Hf in Hd1.
    destruct (IH w1 tk1 (apply_move_cancelled _ _ _ Hc E) Hi1 Hd1)
      as (ms & w' & tk' & Hr & Hc' & Ha & Hl & Hi' & Hs & Ho).
    exists (MoveTask i yielding :: ms), w', tk'. cbn [run_drain drain_move en_cancel_first yielding andb].
    rewrite Hi, Eb. cbn [negb]. fold yielding. rewrite E.
    cbn in E. rewrite Hi in E. cbn in E. destruct (tk_prog tk); try done.
    destruct (perform yielding e (w_state w)). injection E as <-. cbn in *.
    split_and!; try done; [by rewrite Hl, length_insert|].
    intros j Hj. rewrite Ho by done. by apply list_lookup_insert_ne.
  - exists [], w, tk. split_and!; try done. unfold settles, ended. cbn in E. rewrite Hi in E. cbn in E.
    destruct (tk_prog tk) as [|e f| |]; [by left| |by left|].
    + by destruct (perform yielding e (w_state w)).
    + cbn in Hd. right. right. lia.
Qed.

(** All of them, one after the other. *)
Lemma settle_all silent n w :
  cancel_token (w_state w) = true → w_accepting w = false →
  (∀ i tk, w_tasks w !! i = Some tk →
     ∃ k, drains (λ _ _, True) ((tk_bound tk - frames (tk_trace tk))%nat, k) (tk_prog tk)) →
  ∃ ms w', run_drain silent ms w = Some w' ∧ w_accepting w' = false ∧
    length (w_tasks w') = length (w_tasks w) ∧ cancel_token (w_state w') = true ∧
    (∀ i tk, w_tasks w' !! i = Some tk → (i < n)%nat → settles silent i tk) ∧
    (∀ i, (n ≤ i)%nat → w_tasks w' !! i = w_tasks w !! i).
Proof.
  intros Hc Ha Hd. induction n as [|n (ms & w1 & Hr & Ha1 & Hl & Hc1 & Hs & Ho)].
  { exists [], w. split_and!; try done. intros; lia. }
  destruct (w_tasks w1 !! n) as [tk|] eqn:En.
  - destruct (Hd n tk) as [k Hk]; [by rewrite <- Ho|].
    destruct (settle_task silent n w1 tk k Hc1 En Hk)
      as (ms2 & w2 & tk2 & Hr2 & Hc2 & Ha2 & Hl2 & Hi2 & Hs2 & Ho2).
    exists (ms ++ ms2), w2. erewrite run_drain_app by exact Hr. split_and!; try done; try congruence.
    + intros i tk' Hi Hlt. destruct (decide (i = n)) as [->|]; [by simplify_eq|].
      apply Hs; [by rewrite <- Ho2|lia].
    + intros i Hi. rewrite Ho2, Ho by lia. done.
  - exists ms, w1. split_and!; try done.
    + intros i tk' Hi Hlt. apply Hs; [done|]. apply lookup_ge_None in En.
      apply lookup_lt_Some in Hi. lia.
    + intros i Hi. apply Ho. lia.
Qed.

(** A blocked task stays blocked for as long as its client is silent. *)
Lemma blocked_stays silent ms w w' i tk :
  run_drain silent ms w = Some w' → w_tasks w !! i = Some tk → blocked silent i tk = true →
  w_tasks w' !! i = Some tk.
Proof.
  revert w. induction ms as [|m ms IH]; intros w Hr Hi Hb; cbn in Hr; [by injection Hr as <-|].
  destruct (drain_move silent w m) eqn:Ed; [|done].
  destruct (apply_move m w) as [w1|] eqn:E; [|done]. apply (IH w1 Hr); [|done].
  eapply other_move; [exact E| |exact Hi]. destruct m as [| | | | |j en]; try done. cbn.
  destruct (Nat.eqb_spec j i) as [->|]; [|done]. cbn in Ed. rewrite Hi, Hb in Ed.
  by rewrite andb_false_r in Ed.
Qed.

Lemma blocked_holds w i tk :
  w_tasks w !! i = Some tk → ended tk = false → run_returns w = false.
Proof.
  intros Hi He. unfold run_returns. apply andb_false_iff. right.
  destruct (forallb ended (w_tasks w)) eqn:E; [|done].
  rewrite forallb_forall in E. rewrite E in He; [done|].
  by eapply list_elem_of_In, list_elem_of_lookup_2.
Qed.
End Draining.

(** C16: what a requested shutdown comes to.  From any reachable state in which the token
    is cancelled, with any set of clients that keep silent, there is a run in which the
    acceptor stops and every connection is over, or is held by a silent client in its
    handshake or in the sending of a reply (or had been handed as many frames as the
    bound on its iterations); along every interleaving in which the [select!]s yield to
    the cancellation a connection makes at most eight more steps, so that every schedule
    gets there; and [run] does not return while a silent client holds a connection,
    which happens when a client connects and never speaks TLS. *)
Theorem shutdown_outcome
    {SHA : Sha256Lib} {RSA : RsaLib} {HEX : HexLib} {ARGON : Argon2Lib} {S : Type} {SI : Signer S}
    {WREQ : Wincode Request} {WRESP : Wincode Response}
    (st : STSServerState S) (w : world S) (silent : nat → bool) :
  reachable (init st) w → cancel_token (w_state w) = true →
  (∃ ms w', run_drain silent ms w = Some w' ∧ w_accepting w' = false ∧
     ∀ i tk, w_tasks w' !! i = Some tk → settles silent i tk) ∧
  (∀ ms w' i tk, run_moves ms w = Some w' → w_tasks w !! i = Some tk →
     forallb (no_frame i true) ms = true → (moves_of i ms ≤ TURN_STEPS)%nat) ∧
  (∀ ms w' i tk, run_drain silent ms w = Some w' → w_tasks w !! i = Some tk →
     blocked silent i tk = true → run_returns w' = false).
Proof.
  intros Hr Hc. split_and!.
  - set (w1 := {| w_state := w_state w; w_accepting := false; w_worker := w_worker w;
                  w_tasks := w_tasks w |}).
    destruct (settle_all silent (length (w_tasks w)) w1) as (ms & w' & Hrun & Ha & Hl & _ & Hs & _);
      [done|done| |].
    { intros i tk Hi. destruct (reachable_drains st w i tk Hr Hi) as (k & _ & _ & Hd). by exists k. }
    assert (∀ i tk, w_tasks w' !! i = Some tk → settles silent i tk) as Hall.
    { intros i tk Hi. apply Hs; [done|]. cbn in Hl. rewrite <- Hl. by eapply lookup_lt_Some. }
    destruct (w_accepting w) eqn:Eacc.
    + exists (MoveStop :: ms), w'. cbn [run_drain drain_move apply_move]. rewrite Eacc, Hc. done.
    + assert (w1 = w) as E1 by (unfold w1; rewrite <- Eacc; by destruct w).
      exists ms, w'. by rewrite <- E1.
  - intros ms w' i tk Hrun Hi Hms. destruct (reachable_drains st w i tk Hr Hi) as (k & Hk & _ & Hd).
    etrans; [|exact Hk]. by eapply (drains_run true ms w w').
  - intros ms w' i tk Hrun Hi Hb. eapply blocked_holds; [by eapply blocked_stays|].
    unfold blocked in Hb. apply andb_true_iff in Hb as [_ Hb]. unfold ended. by destruct (tk_prog tk).
Qed.

(** Alice is logged in and a second client has connected but says nothing when the operator
    asks for the shutdown.  If that client spoke, the server would come to an end; as it is
    silent, Alice's connection ends and the server waits for the other one. *)
Module ToyShutdown.
Definition before : list move :=
  [MoveAccept 9 ToyConn.addr; MoveAccept 9 ToyConn.addr]
    ++ replicate 5 (MoveTask 0 (ToyConn.en_of [x05])) ++ [MoveSignal].
Definition mute (i : nat) : bool := (i =? 1)%nat.
Definition after : list move := [MoveTask 0 yielding; MoveStop; MoveTask 0 yielding; MoveTask 0 yielding].
Definition rest : list move := replicate 3 (MoveTask 1 yielding).

Lemma stopped :
  (λ w, (cancel_token (w_state w), length (w_tasks w), blocked mute 1 <$> w_tasks w !! 1%nat)) <$>
    ToyServer.run before (init ToyServer.st0) = Some (true, 2%nat, Some true) ∧
  (λ w, (ToyServer.view w, run_returns w)) <$> ToyServer.run (before ++ after) (init ToyServer.st0)
    = Some ([], [(Some Anon, true); (Some Anon, false)], false) ∧
  run_returns <$> ToyServer.run (before ++ after ++ rest) (init ToyServer.st0) = Some true.
Proof. split_and!; vm_compute; reflexivity. Qed.
End ToyShutdown.

Lemma shutdown_outcome_witness :
  ∃ w, ToyServer.reach (init ToyServer.st0) w ∧
    ∀ ms w', run_drain (SHA := Toy.sha) (HEX := Toy.hex) (ARGON := ToyDb.argon)
        (SI := @slow_signer Toy.sha Toy.rsa) (WREQ := ToyConn.wreq) (WRESP := ToyConn.wresp)
        ToyShutdown.mute ms w = Some w' → run_returns w' = false.
Proof.
  destruct ToyShutdown.stopped as (Hb & _ & _).
  destruct (ToyServer.run ToyShutdown.before (init ToyServer.st0)) as [w|] eqn:Er; [|discriminate Hb].
  cbn in Hb. injection Hb as Hc Hl Hbl.
  destruct (w_tasks w !! 1%nat) as [tk|] eqn:Ew; [|discriminate Hbl]. injection Hbl as Hbl.
  assert (ToyServer.reach (init ToyServer.st0) w) as Hr by (eapply run_moves_reachable; exact Er).
  exists w. split; [exact Hr|]. intros ms w' Hd.
  exact (proj2 (proj2 (shutdown_outcome ToyServer.st0 w ToyShutdown.mute Hr Hc)) ms w' 1%nat tk Hd Ew Hbl).
Defined.
