(* ===== verification/Path.v ===== *)
(** * Path: the part of [std::path] the code relies on (Unix)

    [Path::components], [file_name], [extension] and [join] on paths as strings of
    bytes, as the standard library documents them. *)
From S2P Require Import Prelude.

Definition slash : Ascii.ascii := Ascii.ascii_of_nat 47.
Definition dot : Ascii.ascii := Ascii.ascii_of_nat 46.

(** The pieces between separators; there is always one. *)
Fixpoint split_on (c : Ascii.ascii) (s : string) : list string :=
  match s with
  | EmptyString => [EmptyString]
  | String a s =>
      if Ascii.eqb a c then EmptyString :: split_on c s
      else match split_on c s with
           | h :: t => String a h :: t
           | [] => [String a EmptyString]
           end
  end.

Inductive Component := RootDir | CurDir | ParentDir | Normal (name : string).

#[export] Instance Component_eq_dec : EqDecision Component.
Proof. solve_decision. Defined.

Definition one_dot : string := "."%string.
Definition two_dots : string := ".."%string.

(** A piece that is not the first: empty pieces and [.] are skipped. *)
Definition piece (s : string) : list Component :=
  if decide (s = EmptyString) then []
  else if decide (s = one_dot) then []
  else if decide (s = two_dots) then [ParentDir] else [Normal s].

(** [.] counts only at the very start of a relative path. *)
Definition components (s : string) : list Component :=
  match split_on slash s with
  | [] => []
  | first :: rest =>
      (if decide (first = EmptyString) then
         match rest with [] => [] | _ :: _ => [RootDir] end
       else if decide (first = one_dot) then [CurDir] else piece first)
      ++ (rest ≫= piece)
  end.

(** [PathBuf]'s equality and hash go by components. *)
Definition path_eq (p q : string) : Prop := components p = components q.
#[export] Instance path_eq_dec p q : Decision (path_eq p q).
Proof. unfold path_eq. apply _. Defined.
#[export] Instance path_eq_equiv : Equivalence path_eq.
Proof. unfold path_eq. split; [done|by intros ??->|by intros ???->->]. Qed.

Definition file_name (s : string) : option string :=
  match list.last (components s) with Some (Normal n) => Some n | _ => None end.

(** The part after the last dot, unless that dot starts the name. *)
Definition extension (s : string) : option string :=
  n ← file_name s;
  match reverse (split_on dot n) with
  | ext :: before :: rest =>
      if decide (rest = [] ∧ before = EmptyString) then None else Some ext
  | _ => None
  end.

Fixpoint ends_with_slash (s : string) : bool :=
  match s with
  | EmptyString => false
  | String a EmptyString => Ascii.eqb a slash
  | String _ s => ends_with_slash s
  end.
Definition is_absolute (s : string) : bool :=
  match s with String a _ => Ascii.eqb a slash | EmptyString => false end.

Definition join (root name : string) : string :=
  if is_absolute name then name
  else if decide (root = EmptyString) then name
  else if ends_with_slash root then (root +:+ name)%string
  else (root +:+ "/" +:+ name)%string.

(** ** Facts *)

Lemma append_nil t : (EmptyString +:+ t = t)%string.
Proof. done. Qed.
Lemma append_cons a s t : (String a s +:+ t = String a (s +:+ t))%string.
Proof. done. Qed.
Lemma append_assoc (s t u : string) : ((s +:+ t) +:+ u = s +:+ (t +:+ u))%string.
Proof. induction s as [|a s IH]; [done|]. by rewrite !append_cons, IH. Qed.

Fixpoint has_slash (s : string) : bool :=
  match s with EmptyString => false | String a s => Ascii.eqb a slash || has_slash s end.

Lemma split_no_slash s : has_slash s = false → split_on slash s = [s].
Proof.
  induction s as [|a s IH]; [done|]. cbn. intros [Ha Hs]%orb_false_iff.
  rewrite Ha, IH by done. done.
Qed.

Lemma components_no_slash s :
  has_slash s = false →
  components s =
    if decide (s = EmptyString) then [] else if decide (s = one_dot) then [CurDir]
    else if decide (s = two_dots) then [ParentDir] else [Normal s].
Proof.
  intros Hs. unfold components. rewrite split_no_slash by done. rewrite app_nil_r.
  unfold piece. by repeat case_decide.
Qed.

Lemma append_length s t :
  String.length (s +:+ t)%string = (String.length s + String.length t)%nat.
Proof. induction s as [|a s IH]; [done|]. rewrite append_cons. cbn. by rewrite IH. Qed.

Lemma has_slash_app s t : has_slash (s +:+ t)%string = has_slash s || has_slash t.
Proof.
  induction s as [|a s IH]; [done|]. rewrite append_cons. cbn [has_slash].
  by rewrite IH, orb_assoc.
Qed.

(** *** Joining a plain name to a directory *)

Lemma split_nonempty c s : split_on c s ≠ [].
Proof. destruct s as [|a s]; cbn; [done|]. destruct (Ascii.eqb a c); [done|]. by destruct (split_on c s). Qed.

Lemma split_app c s t :
  split_on c (s +:+ String c t)%string = split_on c s ++ split_on c t.
Proof.
  induction s as [|a s IH]; rewrite ?append_nil, ?append_cons; cbn [split_on].
  - by rewrite Ascii.eqb_refl.
  - rewrite IH. destruct (Ascii.eqb a c); [done|].
    pose proof (split_nonempty c s). by destruct (split_on c s) as [|h l].
Qed.

(** The components of a path that is continued after a separator. *)
Lemma components_slash s t :
  s ≠ EmptyString →
  components (s +:+ String slash t)%string = components s ++ (split_on slash t ≫= piece).
Proof.
  intros Hs. unfold components. rewrite split_app.
  destruct (split_on slash s) as [|first rest] eqn:E; [by apply split_nonempty in E|]. cbn [app].
  rewrite bind_app, app_assoc. do 2 f_equal.
  destruct (decide (first = EmptyString)) as [->|]; [|done]. destruct rest as [|r rest]; [|done].
  exfalso. apply Hs. destruct s as [|a s]; [done|]. cbn in E.
  destruct (Ascii.eqb a slash); [by destruct (split_on slash s) eqn:E'; [apply split_nonempty in E'|]|].
  destruct (split_on slash s); simplify_eq.
Qed.

(** A name that is a single normal component without any separator. *)
Definition plain (n : string) : bool :=
  negb (has_slash n) && negb (bool_decide (n = EmptyString))
  && negb (bool_decide (n = one_dot)) && negb (bool_decide (n = two_dots)).

Lemma plain_spec n :
  plain n = true ↔ has_slash n = false ∧ n ≠ EmptyString ∧ n ≠ one_dot ∧ n ≠ two_dots.
Proof.
  unfold plain. rewrite !andb_true_iff, !negb_true_iff, !bool_decide_eq_false. tauto.
Qed.

Lemma plain_piece n : plain n = true → split_on slash n ≫= piece = [Normal n].
Proof.
  intros (Hs & H0 & H1 & H2)%plain_spec. rewrite split_no_slash by done. cbn.
  unfold piece. by rewrite !decide_False by done.
Qed.

Lemma plain_components n : plain n = true → components n = [Normal n].
Proof.
  intros (Hs & H0 & H1 & H2)%plain_spec. rewrite components_no_slash by done.
  by rewrite !decide_False by done.
Qed.

Lemma plain_not_absolute n : plain n = true → is_absolute n = false.
Proof.
  intros (Hs & _)%plain_spec. destruct n as [|a n]; [done|]. cbn in *.
  by apply orb_false_iff in Hs as [-> _].
Qed.

Lemma ends_with_slash_inv s : ends_with_slash s = true → ∃ s', s = (s' +:+ String slash EmptyString)%string.
Proof.
  induction s as [|a s IH]; [done|]. destruct s as [|b s].
  - cbn. intros ->%Ascii.eqb_eq. by exists EmptyString.
  - intros H. destruct IH as [s' Hs']; [done|]. exists (String a s'). by rewrite append_cons, <- Hs'.
Qed.

Lemma components_join root n :
  plain n = true → components (join root n) = components root ++ [Normal n].
Proof.
  intros Hn. unfold join. rewrite plain_not_absolute by done.
  destruct (decide (root = EmptyString)) as [->|Hr]; [by apply plain_components|].
  destruct (ends_with_slash root) eqn:Er.
  - apply ends_with_slash_inv in Er as [s ->]. rewrite append_assoc, append_cons, append_nil.
    destruct (decide (s = EmptyString)) as [->|Hs].
    + rewrite !append_nil. unfold components. cbn [split_on]. rewrite Ascii.eqb_refl.
      destruct (split_on slash n) eqn:E; [by apply split_nonempty in E|]. rewrite <- E.
      rewrite plain_piece by done. done.
    + rewrite !components_slash by done. rewrite plain_piece by done. cbn. by rewrite app_nil_r.
  - change ("/" +:+ n)%string with (String slash n). rewrite components_slash by done.
    by rewrite plain_piece.
Qed.

Lemma join_inj root1 root2 n1 n2 :
  plain n1 = true → plain n2 = true → path_eq (join root1 n1) (join root2 n2) →
  path_eq root1 root2 ∧ n1 = n2.
Proof.
  unfold path_eq. intros H1 H2. rewrite !components_join by done.
  intros [E1 E2]%app_inj_tail. split; [done|congruence].
Qed.

(** *** Extensions *)

Lemma split_one c s y : split_on c s = [y] → y = s.
Proof.
  revert y. induction s as [|a s IH]; intros y; cbn; [by intros [= <-]|].
  destruct (Ascii.eqb a c); [by destruct (split_on c s) eqn:E; [apply split_nonempty in E|]|].
  destruct (split_on c s) as [|h t] eqn:E; [by apply split_nonempty in E|].
  intros [= <- ->]. by rewrite (IH h).
Qed.

Lemma file_name_join d n : plain n = true → file_name (join d n) = Some n.
Proof. intros Hn. unfold file_name. by rewrite components_join, list.last_snoc. Qed.

(** A name with something before its last dot has what follows as its extension. *)
Lemma extension_join d x e :
  plain (x +:+ String dot e)%string = true → x ≠ EmptyString → split_on dot e = [e] →
  extension (join d (x +:+ String dot e)%string) = Some e.
Proof.
  intros Hn Hx He. unfold extension. rewrite file_name_join by done. cbn.
  rewrite split_app, He, reverse_app. cbn.
  destruct (reverse (split_on dot x)) as [|b rest] eqn:E.
  - apply (f_equal reverse) in E. rewrite reverse_involutive in E. by apply split_nonempty in E.
  - rewrite decide_False; [done|]. intros [-> ->].
    apply (f_equal reverse) in E. rewrite reverse_involutive in E. cbn in E.
    by apply split_one in E.
Qed.
