(* ===== verification/FileSystem.v ===== *)
(** * FileSystem: directories and files (Unix)

    What the generator uses of [std::fs]: [create_dir], [write] and [canonicalize], over
    a tree of directories and files with a working directory, and a fault that each
    operation may meet (a full disk, a missing permission).  A path is resolved one piece
    after the other from the root or from the working directory, as POSIX describes it.
    There are no symbolic links in the tree. *)
From S2P Require Import Prelude Path.

(** ** The tree *)

(** A place of the tree: the names from the root. *)
Abbreviation location := (list string).

Record filesystem := {
  fs_cwd : location;
  fs_dirs : gset location;
  fs_files : gmap location string;
  fs_faults : list (option string)
}.

Definition set_dirs (d : gset location) (fs : filesystem) : filesystem :=
  {| fs_cwd := fs_cwd fs; fs_dirs := d; fs_files := fs_files fs; fs_faults := fs_faults fs |}.
Definition set_files (f : gmap location string) (fs : filesystem) : filesystem :=
  {| fs_cwd := fs_cwd fs; fs_dirs := fs_dirs fs; fs_files := f; fs_faults := fs_faults fs |}.
Definition set_faults (f : list (option string)) (fs : filesystem) : filesystem :=
  {| fs_cwd := fs_cwd fs; fs_dirs := fs_dirs fs; fs_files := fs_files fs; fs_faults := f |}.
(** The same tree, seen from another working directory. *)
Definition chdir (l : location) (fs : filesystem) : filesystem :=
  {| fs_cwd := l; fs_dirs := fs_dirs fs; fs_files := fs_files fs; fs_faults := fs_faults fs |}.

Definition ENOENT : string := "No such file or directory".
Definition EEXIST : string := "File exists".
Definition ENOTDIR : string := "Not a directory".
Definition EISDIR : string := "Is a directory".

(** ** Resolving a path *)

Definition is_file (l : location) (fs : filesystem) : bool := bool_decide (is_Some (fs_files fs !! l)).
Definition occupied (l : location) (fs : filesystem) : bool :=
  bool_decide (l ∈ fs_dirs fs) || is_file l fs.

(** A place that is searched has to be a directory. *)
Definition searched (fs : filesystem) (l : location) : result unit string :=
  if decide (l ∈ fs_dirs fs) then Ok tt
  else if is_file l fs then Err ENOTDIR else Err ENOENT.

(** Where a piece leads from a directory; the parent of the root is the root. *)
Definition enter (l : location) (name : string) : location :=
  if decide (name = one_dot) then l
  else if decide (name = two_dots) then removelast l else l ++ [name].

(** The last piece need not exist. *)
Fixpoint walk (fs : filesystem) (l : location) (names : list string) : result location string :=
  match names with
  | [] => Ok l
  | name :: names => let? _ := searched fs l in walk fs (enter l name) names
  end.

(** The pieces of a path: separators may be repeated, and end it. *)
Definition pieces (path : string) : list string :=
  filter (λ s, s ≠ EmptyString) (split_on slash path).

Definition entry (fs : filesystem) (path : string) : result location string :=
  if decide (path = EmptyString) then Err ENOENT
  else walk fs (if is_absolute path then [] else fs_cwd fs) (pieces path).

(** A path that ends with a separator names a directory. *)
Definition locate (fs : filesystem) (path : string) : result location string :=
  let? l := entry fs path in
  let? _ := if ends_with_slash path then searched fs l else Ok tt in
  Ok l.

(** The absolute path of a place. *)
Definition abs_path (l : location) : string := foldl join "/"%string l.

(** ** Operations *)

Definition fs_io (E A : Type) : Type := filesystem → result A E * filesystem.
#[export] Instance fs_ret {E} : MRet (fs_io E) := λ A a fs, (Ok a, fs).
#[export] Instance fs_bind {E} : MBind (fs_io E) := λ A B k m fs,
  match m fs with (Ok a, fs') => k a fs' | (Err e, fs') => (Err e, fs') end.
Definition fs_step {E A} (f : filesystem → result A E * filesystem) : fs_io E A := f.
Definition fs_map_err {E F A} (g : E → F) (m : fs_io E A) : fs_io F A := λ fs,
  let '(r, fs') := m fs in (map_err g r, fs').

(** The fault of the next operation. *)
Definition fs_operation : fs_io string unit := λ fs,
  match fs_faults fs with
  | Some e :: rest => (Err e, set_faults rest fs)
  | faults => (Ok tt, set_faults (tail faults) fs)
  end.

(** [fs::create_dir]: the parent has to be there, and nothing at the place itself. *)
Definition fs_create_dir (path : string) : fs_io string unit :=
  _ ← fs_operation;
  fs_step (λ fs,
    match entry fs path with
    | Err e => (Err e, fs)
    | Ok l => if occupied l fs then (Err EEXIST, fs)
              else (Ok tt, set_dirs ({[l]} ∪ fs_dirs fs) fs)
    end).

(** [fs::write]: creates or replaces the file; the parent has to be there. *)
Definition fs_write (path content : string) : fs_io string unit :=
  _ ← fs_operation;
  fs_step (λ fs,
    match entry fs path with
    | Err e => (Err e, fs)
    | Ok l => if ends_with_slash path || bool_decide (l ∈ fs_dirs fs) then (Err EISDIR, fs)
              else (Ok tt, set_files (<[l := content]> (fs_files fs)) fs)
    end).

(** [fs::canonicalize]: the absolute path of something that exists. *)
Definition fs_canonicalize (path : string) : fs_io string string :=
  _ ← fs_operation;
  fs_step (λ fs, match locate fs path with
                 | Err e => (Err e, fs)
                 | Ok l => (if occupied l fs then Ok (abs_path l) else Err ENOENT, fs)
                 end).

(** What a reader of the path finds. *)
Definition read_back (path : string) (fs : filesystem) : option string :=
  match locate fs path with Ok l => fs_files fs !! l | Err _ => None end.

(** ** Trees *)

(** The root is a directory, what is in the tree lies in directories, and its names
    are plain. *)
Record fs_ok (fs : filesystem) : Prop := {
  ok_root : [] ∈ fs_dirs fs;
  ok_cwd : fs_cwd fs ∈ fs_dirs fs;
  ok_parent l n : occupied (l ++ [n]) fs = true → l ∈ fs_dirs fs;
  ok_names l : occupied l fs = true → Forall (λ n, plain n = true) l;
  ok_disjoint l : l ∈ fs_dirs fs → fs_files fs !! l = None
}.

Lemma occupied_spec l fs : occupied l fs = true ↔ l ∈ fs_dirs fs ∨ is_Some (fs_files fs !! l).
Proof. unfold occupied, is_file. rewrite orb_true_iff, !bool_decide_eq_true. done. Qed.
Lemma not_occupied l fs : occupied l fs = false ↔ l ∉ fs_dirs fs ∧ fs_files fs !! l = None.
Proof.
  unfold occupied, is_file. rewrite orb_false_iff, !bool_decide_eq_false, <- eq_None_not_Some. done.
Qed.

Lemma ok_prefix fs l l' : fs_ok fs → occupied (l ++ l') fs = true → l' ≠ [] → l ∈ fs_dirs fs.
Proof.
  intros Hok. induction l' as [|n l' IH] using rev_ind; [done|]. rewrite app_assoc.
  intros Ho _. apply (ok_parent fs Hok) in Ho. destruct (decide (l' = [])) as [->|].
  - by rewrite app_nil_r in Ho.
  - apply IH; [|done]. apply occupied_spec. by left.
Qed.

(** Below a free place there is nothing. *)
Lemma free_below fs l l' : fs_ok fs → occupied l fs = false → occupied (l ++ l') fs = false.
Proof.
  intros Hok Hf. destruct (occupied (l ++ l') fs) eqn:Ho; [|done].
  destruct (decide (l' = [])) as [->|Hne]; [by rewrite app_nil_r, Hf in Ho|].
  apply ok_prefix in Ho; [|done..]. by apply not_occupied in Hf as [].
Qed.

(** ** Resolution *)

Lemma searched_dir fs l : l ∈ fs_dirs fs → searched fs l = Ok tt.
Proof. intros H. unfold searched. by rewrite decide_True. Qed.

Lemma walk_app fs l names names' :
  walk fs l (names ++ names') = let? l' := walk fs l names in walk fs l' names'.
Proof.
  revert l. induction names as [|n names IH]; intros l; [done|]. cbn.
  destruct (searched fs l); cbn; [apply IH|done].
Qed.

(** New directories do not change where a path leads. *)
Lemma walk_mono fs fs' l names l' :
  fs_dirs fs ⊆ fs_dirs fs' → walk fs l names = Ok l' → walk fs' l names = Ok l'.
Proof.
  intros Hs. revert l. induction names as [|n names IH]; intros l; [done|]. cbn.
  unfold searched at 1. destruct (decide (l ∈ fs_dirs fs)) as [Hl|]; [|by destruct (is_file l fs)].
  rewrite searched_dir by set_solver. apply IH.
Qed.

Lemma entry_mono fs fs' path l :
  fs_cwd fs' = fs_cwd fs → fs_dirs fs ⊆ fs_dirs fs' → entry fs path = Ok l → entry fs' path = Ok l.
Proof.
  intros Hc Hs. unfold entry. case_decide; [done|]. rewrite Hc. by apply walk_mono.
Qed.

(** Nor do the faults to come. *)
Lemma entry_set_faults f fs path : entry (set_faults f fs) path = entry fs path.
Proof.
  assert (∀ names l, walk (set_faults f fs) l names = walk fs l names) as H.
  { induction names as [|n names IH]; intros l; [done|]. cbn [walk]. by rewrite IH. }
  unfold entry. case_decide; [done|]. apply H.
Qed.

Lemma plain_enter l n : plain n = true → enter l n = l ++ [n].
Proof. intros (_ & _ & H1 & H2)%plain_spec. unfold enter. by rewrite !decide_False. Qed.

Lemma has_slash_split s p : p ∈ split_on slash s → has_slash p = false.
Proof.
  revert p. induction s as [|a s IH]; intros p; cbn.
  - by intros ->%list_elem_of_singleton.
  - destruct (Ascii.eqb a slash) eqn:Ea.
    + intros [->|Hp]%elem_of_cons; [done|by apply IH].
    + destruct (split_on slash s) as [|h t]; [by intros ->%list_elem_of_singleton; cbn; rewrite Ea|].
      intros [->|Hp]%elem_of_cons; [|apply IH; by right]. cbn. rewrite Ea. apply IH. by left.
Qed.

Lemma piece_plain path n :
  n ∈ pieces path → n ≠ one_dot → n ≠ two_dots → plain n = true.
Proof.
  unfold pieces. rewrite list_elem_of_filter. intros [Hn Hin] H1 H2. apply plain_spec.
  split_and!; [by eapply has_slash_split|done..].
Qed.

(** A path that leads to a free place: its parent is a directory, its last name plain. *)
Lemma walk_free fs l names R :
  l ∈ fs_dirs fs → fs_ok fs → walk fs l names = Ok R → R ∉ fs_dirs fs →
  (∀ n, n ∈ names → n ≠ one_dot → n ≠ two_dots → plain n = true) →
  ∃ P n, R = P ++ [n] ∧ P ∈ fs_dirs fs ∧ plain n = true.
Proof.
  intros Hl Hok. destruct names as [|n names _] using rev_ind; [by intros [= <-]|].
  rewrite walk_app. intros Hw HR Hn. destruct (walk fs l names) as [P|] eqn:Ew; [|done]. cbn in Hw.
  destruct (searched fs P) as [[]|] eqn:Es; [|done]. injection Hw as <-.
  assert (P ∈ fs_dirs fs) as HP.
  { unfold searched in Es. destruct (decide (P ∈ fs_dirs fs)); [done|]. by destruct (is_file P fs). }
  unfold enter in *. destruct (decide (n = one_dot)) as [|H1]; [done|].
  destruct (decide (n = two_dots)) as [|H2].
  - exfalso. apply HR. destruct P as [|x P _] using rev_ind; [done|]. rewrite removelast_last.
    apply (ok_parent fs Hok _ x). apply occupied_spec. by left.
  - exists P, n. split_and!; [done..|]. apply Hn; [|done..]. rewrite elem_of_app. right. by left.
Qed.

Lemma entry_free fs path R :
  fs_ok fs → entry fs path = Ok R → occupied R fs = false →
  ∃ P n, R = P ++ [n] ∧ P ∈ fs_dirs fs ∧ plain n = true.
Proof.
  intros Hok. unfold entry. case_decide; [done|]. intros Hw [HR _]%not_occupied.
  eapply walk_free; [|done..|intros n; apply piece_plain].
  destruct (is_absolute path); [apply (ok_root fs Hok)|apply (ok_cwd fs Hok)].
Qed.

(** ** Joining a plain name *)

Lemma pieces_plain n : plain n = true → pieces n = [n].
Proof.
  intros (Hs & H0 & _)%plain_spec. unfold pieces. rewrite split_no_slash by done.
  by rewrite filter_cons_True.
Qed.

Lemma pieces_slash s t : pieces (s +:+ String slash t)%string = pieces s ++ pieces t.
Proof. unfold pieces. by rewrite split_app, list.filter_app. Qed.

Lemma pieces_join root n : plain n = true → pieces (join root n) = pieces root ++ [n].
Proof.
  intros Hn. unfold join. rewrite plain_not_absolute by done.
  destruct (decide (root = EmptyString)) as [->|Hr]; [by apply pieces_plain|].
  destruct (ends_with_slash root) eqn:Er.
  - apply ends_with_slash_inv in Er as [s ->]. rewrite append_assoc, append_cons, append_nil.
    rewrite !pieces_slash, (pieces_plain n) by done. change (pieces EmptyString) with (@nil string).
    by rewrite app_nil_r.
  - change ("/" +:+ n)%string with (String slash n). by rewrite pieces_slash, (pieces_plain n).
Qed.

Lemma absolute_join root n :
  plain n = true → root ≠ EmptyString → is_absolute (join root n) = is_absolute root.
Proof.
  intros Hn Hr. unfold join. rewrite (plain_not_absolute n), decide_False by done.
  destruct (ends_with_slash root); by destruct root.
Qed.

Lemma join_nonempty root n : plain n = true → join root n ≠ EmptyString.
Proof.
  intros Hn E. apply (f_equal pieces) in E. rewrite pieces_join in E by done.
  by apply app_nil in E as [].
Qed.

Lemma ends_with_slash_app s n : n ≠ EmptyString → ends_with_slash (s +:+ n) = ends_with_slash n.
Proof.
  intros Hn. induction s as [|a s IH]; [done|]. rewrite append_cons. cbn [ends_with_slash].
  destruct (s +:+ n)%string eqn:E; [|by rewrite IH]. exfalso. by destruct s, n.
Qed.

Lemma plain_no_end n : plain n = true → ends_with_slash n = false.
Proof.
  intros (Hs & H0 & _)%plain_spec. destruct (ends_with_slash n) eqn:E; [|done].
  apply ends_with_slash_inv in E as [s ->]. rewrite has_slash_app, orb_false_iff in Hs.
  by destruct Hs as [_ Hs].
Qed.

Lemma join_no_end root n : plain n = true → ends_with_slash (join root n) = false.
Proof.
  intros Hn. assert (n ≠ EmptyString) as H0 by (by apply plain_spec in Hn as (_ & ? & _)).
  unfold join. rewrite plain_not_absolute by done.
  destruct (decide (root = EmptyString)); [by apply plain_no_end|].
  destruct (ends_with_slash root); rewrite !ends_with_slash_app by done; by apply plain_no_end.
Qed.

(** A name in a directory. *)
Lemma entry_join fs root R n :
  plain n = true → entry fs root = Ok R → R ∈ fs_dirs fs → entry fs (join root n) = Ok (R ++ [n]).
Proof.
  intros Hn. unfold entry at 1. case_decide as Hr; [done|]. intros Hw HR.
  unfold entry. rewrite decide_False by (by apply join_nonempty).
  rewrite absolute_join, pieces_join, walk_app, Hw by done. cbn.
  rewrite searched_dir by done. cbn. by rewrite plain_enter.
Qed.

Lemma locate_join fs root R n :
  plain n = true → entry fs root = Ok R → R ∈ fs_dirs fs → locate fs (join root n) = Ok (R ++ [n]).
Proof.
  intros Hn He HR. unfold locate. erewrite entry_join by done. cbn. by rewrite join_no_end.
Qed.

(** The absolute path of a place leads there, from any working directory. *)
Lemma entry_abs_path fs l :
  Forall (λ n, plain n = true) l → (∀ l', l' `prefix_of` l → l' ≠ l → l' ∈ fs_dirs fs) →
  entry fs (abs_path l) = Ok l.
Proof.
  induction l as [|n l IH] using rev_ind; intros Hn Hd; [done|].
  apply Forall_app in Hn as [Hn [Hx _]%list.Forall_cons]. unfold abs_path. rewrite foldl_app. cbn.
  fold (abs_path l). apply entry_join; [done| |].
  - apply IH; [done|]. intros l' Hp Hne. apply Hd; [by apply prefix_app_r|].
    intros ->. apply prefix_length in Hp. rewrite length_app in Hp. cbn in Hp. lia.
  - apply Hd; [by apply prefix_app_r|]. intros E. apply (f_equal length) in E.
    rewrite length_app in E. cbn in E. lia.
Qed.

(** ** Runs without faults *)

Lemma bind_ok {E A B} (m : fs_io E A) (k : A → fs_io E B) fs a fs' :
  m fs = (Ok a, fs') → (m ≫= k) fs = k a fs'.
Proof. unfold mbind, fs_bind. by intros ->. Qed.

Lemma map_err_ok_run {E F A} (g : E → F) (m : fs_io E A) fs a fs' :
  m fs = (Ok a, fs') → fs_map_err g m fs = (Ok a, fs').
Proof. unfold fs_map_err. by intros ->. Qed.

Lemma bind_err {E A B} (m : fs_io E A) (k : A → fs_io E B) fs e fs' :
  m fs = (Err e, fs') → (m ≫= k) fs = (Err e, fs').
Proof. unfold mbind, fs_bind. by intros ->. Qed.

Lemma map_err_err_run {E F A} (g : E → F) (m : fs_io E A) fs e fs' :
  m fs = (Err e, fs') → fs_map_err g m fs = (Err (g e), fs').
Proof. unfold fs_map_err. by intros ->. Qed.

Lemma operation_sound fs : fs_faults fs = [] → fs_operation fs = (Ok tt, fs).
Proof. destruct fs. cbn. by intros ->. Qed.

Lemma run_create_dir path fs l :
  fs_faults fs = [] → entry fs path = Ok l → occupied l fs = false →
  fs_create_dir path fs = (Ok tt, set_dirs ({[l]} ∪ fs_dirs fs) fs).
Proof.
  intros Hf He Ho. unfold fs_create_dir. erewrite bind_ok by (by apply operation_sound).
  unfold fs_step. by rewrite He, Ho.
Qed.

Lemma run_write root n content fs R :
  fs_faults fs = [] → plain n = true → entry fs root = Ok R → R ∈ fs_dirs fs →
  R ++ [n] ∉ fs_dirs fs →
  fs_write (join root n) content fs = (Ok tt, set_files (<[R ++ [n] := content]> (fs_files fs)) fs).
Proof.
  intros Hf Hn He HR Hd. unfold fs_write. erewrite bind_ok by (by apply operation_sound).
  unfold fs_step. erewrite entry_join, join_no_end by done. by rewrite bool_decide_eq_false_2.
Qed.

Lemma run_canonicalize root n fs R :
  fs_faults fs = [] → plain n = true → entry fs root = Ok R → R ∈ fs_dirs fs →
  occupied (R ++ [n]) fs = true →
  fs_canonicalize (join root n) fs = (Ok (join (abs_path R) n), fs).
Proof.
  intros Hf Hn He HR Ho. unfold fs_canonicalize. erewrite bind_ok by (by apply operation_sound).
  unfold fs_step. erewrite locate_join, Ho by done. unfold abs_path. by rewrite foldl_app.
Qed.

(** ** Growing trees *)

(** No operation moves the working directory or removes anything. *)
Definition larger (fs fs' : filesystem) : Prop :=
  fs_cwd fs' = fs_cwd fs ∧ fs_dirs fs ⊆ fs_dirs fs' ∧
  ∀ l, is_Some (fs_files fs !! l) → is_Some (fs_files fs' !! l).

#[export] Instance larger_preorder : PreOrder larger.
Proof.
  split; [done|]. intros fs1 fs2 fs3 (H1 & H2 & H3) (H4 & H5 & H6).
  split_and!; [congruence|set_solver|auto].
Qed.

Lemma larger_occupied fs fs' l : larger fs fs' → occupied l fs = true → occupied l fs' = true.
Proof. intros (_ & Hd & Hf). rewrite !occupied_spec. intros [?|?]; [left; set_solver|right; auto]. Qed.

Lemma larger_entry fs fs' path l : larger fs fs' → entry fs path = Ok l → entry fs' path = Ok l.
Proof. intros (Hc & Hd & _). by apply entry_mono. Qed.

Definition grows {E A} (m : fs_io E A) : Prop := ∀ fs, larger fs (m fs).2.

Lemma grows_ret {E A} (a : A) : grows (E := E) (mret a).
Proof. intros fs. done. Qed.
Lemma grows_bind {E A B} (m : fs_io E A) (k : A → fs_io E B) :
  grows m → (∀ a, grows (k a)) → grows (m ≫= k).
Proof.
  intros Hm Hk fs. specialize (Hm fs). unfold mbind, fs_bind.
  destruct (m fs) as [[a|e] fs']; [|done]. etrans; [exact Hm|apply Hk].
Qed.
Lemma grows_map_err {E F A} (f : E → F) (m : fs_io E A) : grows m → grows (fs_map_err f m).
Proof. intros Hm fs. specialize (Hm fs). unfold fs_map_err. by destruct (m fs). Qed.
Lemma grows_operation : grows fs_operation.
Proof. intros fs. unfold fs_operation. by destruct (fs_faults fs) as [|[] ?]. Qed.
Lemma grows_write path content : grows (fs_write path content).
Proof.
  apply grows_bind; [apply grows_operation|]. intros _ fs. unfold fs_step.
  destruct (entry fs path) as [l|]; [|done]. destruct (_ || _); [done|].
  split_and!; [done..|]. intros l' Hl'. cbn. rewrite lookup_insert. by case_decide.
Qed.
Lemma grows_create_dir path : grows (fs_create_dir path).
Proof.
  apply grows_bind; [apply grows_operation|]. intros _ fs. unfold fs_step.
  destruct (entry fs path) as [l|]; [|done]. destruct (occupied l fs); [done|].
  split_and!; cbn; [done|set_solver|done].
Qed.
Lemma grows_canonicalize path : grows (fs_canonicalize path).
Proof.
  apply grows_bind; [apply grows_operation|]. intros _ fs. unfold fs_step.
  by destruct (locate fs path).
Qed.
Lemma grows_rendered {E} (r : result string E) : grows (fs_step (λ fs, (r, fs))).
Proof. intros fs. done. Qed.

Create HintDb grows.
#[export] Hint Resolve grows_ret grows_write grows_create_dir grows_canonicalize grows_rendered : grows.
Ltac grows := repeat first [progress auto with grows | apply grows_map_err | apply grows_bind; [|intros ?]].
