(* ===== verification/SafeRead.v ===== *)
(** * SafeRead: reading a file in chunks

    Models [shared_library/src/safe_read.rs] and [client_core/src/file_hasher.rs]:
    the reader that is limited to the size the metadata announced, its chunks, the
    full read, and the hash computed chunk by chunk.  The operating system decides
    how many bytes each read returns, and may fail. *)
From S2P Require Import Prelude Bytes Protocol Path.

Inductive SafeReadError :=
| WrongExtension (path ext : string)
| OpenNotFound (path : string)
| OpenPermissionDenied (path : string)
| OpenGeneric (path text : string)
| MetadataError (path text : string)
| MemoryError (path text : string)
| ReadFailed (path text : string).

Inductive OpenError := NotFound | Denied | OtherOpen (text : string).

(** What a file answers.  [f_reads] says of each read how many bytes beyond the
    first it may return, or that it fails; after the list, reads are full. *)
Record os_file := {
  f_open : result unit OpenError;
  f_metadata_len : result Z string;
  f_content : list byte;
  f_reads : list (result nat string)
}.

(** [Take<File>] over an open file. *)
Record take_reader := {
  tr_rest : list byte;
  tr_limit : nat;
  tr_reads : list (result nat string)
}.

Record SafeFileReader := {
  reader : take_reader;
  filepath : string;
  total_size : Z
}.

Definition check_extension (filepath : string) (expected_extension : option string)
    : result unit SafeReadError :=
  match expected_extension with
  | None => Ok tt
  | Some e_extension =>
      match extension filepath with
      | Some ext => if decide (ext = e_extension) then Ok tt
                    else Err (WrongExtension filepath e_extension)
      | None => Err (WrongExtension filepath e_extension)
      end
  end.

Definition SafeFileReader_new (fs : string → os_file) (filepath : string)
    (expected_extension : option string) : result SafeFileReader SafeReadError :=
  let? _ := check_extension filepath expected_extension in
  let file := fs filepath in
  let? _ := map_err (λ e, match e with
                          | NotFound => OpenNotFound filepath
                          | Denied => OpenPermissionDenied filepath
                          | OtherOpen t => OpenGeneric filepath t
                          end) (f_open file) in
  let? file_len := map_err (MetadataError filepath) (f_metadata_len file) in
  Ok {| reader := {| tr_rest := f_content file; tr_limit := Z.to_nat file_len;
                     tr_reads := f_reads file |};
        filepath := filepath; total_size := file_len |}.

(** [Take::read] into a buffer of [cap] bytes: nothing at the limit, otherwise a
    read of at most the limit; zero bytes only at the end of the file or into an
    empty buffer. *)
Definition take_read (cap : nat) (r : take_reader) : result (list byte) string * take_reader :=
  if (tr_limit r =? 0)%nat then (Ok [], r)
  else
    let want := Nat.min cap (tr_limit r) in
    match tr_reads r with
    | Err e :: reads =>
        (Err e, {| tr_rest := tr_rest r; tr_limit := tr_limit r; tr_reads := reads |})
    | short =>
        let got := match short with Ok k :: _ => Nat.min want (S k) | _ => want end in
        let bytes := take got (tr_rest r) in
        (Ok bytes, {| tr_rest := drop got (tr_rest r);
                      tr_limit := tr_limit r - length bytes;
                      tr_reads := tail (tr_reads r) |})
    end.

(** The chunk size of the type alias [SafeFileReader]. *)
Definition DEFAULT_CHUNK : nat := Z.to_nat 8192.

Section Chunks.
(** [CHUNK_SIZE] *)
Context (chunk_size : nat).

Definition next_chunk (s : SafeFileReader)
    : option (result (list byte) SafeReadError) * SafeFileReader :=
  let '(r, rd) := take_read chunk_size (reader s) in
  let s' := {| reader := rd; filepath := filepath s; total_size := total_size s |} in
  match r with
  | Ok [] => (None, s')
  | Ok bytes => (Some (Ok bytes), s')
  | Err e => (Some (Err (ReadFailed (filepath s) e)), s')
  end.

(** [while let Some(chunk_result) = reader.next_chunk() { f(chunk_result?) }], with
    [n] iterations left; [None] when they run out. *)
Fixpoint for_chunks {A} (f : A → list byte → A) (n : nat) (s : SafeFileReader) (acc : A)
    : option (result A SafeReadError) :=
  match n with
  | O => None
  | S n =>
      match next_chunk s with
      | (None, _) => Some (Ok acc)
      | (Some (Ok chunk), s') => for_chunks f n s' (f acc chunk)
      | (Some (Err e), _) => Some (Err e)
      end
  end.

(** Each chunk takes at least one byte of the limit. *)
Definition enough (s : SafeFileReader) : nat := S (tr_limit (reader s)).

(** [usize::try_from] on a 32-bit machine, a cast on a 64-bit one. *)
Definition allocation_size (pointer_bits : Z) (s : SafeFileReader) : result Z SafeReadError :=
  if pointer_bits =? 32 then
    if in_u32 (total_size s) then Ok (total_size s)
    else Err (MemoryError (filepath s) "File is too large for a 32-bit architecture allocation")
  else Ok (total_size s).

Definition reader_safe_read (pointer_bits : Z) (try_reserve : Z → result unit string)
    (s : SafeFileReader) : option (result (list byte) SafeReadError) :=
  match (let? size := allocation_size pointer_bits s in
         map_err (MemoryError (filepath s)) (try_reserve size)) with
  | Err e => Some (Err e)
  | Ok _ => for_chunks app (enough s) s []
  end.
End Chunks.

Definition safe_read (fs : string → os_file) (pointer_bits : Z) (try_reserve : Z → result unit string)
    (raw_path : string) (expected_extension : option string)
    : option (result (list byte) SafeReadError) :=
  match SafeFileReader_new fs raw_path expected_extension with
  | Err e => Some (Err e)
  | Ok reader => reader_safe_read DEFAULT_CHUNK pointer_bits try_reserve reader
  end.

Definition hash_file {SHA : Sha256Lib} (fs : string → os_file) (raw_path : string)
    (expected_extension : option string) : option (result Sha256Hash SafeReadError) :=
  match SafeFileReader_new fs raw_path expected_extension with
  | Err e => Some (Err e)
  | Ok reader =>
      match for_chunks DEFAULT_CHUNK hasher_update (enough reader) reader hasher_new with
      | None => None
      | Some (Err e) => Some (Err e)
      | Some (Ok hasher) => Some (Ok (Sha256Hash_from (hasher_finalize hasher)))
      end
  end.

(** ** Properties *)

(** What the chunks add up to: the concatenation of the content up to the limit,
    unless a read fails first. *)
Lemma take_read_spec cap r :
  let '(res, r') := take_read cap r in
  match res with
  | Ok bytes =>
      take (tr_limit r) (tr_rest r) = bytes ++ take (tr_limit r') (tr_rest r') ∧
      (tr_limit r' = tr_limit r - length bytes)%nat ∧ (length bytes ≤ tr_limit r)%nat ∧
      (bytes = [] → (0 < cap)%nat → take (tr_limit r) (tr_rest r) = [])
  | Err e => Err e ∈ tr_reads r
  end ∧ suffix (tr_reads r') (tr_reads r).
Proof.
  unfold take_read. destruct (Nat.eqb_spec (tr_limit r) 0) as [E|Hne].
  { rewrite E. by split. }
  set (want := Nat.min cap (tr_limit r)).
  assert (∀ got, (got ≤ tr_limit r)%nat →
    take (tr_limit r) (tr_rest r) =
      take got (tr_rest r) ++ take (tr_limit r - length (take got (tr_rest r))) (drop got (tr_rest r)))
    as Hsplit.
  { intros got Hg. rewrite length_take. destruct (decide (got ≤ length (tr_rest r))%nat).
    - rewrite Nat.min_l by done. rewrite take_take_drop. f_equal. lia.
    - rewrite (drop_ge (tr_rest r)), take_nil, app_nil_r by lia.
      by rewrite !take_ge by lia. }
  assert (∀ got, (0 < cap → 0 < got)%nat → take got (tr_rest r) = [] → (0 < cap)%nat →
            take (tr_limit r) (tr_rest r) = []) as Hend.
  { intros got Hpos Hnil Hc. destruct (tr_rest r) as [|b l]; [by rewrite take_nil|].
    specialize (Hpos Hc). destruct got; [lia|done]. }
  assert (want ≤ tr_limit r)%nat by (unfold want; lia).
  assert (0 < cap → 0 < want)%nat by (unfold want; lia).
  destruct (tr_reads r) as [|[k|e] reads]; cbn [tail tr_rest tr_limit tr_reads].
  - split; [|done]. split_and!; [by apply Hsplit|done|rewrite length_take; lia|by apply Hend].
  - split; [|by exists [Ok k]].
    split_and!; [apply Hsplit; lia|done|rewrite length_take; lia|apply Hend; lia].
  - split; [apply list_elem_of_here|by exists [Err e]].
Qed.

Lemma DEFAULT_CHUNK_pos : (0 < DEFAULT_CHUNK)%nat.
Proof. apply Nat2Z.inj_lt. unfold DEFAULT_CHUNK. rewrite Z2Nat.id; lia. Qed.

(** The loop over the chunks ends, and it has seen everything up to the limit
    when it ends without an error. *)
Lemma for_chunks_spec {A} cap (f : A → list byte → A) n s acc :
  (0 < cap)%nat → (tr_limit (reader s) < n)%nat →
  (∃ chunks, concat chunks = take (tr_limit (reader s)) (tr_rest (reader s)) ∧
     for_chunks cap f n s acc = Some (Ok (foldl f acc chunks))) ∨
  (∃ e, Err e ∈ tr_reads (reader s) ∧
     for_chunks cap f n s acc = Some (Err (ReadFailed (filepath s) e))).
Proof.
  intros Hcap. revert s acc. induction n as [|n IH]; intros s acc Hn; [lia|]. cbn [for_chunks].
  unfold next_chunk. pose proof (take_read_spec cap (reader s)) as Hr.
  destruct (take_read cap (reader s)) as [[bytes|e] r']; destruct Hr as [Hr Hsuf].
  2:{ right. by exists e. }
  destruct Hr as (Hsplit & Hlim & Hle & Hend). destruct bytes as [|b bytes].
  { left. exists []. by rewrite Hend. }
  cbn [length] in *.
  destruct (IH {| reader := r'; filepath := filepath s; total_size := total_size s |} (f acc (b :: bytes)))
    as [(chunks & Hc & He)|(e & Hin & He)]; [cbn; lia| |].
  - left. exists ((b :: bytes) :: chunks). cbn [concat foldl]. cbn [reader] in Hc.
    by rewrite Hc, Hsplit.
  - right. exists e. split; [|done]. destruct Hsuf as [l ->]. apply elem_of_app. by right.
Qed.

Lemma foldl_app_concat (acc : list byte) chunks : foldl app acc chunks = acc ++ concat chunks.
Proof.
  revert acc. induction chunks as [|c chunks IH]; intros acc; cbn; [by rewrite app_nil_r|].
  by rewrite IH, app_assoc.
Qed.

(** Hashing the chunks is hashing what they add up to. *)
Lemma for_chunks_hash {SHA : Sha256Lib} {SHAL : Sha256Laws} cap n s bytes :
  for_chunks cap hasher_update n s (hasher_update hasher_new bytes) =
    match for_chunks cap app n s bytes with
    | Some (Ok all) => Some (Ok (hasher_update hasher_new all))
    | Some (Err e) => Some (Err e)
    | None => None
    end.
Proof.
  revert s bytes. induction n as [|n IH]; intros s bytes; [done|]. cbn [for_chunks].
  destruct (next_chunk cap s) as [[[chunk|e]|] s']; [|done..].
  by rewrite hasher_update_app, IH.
Qed.

Lemma safe_read_total fs bits reserve path ext : is_Some (safe_read fs bits reserve path ext).
Proof.
  unfold safe_read. destruct (SafeFileReader_new fs path ext) as [s|e]; [|by eexists].
  unfold reader_safe_read. case_match; [|by eexists].
  destruct (for_chunks_spec DEFAULT_CHUNK app (enough s) s [] DEFAULT_CHUNK_pos)
    as [(chunks & _ & ->)|(e & _ & ->)]; [unfold enough; lia|by eexists..].
Qed.

Lemma hash_file_total {SHA : Sha256Lib} fs path ext : is_Some (hash_file fs path ext).
Proof.
  unfold hash_file. destruct (SafeFileReader_new fs path ext) as [s|e]; [|by eexists].
  destruct (for_chunks_spec DEFAULT_CHUNK hasher_update (enough s) s hasher_new DEFAULT_CHUNK_pos)
    as [(chunks & _ & ->)|(e & _ & ->)]; [unfold enough; lia|by eexists..].
Qed.

(** A file of five bytes that is read in pieces of at most two. *)
Module ToyFile.
Definition content : list byte := [x01; x02; x03; x04; x05].
Definition fs (p : string) : os_file := {|
  f_open := Ok tt; f_metadata_len := Ok 4; f_content := content; f_reads := [Ok 1%nat; Ok 0%nat] |}.
End ToyFile.

(** A full read returns the content of the file up to the size its metadata
    announced, however the operating system splits the reads: no byte is lost,
    repeated or taken past that size, even when the file has grown meanwhile. *)
Theorem safe_read_content (fs : string → os_file) (bits : Z) (reserve : Z → result unit string)
    (path : string) (ext : option string) (len : Z) :
  check_extension path ext = Ok tt →
  f_open (fs path) = Ok tt → f_metadata_len (fs path) = Ok len →
  0 ≤ len → (bits = 32 → len ≤ u32_max) → reserve len = Ok tt →
  Forall (λ r, is_ok r = true) (f_reads (fs path)) →
  safe_read fs bits reserve path ext = Some (Ok (take (Z.to_nat len) (f_content (fs path)))).
Proof.
  intros He Ho Hm Hlen Hbits Hres Hreads. unfold safe_read, SafeFileReader_new.
  rewrite He. cbn [and_then]. rewrite Ho. cbn [and_then map_err]. rewrite Hm.
  cbn [and_then map_err]. unfold reader_safe_read, allocation_size. cbn [total_size filepath].
  assert ((if bits =? 32 then if in_u32 len then Ok len else
    Err (MemoryError path "File is too large for a 32-bit architecture allocation")
    else Ok len) = Ok len) as ->.
  { destruct (Z.eqb_spec bits 32); [|done]. by rewrite (proj2 (in_range_spec _ _ _)) by auto. }
  cbn [and_then]. rewrite Hres. cbn [map_err].
  set (s := {| reader := _; filepath := path; total_size := len |}).
  destruct (for_chunks_spec DEFAULT_CHUNK app (enough s) s [] DEFAULT_CHUNK_pos)
    as [(chunks & Hc & ->)|(e & Hin & _)]; [unfold enough; lia| |].
  - rewrite foldl_app_concat. by rewrite Hc.
  - rewrite Forall_forall in Hreads. apply list_elem_of_In in Hin. by apply Hreads in Hin.
Qed.

Lemma safe_read_content_witness :
  safe_read ToyFile.fs 64 (λ _, Ok tt) "dir/file.pem" (Some "pem"%string)
    = Some (Ok [x01; x02; x03; x04]).
Proof.
  apply (safe_read_content ToyFile.fs 64 (λ _, Ok tt) "dir/file.pem" (Some "pem"%string) 4);
    [vm_compute; reflexivity|reflexivity|reflexivity|lia|done|reflexivity|repeat constructor].
Defined.

(** C34: [hash_file] is the hash of what a full read returns, on every file, with
    the same error when that fails, although it never holds the whole file; and
    neither loop ever runs out of its bound. *)
Theorem hash_file_equals_hash_of_read {SHA : Sha256Lib} {SHAL : Sha256Laws}
    (fs : string → os_file) (path : string) (ext : option string) :
  (∃ r, safe_read fs 64 (λ _, Ok tt) path ext = Some r) ∧
  hash_file fs path ext =
    match safe_read fs 64 (λ _, Ok tt) path ext with
    | Some (Ok bytes) => Some (Ok (MkSha256Hash (sha256 bytes)))
    | Some (Err e) => Some (Err e)
    | None => None
    end.
Proof.
  unfold safe_read, hash_file. destruct (SafeFileReader_new fs path ext) as [s|e]; [|by eauto].
  unfold reader_safe_read, allocation_size. cbn [Z.eqb Pos.eqb and_then map_err].
  split.
  - destruct (for_chunks_spec DEFAULT_CHUNK app (enough s) s [] DEFAULT_CHUNK_pos)
      as [(chunks & _ & ->)|(e & _ & ->)]; [unfold enough; lia|by eauto..].
  - rewrite <- (hasher_update_nil hasher_new) at 1. rewrite for_chunks_hash.
    by destruct (for_chunks DEFAULT_CHUNK app (enough s) s []) as [[all|e]|].
Qed.

Lemma hash_file_equals_hash_of_read_witness :
  hash_file (SHA := Toy.sha) ToyFile.fs "file" None =
    Some (Ok (MkSha256Hash (sha256 (SHA := Toy.sha) [x01; x02; x03; x04]))).
Proof.
  rewrite (proj2 (hash_file_equals_hash_of_read (SHA := Toy.sha) (SHAL := Toy.sha_laws)
    ToyFile.fs "file" None)). vm_compute. reflexivity.
Defined.
