(* ===== verification/Text.v ===== *)
(** * Text: UTF-8 and paths of text

    What the configuration files and the certification authority use of the
    standard library: the validation of [String::from_utf8], with the error it
    reports, and [Path::parent]. *)
From stdpp Require Import pretty.
From S2P Require Import Prelude Bytes Path.

(** ** [String::from_utf8] *)

(** [Utf8Error]: how many bytes are valid, and the length of the bad sequence, or
    [None] when the input ends in the middle of one. *)
Record Utf8Error := { valid_up_to : Z; error_len : option Z }.

Definition continuation (b : Z) : bool := in_range 128 191 b.

(** The second byte of a sequence, by its first one. *)
Definition second_ok (first second : Z) : bool :=
  if first =? 224 then in_range 160 191 second
  else if first =? 237 then in_range 128 159 second
  else if first =? 240 then in_range 144 191 second
  else if first =? 244 then in_range 128 143 second
  else continuation second.

Definition utf8_char_width (first : Z) : nat :=
  if first <? 128 then 1%nat
  else if in_range 194 223 first then 2%nat
  else if in_range 224 239 first then 3%nat
  else if in_range 240 244 first then 4%nat
  else 0%nat.

(** The first character of the bytes: its width, or the length of the error. *)
Definition utf8_char (l : list byte) : result nat (option Z) :=
  match byte_val <$> l with
  | [] => Ok O
  | first :: rest =>
      match utf8_char_width first, rest with
      | 1%nat, _ => Ok 1%nat
      | 0%nat, _ => Err (Some 1)
      | _, [] => Err None
      | w, second :: rest =>
          if negb (second_ok first second) then Err (Some 1) else
          match w, rest with
          | 2%nat, _ => Ok 2%nat
          | _, [] => Err None
          | _, third :: rest =>
              if negb (continuation third) then Err (Some 2) else
              match w, rest with
              | 3%nat, _ => Ok 3%nat
              | _, [] => Err None
              | _, fourth :: _ => if continuation fourth then Ok 4%nat else Err (Some 3)
              end
          end
      end
  end.

(** [n] bounds the number of characters. *)
Fixpoint run_utf8_validation (n : nat) (pos : Z) (l : list byte) : result unit Utf8Error :=
  match n, l with
  | _, [] | O, _ => Ok tt
  | S n, _ =>
      match utf8_char l with
      | Ok w => run_utf8_validation n (pos + Z.of_nat w) (drop w l)
      | Err len => Err {| valid_up_to := pos; error_len := len |}
      end
  end.

(** A text is the string of its bytes. *)
Definition from_utf8 (l : list byte) : result string Utf8Error :=
  let? _ := run_utf8_validation (length l) 0 l in Ok (String.string_of_list_byte l).

(** [Display for Utf8Error] *)
Definition Utf8Error_fmt (e : Utf8Error) : string :=
  match error_len e with
  | Some n => ("invalid utf-8 sequence of " +:+ pretty n +:+ " bytes from index "
                 +:+ pretty (valid_up_to e))%string
  | None => ("incomplete utf-8 byte sequence from index " +:+ pretty (valid_up_to e))%string
  end.

(** Every character takes a byte, so the bound is enough: on [Ok] nothing is left
    unchecked. *)
Lemma utf8_char_pos b l w : utf8_char (b :: l) = Ok w → (1 ≤ w)%nat.
Proof.
  unfold utf8_char, utf8_char_width. cbn. repeat case_match; intros; simplify_eq; lia.
Qed.

(** ** [Path::parent] *)

(** The text of a path from its components; equal to the original as a path. *)
Fixpoint render (cs : list Component) : string :=
  match cs with
  | [] => EmptyString
  | c :: cs =>
      let head := match c with
                  | RootDir => EmptyString | CurDir => one_dot | ParentDir => two_dots
                  | Normal n => n
                  end in
      match cs with
      | [] => match c with RootDir => "/"%string | _ => head end
      | _ => (head +:+ "/" +:+ render cs)%string
      end
  end.

(** All but the last component; a root and an empty path have no parent. *)
Definition parent (s : string) : option string :=
  match list.last (components s) with
  | None | Some RootDir => None
  | Some _ => Some (render (removelast (components s)))
  end.

Example parent_examples :
  parent "logs/server.log" = Some "logs"%string ∧ parent "server.log" = Some EmptyString ∧
  parent "/var/log/stss/" = Some "/var/log"%string ∧ parent "/server.log" = Some "/"%string ∧
  parent "/" = None ∧ parent EmptyString = None ∧ parent "./a" = Some "."%string.
Proof. vm_compute. repeat split. Qed.

Example from_utf8_examples :
  from_utf8 [x61; xc3; xa9; xe2; x82; xac] = Ok (String.string_of_list_byte [x61; xc3; xa9; xe2; x82; xac]) ∧
  from_utf8 [x61; xff] = Err {| valid_up_to := 1; error_len := Some 1 |} ∧
  from_utf8 [xe2; x82] = Err {| valid_up_to := 0; error_len := None |} ∧
  from_utf8 [xed; xa0; x80] = Err {| valid_up_to := 0; error_len := Some 1 |}.
Proof. vm_compute. repeat split. Qed.
