(* ===== verification/ServerConfig.v ===== *)
(** * ServerConfig: from the configuration file to the context of the server

    Models [server/src/config.rs] and the context structures of
    [server/src/server.rs]: reading the TOML file, loading certificates and keys,
    choosing the time oracle, the log and the database.  The TOML, PEM and PKCS#8
    parsers are parameters. *)
From S2P Require Import Prelude Bytes Protocol Sql Database DatabaseBuilder TimeOracle Path SafeRead Text.

(** ** Parsers of other crates, and the machine *)

Class PemLib := {
  CertificateDer : Type;
  PrivateKeyDer : Type;
  pem_certs : list byte → list (result CertificateDer string);
  pem_private_key : list byte → result (option PrivateKeyDer) string
}.

Class Pkcs8Lib {RSA : RsaLib} := {
  from_pkcs8_pem : string → result RsaPrivateKey string;
  from_public_key_pem : string → result RsaPublicKey string
}.

(** Where a program runs: its files, its memory, its network, and [IpAddr]'s
    parser (an address is kept as its text). *)
Record machine := {
  m_files : string → os_file;
  m_pointer_bits : Z;
  m_try_reserve : Z → result unit string;
  m_net : net_env;
  m_parse_ip : string → result IpAddr string
}.

Definition read (m : machine) (path : string) (ext : option string) :
    option (result (list byte) SafeReadError) :=
  safe_read (m_files m) (m_pointer_bits m) (m_try_reserve m) path ext.

Lemma read_total m path ext : is_Some (read m path ext).
Proof. apply safe_read_total. Qed.

Definition PEM_EXT : option string := Some "pem"%string.
Definition TOML_EXT : option string := Some "toml"%string.

(** ** The file *)

Record NetworkConfig := { nc_ip : string; nc_port : Z }.
Record RuntimeConfig := { rc_working_threads : Z; rc_cryptography_threads : Z }.
Record KeysConfig := {
  kc_tls_cert_path : string;
  kc_tls_priv_path : string;
  kc_tss_priv_path : string;
  kc_ca_cert_path : string
}.
Record SyncedTimeOracleConfig := {
  so_ntp_server_host : string;
  so_ntp_server_port : Z;
  so_listener_ip : string;
  so_listener_port : Z;
  so_sync_interval_in_minutes : Z
}.
Record Config := {
  network : NetworkConfig;
  runtime : RuntimeConfig;
  keys : KeysConfig;
  synced_time_oracle : option SyncedTimeOracleConfig;
  log : option string;
  database_path : option string
}.

(** What serde enforces on the [u16] fields. *)
Definition oracle_typed (s : SyncedTimeOracleConfig) : bool :=
  in_u16 (so_ntp_server_port s) && in_u16 (so_listener_port s)
    && in_u16 (so_sync_interval_in_minutes s).
Definition config_typed (c : Config) : bool :=
  in_u16 (nc_port (network c))
    && match synced_time_oracle c with None => true | Some s => oracle_typed s end.

Inductive ConfigError :=
| TomlNotInUtf8 (e : string)
| Parse (e : string)
| Config_SafeRead (e : SafeReadError).

Inductive ServerConfigConversionError :=
| IpParse (e : string)
| CertificateParse (e : string)
| TlsKeyParse (e : string)
| TlsKeyNotFound
| TssKeyParse (e : string)
| InvalidFileName
| Conv_UnreliablePort
| TooManyMinutes
| Conv_TimeOracle (e : TimeOracleError)
| Conv_SafeRead (e : SafeReadError).

(** ** The context *)

Inductive LogDestination :=
| NoLog
| Stdout
| LogFile (dir filename : string).

Record RuntimeContext := { working_threads : Z; cryptography_threads : Z }.

Record KeyContext {RSA : RsaLib} {PEM : PemLib} := {
  tls_cert : list CertificateDer;
  tls_priv : PrivateKeyDer;
  tss_priv : RsaPrivateKey
}.

Record ServerContext {RSA : RsaLib} {PEM : PemLib} := {
  address : SocketAddr;
  runtime_context : RuntimeContext;
  key_context : KeyContext;
  time_oracle_type : TimeOracleType;
  log_output : LogDestination;
  database_location : DataBaseLocation
}.

Section Conversion.
Context {RSA : RsaLib} {PEM : PemLib} {PKCS : Pkcs8Lib}.
Context (toml_from_str : string → result Config string).

Definition from_file (m : machine) (path : string) : option (result Config ConfigError) :=
  run_then Config_SafeRead (read m path TOML_EXT) (λ bytes, Some
    (let? raw_toml := map_err (λ e, TomlNotInUtf8 (Utf8Error_fmt e)) (from_utf8 bytes) in
     map_err Parse (toml_from_str raw_toml))).

(** The certificates of a PEM file, or the first error among them. *)
Definition certificates (bytes : list byte)
    : result (list CertificateDer) ServerConfigConversionError :=
  collect (map_err CertificateParse <$> pem_certs bytes).

Definition get_ca_certificate (m : machine) (self : Config)
    : option (result (list CertificateDer) ServerConfigConversionError) :=
  run_then Conv_SafeRead (read m (kc_ca_cert_path (keys self)) PEM_EXT)
    (λ bytes, Some (certificates bytes)).

Definition log_destination (log : option string)
    : result LogDestination ServerConfigConversionError :=
  match log with
  | Some path =>
      let par := default EmptyString (parent path) in
      let dir := if decide (par = EmptyString) then "."%string else par in
      let? filename := ok_or (file_name path) InvalidFileName in
      Ok (LogFile dir filename)
  | None => Ok Stdout
  end.

Definition load_tls_key (bytes : list byte) : result PrivateKeyDer ServerConfigConversionError :=
  let? key := map_err TlsKeyParse (pem_private_key bytes) in ok_or key TlsKeyNotFound.

Definition load_tss_key (bytes : list byte) : result RsaPrivateKey ServerConfigConversionError :=
  let? pem_str := map_err (λ e, TssKeyParse (Utf8Error_fmt e)) (from_utf8 bytes) in
  map_err TssKeyParse (from_pkcs8_pem pem_str).

Definition choose_time_oracle (m : machine) (config : option SyncedTimeOracleConfig) (c : gmap loc Z)
    : result (TimeOracleType * gmap loc Z) ServerConfigConversionError :=
  match config with
  | Some s =>
      let ntp_server_port := NetworkPort_from (so_ntp_server_port s) in
      let? time_oracle_ip := map_err IpParse (m_parse_ip m (so_listener_ip s)) in
      let time_oracle_address := {| sa_ip := time_oracle_ip; sa_port := so_listener_port s |} in
      let? interval_in_seconds :=
        ok_or (checked_u16 (so_sync_interval_in_minutes s * 60)) TooManyMinutes in
      let? (bundle, c') :=
        map_err Conv_TimeOracle
          (create_bundle (m_net m) (so_ntp_server_host s) ntp_server_port time_oracle_address
             (Duration_from_secs interval_in_seconds) c) in
      Ok (Synced bundle, c')
  | None => let '(o, c') := new_local c in Ok (Local o, c')
  end.

Definition to_server_context (m : machine) (self : Config) (c : gmap loc Z)
    : option (result (ServerContext * gmap loc Z) ServerConfigConversionError) :=
  run_then id (Some (
    let? ip := map_err IpParse (m_parse_ip m (nc_ip (network self))) in
    if nc_port (network self) =? 0 then Err Conv_UnreliablePort else
    let? destination := log_destination (log self) in
    Ok (ip, destination))) (λ '(ip, destination),
  run_then Conv_SafeRead (read m (kc_tls_cert_path (keys self)) PEM_EXT) (λ tls_cert_bytes,
  run_then id (Some (certificates tls_cert_bytes)) (λ tls_certs,
  run_then Conv_SafeRead (read m (kc_tls_priv_path (keys self)) PEM_EXT) (λ tls_key_bytes,
  run_then id (Some (load_tls_key tls_key_bytes)) (λ tls_key,
  run_then Conv_SafeRead (read m (kc_tss_priv_path (keys self)) PEM_EXT) (λ tss_key_bytes,
  Some (
    let? tss_key := load_tss_key tss_key_bytes in
    let? (time_oracle, c') := choose_time_oracle m (synced_time_oracle self) c in
    Ok ({| address := {| sa_ip := ip; sa_port := nc_port (network self) |};
           runtime_context := {| working_threads := rc_working_threads (runtime self);
                                 cryptography_threads := rc_cryptography_threads (runtime self) |};
           key_context := {| tls_cert := tls_certs; tls_priv := tls_key; tss_priv := tss_key |};
           time_oracle_type := time_oracle;
           log_output := destination;
           database_location := match database_path self with
                                | None => Memory
                                | Some path => Disk path
                                end |}, c')))))))).
End Conversion.

(** ** Properties *)

Lemma log_destination_ok log d :
  log_destination log = Ok d →
  match log with
  | None => d = Stdout
  | Some path => ∃ dir name, d = LogFile dir name ∧ dir ≠ EmptyString ∧ file_name path = Some name
  end.
Proof.
  destruct log as [path|]; cbn; [|by intros [= <-]].
  intros (name & Hn & [= <-])%and_then_ok. apply ok_or_ok in Hn.
  eexists _, name. split_and!; [done| |done]. by case_decide.
Qed.

Lemma choose_time_oracle_ok m s c o c' :
  match s with None => true | Some s => oracle_typed s end = true →
  choose_time_oracle m s c = Ok (o, c') →
  ∃ l, c !! l = None ∧ c' = <[l := 0]> c ∧
    match s, o with
    | None, Local o => to_offset_nanos o = l
    | Some s, Synced b =>
        to_offset_nanos (tb_oracle b) = l ∧ tw_offset_nanos (tb_worker b) = l ∧
        so_ntp_server_port s ≠ 0 ∧ 0 ≤ so_sync_interval_in_minutes s ≤ 1092 ∧
        tw_sync_interval (tb_worker b) = so_sync_interval_in_minutes s * 60 * NANOS_PER_SEC
    | _, _ => False
    end.
Proof.
  destruct s as [s|]; cbn -[create_bundle].
  - intros Ht. unfold oracle_typed in Ht. rewrite !andb_true_iff in Ht.
    destruct Ht as ((_ & _) & Hm). range_simpl.
    intros (ip & _ & H)%and_then_ok. apply and_then_ok in H as (secs & Hs & H).
    apply ok_or_ok, checked_Some in Hs as [-> Hs].
    apply and_then_ok in H as ([b c1] & Hb & [= <- <-]). apply map_err_ok in Hb.
    apply create_bundle_inv in Hb as (l & Hl & -> & E1 & E2 & E3 & Hp).
    exists l. split_and!; try done.
    + intros E. by rewrite E in Hp.
    + bounds.
    + bounds.
  - intros _ [= <- <-]. exists (fresh (dom c)). split_and!; [|done..].
    apply not_elem_of_dom, is_fresh.
Qed.

(** A context the configuration converts to.  The conversion always comes back,
    and when it succeeds the server has a port, the log goes to a file of the
    name that was configured in a directory that is named, the database is where
    the file says, the keys are those of the files, and the oracle starts with a
    fresh offset of zero: the local one unless another is configured, and then its
    worker shares that offset, asks a server with a port, and waits the configured
    number of minutes, at most 1092; nothing excludes zero. *)
Theorem server_context_sound {RSA : RsaLib} {PEM : PemLib} {PKCS : Pkcs8Lib}
    (m : machine) (cfg : Config) (c : gmap loc Z) :
  config_typed cfg = true →
  is_Some (to_server_context m cfg c) ∧
  ∀ ctx c', to_server_context m cfg c = Some (Ok (ctx, c')) →
    1 ≤ sa_port (address ctx) ≤ u16_max ∧
    match log cfg with
    | None => log_output ctx = Stdout
    | Some path => ∃ dir name, log_output ctx = LogFile dir name ∧ dir ≠ EmptyString ∧
                               file_name path = Some name
    end ∧
    database_location ctx = match database_path cfg with None => Memory | Some p => Disk p end ∧
    (∃ bytes, read m (kc_tss_priv_path (keys cfg)) PEM_EXT = Some (Ok bytes) ∧
              load_tss_key bytes = Ok (tss_priv (key_context ctx))) ∧
    ∃ l, c !! l = None ∧ c' = <[l := 0]> c ∧
      match synced_time_oracle cfg, time_oracle_type ctx with
      | None, Local o => to_offset_nanos o = l
      | Some s, Synced b =>
          to_offset_nanos (tb_oracle b) = l ∧ tw_offset_nanos (tb_worker b) = l ∧
          so_ntp_server_port s ≠ 0 ∧ 0 ≤ so_sync_interval_in_minutes s ≤ 1092 ∧
          tw_sync_interval (tb_worker b) = so_sync_interval_in_minutes s * 60 * NANOS_PER_SEC
      | _, _ => False
      end.
Proof.
  unfold config_typed. rewrite andb_true_iff. intros [Hp Hs]. split.
  - unfold to_server_context. apply run_then_total; [by eexists|]. intros [ip d].
    do 2 (apply run_then_total; [apply read_total || by eexists|intros ?];
          apply run_then_total; [apply read_total || by eexists|intros ?]).
    apply run_then_total; [apply read_total|by eexists].
  - intros ctx c' H. unfold to_server_context in H.
    apply run_then_ok in H as ([ip d] & H0 & H).
    apply run_then_ok in H as (certs & _ & H). apply run_then_ok in H as (crts & _ & H).
    apply run_then_ok in H as (kb & _ & H). apply run_then_ok in H as (k & _ & H).
    apply run_then_ok in H as (tb & Htb & H). injection H as H.
    apply and_then_ok in H as (tss & Htss & H). apply and_then_ok in H as ([o c1] & Ho & [= <- <-]).
    injection H0 as H0. apply and_then_ok in H0 as (ip' & _ & H0).
    destruct (Z.eqb_spec (nc_port (network cfg)) 0); [done|].
    apply and_then_ok in H0 as (d' & Hd & [= -> ->]). apply log_destination_ok in Hd.
    apply in_range_spec in Hp. cbn. split_and!; [lia|lia|done|done|by eauto|].
    by apply (choose_time_oracle_ok m).
Qed.

(** A machine whose files all hold four bytes and whose resolver knows one address. *)
Module ToyMachine.
Definition pem : PemLib := {|
  CertificateDer := list byte; PrivateKeyDer := list byte;
  pem_certs := λ b, [Ok b]; pem_private_key := λ b, Ok (Some b) |}.
Definition pkcs : @Pkcs8Lib Toy.rsa := {|
  from_pkcs8_pem := λ _, Ok (256%nat : @RsaPrivateKey Toy.rsa);
  from_public_key_pem := λ _, Ok (256%nat : @RsaPublicKey Toy.rsa) |}.
Definition m : machine := {|
  m_files := ToyFile.fs; m_pointer_bits := 64; m_try_reserve := λ _, Ok tt;
  m_net := ToyNtp.env; m_parse_ip := Ok |}.
Definition cfg (minutes : Z) : Config := {|
  network := {| nc_ip := "127.0.0.1"; nc_port := 8080 |};
  runtime := {| rc_working_threads := 2; rc_cryptography_threads := 0 |};
  keys := {| kc_tls_cert_path := "tls_cert.pem"; kc_tls_priv_path := "tls_priv.pem";
             kc_tss_priv_path := "tss_priv.pem"; kc_ca_cert_path := "ca_cert.pem" |};
  synced_time_oracle := Some {| so_ntp_server_host := "time.example"; so_ntp_server_port := 123;
                                so_listener_ip := "0.0.0.0"; so_listener_port := 0;
                                so_sync_interval_in_minutes := minutes |};
  log := Some "logs/server.log"%string;
  database_path := None |}.
End ToyMachine.

Lemma server_context_sound_witness :
  ∃ ctx c', to_server_context (RSA := Toy.rsa) (PEM := ToyMachine.pem) (PKCS := ToyMachine.pkcs)
              ToyMachine.m (ToyMachine.cfg 10) ∅ = Some (Ok (ctx, c')) ∧
            1 ≤ sa_port (address ctx) ≤ u16_max.
Proof.
  destruct (server_context_sound (RSA := Toy.rsa) (PEM := ToyMachine.pem) (PKCS := ToyMachine.pkcs)
              ToyMachine.m (ToyMachine.cfg 10) ∅ eq_refl) as [_ H].
  eexists _, _. split; [vm_compute; reflexivity|].
  edestruct H as [Hp _]; [|exact Hp]. vm_compute. reflexivity.
Defined.
