(* ===== verification/ServerBuild.v ===== *)
(** * ServerBuild: from a context to a running server

    Models [STSServer::build_from_context], [run] and [run_with_signal] of
    [server/src/server.rs], and the binding of the address in [accept_loop]: the
    order of the checks, the choice of the signer, the state the server starts in,
    and what the task of the time worker does for its connections. *)
From S2P Require Import Prelude Bytes Protocol Sql Database DatabaseSpec DatabaseBuilder TimeOracle.
From S2P Require Import Signer Effects ConnHandler Account SessionSpec Server ServerSpec Shutdown.
From S2P Require Import Path SafeRead Text ServerConfig.

Inductive STSServerBuildError :=
| ZeroWorkingThreads
| Build_TLSSetup (e : string)
| Logger (e : string)
| Build_DataBase (e : DataBaseBuildError).

Inductive STSServerRunError :=
| Run_TLSSetup (e : string)
| PortAlreadyInUse (port : Z)
| Run_PermissionDenied (port : Z)
| Run_AddrNotAvailable (addr : SocketAddr)
| GenericBind (e : string)
| Run_ConnectionAborted (e : string)
| GenericAccept (e : string).

(** What the runtime builder was told. *)
Inductive flavor := CurrentThread | MultiThread (workers : Z).
Record Runtime := { rt_flavor : flavor; rt_max_blocking_threads : option Z }.

(** [TlsAcceptor] of the certificates and the key it was built from. *)
Record TlsAcceptor {PEM : PemLib} := { ta_cert : list CertificateDer; ta_key : PrivateKeyDer }.

Record STSServerInstance {RSA : RsaLib} {PEM : PemLib} (S : Type) := {
  i_address : SocketAddr;
  i_runtime : Runtime;
  i_tls_acceptor : TlsAcceptor;
  i_state : STSServerState S;
  i_time_oracle_worker : option TimeSyncWorker;
  i_log_guard : bool
}.
Arguments i_address {RSA PEM S} _.
Arguments i_runtime {RSA PEM S} _.
Arguments i_tls_acceptor {RSA PEM S} _.
Arguments i_state {RSA PEM S} _.
Arguments i_time_oracle_worker {RSA PEM S} _.
Arguments i_log_guard {RSA PEM S} _.

Inductive STSServer {RSA : RsaLib} {PEM : PemLib} :=
| Accelerated (i : STSServerInstance AcceleratedSigner)
| Slow (i : STSServerInstance SlowSigner).

(** What the crates answer while the server is built: whether the global logger
    can be set, the runtime started, and the certificate used with the key. *)
Record build_env {PEM : PemLib} := {
  be_try_init : result unit string;
  be_runtime_build : Runtime → result unit string;
  be_with_single_cert : list CertificateDer → PrivateKeyDer → result unit string;
  be_fs : fs_env
}.

Section Build.
Context {RSA : RsaLib} {PEM : PemLib}.

(** Whether a guard of the log is kept. *)
Definition set_up_log (env : build_env) (log_output : LogDestination)
    : result bool STSServerBuildError :=
  match log_output with
  | NoLog => Ok false
  | Stdout | LogFile _ _ => let? _ := map_err Logger (be_try_init env) in Ok true
  end.

Definition configure_runtime (rc : RuntimeContext) : result Runtime STSServerBuildError :=
  let? fl := if working_threads rc =? 0 then Err ZeroWorkingThreads
             else if working_threads rc =? 1 then Ok CurrentThread
             else Ok (MultiThread (working_threads rc)) in
  Ok {| rt_flavor := fl;
        rt_max_blocking_threads :=
          if 0 <? cryptography_threads rc then Some (cryptography_threads rc) else None |}.

(** The oracle, and the worker if there is one. *)
Definition oracle_parts (t : TimeOracleType) : TimeOracle * option TimeSyncWorker :=
  match t with
  | Local o => (o, None)
  | Synced b => let '(o, w) := into_parts b in (o, Some w)
  end.

(** [file] is the schema of the database the location holds; its rows are those
    of the pool. *)
Definition build_from_context (env : build_env) (file : schema) (ctx : ServerContext)
    (c : gmap loc Z) : io STSServerBuildError STSServer :=
  log_guard ← of_result (set_up_log env (log_output ctx));
  rt ← of_result (configure_runtime (runtime_context ctx));
  _ ← match be_runtime_build env rt with
      | Ok _ => mret tt
      | Err _ => io_panic "this should work everytime, except breaking changes"
      end;
  _ ← of_result (map_err Build_TLSSetup
        (be_with_single_cert env (tls_cert (key_context ctx)) (tls_priv (key_context ctx))));
  _ ← io_map_err Build_DataBase (build (be_fs env) (database_location ctx) file);
  database ← on_pool (λ p, (Ok (p_tables p), p));
  let tls_acceptor := {| ta_cert := tls_cert (key_context ctx);
                         ta_key := tls_priv (key_context ctx) |} in
  let '(time_oracle, worker) := oracle_parts (time_oracle_type ctx) in
  let state := from_bundle database false (tss_priv (key_context ctx)) time_oracle c in
  mret (if 0 <? cryptography_threads (runtime_context ctx)
        then Slow {| i_address := address ctx; i_runtime := rt; i_tls_acceptor := tls_acceptor;
                     i_state := get_slow_build state; i_time_oracle_worker := worker;
                     i_log_guard := log_guard |}
        else Accelerated {| i_address := address ctx; i_runtime := rt;
                            i_tls_acceptor := tls_acceptor;
                            i_state := get_accelerated_build state;
                            i_time_oracle_worker := worker; i_log_guard := log_guard |}).
End Build.

(** ** Running *)

Definition bind_error (addr : SocketAddr) (e : IoError) : STSServerRunError :=
  match io_kind e with
  | AddrInUse => PortAlreadyInUse (sa_port addr)
  | PermissionDenied => Run_PermissionDenied (sa_port addr)
  | AddrNotAvailable => Run_AddrNotAvailable addr
  | _ => GenericBind (io_text e)
  end.

Section Run.
Context {RSA : RsaLib} {PEM : PemLib} {S : Type}.

(** [accept_loop] up to its loop: the world the moves of [Server] start from. *)
Definition start (bound : result unit IoError) (i : STSServerInstance S)
    : result (world S) STSServerRunError :=
  let? _ := map_err (bind_error (i_address i)) bound in Ok (init (i_state i)).
End Run.

(** ** Properties *)

(** A property of the instance, whichever signer it has. *)
Definition with_instance {SHA : Sha256Lib} {RSA : RsaLib} {PEM : PemLib} (srv : STSServer)
    (P : ∀ S, Signer S → STSServerInstance S → Prop) : Prop :=
  match srv with
  | Accelerated i => P AcceleratedSigner accelerated_signer i
  | Slow i => P SlowSigner slow_signer i
  end.

(** Building and validating only read the rows. *)
Definition keeps {E A} (m : io E A) : Prop := ∀ p, p_tables (m p).2 = p_tables p.

Lemma keeps_ret {E A} (a : A) : keeps (E := E) (mret a).
Proof. done. Qed.
Lemma keeps_of_result {E A} (r : result A E) : keeps (of_result r).
Proof. done. Qed.
Lemma keeps_raise {E A} (e : E) : keeps (A := A) (raise e).
Proof. done. Qed.
Lemma keeps_panic {E A} s : keeps (E := E) (A := A) (io_panic s).
Proof. done. Qed.
Lemma keeps_bind {E A B} (m : io E A) (k : A → io E B) :
  keeps m → (∀ a, keeps (k a)) → keeps (m ≫= k).
Proof.
  intros Hm Hk p. specialize (Hm p). unfold mbind, io_bind.
  destruct (m p) as [[[a|e]|s] p']; cbn in *; [|done..]. by rewrite Hk.
Qed.
Lemma keeps_map_err {E F A} (f : E → F) (m : io E A) : keeps m → keeps (io_map_err f m).
Proof. intros Hm p. specialize (Hm p). unfold io_map_err. by destruct (m p) as [[[]|] ?]. Qed.
Lemma keeps_round_trip : keeps round_trip.
Proof. intros p. unfold round_trip. by destruct (p_faults p) as [|[] ?]. Qed.
Lemma keeps_read {E A} (f : tables → A) : keeps (E := E) (on_pool (λ p, (Ok (f (p_tables p)), p))).
Proof. done. Qed.

Create HintDb keeps.
#[export] Hint Resolve keeps_ret keeps_of_result keeps_raise keeps_panic keeps_round_trip
  keeps_read : keeps.
Ltac keeps :=
  repeat first [progress auto with keeps | apply keeps_bind; [|intros ?]
               | apply keeps_map_err | case_match].

Lemma keeps_audit rows : keeps (audit_rows rows).
Proof. induction rows; cbn; keeps. Qed.
Lemma keeps_queries s qs : keeps (run_queries s qs).
Proof. induction qs as [|[q [t cs]] qs IH]; cbn; keeps. Qed.
Lemma keeps_build fs loc file : keeps (build fs loc file).
Proof.
  unfold build, unchecked_build, initialize_db, validate.
  keeps; auto using keeps_audit, keeps_queries.
Qed.

Lemma io_bind_ok {E A B} (m : io E A) (k : A → io E B) p b p' :
  (m ≫= k) p = (Done (Ok b), p') → ∃ a p1, m p = (Done (Ok a), p1) ∧ k a p1 = (Done (Ok b), p').
Proof. unfold mbind, io_bind. destruct (m p) as [[[a|e]|s] p1]; naive_solver. Qed.

(** The server a successful build returns. *)
Lemma build_inv {SHA : Sha256Lib} {RSA : RsaLib} {PEM : PemLib} env file ctx c p srv p' :
  build_from_context env file ctx c p = (Done (Ok srv), p') →
  working_threads (runtime_context ctx) ≠ 0 ∧
  (0 < cryptography_threads (runtime_context ctx) ↔ ∃ i, srv = Slow i) ∧
  with_instance srv (λ S _ i,
    database (i_state i) = p_tables p ∧ cancel_token (i_state i) = false ∧
    logged_users (i_state i) = ∅ ∧ signing_key (i_state i) = tss_priv (key_context ctx) ∧
    time_oracle (i_state i) = (oracle_parts (time_oracle_type ctx)).1 ∧
    i_time_oracle_worker i = (oracle_parts (time_oracle_type ctx)).2 ∧
    i_address i = address ctx ∧ heap (i_state i) = c ∧
    ta_cert (i_tls_acceptor i) = tls_cert (key_context ctx) ∧
    ta_key (i_tls_acceptor i) = tls_priv (key_context ctx)).
Proof.
  unfold build_from_context. intros (lg & p1 & [= _ <-] & H)%io_bind_ok.
  apply io_bind_ok in H as (rt & p1 & Hrt & H). injection Hrt as Hrt <-.
  apply io_bind_ok in H as (u & p1 & Hu & H).
  assert (p1 = p) as -> by (destruct (be_runtime_build env rt); unfold mret, io_ret, io_panic in Hu; congruence). clear Hu.
  apply io_bind_ok in H as (u' & p1 & [= _ <-] & H).
  apply io_bind_ok in H as (s & p1 & Hb & H).
  assert (p_tables p1 = p_tables p) as Hp.
  { pose proof (keeps_map_err Build_DataBase _ (keeps_build (be_fs env) (database_location ctx) file) p) as K.
    by rewrite Hb in K. }
  apply io_bind_ok in H as (db & p2 & [= <- <-] & H). rewrite Hp in H.
  unfold configure_runtime in Hrt. apply and_then_ok in Hrt as (fl & Hfl & _).
  split. { intros E. by rewrite E in Hfl. }
  destruct (oracle_parts (time_oracle_type ctx)) as [o w]. injection H as <- <-.
  destruct (Z.ltb_spec 0 (cryptography_threads (runtime_context ctx))); cbn; split_and!; try done.
  - split; [by eexists|done].
  - split; [lia|by intros [i ?]].
Qed.

(** The parts of the context the build relies on. *)
Lemma context_facts {RSA : RsaLib} {PEM : PemLib} {PKCS : Pkcs8Lib} m cfg c ctx c' :
  config_typed cfg = true → to_server_context m cfg c = Some (Ok (ctx, c')) →
  runtime_context ctx = {| working_threads := rc_working_threads (runtime cfg);
                           cryptography_threads := rc_cryptography_threads (runtime cfg) |} ∧
  load (to_offset_nanos (oracle_parts (time_oracle_type ctx)).1) c' = 0.
Proof.
  unfold config_typed. rewrite andb_true_iff. intros [_ Hs] H. unfold to_server_context in H.
  apply run_then_ok in H as ([ip d] & _ & H).
  do 5 (apply run_then_ok in H as (? & _ & H)). injection H as H.
  apply and_then_ok in H as (tss & _ & H). apply and_then_ok in H as ([o c1] & Ho & [= <- <-]).
  split; [done|]. apply (choose_time_oracle_ok m _ _ _ _ Hs) in Ho as (l & _ & -> & Ho). cbn.
  destruct (synced_time_oracle cfg), o; try done; cbn; [destruct Ho as (-> & _)|rewrite Ho];
    apply load_insert.
Qed.

(** C11: a configured server starts clean and stays sound.  When the configuration
    converts and the server builds from it on tables that satisfy the invariant,
    it has a worker thread, uses the slow signer exactly when threads are set aside
    for it, starts with nobody logged in, no shutdown, an offset of zero, the key of
    the configured file and the rows of the database; and in every state any
    interleaving of its connections and its worker leads to, the tables satisfy the
    invariant, and the logged users are those with a running session and those left
    behind by a connection that unwound or whose login was not answered, one connection
    each. *)
Theorem configured_server_sound
    {SHA : Sha256Lib} {RSA : RsaLib} {HEX : HexLib} {ARGON : Argon2Lib} {PEM : PemLib} {PKCS : Pkcs8Lib}
    {WREQ : Wincode Request} {WRESP : Wincode Response} {RT : RequestsTyped}
    (m : machine) (cfg : Config) (c c' : gmap loc Z) (ctx : ServerContext)
    (env : build_env) (file : schema) (p p' : pool) (srv : STSServer) :
  config_typed cfg = true →
  to_server_context m cfg c = Some (Ok (ctx, c')) →
  tables_ok (p_tables p) →
  build_from_context env file ctx c' p = (Done (Ok srv), p') →
  rc_working_threads (runtime cfg) ≠ 0 ∧
  (0 < rc_cryptography_threads (runtime cfg) ↔ ∃ i, srv = Slow i) ∧
  with_instance srv (λ S _ i,
    database (i_state i) = p_tables p ∧ cancel_token (i_state i) = false ∧
    logged_users (i_state i) = ∅ ∧ signing_key (i_state i) = tss_priv (key_context ctx) ∧
    oracle_offset (i_state i) = 0 ∧
    ∀ w, reachable (init (i_state i)) w →
      tables_ok (database (w_state w)) ∧ sessions_sound w).
Proof.
  intros Hty Hctx Hp Hb. apply build_inv in Hb as (Hw & Hsl & Hi).
  destruct (context_facts m cfg c ctx c' Hty Hctx) as (Hrt & Ho).
  rewrite Hrt in Hw, Hsl. cbn in Hw, Hsl. split_and!; [done|done|].
  destruct srv as [i|i]; cbn in *; destruct Hi as (H1 & H2 & H3 & H4 & H5 & _ & _ & H6 & _);
    (assert (oracle_offset (i_state i) = 0) as Hz by (unfold oracle_offset; by rewrite H5, H6));
    (split_and!; [done..|]); intros w Hr;
    (assert (world_ok w) as Hok by
       (eapply world_ok_reachable; [apply world_ok_init; [by rewrite H1|by rewrite Hz|done]|done]));
    (split; [apply Hok|by apply world_ok_sessions]).
Qed.

Module ToyBuild.
Definition env : @build_env ToyMachine.pem := {|
  be_try_init := Ok tt; be_runtime_build := λ _, Ok tt; be_with_single_cert := λ _ _, Ok tt;
  be_fs := toy_fs |}.
Definition p0 : pool := {| p_tables := empty_tables; p_faults := [] |}.

(** The server of a configuration, built on an empty database. *)
Definition boots (minutes : Z) : bool :=
  match to_server_context (RSA := Toy.rsa) (PEM := ToyMachine.pem) (PKCS := ToyMachine.pkcs)
          ToyMachine.m (ToyMachine.cfg minutes) ∅ with
  | Some (Ok (ctx, c')) =>
      match build_from_context env [] ctx c' p0 with (Done (Ok _), _) => true | _ => false end
  | _ => false
  end.
Lemma boots_inv minutes :
  boots minutes = true →
  ∃ ctx c' srv p',
    to_server_context (RSA := Toy.rsa) (PEM := ToyMachine.pem) (PKCS := ToyMachine.pkcs)
      ToyMachine.m (ToyMachine.cfg minutes) ∅ = Some (Ok (ctx, c')) ∧
    build_from_context env [] ctx c' p0 = (Done (Ok srv), p').
Proof.
  unfold boots. destruct (to_server_context _ _ _) as [[[ctx c']|e]|]; [|done..].
  destruct (build_from_context _ _ ctx c' _) as [[[srv|e]|s] p'] eqn:E; [|done..].
  intros _. exists ctx, c', srv, p'. by split.
Qed.
End ToyBuild.

Lemma configured_server_sound_witness :
  ∃ ctx c' srv p',
    to_server_context (RSA := Toy.rsa) (PEM := ToyMachine.pem) (PKCS := ToyMachine.pkcs)
      ToyMachine.m (ToyMachine.cfg 10) ∅ = Some (Ok (ctx, c')) ∧
    build_from_context ToyBuild.env [] ctx c' ToyBuild.p0 = (Done (Ok srv), p') ∧
    with_instance (SHA := Toy.sha) srv (λ S _ i,
      logged_users (i_state i) = ∅ ∧ database (i_state i) = empty_tables).
Proof.
  destruct (ToyBuild.boots_inv 10) as (ctx & c' & srv & p' & Hc & Hb); [vm_compute; reflexivity|].
  exists ctx, c', srv, p'. split_and!; [exact Hc|exact Hb|].
  destruct (configured_server_sound (SHA := Toy.sha) (RSA := Toy.rsa) (HEX := Toy.hex)
    (ARGON := ToyDb.argon) (PEM := ToyMachine.pem) (PKCS := ToyMachine.pkcs)
    (WREQ := ToyConn.wreq) (WRESP := ToyConn.wresp) (RT := ToyServer.requests_typed)
    ToyMachine.m (ToyMachine.cfg 10) ∅ c' ctx ToyBuild.env [] ToyBuild.p0 p' srv
    eq_refl Hc empty_tables_ok Hb) as (_ & _ & Hi).
  destruct srv; cbn in *; by destruct Hi as (? & _ & ? & _).
Defined.

(** ** The clock of a running server *)

(** What the worker's ticks found, in a sequence of moves. *)
Definition tick_results (ms : list move) : list (result (option Z) TimeOracleError) :=
  omap (λ m, match m with MoveTick checked => Some checked | _ => None end) ms.

(** [run_with_signal] spawns the worker it was given. *)
Definition spawns (tw : TimeSyncWorker) (m : move) : Prop :=
  match m with MoveSpawn _ tw' => tw' = tw | _ => True end.

Section Clock.
Context {SHA : Sha256Lib} {RSA : RsaLib} {HEX : HexLib} {ARGON : Argon2Lib}.
Context {S : Type} {SI : Signer S} {WREQ : Wincode Request} {WRESP : Wincode Response}.
Implicit Types (w : world S).

Lemma perform_heap en e (st : STSServerState S) :
  heap (perform en e st).2 = heap st ∧ time_oracle (perform en e st).2 = time_oracle st.
Proof. destruct e; cbn; try done; unfold on_database; by case_match. Qed.

(** The moves of everybody else leave the worker and the heap alone. *)
Lemma other_move_frame m w w' :
  apply_move m w = Some w' →
  match m with MoveSpawn _ _ | MoveTick _ => False | _ => True end →
  heap (w_state w') = heap (w_state w) ∧ w_worker w' = w_worker w.
Proof.
  destruct m as [| | | | |i en]; intros Hm Hk; try done; cbn in Hm;
    try (case_match; by simplify_eq); try by simplify_eq.
  destruct (w_tasks w !! i) as [tk|]; [|done]. cbn in Hm.
  destruct (tk_prog tk) as [|e k| |]; try done.
  destruct (perform_heap en e (w_state w)) as [Hh _].
  destruct (perform en e (w_state w)). by simplify_eq.
Qed.

Lemma move_oracle m w w' :
  apply_move m w = Some w' → time_oracle (w_state w') = time_oracle (w_state w).
Proof.
  intros Hm. destruct m as [n a| | |fr tw|ck|i en].
  4,5: by destruct (worker_move_frame _ _ _ Hm I) as (_ & _ & _ & _ & ? & _).
  all: cbn in Hm; try (case_match; by simplify_eq); try by simplify_eq.
  destruct (w_tasks w !! i) as [tk|]; [|done]. cbn in Hm.
  destruct (tk_prog tk) as [|e k| |]; try done.
  destruct (perform_heap en e (w_state w)) as [_ Hh].
  destruct (perform en e (w_state w)). by simplify_eq.
Qed.

Lemma run_oracle ms w w' :
  run_moves ms w = Some w' → time_oracle (w_state w') = time_oracle (w_state w).
Proof.
  revert w. induction ms as [|m ms IH]; intros w H; cbn in H; [by simplify_eq|].
  destruct (apply_move m w) as [w1|] eqn:E; [|done]. apply IH in H. rewrite H. by eapply move_oracle.
Qed.

(** A worker that has ended ticks no more. *)
Lemma run_worker_ended ms w w' :
  run_moves ms w = Some w' → w_worker w = WorkerEnded →
  tick_results ms = [] ∧ heap (w_state w') = heap (w_state w) ∧
  (cancel_token (w_state w) = true → cancel_token (w_state w') = true).
Proof.
  revert w. induction ms as [|m ms IH]; intros w H Hw; cbn in H; [by simplify_eq|].
  destruct (apply_move m w) as [w1|] eqn:E; [|done]. cbn in H.
  assert (match m with MoveSpawn _ _ | MoveTick _ => False | _ => True end) as Hm
    by (destruct m; try done; cbn in E; by rewrite Hw in E).
  destruct (other_move_frame _ _ _ E Hm) as [Hh Hw1].
  destruct (IH w1 H ltac:(congruence)) as (H1 & H2 & H3).
  split_and!; [by destruct m|congruence|]. intros Hc. by eapply H3, apply_move_cancelled.
Qed.

(** A worker with a zero interval never ticks. *)
Lemma run_unticked ms w w' tw :
  w_worker w = NotSpawned → tw_sync_interval tw = 0 → Forall (spawns tw) ms →
  run_moves ms w = Some w' → tick_results ms = [] ∧ heap (w_state w') = heap (w_state w).
Proof.
  revert w. induction ms as [|m ms IH]; intros w Hw Hz Hsp H; cbn in H; [by simplify_eq|].
  apply list.Forall_cons in Hsp as [Hs Hsp].
  destruct (apply_move m w) as [w1|] eqn:E; [|done]. cbn in H.
  destruct m as [n a| | |fr tw'|ck|i en]; try (by cbn in E; rewrite Hw in E).
  4:{ cbn in Hs. subst tw'. cbn in E. rewrite Hw in E. injection E as <-. unfold spawn_worker in H.
    rewrite (proj2 (Z.eqb_eq _ _) Hz) in H.
    by destruct fr; destruct (run_worker_ended _ _ _ H eq_refl) as (? & ? & ?). }
  all: destruct (other_move_frame _ _ _ E I) as [Hh Hw1]; rewrite <- Hh;
    destruct (IH w1 ltac:(congruence) Hz Hsp H); by split.
Qed.

Context (frac : Z → Z) (show : SocketAddr → string).

(** A running worker's moves are the iterations of its loop. *)
Lemma run_worker ms w w' tw ts :
  w_worker w = Running tw → run_moves ms w = Some w' →
  tick_results ms = sync_once frac show tw <$> ts →
  heap (w_state w') = (sync_loop frac show tw ts (heap (w_state w))).2 ∧
  (∀ e, (sync_loop frac show tw ts (heap (w_state w))).1 = SyncStopped e →
     cancel_token (w_state w') = true) ∧
  (∀ ts1 t ts2, ts = ts1 ++ t :: ts2 →
     ∃ c1, sync_loop frac show tw ts1 (heap (w_state w)) = (Syncing, c1)).
Proof.
  revert w ts. induction ms as [|m ms IH]; intros w ts Hw H Hts; cbn in H.
  { cbn in Hts. destruct ts; [|done]. simplify_eq. split_and!; [done..|]. by intros [|] ? ?. }
  destruct (apply_move m w) as [w1|] eqn:E; [|done]. cbn in H.
  destruct m as [n a| | |fr tw'|ck|i en]; [..|cbn in E; by rewrite Hw in E| |].
  4:{ cbn in E, Hts. rewrite Hw in E. destruct ts as [|t ts]; [done|]. injection Hts as -> Hts.
    unfold tick_worker in E. cbn [sync_loop]. destruct (sync_once frac show tw t) as [ck|e] eqn:Es.
    + destruct (tick_typed ck); [|done]. injection E as <-.
      destruct (λ Hw, IH _ ts Hw H Hts) as (H1 & H2 & H3); [done|]. cbn in H1, H2, H3.
      split_and!; [done..|]. intros [|t1 ts1] t2 ts2 Ets; [by eexists|].
      injection Ets as <- Ets. cbn. rewrite Es. by eapply H3.
    + injection E as <-. destruct (run_worker_ended _ _ _ H eq_refl) as (Ht & Hh & Hc).
      unfold tick_results in Ht; rewrite Ht in Hts. destruct ts; [|done]. cbn in *.
      split_and!; [done|by auto|]. intros [|t1 ts1] t2 ts2 Ets; [by eexists|by destruct ts1]. }
  all: destruct (other_move_frame _ _ _ E I) as [Hh Hw1]; rewrite <- Hh;
    by apply (IH w1 ts); [congruence| |].
Qed.

(** From the start of the server: the heap is what [start_syncing] makes of it. *)
Lemma run_spawned ms w w' tw ts :
  w_worker w = NotSpawned → Forall (spawns tw) ms → run_moves ms w = Some w' →
  tick_results ms = sync_once frac show tw <$> ts →
  let '(status, c) := start_syncing frac show (Ok tt) tw ts (heap (w_state w)) in
  heap (w_state w') = c ∧ (∀ e, status = SyncStopped e → cancel_token (w_state w') = true) ∧
  (ts ≠ [] → tw_sync_interval tw ≠ 0) ∧
  (∀ ts1 t ts2, ts = ts1 ++ t :: ts2 →
     ∃ c1, sync_loop frac show tw ts1 (heap (w_state w)) = (Syncing, c1)).
Proof.
  revert w. induction ms as [|m ms IH]; intros w Hw Hsp H Hts; cbn in H.
  { cbn in Hts. destruct ts; [|done]. simplify_eq. unfold start_syncing.
    destruct (tw_sync_interval tw =? 0); (split_and!; [done..|]); by intros [|] ? ?. }
  apply list.Forall_cons in Hsp as [Hs Hsp].
  destruct (apply_move m w) as [w1|] eqn:E; [|done]. cbn in H.
  destruct m as [n a| | |fr tw'|ck|i en]; try (by cbn in E; rewrite Hw in E).
  4:{ cbn in Hs. subst tw'. cbn in E. rewrite Hw in E. injection E as <-.
    change (tick_results ms = sync_once frac show tw <$> ts) in Hts. unfold spawn_worker in H.
    unfold start_syncing. destruct (Z.eqb_spec (tw_sync_interval tw) 0) as [Hz|Hz].
    - assert (tick_results ms = [] ∧ heap (w_state w') = heap (w_state w)) as [Ht Hh].
      { by destruct fr; destruct (run_worker_ended _ _ _ H eq_refl) as (? & ? & ?). }
      rewrite Ht in Hts. destruct ts; [|done]. split_and!; [done..|]. by intros [|] ? ?.
    - destruct fr as [[]|e].
      + destruct (run_worker _ (with_worker (Running tw) w) w' tw ts eq_refl H Hts) as (H1 & H2 & H3).
        cbn in H1, H2, H3. by destruct (sync_loop frac show tw ts (heap (w_state w))) as [status c].
      + destruct (run_worker_ended _ _ _ H eq_refl) as (Ht & Hh & Hc).
        rewrite Ht in Hts. destruct ts; [|done]. cbn. split_and!; [done..|]. by intros [|] ? ?. }
  all: destruct (other_move_frame _ _ _ E I) as [Hh Hw1]; rewrite <- Hh;
    apply (IH w1); [congruence|done|done|done].
Qed.

(** What a connection reads, when the oracle of the state holds the cell of the worker. *)
Lemma run_clock {SL : SntpLaws frac} st tw ms w ts ts1 t ts2 sec sf d en :
  to_offset_nanos (time_oracle st) = tw_offset_nanos tw →
  Forall (spawns tw) ms → tick_results ms = sync_once frac show tw <$> ts →
  run_moves ms (init st) = Some w → ts = ts1 ++ t :: ts2 →
  benign t = true → tick_ntp t = Ok (sec, sf) → forallb unanswered ts2 = true →
  i64_min ≤ ntp_instant frac sec sf - tick_local t ≤ i64_max →
  representable (ntp_instant frac sec sf + d) = true → en_clock en = tick_local t + d →
  (perform en EvTimeNow (w_state w)).1 = ntp_instant frac sec sf + d.
Proof.
  intros Hcell Hsp Hts Hrun Ets Hben Hn Hu Hfit Hrep Hclk.
  pose proof (run_spawned ms (init st) w tw ts eq_refl Hsp Hrun Hts) as Hr.
  destruct (start_syncing _ _ _ _ _ _) as [status c2] eqn:Est. destruct Hr as (H1 & _ & H3 & H4).
  cbn [perform fst]. rewrite Hclk. unfold oracle_offset. rewrite (run_oracle _ _ _ Hrun), H1.
  cbn [init w_state] in *. apply (time_now_difference (time_oracle st) c2); [|done..]. rewrite Hcell.
  unfold start_syncing in Est.
  rewrite (proj2 (Z.eqb_neq _ 0)) in Est by (apply H3; rewrite Ets; by destruct ts1).
  rewrite Ets in Est. eapply sync_loop_last_answer; [exact SL|exact Est|by eapply H4|done..].
Qed.

(** Without ticks it reads the local clock. *)
Lemma run_local_clock st tw ms w en :
  tw_sync_interval tw = 0 → oracle_offset st = 0 → Forall (spawns tw) ms →
  run_moves ms (init st) = Some w → (perform en EvTimeNow (w_state w)).1 = en_clock en.
Proof.
  intros Hz Ho Hsp Hrun. destruct (run_unticked ms (init st) w tw eq_refl Hz Hsp Hrun) as [_ Hh].
  cbn [perform fst]. unfold oracle_offset in *. rewrite (run_oracle _ _ _ Hrun), Hh.
  cbn [init w_state]. rewrite Ho, time_now_add, Z.add_0_r by done. by case_match.
Qed.
End Clock.

(** The worker and the oracle of a context, from the configuration. *)
Lemma context_worker {RSA : RsaLib} {PEM : PemLib} {PKCS : Pkcs8Lib} m cfg c ctx c' s :
  config_typed cfg = true → to_server_context m cfg c = Some (Ok (ctx, c')) →
  synced_time_oracle cfg = Some s →
  ∃ o tw, oracle_parts (time_oracle_type ctx) = (o, Some tw) ∧
    to_offset_nanos o = tw_offset_nanos tw ∧
    tw_sync_interval tw = so_sync_interval_in_minutes s * 60 * NANOS_PER_SEC.
Proof.
  unfold config_typed. rewrite andb_true_iff. intros [_ Hs] H Es. unfold to_server_context in H.
  apply run_then_ok in H as ([ip d] & _ & H).
  do 5 (apply run_then_ok in H as (? & _ & H)). injection H as H.
  apply and_then_ok in H as (tss & _ & H). apply and_then_ok in H as ([o c1] & Ho & [= <- <-]).
  apply (choose_time_oracle_ok m _ _ _ _ Hs) in Ho as (l & _ & _ & Ho). rewrite Es in Ho. cbn.
  destruct o as [o|b]; [done|]. destruct Ho as (Ho & Hw & _ & _ & Hi).
  exists (tb_oracle b), (tb_worker b). split_and!; [done|congruence|done].
Qed.

(** C24: a server with a synchronised oracle tells its connections NTP time.  For a server
    built from a configuration that asks for synchronisation, along every interleaving
    of its connections, its operator and the ticks of the worker it spawns, the cells of
    the process are those [start_syncing] leaves after those ticks, and a shutdown has
    been requested if it returned an error; so that, when the last answered tick was [t]
    and any number of unanswered ones followed, a connection that reads the clock [d]
    nanoseconds after [t] gets the instant of that answer plus [d].  This rests on the
    oracle of the shared state and the worker holding the same cell. *)
Theorem server_clock_follows_ntp
    {SHA : Sha256Lib} {RSA : RsaLib} {HEX : HexLib} {ARGON : Argon2Lib} {PEM : PemLib} {PKCS : Pkcs8Lib}
    {WREQ : Wincode Request} {WRESP : Wincode Response}
    (frac : Z → Z) (show : SocketAddr → string)
    (m : machine) (cfg : Config) (s : SyncedTimeOracleConfig) (c c' : gmap loc Z)
    (ctx : ServerContext) (env : build_env) (file : schema) (p p' : pool) (srv : STSServer) :
  SntpLaws frac →
  config_typed cfg = true → synced_time_oracle cfg = Some s →
  to_server_context m cfg c = Some (Ok (ctx, c')) →
  build_from_context env file ctx c' p = (Done (Ok srv), p') →
  with_instance srv (λ S _ i, ∃ tw, i_time_oracle_worker i = Some tw ∧
    ∀ ms ts (w : world S),
      Forall (spawns tw) ms → tick_results ms = sync_once frac show tw <$> ts →
      run_moves ms (init (i_state i)) = Some w →
      heap (w_state w) = (start_syncing frac show (Ok tt) tw ts c').2 ∧
      (∀ e, (start_syncing frac show (Ok tt) tw ts c').1 = SyncStopped e →
         cancel_token (w_state w) = true) ∧
      ∀ ts1 t ts2 sec sf d en, ts = ts1 ++ t :: ts2 →
        benign t = true → tick_ntp t = Ok (sec, sf) → forallb unanswered ts2 = true →
        i64_min ≤ ntp_instant frac sec sf - tick_local t ≤ i64_max →
        representable (ntp_instant frac sec sf + d) = true →
        en_clock en = tick_local t + d →
        (perform en EvTimeNow (w_state w)).1 = ntp_instant frac sec sf + d).
Proof.
  intros SL Hty Es Hctx Hb. apply build_inv in Hb as (_ & _ & Hi).
  destruct (context_worker m cfg c ctx c' s Hty Hctx Es) as (o & tw & Eo & Hcell & _).
  rewrite Eo in Hi. destruct srv as [i|i]; cbn [with_instance] in *;
    destruct Hi as (_ & _ & _ & _ & Ho & Hw & _ & Hh & _); exists tw;
    (split; [done|]); intros ms ts w Hsp Hts Hrun;
    pose proof (run_spawned frac show ms (init (i_state i)) w tw ts eq_refl Hsp Hrun Hts) as Hr;
    cbn [init w_state] in Hr; rewrite Hh in Hr;
    destruct (start_syncing frac show (Ok tt) tw ts c'); destruct Hr as (H1 & H2 & _);
    (split_and!; [done|done|]); intros;
    (eapply (run_clock frac show (i_state i) tw ms w ts); [by rewrite Ho|eassumption..]).
Qed.

(** An answered tick and a lost one, with a connection in between. *)
Module ToyClock.
Definition en : Effects.env := {|
  en_handshake := Ok tt; en_cancel_first := false; en_next := None; en_send := Ok tt;
  en_faults := []; en_salt := EmptyString; en_clock := 999500000007; en_task_cancelled := false |}.
Definition moves (tw : TimeSyncWorker) : list move :=
  [MoveAccept 9 ToyConn.addr; MoveSpawn (Ok tt) tw;
   MoveTick (sync_once ToyNtp.frac ToyNtp.show tw ToyNtp.tick1); MoveTask 0 en;
   MoveTick (sync_once ToyNtp.frac ToyNtp.show tw ToyNtp.tick_lost)].
Definition run {S} {SI : @Signer Toy.sha Toy.rsa S} (tw : TimeSyncWorker) (st : STSServerState S) :=
  run_moves (SHA := Toy.sha) (HEX := Toy.hex) (ARGON := ToyDb.argon)
    (WREQ := ToyConn.wreq) (WRESP := ToyConn.wresp) (moves tw) (init st).
Definition runs {S} {SI : @Signer Toy.sha Toy.rsa S} (i : @STSServerInstance Toy.rsa ToyMachine.pem S)
    : bool :=
  match i_time_oracle_worker i with
  | Some tw => match run tw (i_state i) with Some _ => true | None => false end
  | None => false
  end.
Definition server_runs : bool :=
  match to_server_context (RSA := Toy.rsa) (PEM := ToyMachine.pem) (PKCS := ToyMachine.pkcs)
          ToyMachine.m (ToyMachine.cfg 10) ∅ with
  | Some (Ok (ctx, c')) =>
      match build_from_context ToyBuild.env [] ctx c' ToyBuild.p0 with
      | (Done (Ok (Accelerated i)), _) => runs (SI := @accelerated_signer Toy.sha Toy.rsa) i
      | (Done (Ok (Slow i)), _) => runs (SI := @slow_signer Toy.sha Toy.rsa) i
      | _ => false
      end
  | _ => false
  end.
Lemma server_runs_ok : server_runs = true.
Proof. vm_compute. reflexivity. Qed.
End ToyClock.

Lemma server_clock_follows_ntp_witness :
  ∃ ctx c' srv p',
    to_server_context (RSA := Toy.rsa) (PEM := ToyMachine.pem) (PKCS := ToyMachine.pkcs)
      ToyMachine.m (ToyMachine.cfg 10) ∅ = Some (Ok (ctx, c')) ∧
    build_from_context ToyBuild.env [] ctx c' ToyBuild.p0 = (Done (Ok srv), p') ∧
    with_instance (SHA := Toy.sha) srv (λ S SI i, ∃ tw w, i_time_oracle_worker i = Some tw ∧
      ToyClock.run (SI := SI) tw (i_state i) = Some w ∧
      (perform (SHA := Toy.sha) (SI := SI) (HEX := Toy.hex) (ARGON := ToyDb.argon) ToyClock.en EvTimeNow
         (w_state w)).1 = 1000500000007).
Proof.
  destruct (ToyBuild.boots_inv 10) as (ctx & c' & srv & p' & Hc & Hb); [vm_compute; reflexivity|].
  exists ctx, c', srv, p'. split_and!; [exact Hc|exact Hb|].
  pose proof (server_clock_follows_ntp (SHA := Toy.sha) (RSA := Toy.rsa) (HEX := Toy.hex)
    (ARGON := ToyDb.argon) (PEM := ToyMachine.pem) (PKCS := ToyMachine.pkcs)
    (WREQ := ToyConn.wreq) (WRESP := ToyConn.wresp) ToyNtp.frac ToyNtp.show
    ToyMachine.m (ToyMachine.cfg 10) _ ∅ c' ctx ToyBuild.env [] ToyBuild.p0 p' srv
    ToyNtp.frac_laws eq_refl eq_refl Hc Hb) as Hi.
  pose proof ToyClock.server_runs_ok as Hk. unfold ToyClock.server_runs in Hk. rewrite Hc, Hb in Hk.
  destruct srv as [i|i]; cbn [with_instance] in *; destruct Hi as (tw & Etw & H);
    unfold ToyClock.runs in Hk; rewrite Etw in Hk;
    (destruct (ToyClock.run tw (i_state i)) as [w|] eqn:Hrun; [|discriminate Hk]);
    exists tw, w; (split_and!; [exact Etw|exact Hrun|]);
    (destruct (H (ToyClock.moves tw) [ToyNtp.tick1; ToyNtp.tick_lost] w) as (_ & _ & Hr);
     [repeat constructor|reflexivity|exact Hrun|]);
    (apply (Hr [] ToyNtp.tick1 [ToyNtp.tick_lost] 1000 2147483648 7 ToyClock.en); try reflexivity;
     vm_compute; done).
Defined.

(** C37: an interval of zero minutes goes unnoticed.  The configuration converts, the
    server builds, and when it runs the worker panics in its task before its first
    tick, without a shutdown: along every interleaving there is no tick and the cells
    stay what they were, so that connections read the local clock although a synchronised
    one was configured. *)
Theorem zero_minutes_go_unnoticed
    {SHA : Sha256Lib} {RSA : RsaLib} {HEX : HexLib} {ARGON : Argon2Lib} {PEM : PemLib} {PKCS : Pkcs8Lib}
    {WREQ : Wincode Request} {WRESP : Wincode Response}
    (m : machine) (cfg : Config) (s : SyncedTimeOracleConfig) (c c' : gmap loc Z)
    (ctx : ServerContext) (env : build_env) (file : schema) (p p' : pool) (srv : STSServer) :
  config_typed cfg = true →
  synced_time_oracle cfg = Some s → so_sync_interval_in_minutes s = 0 →
  to_server_context m cfg c = Some (Ok (ctx, c')) →
  build_from_context env file ctx c' p = (Done (Ok srv), p') →
  with_instance srv (λ S _ i, ∃ tw, i_time_oracle_worker i = Some tw ∧
    (∀ frac show ticks cs,
       start_syncing frac show (Ok tt) tw ticks cs = (SyncPanicked "`period` must be non-zero.", cs)) ∧
    (∀ w : world S, w_worker w = NotSpawned →
       apply_move (MoveSpawn (Ok tt) tw) w = Some (with_worker WorkerEnded w)) ∧
    ∀ ms (w : world S), Forall (spawns tw) ms → run_moves ms (init (i_state i)) = Some w →
      tick_results ms = [] ∧ heap (w_state w) = heap (i_state i) ∧
      ∀ en, (perform en EvTimeNow (w_state w)).1 = en_clock en).
Proof.
  intros Hty Es Hz Hctx Hb. apply build_inv in Hb as (_ & _ & Hi).
  destruct (context_worker m cfg c ctx c' s Hty Hctx Es) as (o & tw & Eo & _ & Hiv).
  destruct (context_facts m cfg c ctx c' Hty Hctx) as (_ & Hl).
  rewrite Eo in Hi, Hl. rewrite Hz in Hiv. cbn [Z.mul] in Hiv.
  destruct srv as [i|i]; cbn [with_instance] in *;
    destruct Hi as (_ & _ & _ & _ & Ho & Hw & _ & Hh & _); exists tw;
    (split; [done|]); (split; [intros; unfold start_syncing; by rewrite Hiv|]);
    (split; [intros w Hn; cbn; rewrite Hn; unfold spawn_worker; by rewrite Hiv|]);
    intros ms w Hsp Hrun;
    (destruct (run_unticked ms (init (i_state i)) w tw eq_refl Hiv Hsp Hrun) as [Ht Hheap]);
    (split_and!; [done|done|]); intros en;
    (eapply run_local_clock; [exact Hiv|unfold oracle_offset; by rewrite Ho, Hh|exact Hsp|exact Hrun]).
Qed.

Lemma zero_minutes_go_unnoticed_witness :
  ∃ ctx c' srv p',
    to_server_context (RSA := Toy.rsa) (PEM := ToyMachine.pem) (PKCS := ToyMachine.pkcs)
      ToyMachine.m (ToyMachine.cfg 0) ∅ = Some (Ok (ctx, c')) ∧
    build_from_context ToyBuild.env [] ctx c' ToyBuild.p0 = (Done (Ok srv), p') ∧
    with_instance (SHA := Toy.sha) srv (λ S _ i, ∃ tw, i_time_oracle_worker i = Some tw ∧
      start_syncing ToyNtp.frac ToyNtp.show (Ok tt) tw [ToyNtp.tick1] ∅ =
        (SyncPanicked "`period` must be non-zero.", ∅)).
Proof.
  destruct (ToyBuild.boots_inv 0) as (ctx & c' & srv & p' & Hc & Hb); [vm_compute; reflexivity|].
  exists ctx, c', srv, p'. split_and!; [exact Hc|exact Hb|].
  pose proof (zero_minutes_go_unnoticed (SHA := Toy.sha) (RSA := Toy.rsa) (HEX := Toy.hex)
    (ARGON := ToyDb.argon) (PEM := ToyMachine.pem) (PKCS := ToyMachine.pkcs)
    (WREQ := ToyConn.wreq) (WRESP := ToyConn.wresp)
    ToyMachine.m (ToyMachine.cfg 0) _ ∅ c' ctx ToyBuild.env [] ToyBuild.p0 p' srv
    eq_refl eq_refl eq_refl Hc Hb) as Hi.
  destruct srv as [i|i]; cbn [with_instance] in *; destruct Hi as (tw & Etw & H & _); exists tw;
    (split; [done|]); apply H.
Defined.
