(* ===== verification/Ca.v ===== *)
(** * Ca: the certification authority and the server's rekeying client

    Models [shared_library/src/ca_protocol.rs], [certification_authority/src/config.rs],
    [certification_authority/src/small_server.rs] and [server/src/rekey.rs]: the
    messages, the listener, the handling of one client, the signing of a request, and
    the client that asks for a new certificate and stores it.  The [rcgen] crate is a
    parameter with the law that a certificate is issued for the key that signed the
    request. *)
From S2P Require Import Prelude Bytes Protocol Sql Database TimeOracle Signer Effects.
From S2P Require Import Path SafeRead Text DatabaseBuilder ServerConfig.

(** ** The protocol *)

Inductive CaRequest := CertificateSign (raw_cert : list byte).
Inductive CaResponse :=
| CaOk (pem_cert : string)
| CanNotSignTheCertificate (reason : string).

#[export] Instance CaRequest_eq_dec : EqDecision CaRequest.
Proof. solve_decision. Defined.
#[export] Instance CaResponse_eq_dec : EqDecision CaResponse.
Proof. solve_decision. Defined.

Definition CA_MAX_ALLOCATION_SIZE : Z := 4 * 1024 * 1024.
Definition CA_BINCODE_CONFIG : Configuration := {|
  cfg_zero_copy_align_check := true;
  cfg_preallocation_limit := CA_MAX_ALLOCATION_SIZE;
  cfg_len_bits := 64;
  cfg_order := BigEndian;
  cfg_ints := FixInt
|}.

(** [impl_network_message!] *)
Definition ca_serialize {T} {W : Wincode T} (m : T) : result (list byte) WriteError :=
  wincode_serialize CA_BINCODE_CONFIG m.
Definition ca_deserialize {T} {W : Wincode T} (bytes : list byte) : result T ReadError :=
  wincode_deserialize CA_BINCODE_CONFIG bytes.

(** ** The [rcgen] crate *)

Inductive DnType := OrganizationName | CommonName.

Class RcgenLib := {
  KeyPair : Type;
  PublicKey : Type;
  Issuer : Type;
  CsrParams : Type;
  CertificateParams : Type;
  public_key : KeyPair → PublicKey;
  cert_public_key : string → option PublicKey;     (* of a PEM certificate *)
  KeyPair_from_pem : string → result KeyPair string;
  Issuer_from_ca_cert_pem : string → KeyPair → result Issuer string;
  CsrParams_from_der : list byte → result CsrParams string;
  signed_by : CsrParams → Issuer → result string string;   (* the PEM of the certificate *)
  CertificateParams_new : list string → result CertificateParams string;
  dn_push : DnType → string → CertificateParams → CertificateParams;
  serialize_request : CertificateParams → KeyPair → result (list byte) string
}.

(** A certificate signed for a request carries the public key of the pair the
    request was made with. *)
Class RcgenLaws {RC : RcgenLib} : Prop := {
  signed_for_requester params kp der csr issuer pem :
    serialize_request params kp = Ok der → CsrParams_from_der der = Ok csr →
    signed_by csr issuer = Ok pem → cert_public_key pem = Some (public_key kp)
}.

(** ** The authority's configuration *)

Record CaKeyConfig := { ck_ca_cert_path : string; ck_ca_key_path : string }.
Record CaConfig := { ca_network : NetworkConfig; ca_keys : CaKeyConfig }.

Record CaContext := { ca_address : SocketAddr; ca_cert_pem : list byte; ca_key_pem : list byte }.

Inductive CaConfigError :=
| TomlNotUtf8 (e : string)
| CaParse (e : string)
| CaConfig_SafeRead (e : SafeReadError).

Inductive CaContextConversionError :=
| Ca_SafeRead (e : SafeReadError)
| InvalidIp (e : string)
| InvalidPort.

Definition ca_from_file (toml_from_str : string → result CaConfig string) (m : machine)
    (path : string) : option (result CaConfig CaConfigError) :=
  run_then CaConfig_SafeRead (read m path TOML_EXT) (λ bytes, Some
    (let? raw_toml := map_err (λ e, TomlNotUtf8 (Utf8Error_fmt e)) (from_utf8 bytes) in
     map_err CaParse (toml_from_str raw_toml))).

Definition convert_to_context (m : machine) (self : CaConfig)
    : option (result CaContext CaContextConversionError) :=
  run_then id (Some (
    let? ip := map_err InvalidIp (m_parse_ip m (nc_ip (ca_network self))) in
    let port := nc_port (ca_network self) in
    if port =? 0 then Err InvalidPort else Ok {| sa_ip := ip; sa_port := port |})) (λ address,
  run_then Ca_SafeRead (read m (ck_ca_cert_path (ca_keys self)) PEM_EXT) (λ cert,
  run_then Ca_SafeRead (read m (ck_ca_key_path (ca_keys self)) PEM_EXT) (λ key,
  Some (Ok {| ca_address := address; ca_cert_pem := cert; ca_key_pem := key |})))).

(** ** The authority *)

Inductive SmallServerRunError := CaBind (e : IoError) | CaAccept (e : IoError).

Inductive ClientHandlingError :=
| CaNetwork (e : IoError)
| CaDecode (e : string)
| CaEncode (e : string)
| KeyNotUtf8 (e : string)
| CertNotUtf8 (e : string)
| CaKey (e : string)
| CaIssuer (e : string)
| Csr (e : string)
| Sign (e : string).

(** [Display for ClientHandlingError] *)
Definition ClientHandlingError_fmt (e : ClientHandlingError) : string :=
  match e with
  | CaNetwork e => ("network/framing error: " +:+ io_text e)%string
  | CaDecode s => ("cannot deserialize CA request: " +:+ s)%string
  | CaEncode s => ("cannot serialize CA response: " +:+ s)%string
  | KeyNotUtf8 s => ("CA key material is not valid UTF-8: " +:+ s)%string
  | CertNotUtf8 s => ("CA certificate is not valid UTF-8: " +:+ s)%string
  | CaKey s => ("cannot parse CA private key: " +:+ s)%string
  | CaIssuer s => ("cannot build CA issuer: " +:+ s)%string
  | Csr s => ("cannot parse certificate signing request: " +:+ s)%string
  | Sign s => ("cannot sign certificate signing request: " +:+ s)%string
  end.

Section Authority.
Context {RC : RcgenLib} {WREQ : Wincode CaRequest} {WRESP : Wincode CaResponse}.

Definition sign_certificate_request (raw_csr : list byte) (context : CaContext)
    : result string ClientHandlingError :=
  let? ca_key_pem := map_err (λ e, KeyNotUtf8 (Utf8Error_fmt e)) (from_utf8 (ca_key_pem context)) in
  let? ca_cert_pem := map_err (λ e, CertNotUtf8 (Utf8Error_fmt e)) (from_utf8 (ca_cert_pem context)) in
  let? ca_key_pair := map_err CaKey (KeyPair_from_pem ca_key_pem) in
  let? ca_issuer := map_err CaIssuer (Issuer_from_ca_cert_pem ca_cert_pem ca_key_pair) in
  let? csr_params := map_err Csr (CsrParams_from_der raw_csr) in
  map_err Sign (signed_by csr_params ca_issuer).

Definition handle_request (request : CaRequest) (context : CaContext) : CaResponse :=
  match request with
  | CertificateSign raw_cert =>
      match sign_certificate_request raw_cert context with
      | Ok pem_cert => CaOk pem_cert
      | Err e => CanNotSignTheCertificate (ClientHandlingError_fmt e)
      end
  end.

(** The frames of one client, each with what sending its answer returns; the frames
    that were sent, and how the handling ended. *)
Fixpoint handle_client (context : CaContext)
    (frames : list (result (list byte) IoError * result unit IoError))
    : list (list byte) * result unit ClientHandlingError :=
  match frames with
  | [] => ([], Ok tt)
  | (frame_result, send_result) :: rest =>
      let answered :=
        let? raw_message := map_err CaNetwork frame_result in
        let? request := map_err CaDecode (ca_deserialize raw_message) in
        let response := handle_request request context in
        let? serialized := map_err CaEncode (ca_serialize response) in
        let? _ := map_err CaNetwork send_result in
        Ok serialized in
      match answered with
      | Err e => ([], Err e)
      | Ok b => let '(out, ended) := handle_client context rest in (b :: out, ended)
      end
  end.

(** What the [select!] of the listener yields. *)
Inductive ca_event :=
| CaAccepted (frames : list (result (list byte) IoError * result unit IoError))
| CaAcceptFailed (e : IoError)
| CaShutdown.

(** The listener: one task per client, until it is told to stop or cannot accept. *)
Fixpoint ca_loop (context : CaContext) (events : list ca_event)
    : list (list (list byte) * result unit ClientHandlingError) * option (result unit SmallServerRunError) :=
  match events with
  | [] => ([], None)
  | CaAccepted frames :: rest =>
      let '(tasks, ended) := ca_loop context rest in (handle_client context frames :: tasks, ended)
  | CaAcceptFailed e :: _ => ([], Some (Err (CaAccept e)))
  | CaShutdown :: _ => ([], Some (Ok tt))
  end.

Definition ca_run (bound : result unit IoError) (context : CaContext) (events : list ca_event)
    : list (list (list byte) * result unit ClientHandlingError) * option (result unit SmallServerRunError) :=
  match bound with
  | Err e => ([], Some (Err (CaBind e)))
  | Ok _ => ca_loop context events
  end.
End Authority.

(** ** The rekeying client *)

Inductive RekeyClientError :=
| InvalidCaAddress
| RekeyInvalidIp
| InvalidName
| RekeyIo (e : IoError).

Inductive SignRequestError :=
| CACertificateCreation (e : string)
| SignIo (e : IoError)
| SignNetwork (e : string)
| Serialization (e : string)
| Deserialization (e : string)
| ConnectionClosed
| Refused (reason : string)
| UnexpectedResponse.

Inductive RekeyClientManagerError :=
| Manager_RekeyClient (e : RekeyClientError)
| Manager_SignRequest (e : SignRequestError).

(** Files by path, and what writing one returns. *)
Record file_store := {
  st_files : gmap string string;
  st_write : string → result unit IoError
}.

Definition store_write (path content : string) (fs : file_store) : result unit IoError * file_store :=
  match st_write fs path with
  | Err e => (Err e, fs)
  | Ok _ => (Ok tt, {| st_files := <[path := content]> (st_files fs); st_write := st_write fs |})
  end.

Record RekeyClient := {
  server_ip : IpAddr;
  organization_name : string;
  server_name : string;
  output : string;
  stream : peer
}.

Definition RekeyClient_new (connect : SocketAddr → result peer IoError) (server_ip : IpAddr)
    (organization_name server_name output : string) (address : SocketAddr)
    : result RekeyClient RekeyClientError :=
  let? stream := map_err RekeyIo (connect address) in
  Ok {| server_ip := server_ip; organization_name := organization_name;
        server_name := server_name; output := output; stream := stream |}.

Section Rekey.
Context {RC : RcgenLib} {WREQ : Wincode CaRequest} {WRESP : Wincode CaResponse}.

(** The request for a key pair. *)
Definition certificate_request (self : RekeyClient) (kp : KeyPair) : result (list byte) SignRequestError :=
  let? params := map_err CACertificateCreation (CertificateParams_new [server_ip self]) in
  let params := dn_push OrganizationName (organization_name self) params in
  let params := dn_push CommonName (server_name self) params in
  map_err CACertificateCreation (serialize_request params kp).

(** The exchange: the response of the authority. *)
Definition exchange (s : peer) (request : CaRequest) : result CaResponse SignRequestError :=
  let? serialized_req := map_err Serialization (ca_serialize request) in
  let? _ := map_err (λ e, SignNetwork (io_text e)) (peer_send s serialized_req) in
  match peer_next s serialized_req with
  | None => Err ConnectionClosed
  | Some response_result =>
      let? raw_frame := map_err (λ e, SignNetwork (io_text e)) response_result in
      map_err Deserialization (ca_deserialize raw_frame)
  end.

(** [generated] is what the generation of a key pair returns. *)
Definition new_cert_sign_request (self : RekeyClient) (generated : result KeyPair string)
    (fs : file_store) : result unit SignRequestError * file_store :=
  match (let? kp := map_err CACertificateCreation generated in
         let? raw_cert := certificate_request self kp in
         exchange (stream self) (CertificateSign raw_cert)) with
  | Err e => (Err e, fs)
  | Ok (CaOk pem_cert) =>
      let '(r, fs') := store_write (output self) pem_cert fs in (map_err SignIo r, fs')
  | Ok (CanNotSignTheCertificate reason) => (Err (Refused reason), fs)
  end.

Definition rekey (connect : SocketAddr → result peer IoError) (ip : IpAddr)
    (organization name out : string) (address : SocketAddr) (generated : result KeyPair string)
    (fs : file_store) : result unit RekeyClientManagerError * file_store :=
  match RekeyClient_new connect ip organization name out address with
  | Err e => (Err (Manager_RekeyClient e), fs)
  | Ok instance =>
      let '(r, fs') := new_cert_sign_request instance generated fs in
      (map_err Manager_SignRequest r, fs')
  end.

(** An authority at the other end of the connection. *)
Definition ca_peer (context : CaContext) : peer := {|
  peer_send := λ _, Ok tt;
  peer_next := λ frame, Ok <$> head (handle_client context [(Ok frame, Ok tt)]).1
|}.
End Rekey.

(** ** Properties *)

Section AuthorityFacts.
Context {RC : RcgenLib} {WREQ : Wincode CaRequest} {WRESP : Wincode CaResponse}.

(** A request that was serialized, with the answer it gets. *)
Definition answered (context : CaContext) (frame out : list byte) : Prop :=
  ∃ req, ca_deserialize frame = Ok req ∧ ca_serialize (handle_request req context) = Ok out.

Lemma handle_client_app context good outs rest :
  Forall2 (answered context) good outs →
  handle_client context (((λ b, (Ok b, Ok tt)) <$> good) ++ rest) =
    let '(out, ended) := handle_client context rest in (outs ++ out, ended).
Proof.
  induction 1 as [|b o good outs (req & Hd & Hs) _ IH]; cbn [fmap list_fmap app].
  { by destruct (handle_client context rest). }
  cbn [handle_client map_err and_then]. rewrite Hd. cbn [map_err and_then]. rewrite Hs.
  cbn [map_err and_then]. rewrite IH. by destruct (handle_client context rest).
Qed.
End AuthorityFacts.

(** The authority answers a client's requests one by one, in order, each with
    the certificate or the reason of its refusal; the first frame that cannot be
    read or decoded ends the connection, after the answers to the frames before it
    and without a look at those behind it. *)
Theorem authority_answers_in_order {RC : RcgenLib} {WREQ : Wincode CaRequest}
    {WRESP : Wincode CaResponse} (context : CaContext) (good outs : list (list byte)) :
  Forall2 (answered context) good outs →
  let sent := (λ b, (Ok b, Ok tt)) <$> good in
  handle_client context sent = (outs, Ok tt) ∧
  (∀ b e s rest, ca_deserialize (T := CaRequest) b = Err e →
     handle_client context (sent ++ (Ok b, s) :: rest) = (outs, Err (CaDecode e))) ∧
  (∀ e s rest, handle_client context (sent ++ (Err e, s) :: rest) = (outs, Err (CaNetwork e))).
Proof.
  intros H sent. unfold sent. split_and!.
  - rewrite <- (app_nil_r (_ <$> good)), (handle_client_app context good outs []) by done.
    cbn. by rewrite app_nil_r.
  - intros b e s rest Hb. rewrite (handle_client_app context good outs) by done.
    cbn. rewrite Hb. cbn. by rewrite app_nil_r.
  - intros e s rest. rewrite (handle_client_app context good outs) by done.
    cbn. by rewrite app_nil_r.
Qed.

(** The client's exchange with an authority is the handling of its request. *)
Lemma exchange_ca {RC : RcgenLib} {WREQ : Wincode CaRequest} {WRESP : Wincode CaResponse}
    {LREQ : WincodeLaws CaRequest} {LRESP : WincodeLaws CaResponse} context req :
  is_ok (ca_serialize req) = true → is_ok (ca_serialize (handle_request req context)) = true →
  exchange (ca_peer context) req = Ok (handle_request req context).
Proof.
  unfold exchange. destruct (ca_serialize req) as [b|] eqn:Eb; [|done].
  destruct (ca_serialize (handle_request req context)) as [b'|] eqn:Eb'; [|done]. intros _ _.
  cbn [map_err and_then ca_peer peer_send peer_next handle_client].
  assert (ca_deserialize b = Ok req) as -> by by eapply wincode_roundtrip.
  cbn [map_err and_then]. rewrite Eb'. cbn.
  assert (ca_deserialize b' = Ok (handle_request req context)) as -> by by eapply wincode_roundtrip.
  done.
Qed.

(** C25: rekeying against the authority.  With a key pair and messages that
    serialize, the client ends as the authority decides: either the certificate it
    issued, for the public key of that pair, is what the output file then holds, or
    the client reports the reason of the refusal.  No other file changes on any
    branch; in particular the private key of the pair is stored nowhere. *)
Theorem rekey_with_authority {RC : RcgenLib} {RCL : RcgenLaws} {WREQ : Wincode CaRequest}
    {WRESP : Wincode CaResponse} {LREQ : WincodeLaws CaRequest} {LRESP : WincodeLaws CaResponse}
    (connect : SocketAddr → result peer IoError) (context : CaContext) (ip : IpAddr)
    (org name out : string) (address : SocketAddr) (kp : KeyPair) (der : list byte) (fs : file_store) :
  connect address = Ok (ca_peer context) →
  certificate_request {| server_ip := ip; organization_name := org; server_name := name;
                         output := out; stream := ca_peer context |} kp = Ok der →
  is_ok (ca_serialize (CertificateSign der)) = true →
  is_ok (ca_serialize (handle_request (CertificateSign der) context)) = true →
  match sign_certificate_request der context with
  | Ok pem =>
      cert_public_key pem = Some (public_key kp) ∧
      rekey connect ip org name out address (Ok kp) fs =
        match st_write fs out with
        | Ok _ => (Ok tt, {| st_files := <[out := pem]> (st_files fs); st_write := st_write fs |})
        | Err e => (Err (Manager_SignRequest (SignIo e)), fs)
        end
  | Err e =>
      rekey connect ip org name out address (Ok kp) fs =
        (Err (Manager_SignRequest (Refused (ClientHandlingError_fmt e))), fs)
  end.
Proof.
  intros Hc Hr Hs1 Hs2. unfold rekey, RekeyClient_new. rewrite Hc. cbn [map_err and_then].
  unfold new_cert_sign_request. cbn [map_err and_then]. rewrite Hr. cbn [and_then stream output].
  rewrite exchange_ca by done. unfold handle_request.
  destruct (sign_certificate_request der context) as [pem|e] eqn:Es; [|done].
  split.
  - unfold certificate_request in Hr. apply and_then_ok in Hr as (params & _ & Hr%map_err_ok).
    unfold sign_certificate_request in Es.
    do 5 apply and_then_ok in Es as (? & ?%map_err_ok & Es). apply map_err_ok in Es.
    by eapply signed_for_requester.
  - unfold store_write. by destruct (st_write fs out).
Qed.

(** A certificate is the text of the key it is for. *)
Module ToyCa.
Definition rcgen : RcgenLib := {|
  KeyPair := string; PublicKey := string; Issuer := unit; CsrParams := string;
  CertificateParams := unit; public_key := id; cert_public_key := Some;
  KeyPair_from_pem := Ok; Issuer_from_ca_cert_pem := λ _ _, Ok tt;
  CsrParams_from_der := λ b, match b with
                             | [x01] => Ok "key"%string | _ => Err "bad request"%string end;
  signed_by := λ k _, Ok k; CertificateParams_new := λ _, Ok tt; dn_push := λ _ _ p, p;
  serialize_request := λ _ k, if decide (k = "key"%string) then Ok [x01] else Err "bad key"%string |}.

#[export] Instance rcgen_laws : @RcgenLaws rcgen.
Proof.
  constructor. cbn. intros params kp der csr issuer pem H1 H2 H3. case_decide; by simplify_eq.
Qed.

(** A one-byte tag in front of the payload. *)
Definition wreq : Wincode CaRequest := {|
  wincode_serialize := λ _ '(CertificateSign b), Ok (x10 :: b);
  wincode_deserialize := λ _ l, match l with
    | x10 :: b => Ok (CertificateSign b) | _ => Err "bad tag"%string end |}.
Definition wresp : Wincode CaResponse := {|
  wincode_serialize := λ _ r, match r with
    | CaOk s => Ok (x20 :: String.list_byte_of_string s)
    | CanNotSignTheCertificate s => Ok (x21 :: String.list_byte_of_string s) end;
  wincode_deserialize := λ _ l, match l with
    | x20 :: b => Ok (CaOk (String.string_of_list_byte b))
    | x21 :: b => Ok (CanNotSignTheCertificate (String.string_of_list_byte b))
    | _ => Err "bad tag"%string end |}.

#[export] Instance wreq_laws : @WincodeLaws CaRequest wreq.
Proof. constructor. intros c [b] l [= <-]. done. Qed.
#[export] Instance wresp_laws : @WincodeLaws CaResponse wresp.
Proof.
  constructor. intros c [s|s] l [= <-]; cbn; by rewrite String.string_of_list_byte_of_string.
Qed.

Definition addr : SocketAddr := {| sa_ip := "127.0.0.1"%string; sa_port := 8081 |}.
Definition context : CaContext := {| ca_address := addr; ca_cert_pem := [x61]; ca_key_pem := [x62] |}.
Definition fs : file_store := {| st_files := ∅; st_write := λ _, Ok tt |}.
End ToyCa.

Lemma authority_answers_in_order_witness :
  handle_client (RC := ToyCa.rcgen) (WREQ := ToyCa.wreq) (WRESP := ToyCa.wresp) ToyCa.context
    [(Ok [x10; x01], Ok tt); (Ok [x99], Ok tt)] =
    ([x20 :: String.list_byte_of_string "key"], Err (CaDecode "bad tag")).
Proof.
  destruct (authority_answers_in_order (RC := ToyCa.rcgen) (WREQ := ToyCa.wreq)
    (WRESP := ToyCa.wresp) ToyCa.context [[x10; x01]] [x20 :: String.list_byte_of_string "key"])
    as (_ & H & _).
  { repeat constructor. exists (CertificateSign [x01]). split; vm_compute; reflexivity. }
  apply (H [x99] "bad tag"%string (Ok tt) []). reflexivity.
Defined.

Lemma rekey_with_authority_witness :
  rekey (RC := ToyCa.rcgen) (WREQ := ToyCa.wreq) (WRESP := ToyCa.wresp)
    (λ _, Ok (ca_peer (RC := ToyCa.rcgen) (WREQ := ToyCa.wreq) (WRESP := ToyCa.wresp) ToyCa.context))
    "127.0.0.1"%string "STSS"%string "server"%string "cert.pem"%string ToyCa.addr
    (Ok ("key"%string : @KeyPair ToyCa.rcgen)) ToyCa.fs =
  (Ok tt, {| st_files := <["cert.pem" := "key"]> (st_files ToyCa.fs); st_write := st_write ToyCa.fs |})%string.
Proof.
  pose proof (rekey_with_authority (RC := ToyCa.rcgen) (RCL := ToyCa.rcgen_laws)
    (WREQ := ToyCa.wreq) (WRESP := ToyCa.wresp) (LREQ := ToyCa.wreq_laws) (LRESP := ToyCa.wresp_laws)
    (λ _, Ok (ca_peer (RC := ToyCa.rcgen) (WREQ := ToyCa.wreq) (WRESP := ToyCa.wresp) ToyCa.context))
    ToyCa.context "127.0.0.1"%string "STSS"%string "server"%string "cert.pem"%string ToyCa.addr
    ("key"%string : @KeyPair ToyCa.rcgen) [x01] ToyCa.fs eq_refl eq_refl eq_refl eq_refl) as [_ H].
  exact H.
Defined.
