(* ===== verification/Client.v ===== *)
(** * Client: the client library and its configuration

    Models [client_core/src/client.rs] and [client_cli/src/config.rs]: the context a
    client is configured with, the connection, and the requests, each one frame sent
    and one frame awaited. *)
From S2P Require Import Prelude Bytes Protocol Sql Database TimeOracle Signer Effects.
From S2P Require Import Path SafeRead Text DatabaseBuilder ServerConfig.

(** ** The configuration *)

Record TimestampConfig := {
  tc_server_ip : string;
  tc_server_port : Z;
  tc_server_certificate_name : string;
  tc_trust_roots_certificates : bool
}.
Record ClientKeyConfig := { cc_ca_cert_path : string; cc_server_rsa_public_key_path : string }.
Record ClientConfig := { cl_timestamp : TimestampConfig; cl_keys : ClientKeyConfig }.

Inductive ClientConfigError :=
| Cl_TomlNotInUtf8 (e : string)
| Cl_Parse (e : string)
| Cl_SafeRead (e : SafeReadError)
| Cl_UnreliablePort.

Inductive ContextConversionError :=
| Ctx_SafeRead (e : SafeReadError)
| Ctx_IpParse (e : string)
| Ctx_UnreliablePort
| Ctx_CertificateParse (e : string)
| PublicKeyNotInUtf8
| PublicKeyParse (e : string).

Record ClientContext {RSA : RsaLib} {PEM : PemLib} := {
  x_server_address : SocketAddr;
  x_server_certificate_name : string;
  x_ca_cert : list CertificateDer;
  x_server_rsa_public_key : RsaPublicKey;
  x_trust_roots_cert : bool
}.

Section Conversion.
Context {RSA : RsaLib} {PEM : PemLib} {PKCS : Pkcs8Lib}.

Definition client_from_file (toml_from_str : string → result ClientConfig string) (m : machine)
    (path : string) : option (result ClientConfig ClientConfigError) :=
  run_then Cl_SafeRead (read m path TOML_EXT) (λ bytes, Some
    (let? raw_toml := map_err (λ e, Cl_TomlNotInUtf8 (Utf8Error_fmt e)) (from_utf8 bytes) in
     map_err Cl_Parse (toml_from_str raw_toml))).

Definition to_client_context (m : machine) (self : ClientConfig)
    : option (result ClientContext ContextConversionError) :=
  run_then id (Some (
    let? ip := map_err Ctx_IpParse (m_parse_ip m (tc_server_ip (cl_timestamp self))) in
    let port := tc_server_port (cl_timestamp self) in
    if port =? 0 then Err Ctx_UnreliablePort else Ok {| sa_ip := ip; sa_port := port |}))
    (λ server_address,
  run_then Ctx_SafeRead (read m (cc_ca_cert_path (cl_keys self)) PEM_EXT) (λ ca_cert_bytes,
  run_then id (Some (collect (map_err Ctx_CertificateParse <$> pem_certs ca_cert_bytes)))
    (λ ca_certs,
  run_then Ctx_SafeRead (read m (cc_server_rsa_public_key_path (cl_keys self)) PEM_EXT)
    (λ key_bytes,
  Some (
    let? key_str := map_err (λ _, PublicKeyNotInUtf8) (from_utf8 key_bytes) in
    let? key := map_err PublicKeyParse (from_public_key_pem key_str) in
    Ok {| x_server_address := server_address;
          x_server_certificate_name := tc_server_certificate_name (cl_timestamp self);
          x_ca_cert := ca_certs;
          x_server_rsa_public_key := key;
          x_trust_roots_cert := tc_trust_roots_certificates (cl_timestamp self) |}))))).
End Conversion.

(** ** The client *)

Inductive ClientError :=
| Client_Io (e : IoError)
| Client_Tls (e : string)
| InvalidServerName (name : string)
| InvalidCaCertificate (e : string)
| EmptyCaCertificate
| ServerClosedConnection
| Client_Hex (e : FromHexError)
| InvalidHashLength (n : Z)
| Client_UnexpectedResponse (r : Response)
| InvalidDnsName (name : string)
| Client_Serialize (e : SerializeError)
| Client_Deserialize (e : DeserializeError).

Record STSSClient {RSA : RsaLib} := { server_rsa_public_key : RsaPublicKey }.

(** What the TLS crates and the network answer while a client connects. *)
Record connect_env {PEM : PemLib} := {
  ce_valid_name : string → bool;
  ce_parsable : CertificateDer → bool;
  ce_webpki_roots : list CertificateDer;
  ce_tcp : SocketAddr → result unit IoError;
  ce_tls : list CertificateDer → string → result peer IoError
}.

Section Client.
Context {RSA : RsaLib} {PEM : PemLib}.

(** The trusted certificates: those of the configured file that parse, and the
    public ones only when the configuration says so. *)
Definition root_cert_store (env : connect_env) (ctx : ClientContext) : list CertificateDer :=
  List.filter (ce_parsable env) (x_ca_cert ctx)
    ++ if x_trust_roots_cert ctx then ce_webpki_roots env else [].

Definition connect_from_context (env : connect_env) (ctx : ClientContext)
    : result (STSSClient * peer) ClientError :=
  let name := x_server_certificate_name ctx in
  let? _ := if ce_valid_name env name then Ok tt else Err (InvalidDnsName name) in
  let? _ := map_err Client_Io (ce_tcp env (x_server_address ctx)) in
  let? stream := map_err Client_Io (ce_tls env (root_cert_store env ctx) name) in
  Ok ({| server_rsa_public_key := x_server_rsa_public_key ctx |}, stream).
End Client.

Section Requests.
Context {WREQ : Wincode Request} {WRESP : Wincode Response}.

Definition send_request (stream : peer) (request : Request) : result Response ClientError :=
  let? serialized_request := map_err Client_Serialize (serialize request) in
  let? _ := map_err Client_Io (peer_send stream serialized_request) in
  let? next := ok_or (peer_next stream serialized_request) ServerClosedConnection in
  let? raw_response := map_err Client_Io next in
  map_err Client_Deserialize (deserialize raw_response).

Definition login (stream : peer) (username password : string) : result Response ClientError :=
  send_request stream (Login username password).
Definition signup (stream : peer) (username password : string) : result Response ClientError :=
  send_request stream (SignUp username password).
Definition logout (stream : peer) : result Response ClientError := send_request stream LogOut.
Definition how_many_tokens (stream : peer) : result Response ClientError :=
  send_request stream HowManyTokensDoIHave.
Definition purchase_tokens (stream : peer) (amount : Z) : result Response ClientError :=
  send_request stream (PurchaseTokens amount).
Definition timestamp_hash (stream : peer) (hash : Sha256Hash) : result Response ClientError :=
  send_request stream (SignHash hash).
Definition history (stream : peer) : result Response ClientError := send_request stream History.
End Requests.
