(* ===== verification/Menu.v ===== *)
(** * Menu: the command line of the client

    Models the interactive loop of [client_cli/src/main.rs]: the menu that depends on
    whether the client thinks it is logged in, the prompts, the requests, the files
    it creates and reads, and what it tells the user.  One [turn] is one iteration;
    what the user types and what the system answers are its inputs. *)
From stdpp Require Import pretty.
From S2P Require Import Prelude Bytes Protocol Sql Database TimeOracle Signer Effects.
From S2P Require Import Path SafeRead Text DatabaseBuilder ServerConfig Client.

Definition validate_credentials_length (username password : string) : bool :=
  if negb (is_username_length_valid username) then false
  else if negb (is_password_length_valid password) then false
  else true.

(** The [chrono] crate. *)
Class ChronoLib := {
  DateTime : Type;
  from_timestamp : Z → Z → option DateTime;     (* seconds and nanoseconds *)
  format : string → DateTime → string
}.

(** A date has a year of at most 262142, so no instant has more seconds than its
    last one ([DateTime::<Utc>::MAX_UTC]). *)
Definition CHRONO_MAX_SECONDS : Z := 8210266876799.
Class ChronoLaws {CH : ChronoLib} : Prop := {
  from_timestamp_bounded s n : CHRONO_MAX_SECONDS < s → from_timestamp s n = None
}.

Section Display.
Context {CH : ChronoLib} {HEX : HexLib}.

Definition timestamp_format (ts : Timestamp) : string :=
  let total_nanos := Timestamp_get ts in
  let ts_seconds := as_i64 (total_nanos / NANOS_PER_SEC) in
  let ts_nanos := as_u32 (total_nanos mod NANOS_PER_SEC) in
  match from_timestamp ts_seconds ts_nanos with
  | Some datetime => format "%Y-%m-%d %H:%M:%S.%f" datetime
  | None => ("invalid Epoch: " +:+ pretty ts_seconds +:+ "s " +:+ pretty ts_nanos +:+ "ns")%string
  end.

(** The time column of a history record. *)
Definition history_time (record : HistoryRecord) : string :=
  let ts_seconds := default 0 (checked_i64 (Timestamp_get (HistoryRecord_timestamp record))) in
  match from_timestamp ts_seconds 0 with
  | Some dt => format "%Y-%m-%d %H:%M:%S" dt
  | None => ("Invalid Epoch: " +:+ pretty ts_seconds)%string
  end.

Definition short_signature (record : HistoryRecord) : string :=
  let sig_hex := hex_encode (RsaSignature_as_bytes (HistoryRecord_hash record)) in
  (String.substring 0 8 sig_hex +:+ "..."
     +:+ String.substring (String.length sig_hex - 8) 8 sig_hex)%string.
End Display.

(** ** The menu *)

Definition menu_options (is_logged_in : bool) : list string :=
  (if is_logged_in
   then ["Check Tokens"; "Buy Tokens"; "Hash a File"; "History"; "Logout"]
   else ["Login"; "Signup"]) ++ ["Verify a Hash"; "Exit"]%string.

(** What the program prints. *)
Inductive line :=
| LoginSuccessful
| SignupComplete
| LogoutSuccessful
| YouOwn (count : Z)
| PurchaseComplete (total : Z)
| Complain (r : Response)             (* an answer the arm expects but cannot use *)
| UnexpectedAnswer (r : Response)
| ClientFailed (e : ClientError)
| CredentialsTooLong
| OperationCancelled
| InvalidHashFormat
| InvalidSignatureLength
| SignatureReadError (e : string)
| SignatureValid
| SignatureInvalid
| OutputNotCreated (path e : string)
| FileNotHashed (e : SafeReadError)
| SignedAt (hash : Sha256Hash) (time : string) (timestamp : Timestamp)
| SignatureDumped (e : string) (sign : RsaSignature)
| SignatureSaved
| LocalVerificationPassed
| LocalVerificationFailed (e : RsaError)
| NoHistoryYet
| HistoryHeader (n : nat)
| HistoryLine (time signature : string)
| Closing.

(** One iteration: the choice and the answers to the prompts ([None] when the user
    cancels), the server at the other end, and what the file system does: the file
    to hash as it is read, whether the output can be created, how many bytes of the
    signature one write takes, and whether a signature file can be opened. *)
Record turn := {
  t_choice : option string;
  t_text1 : option string;
  t_text2 : option string;
  t_number : option Z;
  t_peer : peer;
  t_os : string → os_file;
  t_create : result unit string;
  t_write : result nat string;
  t_read : result unit string
}.

Record cli := {
  is_logged_in : bool;
  cli_files : gmap string (list byte);      (* the files the program writes and reads back *)
  cli_sent : list (bool * Request);         (* the requests, and the flag they were sent under *)
  cli_lines : list line
}.

Definition say (l : line) (s : cli) : cli :=
  {| is_logged_in := is_logged_in s; cli_files := cli_files s; cli_sent := cli_sent s;
     cli_lines := cli_lines s ++ [l] |}.
Definition set_logged (b : bool) (s : cli) : cli :=
  {| is_logged_in := b; cli_files := cli_files s; cli_sent := cli_sent s; cli_lines := cli_lines s |}.
Definition note_sent (r : Request) (s : cli) : cli :=
  {| is_logged_in := is_logged_in s; cli_files := cli_files s;
     cli_sent := cli_sent s ++ [(is_logged_in s, r)]; cli_lines := cli_lines s |}.
Definition write_file (path : string) (bytes : list byte) (s : cli) : cli :=
  {| is_logged_in := is_logged_in s; cli_files := <[path := bytes]> (cli_files s);
     cli_sent := cli_sent s; cli_lines := cli_lines s |}.

Section Menu.
Context {SHA : Sha256Lib} {RSA : RsaLib} {HEX : HexLib} {CH : ChronoLib}.
Context {WREQ : Wincode Request} {WRESP : Wincode Response}.
Context (client : STSSClient).
(** A path without the quotes and the white space around it ([trim_matches] and
    [trim]). *)
Context (clean : string → string).

(** The common tail of the arms: an answer the arm does not use. *)
Definition other_answer (known : Response → bool) (r : result Response ClientError) (s : cli) : cli :=
  match r with
  | Ok r => if known r then say (Complain r) s else say (UnexpectedAnswer r) s
  | Err e => say (ClientFailed e) s
  end.

Definition login_choice (t : turn) (s : cli) : cli :=
  match t_text1 t, t_text2 t with
  | Some u, Some p =>
      if negb (validate_credentials_length u p) then say CredentialsTooLong s
      else
        let s := note_sent (Login u p) s in
        match login (t_peer t) u p with
        | Ok RespOk => set_logged true (say LoginSuccessful s)
        | r => other_answer (λ r, match r with LoginFailed _ | OperationError _ => true
                                          | _ => false end) r s
        end
  | _, _ => say OperationCancelled s
  end.

Definition signup_choice (t : turn) (s : cli) : cli :=
  match t_text1 t, t_text2 t with
  | Some u, Some p =>
      if negb (validate_credentials_length u p) then say CredentialsTooLong s
      else
        let s := note_sent (SignUp u p) s in
        match signup (t_peer t) u p with
        | Ok RespOk => say SignupComplete s
        | r => other_answer (λ r, match r with SignInFailed _ | OperationError _ => true
                                          | _ => false end) r s
        end
  | _, _ => say OperationCancelled s
  end.

Definition logout_choice (t : turn) (s : cli) : cli :=
  let s := note_sent LogOut s in
  match logout (t_peer t) with
  | Ok RespOk => set_logged false (say LogoutSuccessful s)
  | r => other_answer (λ r, match r with NotLoggedIn | OperationError _ => true | _ => false end) r s
  end.

Definition check_tokens_choice (t : turn) (s : cli) : cli :=
  let s := note_sent HowManyTokensDoIHave s in
  match how_many_tokens (t_peer t) with
  | Ok (TokenCount count) => say (YouOwn count) s
  | r => other_answer (λ r, match r with NotLoggedIn | OperationError _ => true | _ => false end) r s
  end.

Definition buy_tokens_choice (t : turn) (s : cli) : cli :=
  match t_number t with
  | Some amount =>
      let s := note_sent (PurchaseTokens amount) s in
      match purchase_tokens (t_peer t) amount with
      | Ok (TokenCount total) => say (PurchaseComplete total) s
      | r => other_answer (λ r, match r with TokenAmountTooHigh | NotLoggedIn | OperationError _ => true
                                        | _ => false end) r s
      end
  | None => say OperationCancelled s
  end.

(** [fs::read]: the path may not exist, and the system may refuse it. *)
Definition read_signature (t : turn) (path : string) (s : cli) : result (list byte) string :=
  let? bytes := ok_or (cli_files s !! path) "No such file or directory (os error 2)"%string in
  let? _ := t_read t in Ok bytes.

Definition verify_choice (t : turn) (s : cli) : cli :=
  match t_text1 t, t_text2 t, t_number t with
  | Some h_raw, Some p_raw, Some ts_raw =>
      match Sha256Hash_from_str h_raw with
      | Err _ => say InvalidHashFormat s
      | Ok hash =>
          match read_signature t (clean p_raw) s with
          | Err e => say (SignatureReadError e) s
          | Ok raw_sign =>
              match RsaSignature_try_from raw_sign with
              | Err _ => say InvalidSignatureLength s
              | Ok sign =>
                  match verify_timestamp_signature (server_rsa_public_key client) hash
                          (Timestamp_new ts_raw) sign with
                  | Ok _ => say SignatureValid s
                  | Err _ => say SignatureInvalid s
                  end
              end
          end
      end
  | _, _, _ => say OperationCancelled s
  end.

(** The receipt of a file: one [write] to the new file, and the local check. *)
Definition keep_receipt (t : turn) (output_path : string) (hash_result hash : Sha256Hash)
    (sign : RsaSignature) (timestamp : Timestamp) (s : cli) : cli :=
  let s := say (SignedAt hash (timestamp_format timestamp) timestamp) s in
  let s := match t_write t with
           | Err write_err => say (SignatureDumped write_err sign) s
           | Ok n => say SignatureSaved
                       (write_file output_path (take n (RsaSignature_as_ref sign)) s)
           end in
  match verify_timestamp_signature (server_rsa_public_key client) hash_result timestamp sign with
  | Ok _ => say LocalVerificationPassed s
  | Err e => say (LocalVerificationFailed e) s
  end.

(** [create_new] refuses a path that exists.  [None] when the reader of the file
    runs out of its bound, which it does not. *)
Definition hash_choice (t : turn) (s : cli) : option cli :=
  match t_text1 t, t_text2 t with
  | Some f_raw, Some o_raw =>
      let output_path := clean o_raw in
      match (match cli_files s !! output_path with
             | Some _ => Err "File exists (os error 17)"%string
             | None => t_create t
             end) with
      | Err e => Some (say (OutputNotCreated output_path e) s)
      | Ok _ =>
          let s := write_file output_path [] s in
          hashed ← hash_file (t_os t) (clean f_raw) None;
          match hashed with
          | Err e => Some (say (FileNotHashed e) s)
          | Ok hash_result =>
              let s := note_sent (SignHash hash_result) s in
              Some match timestamp_hash (t_peer t) hash_result with
              | Ok (Token hash sign timestamp) =>
                  keep_receipt t output_path hash_result hash sign timestamp s
              | r => other_answer (λ r, match r with NotEnoughTokens | NotLoggedIn
                                                   | OperationError _ => true | _ => false end) r s
              end
          end
      end
  | _, _ => Some (say OperationCancelled s)
  end.

Definition history_choice (t : turn) (s : cli) : cli :=
  let s := note_sent History s in
  match history (t_peer t) with
  | Ok (RespHistory records) =>
      match records with
      | [] => say NoHistoryYet s
      | _ => foldl (λ s r, say (HistoryLine (history_time r) (short_signature r)) s)
               (say (HistoryHeader (length records)) s) records
      end
  | Ok unexpected => say (UnexpectedAnswer unexpected) s
  | Err e => say (ClientFailed e) s
  end.

(** One iteration; [true] when the loop goes on. *)
Definition menu_turn (t : turn) (s : cli) : option (cli * bool) :=
  match t_choice t with
  | None => Some (say Closing s, false)
  | Some choice =>
      if decide (choice = "Login"%string) then Some (login_choice t s, true)
      else if decide (choice = "Signup"%string) then Some (signup_choice t s, true)
      else if decide (choice = "Logout"%string) then Some (logout_choice t s, true)
      else if decide (choice = "Check Tokens"%string) then Some (check_tokens_choice t s, true)
      else if decide (choice = "Buy Tokens"%string) then Some (buy_tokens_choice t s, true)
      else if decide (choice = "Verify a Hash"%string) then Some (verify_choice t s, true)
      else if decide (choice = "Hash a File"%string) then s' ← hash_choice t s; Some (s', true)
      else if decide (choice = "History"%string) then Some (history_choice t s, true)
      else if decide (choice = "Exit"%string) then Some (say Closing s, false)
      else Some (s, true)
  end.

Fixpoint menu_loop (ts : list turn) (s : cli) : option cli :=
  match ts with
  | [] => Some s
  | t :: ts =>
      match menu_turn t s with
      | None => None
      | Some (s', true) => menu_loop ts s'
      | Some (s', false) => Some s'
      end
  end.
End Menu.

(** ** Properties *)

Section MenuFacts.
Context {SHA : Sha256Lib} {RSA : RsaLib} {HEX : HexLib} {CH : ChronoLib}.
Context {WREQ : Wincode Request} {WRESP : Wincode Response}.
Context (client : STSSClient) (clean : string → string).

(** The requests the menu may send: by the flag, and with credentials of valid
    length. *)
Definition allowed (e : bool * Request) : bool :=
  match e with
  | (logged, Login u p) | (logged, SignUp u p) =>
      negb logged && is_username_length_valid u && is_password_length_valid p
  | (logged, _) => logged
  end.

(** A turn of a user who picks one of the options on the screen. *)
Definition picks_option (s : cli) (t : turn) : Prop :=
  match t_choice t with Some c => c ∈ menu_options (is_logged_in s) | None => True end.

(** Every turn of a run picks from the menu of that moment. *)
Fixpoint run_picks (ts : list turn) (s : cli) : Prop :=
  match ts with
  | [] => True
  | t :: ts => picks_option s t ∧
      match menu_turn client clean t s with Some (s', true) => run_picks ts s' | _ => True end
  end.

Lemma validate_ok u p :
  negb (validate_credentials_length u p) = false →
  is_username_length_valid u = true ∧ is_password_length_valid p = true.
Proof.
  unfold validate_credentials_length.
  destruct (is_username_length_valid u), (is_password_length_valid p); done.
Qed.

Lemma sent_say l s : cli_sent (say l s) = cli_sent s.
Proof. done. Qed.
Lemma sent_other known r s : cli_sent (other_answer known r s) = cli_sent s.
Proof. destruct r as [r|]; cbn; [by destruct (known r)|done]. Qed.
Lemma sent_note r s : cli_sent (note_sent r s) = cli_sent s ++ [(is_logged_in s, r)].
Proof. done. Qed.
Lemma sent_receipt t o h h' sg ts s : cli_sent (keep_receipt client t o h h' sg ts s) = cli_sent s.
Proof. unfold keep_receipt. by destruct (t_write t), (verify_timestamp_signature _ _ _ _). Qed.
Lemma sent_lines (f : HistoryRecord → line) rs s : cli_sent (foldl (λ s r, say (f r) s) s rs) = cli_sent s.
Proof. revert s. induction rs as [|r rs IH]; intros s; [done|]. cbn. by rewrite IH. Qed.

Lemma menu_turn_verify t s : t_choice t = Some "Verify a Hash"%string →
  menu_turn client clean t s = Some (verify_choice client clean t s, true).
Proof. unfold menu_turn. by intros ->. Qed.
Lemma menu_turn_hash t s : t_choice t = Some "Hash a File"%string →
  menu_turn client clean t s = (s' ← hash_choice client clean t s; Some (s', true)).
Proof. unfold menu_turn. by intros ->. Qed.

(** Which options show when. *)
Lemma option_anonymous c b :
  c ∈ menu_options b → c ∈ ["Login"; "Signup"]%string → b = false.
Proof.
  rewrite !list_elem_of_In. intros H1 H2. destruct b; [|done]. exfalso.
  cbn in H2. destruct_or!; subst; cbn in H1; destruct_or!; done.
Qed.
Lemma option_logged c b :
  c ∈ menu_options b →
  c ∈ ["Check Tokens"; "Buy Tokens"; "Hash a File"; "History"; "Logout"]%string → b = true.
Proof.
  rewrite !list_elem_of_In. intros H1 H2. destruct b; [done|]. exfalso.
  cbn in H2. destruct_or!; subst; cbn in H1; destruct_or!; done.
Qed.

(** What a turn adds to the requests. *)
Definition sends_allowed (s s' : cli) : Prop :=
  cli_sent s' = cli_sent s ∨
  ∃ r, cli_sent s' = cli_sent s ++ [(is_logged_in s, r)] ∧ allowed (is_logged_in s, r) = true.

Lemma sends_logged s s' r :
  is_logged_in s = true → cli_sent s' = cli_sent s ++ [(is_logged_in s, r)] →
  match r with Login _ _ | SignUp _ _ => False | _ => True end → sends_allowed s s'.
Proof. intros Hl Hs Hr. right. exists r. rewrite Hl in *. split; [done|by destruct r]. Qed.

Lemma sends_credentials t s : is_logged_in s = false →
  sends_allowed s (login_choice t s) ∧ sends_allowed s (signup_choice t s).
Proof.
  intros Hl. unfold login_choice, signup_choice.
  destruct (t_text1 t) as [u|], (t_text2 t) as [p|]; try (by split; left).
  destruct (negb (validate_credentials_length u p)) eqn:Hv; [by split; left|].
  apply validate_ok in Hv as [H1 H2].
  split; right; [exists (Login u p)|exists (SignUp u p)]; (split; [|cbn; by rewrite Hl, H1, H2]);
    repeat case_match; cbn; by rewrite ?sent_other.
Qed.

Lemma sends_hash t s : is_logged_in s = true →
  ∃ s', hash_choice client clean t s = Some s' ∧ sends_allowed s s'.
Proof.
  intros Hl. unfold hash_choice.
  destruct (t_text1 t) as [f|], (t_text2 t) as [o|]; try (eexists; split; [done|by left]).
  case_match; [|eexists; split; [done|by left]].
  destruct (hash_file_total (t_os t) (clean f) None) as [[h|e] ->]; cbn;
    (eexists; split; [done|]); [|by left].
  apply sends_logged with (SignHash h); [done| |done].
  repeat case_match; cbn; by rewrite ?sent_receipt, ?sent_other.
Qed.

(** The other choices of a logged user send their own request. *)
Lemma sends_plain t s : is_logged_in s = true →
  sends_allowed s (logout_choice t s) ∧ sends_allowed s (check_tokens_choice t s) ∧
  sends_allowed s (buy_tokens_choice t s) ∧ sends_allowed s (history_choice t s).
Proof.
  intros Hl. split_and!.
  - apply sends_logged with LogOut; [done| |done]. unfold logout_choice.
    repeat case_match; cbn; by rewrite ?sent_other.
  - apply sends_logged with HowManyTokensDoIHave; [done| |done]. unfold check_tokens_choice.
    repeat case_match; cbn; by rewrite ?sent_other.
  - unfold buy_tokens_choice. destruct (t_number t) as [n|]; [|by left].
    apply sends_logged with (PurchaseTokens n); [done| |done].
    repeat case_match; cbn; by rewrite ?sent_other.
  - apply sends_logged with History; [done| |done]. unfold history_choice.
    repeat case_match; cbn; by rewrite ?sent_lines.
Qed.

Lemma sends_verify t s : sends_allowed s (verify_choice client clean t s).
Proof. left. unfold verify_choice. by repeat case_match. Qed.

Lemma menu_turn_sends t s : picks_option s t →
  ∃ s' more, menu_turn client clean t s = Some (s', more) ∧ sends_allowed s s'.
Proof.
  unfold picks_option, menu_turn. destruct (t_choice t) as [c|]; [|by eexists _, _; split; [|left]].
  intros Hc.
  assert (Ho := option_anonymous _ _ Hc). assert (Hi := option_logged _ _ Hc).
  repeat case_decide; subst; try (by eexists _, _; split; [|left]);
    first [ assert (is_logged_in s = false) as Hl by (apply Ho; repeat constructor);
              destruct (sends_credentials t s Hl)
          | assert (is_logged_in s = true) as Hl by (apply Hi; repeat constructor);
              destruct (sends_plain t s Hl) as (? & ? & ? & ?), (sends_hash t s Hl) as (? & Eh & ?)
          | pose proof (sends_verify t s) ];
    try rewrite Eh; by eexists _, _.
Qed.
End MenuFacts.

(** C26: the menu gates the requests.  As long as the user picks options that are on
    the screen, whatever the server answers and whatever the files do, the loop
    comes back, and every request was sent under the flag it belongs to: logins and
    sign-ups only while the client thinks it is anonymous, all others only while it
    thinks it is logged in; and credentials longer than the server accepts are never
    sent. *)
Theorem menu_gates_requests {SHA : Sha256Lib} {RSA : RsaLib} {HEX : HexLib} {CH : ChronoLib}
    {WREQ : Wincode Request} {WRESP : Wincode Response} (client : STSSClient)
    (clean : string → string) (ts : list turn) (s : cli) :
  run_picks client clean ts s →
  Forall (λ e, allowed e = true) (cli_sent s) →
  ∃ s', menu_loop client clean ts s = Some s' ∧ Forall (λ e, allowed e = true) (cli_sent s').
Proof.
  revert s. induction ts as [|t ts IH]; intros s Hp Hs; [by exists s|].
  destruct Hp as [Hp Hrest]. cbn [menu_loop].
  destruct (menu_turn_sends client clean t s Hp) as (s' & more & E & Hsend). rewrite E in Hrest |- *.
  assert (Forall (λ e, allowed e = true) (cli_sent s')).
  { destruct Hsend as [->|(r & -> & Hr)]; [done|]. apply Forall_app. by repeat constructor. }
  destruct more; [by apply IH|by exists s'].
Qed.

(** C38: the history shows no time.  The nanoseconds of a timestamp are taken for
    seconds: every record later than two hours and seventeen minutes after the epoch,
    up to the year 2262, is shown as an invalid epoch, and every later one as the
    epoch itself, whatever its time. *)
Theorem history_shows_no_time {CH : ChronoLib} {CHL : ChronoLaws} (r : HistoryRecord) :
  CHRONO_MAX_SECONDS < Timestamp_get (HistoryRecord_timestamp r) →
  history_time r =
    if Timestamp_get (HistoryRecord_timestamp r) <=? i64_max
    then ("Invalid Epoch: " +:+ pretty (Timestamp_get (HistoryRecord_timestamp r)))%string
    else history_time (HistoryRecord_new (HistoryRecord_hash r) (Timestamp_new 0)).
Proof.
  intros H. unfold history_time, CHRONO_MAX_SECONDS in *.
  destruct (Z.leb_spec (Timestamp_get (HistoryRecord_timestamp r)) i64_max).
  - rewrite checked_fits by bounds. cbn [from_option id].
    rewrite from_timestamp_bounded by (unfold CHRONO_MAX_SECONDS; lia). done.
  - assert (checked_i64 (Timestamp_get (HistoryRecord_timestamp r)) = None) as ->
      by (apply checked_None; by right).
    done.
Qed.

(** A calendar that knows the instants [chrono] knows and prints nothing of them. *)
Module ToyMenu.
Definition chrono : ChronoLib := {|
  DateTime := unit; format := λ _ _, "date"%string;
  from_timestamp := λ s _, if s <=? CHRONO_MAX_SECONDS then Some tt else None |}.
#[export] Instance chrono_laws : @ChronoLaws chrono.
Proof. constructor. intros s n H. cbn. destruct (Z.leb_spec s CHRONO_MAX_SECONDS); [lia|done]. Qed.

Definition dead_peer : peer := {| peer_send := λ _, Ok tt; peer_next := λ _, None |}.
Definition base : turn := {|
  t_choice := Some "Login"%string; t_text1 := Some "alice"%string; t_text2 := Some "secret"%string;
  t_number := Some 1000; t_peer := dead_peer; t_os := ToyFile.fs; t_create := Ok tt; t_write := Ok 256%nat;
  t_read := Ok tt |}.
Definition pick (c : string) (t : turn) : turn := {|
  t_choice := Some c; t_text1 := t_text1 t; t_text2 := t_text2 t; t_number := t_number t;
  t_peer := t_peer t; t_os := t_os t; t_create := t_create t;
  t_write := t_write t; t_read := t_read t |}.
(** A server that answers every frame with the same one. *)
Definition at_peer (answer : list byte) (t : turn) : turn := {|
  t_choice := t_choice t; t_text1 := t_text1 t; t_text2 := t_text2 t; t_number := t_number t;
  t_peer := {| peer_send := λ _, Ok tt; peer_next := λ _, Some (Ok answer) |};
  t_os := t_os t; t_create := t_create t;
  t_write := t_write t; t_read := t_read t |}.
Definition s0 : cli := {| is_logged_in := false; cli_files := ∅; cli_sent := []; cli_lines := [] |}.
Definition wreq : Wincode Request := {|
  wincode_serialize := λ _ _, Ok [x01]; wincode_deserialize := λ _ _, Err "none"%string |}.
Definition wresp : Wincode Response := {|
  wincode_serialize := λ _ _, Ok [x01];
  wincode_deserialize := λ _ b, match b with [x00] => Ok RespOk | _ => Err "bad"%string end |}.
Definition client : @STSSClient Toy.rsa := {| server_rsa_public_key := 256%nat : @RsaPublicKey Toy.rsa |}.
(** Log in, be told so, ask for the balance over a broken connection, leave. *)
Definition session : list turn :=
  [at_peer [x00] base; pick "Check Tokens" base; pick "Exit" base].
End ToyMenu.

Lemma menu_gates_requests_witness :
  ∃ s', menu_loop (SHA := Toy.sha) (RSA := Toy.rsa) (HEX := Toy.hex) (CH := ToyMenu.chrono)
          (WREQ := ToyMenu.wreq) (WRESP := ToyMenu.wresp) ToyMenu.client id ToyMenu.session ToyMenu.s0
        = Some s' ∧ Forall (λ e, allowed e = true) (cli_sent s').
Proof.
  apply (menu_gates_requests (SHA := Toy.sha) (RSA := Toy.rsa) (HEX := Toy.hex)
    (CH := ToyMenu.chrono) (WREQ := ToyMenu.wreq) (WRESP := ToyMenu.wresp) ToyMenu.client id
    ToyMenu.session ToyMenu.s0); [|constructor].
  vm_compute. repeat split; repeat constructor.
Defined.

Lemma history_shows_no_time_witness :
  history_time (CH := ToyMenu.chrono)
    (HistoryRecord_new Toy.sig1 (MkTimestamp 1700000000000000000))
  = "Invalid Epoch: 1700000000000000000"%string.
Proof.
  rewrite (history_shows_no_time (CH := ToyMenu.chrono) (CHL := ToyMenu.chrono_laws)
    (HistoryRecord_new Toy.sig1 (MkTimestamp 1700000000000000000))); [vm_compute; reflexivity|].
  vm_compute. reflexivity.
Defined.
