(* ===== verification/EndToEnd.v ===== *)
(** * EndToEnd: the client against the server

    The menu of [Menu] with a session of [ConnHandler] at the other end of the
    connection: what a user who has a file timestamped holds afterwards. *)
From S2P Require Import Prelude Bytes Protocol Sql Database DatabaseSpec DatabaseBuilder TimeOracle.
From S2P Require Import Signer Effects ConnHandler Account SessionSpec ConnSpec.
From S2P Require Import Path SafeRead Text ServerConfig Client Menu.

Section Session.
Context {SHA : Sha256Lib} {RSA : RsaLib} {HEX : HexLib} {ARGON : Argon2Lib}.
Context {S : Type} {SI : Signer S} {WREQ : Wincode Request} {WRESP : Wincode Response}.

(** The session of a user as the client sees it: it decodes a frame, performs the
    request, and sends the answer; it closes the connection on an error. *)
Definition session_peer (u : string) (c : ctx S) : peer := {|
  peer_send := λ _, Ok tt;
  peer_next := λ frame,
    match deserialize frame with
    | Err _ => None
    | Ok req =>
        match (exec (session_arm u req) c).1 with
        | Returned (Ok (response, _)) =>
            match serialize response with Ok b => Some (Ok b) | Err _ => None end
        | _ => None
        end
    end
|}.

Lemma deserialize_serialize {T} {W : Wincode T} {L : WincodeLaws T} (x : T) b :
  serialize x = Ok b → deserialize b = Ok x.
Proof.
  unfold serialize, deserialize. intros H%map_err_ok. by rewrite (wincode_roundtrip _ _ _ H).
Qed.

Lemma send_request_session {LREQ : WincodeLaws Request} {LRESP : WincodeLaws Response}
    u c req response lo c' :
  exec (session_arm u req) c = (Returned (Ok (response, lo)), c') →
  is_ok (serialize req) = true → is_ok (serialize response) = true →
  send_request (session_peer u c) req = Ok response.
Proof.
  intros E. unfold send_request.
  destruct (serialize req) as [b|] eqn:Eb; [|done].
  destruct (serialize response) as [b'|] eqn:Eb'; [|done]. intros _ _.
  cbn [map_err and_then session_peer peer_send peer_next].
  rewrite (deserialize_serialize _ _ Eb), E. cbn [fst]. rewrite Eb'. cbn.
  by rewrite (deserialize_serialize _ _ Eb').
Qed.
End Session.

(** C9: a timestamped file, end to end.  A logged user picks a file and a fresh
    output path, the server's session issues a token: the client shows the hash of
    the file and the instant of the server's clock, says the signature is saved, and
    its local check passes.  When the one write took the whole signature, verifying
    the saved file later, with the hash and the time that were shown, succeeds; when
    it took fewer bytes, which the client does not notice, the verification refuses
    the file. *)
Theorem timestamped_file_verifies {SHA : Sha256Lib} {RSA : RsaLib} {RSAL : RsaLaws}
    {HEX : HexLib} {HEXL : HexLaws} {ARGON : Argon2Lib} {CH : ChronoLib} {S : Type} {SI : Signer S}
    {SL : SignerLaws S} {WREQ : Wincode Request} {WRESP : Wincode Response}
    {LREQ : WincodeLaws Request} {LRESP : WincodeLaws Response}
    (client : STSSClient) (clean : string → string) (s : cli) (t : turn) (f o u : string)
    (n : nat) (h h' : Sha256Hash) (sg : RsaSignature) (ts : Timestamp) (lo : bool) (c c' : ctx S) :
  tables_ok (database (c_state c)) →
  server_rsa_public_key client = RsaPublicKey_from (signing_key (c_state c)) →
  t_choice t = Some "Hash a File"%string → t_text1 t = Some f → t_text2 t = Some o →
  t_peer t = session_peer u c → t_create t = Ok tt → t_write t = Ok n →
  cli_files s !! clean o = None →
  hash_file (t_os t) (clean f) None = Some (Ok h) →
  exec (session_arm u (SignHash h)) c = (Returned (Ok (Token h' sg ts, lo)), c') →
  is_ok (serialize (SignHash h)) = true → is_ok (serialize (Token h' sg ts)) = true →
  ∃ s', menu_turn client clean t s = Some (s', true) ∧
    cli_lines s' = cli_lines s ++ [SignedAt h (timestamp_format ts) ts; SignatureSaved;
                                   LocalVerificationPassed] ∧
    ts = Timestamp_new (now_of c) ∧
    ∀ t2 o2, t_choice t2 = Some "Verify a Hash"%string →
      t_text1 t2 = Some (Sha256Hash_fmt h) → t_text2 t2 = Some o2 → clean o2 = clean o →
      t_number t2 = Some (Timestamp_get ts) → t_read t2 = Ok tt →
      menu_turn client clean t2 s' =
        Some (say (if (RSA_KEY_SIZE_IN_BYTES <=? n)%nat then SignatureValid
                   else InvalidSignatureLength) s', true).
Proof.
  intros Hok Hk Hch H1 H2 Hp Hcr Hw Hnew Hh Hex Hs1 Hs2.
  destruct (sign_hash_token u h h' sg ts lo c c' Hok Hex) as (-> & Hts & _ & Hv & _).
  assert (timestamp_hash (t_peer t) h = Ok (Token h sg ts)) as Hreq
    by (rewrite Hp; by eapply send_request_session).
  assert (hash_choice client clean t s =
    Some (keep_receipt client t (clean o) h h sg ts (note_sent (SignHash h) (write_file (clean o) [] s)))) as Hc.
  { unfold hash_choice. rewrite H1, H2, Hnew, Hcr, Hh. cbn. by rewrite Hreq. }
  unfold keep_receipt in Hc. rewrite Hw, Hk, Hv in Hc.
  eexists. split; [by rewrite menu_turn_hash, Hc|].
  split; [cbn; by rewrite <- !app_assoc|]. split; [done|].
  intros t2 o2 C1 C2 C3 C4 C5 C6. rewrite menu_turn_verify by done. unfold verify_choice.
  rewrite C2, C3, C5, sha256_display_parse. unfold read_signature. cbn [say cli_files write_file].
  rewrite C4, lookup_insert_eq, C6. cbn [ok_or and_then].
  destruct (Nat.leb_spec RSA_KEY_SIZE_IN_BYTES n) as [Hn|Hn].
  - rewrite take_ge by (rewrite RsaSignature_length; lia). rewrite RsaSignature_try_from_inv.
    assert (Timestamp_new (Timestamp_get ts) = ts) as Et by (by clear; destruct ts).
    by rewrite Et, Hk, Hv.
  - rewrite RsaSignature_try_from_short; [done|]. rewrite length_take, RsaSignature_length. lia.
Qed.

Module ToyEndToEnd.
Definition h : Sha256Hash := MkSha256Hash (sha256 (SHA := Toy.sha) [x01; x02; x03; x04]).
Definition sg : RsaSignature :=
  match sign_with_timestamp (SHA := Toy.sha) (RSA := Toy.rsa) 256%nat h (MkTimestamp 1000)
  with Done (Ok s) => s | _ => Toy.sig1 end.
Definition wreq : Wincode Request := ToyConn.table_codec [(SignHash h, [x01])].
Definition wresp : Wincode Response := ToyConn.table_codec [(Token h sg (MkTimestamp 1000), [x02])].

#[export] Instance wreq_laws : @WincodeLaws Request wreq.
Proof. apply ToyConn.table_codec_laws, NoDup_singleton. Qed.
#[export] Instance wresp_laws : @WincodeLaws Response wresp.
Proof. apply ToyConn.table_codec_laws, NoDup_singleton. Qed.

Definition c : @ctx Toy.rsa SlowSigner := with_db (RSA := Toy.rsa) ToyDb.db
  {| c_cur := ToyConn.en_of []; c_turns := []; c_state := ToyConn.st0; c_out := [] |}.
Definition run := exec (SHA := Toy.sha) (RSA := Toy.rsa) (HEX := Toy.hex) (ARGON := ToyDb.argon)
  (SI := @slow_signer Toy.sha Toy.rsa) (session_arm ToyDb.alice (SignHash h)) c.
Definition t (choice text1 : string) : turn := {|
  t_choice := Some choice; t_text1 := Some text1; t_text2 := Some "out.sig"%string;
  t_number := Some 1000;
  t_peer := session_peer (SHA := Toy.sha) (RSA := Toy.rsa) (HEX := Toy.hex) (ARGON := ToyDb.argon)
    (SI := @slow_signer Toy.sha Toy.rsa) (WREQ := wreq) (WRESP := wresp) ToyDb.alice c;
  t_os := ToyFile.fs; t_create := Ok tt; t_write := Ok 256%nat;
  t_read := Ok tt |}.
Definition turn2 : turn := t "Verify a Hash" (Sha256Hash_fmt (HEX := Toy.hex) h).
Definition menu := menu_turn (SHA := Toy.sha) (RSA := Toy.rsa) (HEX := Toy.hex)
  (CH := ToyMenu.chrono) (WREQ := wreq) (WRESP := wresp) ToyMenu.client id.
End ToyEndToEnd.

Lemma timestamped_file_verifies_witness :
  ∃ s', ToyEndToEnd.menu (ToyEndToEnd.t "Hash a File" "file.bin") ToyMenu.s0 = Some (s', true) ∧
        ToyEndToEnd.menu ToyEndToEnd.turn2 s' = Some (say SignatureValid s', true).
Proof.
  destruct (timestamped_file_verifies (SHA := Toy.sha) (RSA := Toy.rsa) (RSAL := Toy.rsa_laws)
    (HEX := Toy.hex) (HEXL := Toy.hex_laws) (ARGON := ToyDb.argon) (CH := ToyMenu.chrono)
    (SI := @slow_signer Toy.sha Toy.rsa) (SL := slow_laws) (WREQ := ToyEndToEnd.wreq)
    (WRESP := ToyEndToEnd.wresp) (LREQ := ToyEndToEnd.wreq_laws) (LRESP := ToyEndToEnd.wresp_laws)
    ToyMenu.client id ToyMenu.s0 (ToyEndToEnd.t "Hash a File" "file.bin") "file.bin"%string
    "out.sig"%string ToyDb.alice 256%nat ToyEndToEnd.h ToyEndToEnd.h ToyEndToEnd.sg
    (MkTimestamp 1000) false ToyEndToEnd.c ToyEndToEnd.run.2)
    as (s' & Hm & _ & _ & Hv).
  - apply (bool_decide_unpack (tables_ok ToyDb.db)). vm_compute. exact I.
  - reflexivity.
  - reflexivity.
  - reflexivity.
  - reflexivity.
  - reflexivity.
  - reflexivity.
  - reflexivity.
  - reflexivity.
  - vm_compute. reflexivity.
  - vm_compute. reflexivity.
  - vm_compute. reflexivity.
  - vm_compute. reflexivity.
  - exists s'. split; [exact Hm|].
    exact (Hv ToyEndToEnd.turn2 "out.sig"%string eq_refl eq_refl eq_refl eq_refl eq_refl eq_refl).
Defined.
