(* ===== verification/Conversation.v ===== *)
(** * Conversation: what the client and the server believe of each other

    The client's menu decides from its own flag whether it is logged in; the server
    decides from the loop the connection is in.  Nothing on the wire carries either.
    A conversation is the list of requests and responses both ends have seen; the
    theorem shows that on the same conversation they agree, in every interleaving of
    the server's connections. *)
From S2P Require Import Prelude Bytes Protocol Sql Database DatabaseSpec TimeOracle Signer.
From S2P Require Import Effects ConnHandler Account SessionSpec Server ServerSpec.
From S2P Require Import Path SafeRead Text ServerConfig Client Menu EndToEnd.

(** ** Conversations *)

Definition exchange : Type := Request * Response.

(** What an exchange tells the client about its session. *)
Definition client_step (flag : bool) (ex : exchange) : bool :=
  match ex with
  | (Login _ _, RespOk) => true
  | (LogOut, RespOk) => false
  | _ => flag
  end.
Definition client_flag (exs : list exchange) : bool := foldl client_step false exs.

(** Each exchange with the flag of the moment its request was sent. *)
Fixpoint flagged (flag : bool) (exs : list exchange) : list (bool * exchange) :=
  match exs with
  | [] => []
  | ex :: exs => (flag, ex) :: flagged (client_step flag ex) exs
  end.

Lemma flagged_app flag exs exs' :
  flagged flag (exs ++ exs') = flagged flag exs ++ flagged (foldl client_step flag exs) exs'.
Proof. revert flag. induction exs as [|ex exs IH]; intros flag; [done|]. cbn. by rewrite IH. Qed.

Lemma client_flag_snoc exs ex : client_flag (exs ++ [ex]) = client_step (client_flag exs) ex.
Proof. unfold client_flag. by rewrite foldl_app. Qed.

(** The answers that speak of the session fit the client's flag: a client that holds
    itself for anonymous is never told that it is already logged in when it signs up,
    and one that holds itself for logged in is never told that it is not. *)
Definition answer_fits (e : bool * exchange) : bool :=
  match e with
  | (_, ((Login _ _ | SignUp _ _), NotLoggedIn)) => false
  | (flag, (_, NotLoggedIn)) => negb flag
  | (flag, (SignUp _ _, SignInFailed SignInAlreadyLoggedIn)) => flag
  | (_, (_, SignInFailed SignInAlreadyLoggedIn)) => false
  | _ => true
  end.

Lemma fits_snoc exs ex :
  answer_fits (client_flag exs, ex) = true →
  forallb answer_fits (flagged false (exs ++ [ex])) = forallb answer_fits (flagged false exs).
Proof.
  intros H. rewrite flagged_app, forallb_app. cbn -[answer_fits].
  change (foldl client_step false exs) with (client_flag exs). by rewrite H, !andb_true_r.
Qed.

(** ** The conversation of a task *)

Record conv := {
  cv_pending : option Request;       (* read, not yet answered *)
  cv_exchanges : list exchange
}.

Section Talk.
Context {WREQ : Wincode Request} {WRESP : Wincode Response}.

(** A frame that decodes as a request opens an exchange, the next frame that is
    delivered closes it with the response the client decodes. *)
Definition conv_step (cv : conv) (e : event) : answer e → conv :=
  match e with
  | EvNext => λ x,
      {| cv_pending := match x with
                       | SelectNext (Some (Ok raw)) =>
                           match deserialize raw with Ok req => Some req | Err _ => None end
                       | _ => None
                       end;
         cv_exchanges := cv_exchanges cv |}
  | EvSend b => λ r,
      match r, cv_pending cv, deserialize b with
      | Ok _, Some req, Ok resp =>
          {| cv_pending := None; cv_exchanges := cv_exchanges cv ++ [(req, resp)] |}
      | _, _, _ => cv
      end
  | _ => λ _, cv
  end.

Definition conv0 : conv := {| cv_pending := None; cv_exchanges := [] |}.
Definition trace_conv (tr : trace) : conv :=
  foldl (λ cv ev, conv_step cv (projT1 ev) (projT2 ev)) conv0 tr.
Definition exchanges (tk : task) : list exchange := cv_exchanges (trace_conv (tk_trace tk)).

Definition phase_in_session (ph : phase) : bool := bool_decide (is_Some (own ph)).
Definition conv_ok (cv : conv) : bool := forallb answer_fits (flagged false (cv_exchanges cv)).

(** The automaton of agreement: the next frame is awaited only while the client's
    flag is the server's state, and no answer contradicts it. *)
Definition talk_step (x : phase * conv) (e : event) (y : answer e) : option (phase * conv) :=
  let '(ph, cv) := x in
  let cv' := conv_step cv e y in
  ph' ← phase_step ph e y;
  if match e with EvNext => eqb (phase_in_session ph) (client_flag (cv_exchanges cv)) | _ => true end
     && implb (conv_ok cv) (conv_ok cv')
  then Some (ph', cv') else None.

Abbreviation talks := (tracked talk_step (λ _, True)).

(** ** The handlers keep the agreement *)

(** A program that neither reads nor sends, and the results it may have. *)
Fixpoint silent {A} (P : A → Prop) (p : prog A) : Prop :=
  match p with
  | Ret a => P a
  | Act e k => quiet e = true ∧ ∀ x, silent P (k x)
  | Crash _ | Cut => True
  end.

Lemma silent_bind {A B} (P : B → Prop) (p : prog A) (f : A → prog B) :
  silent (λ a, silent P (f a)) p → silent P (p ≫= f).
Proof.
  induction p as [a|e k IH|msg|]; cbn; [done| |done..]. intros [Hq H]. split; [done|].
  intros x. by apply IH.
Qed.

Lemma silent_act {A} (P : A → Prop) e (f : answer e → prog A) :
  quiet e = true → (∀ x, silent P (f x)) → silent P (act e ≫= f).
Proof. done. Qed.

(** Such a program follows the protocol of agreement where it follows its own. *)
Lemma talks_silent {A} (P : A → Prop) (Q : phase → A → Prop) ph cv (p : prog A) :
  silent P p → safe Q ph p → talks (λ x a, x.2 = cv ∧ Q x.1 a ∧ P a) (ph, cv) p.
Proof.
  revert ph. induction p as [a|e k IH|msg|]; intros ph; cbn; [done| |done..].
  intros [Hq Hk] Hs y. specialize (Hs y). unfold talk_step.
  destruct (phase_step ph e y) as [ph'|]; [|done]. cbn.
  assert (conv_step cv e y = cv) as -> by (by destruct e).
  assert ((match e with EvNext => eqb (phase_in_session ph) (client_flag (cv_exchanges cv))
           | _ => true end) = true) as -> by (by destruct e).
  rewrite implb_same. cbn. by apply IH.
Qed.
End Talk.

Abbreviation talks := (tracked talk_step (λ _, True)).

Section Handlers.
Context {WREQ : Wincode Request} {WRESP : Wincode Response}.
Context {LRESP : WincodeLaws Response} {RT : RequestsTyped}.

Abbreviation flag_of cv := (client_flag (cv_exchanges cv)).

(** A silent program in the middle of a handler. *)
Lemma talks_silent_bind {A B} (P : A → Prop) (Q : phase → A → Prop) (R : phase * conv → B → Prop)
    ph cv (p : prog A) (f : A → prog B) :
  silent P p → safe Q ph p →
  (∀ ph' a, Q ph' a → P a → talks R (ph', cv) (f a)) → talks R (ph, cv) (p ≫= f).
Proof.
  intros Hq Hs Hf. apply tracked_bind. eapply tracked_mono; [|by apply talks_silent].
  intros [ph' cv'] a (E & HQ & HP). cbn in *. subst. by apply Hf.
Qed.

Lemma talks_fetch addr ph cv :
  settled ph → phase_in_session ph = flag_of cv →
  talks (λ x r, x.1 = rested ph ∧ cv_exchanges x.2 = cv_exchanges cv ∧
           match r with
           | Ok (Some req) => cv_pending x.2 = Some req ∧ request_typed req = true
           | _ => True
           end) (ph, cv) (fetch_next_request addr).
Proof using RT.
  intros Hs Hl. unfold fetch_next_request. apply tracked_act. intros y. unfold talk_step.
  assert (phase_step ph EvNext y = Some (rested ph)) as -> by (by destruct ph as [| |u []]).
  cbn [mbind option_bind]. rewrite Hl, eqb_reflx. cbn [andb]. unfold conv_ok at 2.
  cbn [conv_step cv_exchanges]. fold (conv_ok cv). rewrite implb_same.
  destruct y as [[[bytes|e]|]|]; cbn; [|by split_and!; [| |repeat case_match]..|done|done].
  split_and!; [done..|]. unfold deserialize.
  destruct (wincode_deserialize BINCODE_CONFIG bytes) as [req|e] eqn:E; cbn; [|done].
  split; [done|]. by eapply decoded_typed.
Qed.

(** A delivered response closes the exchange. *)
Definition answered (req : Request) (r : Response) (cv cv' : conv) (y : result unit HandlerError)
    : Prop :=
  match y with Ok _ => cv_exchanges cv' = cv_exchanges cv ++ [(req, r)] | Err _ => True end.

Lemma talks_respond_from (next : result unit IoError → phase) r ph cv req :
  (∀ b y, phase_step ph (EvSend b) y = Some (next y)) →
  cv_pending cv = Some req → answer_fits (flag_of cv, (req, r)) = true →
  talks (λ x y, answered req r cv x.2 y ∧
           match y with
           | Ok _ => x.1 = next (Ok tt)
           | Err _ => x.1 = ph ∨ ∃ e, x.1 = next (Err e)
           end) (ph, cv) (respond r).
Proof using LRESP.
  intros Hs Hp Hfit. unfold respond. apply tracked_try. cbn -[talk_step].
  destruct (serialize r) as [b|e] eqn:Eb; cbn -[talk_step]; [|by split; [|left]]. intros y.
  unfold talk_step. rewrite Hs. cbn. rewrite Hp, (deserialize_serialize _ _ Eb).
  destruct y as [[]|e].
  - unfold conv_ok at 2. cbn -[answer_fits flagged]. rewrite fits_snoc by done. fold (conv_ok cv).
    by rewrite implb_same.
  - rewrite implb_same. cbn. destruct (send_error_logger_err e) as [ne ->]. cbn.
    split; [done|right; by exists e].
Qed.

Lemma talks_respond r ph cv req :
  settled ph → cv_pending cv = Some req → answer_fits (flag_of cv, (req, r)) = true →
  talks (λ x y, x.1 = ph ∧ answered req r cv x.2 y) (ph, cv) (respond r).
Proof using LRESP.
  intros Hs Hp Hfit. eapply tracked_mono; [|apply (talks_respond_from (λ _, ph)); try done].
  - intros [ph' cv'] [[]|e] [Ha He]; cbn in *; (split; [|done]); [done|naive_solver].
  - intros b y. by destruct ph as [| |u []].
Qed.

(** The reply to an accepted login. *)
Lemma talks_respond_login r u cv req :
  cv_pending cv = Some req → answer_fits (flag_of cv, (req, r)) = true →
  talks (λ x y, x.1 = Inside u (match y with Ok _ => Idle | Err _ => Entered end) ∧
                answered req r cv x.2 y) (Inside u Entered, cv) (respond r).
Proof using LRESP.
  intros Hp Hfit.
  eapply tracked_mono; [|apply (talks_respond_from
    (λ y, Inside u (match y with Ok _ => Idle | Err _ => Entered end))); try done].
  intros [ph' cv'] [[]|e] [Ha He]; cbn in *; (split; [|done]); [done|naive_solver].
Qed.

Ltac silent_steps :=
  repeat match goal with
  | |- silent _ (mbind _ (act _)) => apply silent_act; [done|intros ?]; cbn beta
  | |- silent _ (mbind _ (unwinding ?o)) => destruct o; cbn [unwinding]; [rewrite ret_bind; cbn beta|exact I]
  | |- silent _ (mbind _ (mbind _ _)) => apply silent_bind
  | |- silent _ (Ret _ ≫= _) => cbn
  | |- silent _ (match ?x with _ => _ end) => destruct x
  end; try done.

(** Which responses a session gives, by its request: it never denies the session,
    and it ends exactly where the client takes it for ended. *)
Lemma silent_session_arm u req :
  silent (λ r, match r with
               | Ok (resp, lo) => answer_fits (true, (req, resp)) = true ∧
                                  client_step true (req, resp) = negb lo
               | Err _ => True
               end) (session_arm u req).
Proof.
  destruct req; cbn [session_arm]; unfold sign_hash_arm, record_arm, refund_arm, purchase_arm,
    how_many_arm, history_arm; silent_steps.
Qed.

(** The same of a connection that is not in a session. *)
Lemma silent_conn_arm addr req :
  silent (λ r, match r with
               | Ok (resp, os) => answer_fits (false, (req, resp)) = true ∧
                                  client_step false (req, resp) = bool_decide (is_Some os)
               | Err _ => True
               end) (conn_arm addr req).
Proof.
  destruct req; cbn [conn_arm]; unfold login_arm, sign_up_arm; silent_steps.
  match goal with inserted : answer (EvLoggedInsert _) |- _ => by destruct inserted end.
Qed.

Lemma silent_closed_reason : silent (λ _, True) closed_reason.
Proof. by split. Qed.

Lemma talks_session_handler n s p cv :
  p ≠ Entered → flag_of cv = true →
  talks (λ x r, inside_of (s_username s) x.1 ∧
           match r with Ok LoggedOut => flag_of x.2 = false | _ => True end)
    (Inside (s_username s) p, cv) (session_handler n s).
Proof using LRESP RT.
  revert p cv. induction n as [|n IH]; intros p cv Hne Hfl; cbn [session_handler]; [done|].
  apply tracked_bind. eapply tracked_mono; [|apply talks_fetch; by destruct p]. intros [ph cv1] r (E & Ex & Hreq).
  cbn in E, Ex, Hreq. subst ph. rewrite <- Ex in Hfl.
  destruct r as [[req|]|e]; cbn -[tracked closed_reason session_arm respond session_handler].
  - destruct Hreq as [Hp Hty].
    eapply talks_silent_bind; [apply silent_session_arm|by apply safe_session_arm|].
    intros ph [[resp lo]|e] (p' & -> & Hp') Hr; [|by split; [eexists|]]. destruct Hr as [Hfit Hstep].
    apply tracked_try. cbn [fst snd].
    eapply tracked_mono; [|apply talks_respond; [by destruct p'|done|by rewrite Hfl]].
    intros [ph cv2] [[]|e] [E Hx]; cbn in E, Hx; subst ph; [|by split; [eexists|]].
    assert (flag_of cv2 = negb lo) as Hfl2 by (by rewrite Hx, client_flag_snoc, Hfl).
    destruct lo; [by split; [eexists|]|by apply IH].
  - eapply talks_silent_bind; [apply silent_closed_reason|by apply safe_closed_reason|].
    intros ph r -> _. by split; [eexists|].
  - by split; [eexists|].
Qed.

Lemma talks_run_session n s cv :
  flag_of cv = true →
  talks (λ x r, x.1 = Anon ∧ match r with Ok None => flag_of x.2 = false | _ => True end)
    (Inside (s_username s) Idle, cv) (run_session n s).
Proof using LRESP RT.
  intros Hfl. unfold run_session. apply tracked_bind.
  eapply tracked_mono; [|by apply talks_session_handler]. intros [ph cv1] r [(p' & E & _) Hr].
  cbn in E, Hr. subst ph.
  assert (∀ y, talk_step (Inside (s_username s) p', cv1) (EvLoggedRemove (s_username s)) y
    = Some (Anon, cv1)) as Hstep.
  { intros y. cbn. rewrite decide_True by done. cbn. by rewrite implb_same. }
  destruct r as [[[]|]|e]; intros y; by rewrite Hstep.
Qed.

Lemma talks_conn_handler n addr cv :
  flag_of cv = false →
  talks (λ x _, x.1 = Anon ∨ ∃ u, x.1 = Inside u Entered) (Anon, cv) (conn_handler_core n addr).
Proof using LRESP RT.
  revert cv. induction n as [|n IH]; intros cv Hfl; cbn [conn_handler_core]; [done|].
  apply tracked_bind. eapply tracked_mono; [|by apply talks_fetch]. intros [ph cv1] r (E & Ex & Hreq).
  cbn in E, Ex, Hreq. subst ph. rewrite <- Ex in Hfl.
  destruct r as [[req|]|e]; cbn -[tracked closed_reason conn_arm respond conn_handler_core run_session].
  - destruct Hreq as [Hp _].
    eapply talks_silent_bind; [apply silent_conn_arm|by apply safe_conn_arm|].
    intros ph [[resp os]|e] Hph Hr; [|by subst; left]. destruct Hr as [Hfit Hstep].
    apply tracked_try. cbn [fst snd]. destruct os as [s|]; subst ph.
    + eapply tracked_mono; [|by apply talks_respond_login; [|rewrite Hfl]].
      intros [ph2 cv2] [[]|e] [E Hx]; cbn in E, Hx; subst ph2; [|right; by eexists].
      apply tracked_try. eapply tracked_mono;
        [|apply talks_run_session; by rewrite Hx, client_flag_snoc, Hfl].
      intros [ph cv3] [[reason|]|e] [E H3]; cbn in E, H3; subst ph; [by left|by apply IH|by left].
    + eapply tracked_mono; [|by apply talks_respond; [..|rewrite Hfl]].
      intros [ph2 cv2] [[]|e] [E Hx]; cbn in E, Hx; subst ph2; [|by left].
      apply IH. by rewrite Hx, client_flag_snoc, Hfl.
  - eapply talks_silent_bind; [apply silent_closed_reason|by apply safe_closed_reason|].
    intros ph r -> _. by left.
  - by left.
Qed.

Lemma talks_connection_task n addr :
  talks (λ _ _, True) (Anon, conv0) (connection_task n addr).
Proof using LRESP RT.
  unfold connection_task. apply tracked_try. cbn. intros [[]|e]; cbn -[tracked conn_handler]; [|done].
  apply tracked_bind. eapply tracked_mono; [|by apply talks_conn_handler].
  intros [ph cv] r Hs. cbn in Hs. destruct r as [|[[]|]]; try done. intros y. cbn.
  destruct Hs as [->|[u ->]]; cbn; by rewrite implb_same.
Qed.
End Handlers.

Section Tasks.
Context {WREQ : Wincode Request} {WRESP : Wincode Response}.

(** The automaton tracks the phase and the conversation of the trace. *)
Lemma talk_trace tr ph cv :
  run_trace talk_step (Anon, conv0) tr = Some (ph, cv) →
  trace_phase tr = Some ph ∧ trace_conv tr = cv ∧ conv_ok cv = true.
Proof.
  revert ph cv. induction tr as [|[e y] tr IH] using rev_ind; intros ph cv.
  { cbn. by intros [= <- <-]. }
  unfold run_trace. rewrite foldl_app. fold (run_trace talk_step (Anon, conv0) tr).
  destruct (run_trace talk_step (Anon, conv0) tr) as [[ph1 cv1]|]; [|done].
  destruct (IH ph1 cv1 eq_refl) as (Hp & Hc & Hok). cbn [foldl projT1 projT2 mbind option_bind].
  unfold talk_step. destruct (phase_step ph1 e y) as [ph2|] eqn:Es; [|done]. cbn [mbind option_bind].
  rewrite Hok. destruct (_ && _) eqn:Eb; [|done]. intros [= <- <-].
  apply andb_true_iff in Eb as [_ Eb]. split_and!; [by erewrite trace_phase_snoc| |done].
  unfold trace_conv in *. rewrite foldl_app, Hc. done.
Qed.

(** A task that waits for its client. *)
Definition waiting (tk : task) : bool :=
  match tk_prog tk with Act EvNext _ => true | _ => false end.

Lemma waiting_agrees tk :
  task_tracked talk_step (λ _, True) (λ _, (Anon, conv0)) tk →
  forallb answer_fits (flagged false (exchanges tk)) = true ∧
  (waiting tk = true → client_flag (exchanges tk) = bool_decide (is_Some (inside tk))).
Proof.
  intros ([ph cv] & Hx & Ht). destruct (talk_trace _ _ _ Hx) as (Hp & Hc & Hok).
  unfold exchanges, inside. rewrite Hp, Hc. split; [done|]. unfold waiting.
  destruct (tk_prog tk) as [|[] k| |]; try done. intros _. specialize (Ht SelectCancelled).
  unfold talk_step in Ht. cbn in Ht. fold (phase_in_session ph).
  destruct (eqb (phase_in_session ph) (client_flag (cv_exchanges cv))) eqn:E;
    [by apply eqb_prop in E|by destruct ph as [| |u []]].
Qed.
End Tasks.

(** ** The conversation of the menu *)

Section MenuTalk.
Context {SHA : Sha256Lib} {RSA : RsaLib} {HEX : HexLib} {CH : ChronoLib}.
Context {WREQ : Wincode Request} {WRESP : Wincode Response}.
Context (client : STSSClient) (clean : string → string).

Definition exchange_of (t : turn) (req : Request) : list exchange :=
  match send_request (t_peer t) req with Ok resp => [(req, resp)] | Err _ => [] end.

(** The exchanges of a turn that led from [s] to [s']. *)
Definition turn_exchanges (t : turn) (s s' : cli) : list exchange :=
  (drop (length (cli_sent s)) (cli_sent s')) ≫= (λ e, exchange_of t e.2).

Fixpoint menu_exchanges (ts : list turn) (s : cli) : list exchange :=
  match ts with
  | [] => []
  | t :: ts =>
      match menu_turn client clean t s with
      | Some (s', true) => turn_exchanges t s s' ++ menu_exchanges ts s'
      | _ => []
      end
  end.

(** What one choice does: it sends nothing and keeps the flag, or sends one request
    and sets the flag as the answer says. *)
Definition choice_talks (t : turn) (s s' : cli) : Prop :=
  (cli_sent s' = cli_sent s ∧ is_logged_in s' = is_logged_in s) ∨
  ∃ req, cli_sent s' = cli_sent s ++ [(is_logged_in s, req)] ∧
         is_logged_in s' = foldl client_step (is_logged_in s) (exchange_of t req).

Lemma logged_other known r s : is_logged_in (other_answer known r s) = is_logged_in s.
Proof. destruct r as [r|]; cbn; [by destruct (known r)|done]. Qed.
Lemma logged_receipt t o h h' sg ts s :
  is_logged_in (keep_receipt client t o h h' sg ts s) = is_logged_in s.
Proof. unfold keep_receipt. by destruct (t_write t), (verify_timestamp_signature _ _ _ _). Qed.
Lemma logged_lines (f : HistoryRecord → line) rs s :
  is_logged_in (foldl (λ s r, say (f r) s) s rs) = is_logged_in s.
Proof. revert s. induction rs as [|r rs IH]; intros s; [done|]. cbn. by rewrite IH. Qed.

(** A choice that sends [req] and looks at its answer. *)
Ltac talk_one req :=
  right; exists req; unfold exchange_of;
  match goal with |- context [send_request ?p ?r] =>
    destruct (send_request p r) as [[]|] eqn:?; cbn -[other_answer];
    rewrite ?sent_other, ?logged_other, ?sent_receipt, ?logged_receipt, ?sent_lines, ?logged_lines;
    try done
  end.

Lemma login_talks t s : choice_talks t s (login_choice t s).
Proof.
  unfold login_choice, login. destruct (t_text1 t) as [u|], (t_text2 t) as [p|]; try by left.
  destruct (negb _); [by left|]. talk_one (Login u p).
Qed.
Lemma signup_talks t s : choice_talks t s (signup_choice t s).
Proof.
  unfold signup_choice, signup. destruct (t_text1 t) as [u|], (t_text2 t) as [p|]; try by left.
  destruct (negb _); [by left|]. talk_one (SignUp u p).
Qed.
Lemma logout_talks t s : choice_talks t s (logout_choice t s).
Proof. unfold logout_choice, logout. talk_one LogOut. Qed.
Lemma check_tokens_talks t s : choice_talks t s (check_tokens_choice t s).
Proof. unfold check_tokens_choice, how_many_tokens. talk_one HowManyTokensDoIHave. Qed.
Lemma buy_tokens_talks t s : choice_talks t s (buy_tokens_choice t s).
Proof.
  unfold buy_tokens_choice, purchase_tokens. destruct (t_number t) as [n|]; [|by left].
  talk_one (PurchaseTokens n).
Qed.
Lemma history_talks t s : choice_talks t s (history_choice t s).
Proof.
  unfold history_choice, Client.history. talk_one History.
  destruct records; cbn; by rewrite ?sent_lines, ?logged_lines.
Qed.
Lemma verify_talks t s : choice_talks t s (verify_choice client clean t s).
Proof. left. unfold verify_choice. by repeat case_match. Qed.
Lemma hash_talks t s s' : hash_choice client clean t s = Some s' → choice_talks t s s'.
Proof.
  unfold hash_choice, timestamp_hash.
  destruct (t_text1 t) as [f|], (t_text2 t) as [o|]; try (intros [= <-]; by left).
  case_match; [|intros [= <-]; by left].
  destruct (hash_file (t_os t) (clean f) None) as [[h|e]|]; cbn; intros [= <-]; [|by left].
  talk_one (SignHash h).
Qed.

Lemma menu_turn_talks t s s' more :
  menu_turn client clean t s = Some (s', more) → choice_talks t s s'.
Proof.
  unfold menu_turn. destruct (t_choice t) as [c|]; [|intros [= <- _]; by left].
  repeat case_decide; try (intros [= <- _]);
    auto using login_talks, signup_talks, logout_talks, check_tokens_talks, buy_tokens_talks,
      history_talks, verify_talks; try by left.
  destruct (hash_choice client clean t s) eqn:E; [|done]. intros [= <- _]. by apply hash_talks.
Qed.

(** The flag after a turn, and what was sent under which flag. *)
Lemma turn_exchanges_flag t s s' more :
  menu_turn client clean t s = Some (s', more) → picks_option s t →
  is_logged_in s' = foldl client_step (is_logged_in s) (turn_exchanges t s s') ∧
  Forall (λ e, allowed (e.1, e.2.1) = true) (flagged (is_logged_in s) (turn_exchanges t s s')).
Proof.
  intros Ht Hpick. destruct (menu_turn_sends client clean t s Hpick) as (s1 & m1 & E1 & Hall).
  rewrite Ht in E1. injection E1 as <- _. unfold turn_exchanges.
  destruct (menu_turn_talks _ _ _ _ Ht) as [[Es El]|(req & Es & El)]; rewrite Es.
  - by rewrite drop_all.
  - rewrite drop_app_length, El. cbn. rewrite app_nil_r. split; [done|].
    destruct Hall as [Hall|(r & Hall & Ha)]; rewrite Es in Hall;
      [apply (f_equal length) in Hall; rewrite length_app in Hall; cbn in Hall; lia|].
    apply app_inv_head in Hall. injection Hall as <-. unfold exchange_of.
    destruct (send_request (t_peer t) req); cbn; by repeat constructor.
Qed.

Lemma menu_exchanges_flag ts s s' :
  run_picks client clean ts s → menu_loop client clean ts s = Some s' →
  is_logged_in s' = foldl client_step (is_logged_in s) (menu_exchanges ts s) ∧
  Forall (λ e, allowed (e.1, e.2.1) = true) (flagged (is_logged_in s) (menu_exchanges ts s)).
Proof.
  revert s. induction ts as [|t ts IH]; intros s; [cbn; by intros _ [= <-]|]. cbn.
  intros [Hp Hrest]. destruct (menu_turn client clean t s) as [[s1 []]|] eqn:Et; [| |done].
  - intros Hl. destruct (turn_exchanges_flag _ _ _ _ Et Hp) as [E1 F1].
    destruct (IH s1 Hrest Hl) as [E2 F2]. rewrite foldl_app, <- E1. split; [done|].
    rewrite flagged_app, <- E1. by apply Forall_app.
  - intros [= <-]. cbn. split; [|constructor].
    revert Et. unfold menu_turn. destruct (t_choice t); [|by intros [= <-]].
    repeat case_decide; try done; try (by intros [= <-]). by destruct (hash_choice _ _ _ _).
Qed.
End MenuTalk.

Lemma elem_of_flagged flag exs ex : ex ∈ exs → ∃ b, (b, ex) ∈ flagged flag exs.
Proof.
  revert flag. induction exs as [|ex' exs IH]; intros flag; cbn; [by intros ?%elem_of_nil|].
  intros [->|H]%elem_of_cons; [exists flag; by left|].
  destruct (IH (client_step flag ex') H) as [b Hb]. exists b. by right.
Qed.

(** C5: the client and the server agree on who is logged in.  Take any interleaving of
    the server's connections, one of them waiting for its client, and a menu whose user
    picks options from the screen: when both have seen the same conversation, the menu
    shows the options of a logged user exactly when the connection is in a session, and
    no answer in the conversation contradicted the menu's idea of the session. *)
Theorem client_and_server_agree
    {SHA : Sha256Lib} {RSA : RsaLib} {HEX : HexLib} {ARGON : Argon2Lib} {CH : ChronoLib}
    {S : Type} {SI : Signer S} {WREQ : Wincode Request} {WRESP : Wincode Response}
    {LRESP : WincodeLaws Response} {RT : RequestsTyped}
    (st : STSServerState S) (w : world S) (i : nat) (tk : task)
    (client : STSSClient) (clean : string → string) (ts : list turn) (s s' : cli) :
  reachable (init st) w → w_tasks w !! i = Some tk → waiting tk = true →
  is_logged_in s = false → run_picks client clean ts s → menu_loop client clean ts s = Some s' →
  menu_exchanges client clean ts s = exchanges tk →
  is_logged_in s' = bool_decide (is_Some (inside tk)) ∧
  ∀ req resp, (req, resp) ∈ exchanges tk →
    resp ≠ NotLoggedIn ∧ resp ≠ SignInFailed SignInAlreadyLoggedIn.
Proof.
  intros Hr Hi Hw Hs Hp Hl Hex.
  destruct (waiting_agrees tk) as [Hfit Hag].
  { eapply reachable_tracked; [apply talks_connection_task|done..]. }
  destruct (menu_exchanges_flag client clean ts s s' Hp Hl) as [Hflag Hall].
  rewrite Hs, Hex in Hflag, Hall. split; [rewrite Hflag; by apply Hag|].
  intros req resp Hin. destruct (elem_of_flagged false _ _ Hin) as [b Hb].
  rewrite forallb_forall in Hfit. apply list_elem_of_In in Hb.
  rewrite List.Forall_forall in Hall. specialize (Hfit _ Hb). specialize (Hall _ Hb).
  by destruct req, resp as [| |[]| | | | | | |], b.
Qed.

(** Alice logs in from the menu; the frames are those of [ToyConn]. *)
Module ToyTalk.
Definition moves : list move :=
  let en := ToyConn.en_of [x05] in MoveAccept 9 ToyConn.addr :: replicate 5 (MoveTask 0 en).
(** What one sees of a task: its conversation, whether it waits, and for whom. *)
Definition heard (tk : task) : list exchange * bool * option string :=
  (exchanges (WREQ := ToyConn.wreq) (WRESP := ToyConn.wresp) tk, waiting tk, inside tk).
Definition talk : list exchange := [(Login ToyDb.alice "secret", RespOk)].

Lemma moves_heard :
  (λ w, heard <$> w_tasks w) <$> ToyServer.run moves (init ToyServer.st0)
  = Some [(talk, true, Some ToyDb.alice)].
Proof. vm_compute. reflexivity. Qed.

Definition turns : list turn := [ToyMenu.at_peer [x04] ToyMenu.base].
Definition menu := menu_loop (SHA := Toy.sha) (RSA := Toy.rsa) (HEX := Toy.hex)
  (CH := ToyMenu.chrono) (WREQ := ToyConn.wreq) (WRESP := ToyConn.wresp) ToyMenu.client id turns.
End ToyTalk.

Lemma client_and_server_agree_witness :
  ∃ w tk s', ToyServer.reach (init ToyServer.st0) w ∧ w_tasks w !! 0%nat = Some tk ∧
    inside tk = Some ToyDb.alice ∧ ToyTalk.menu ToyMenu.s0 = Some s' ∧
    is_logged_in s' = bool_decide (is_Some (inside tk)).
Proof.
  pose proof ToyTalk.moves_heard as Hv.
  destruct (ToyServer.run ToyTalk.moves (init ToyServer.st0)) as [w|] eqn:Er; [|done].
  cbn in Hv. injection Hv as Hv. destruct (w_tasks w) as [|tk [|]] eqn:Ew; try done.
  injection Hv as Hx Hw Hin.
  destruct (ToyTalk.menu ToyMenu.s0) as [s'|] eqn:Em; [|vm_compute in Em; done].
  assert (ToyServer.reach (init ToyServer.st0) w) as Hr by (by eapply run_moves_reachable).
  exists w, tk, s'. split_and!; [exact Hr|by rewrite Ew|exact Hin|done|].
  refine (proj1 (client_and_server_agree (CH := ToyMenu.chrono) (LRESP := ToyConn.wresp_laws) (RT := ToyServer.requests_typed)
    ToyServer.st0 w 0 tk ToyMenu.client id ToyTalk.turns ToyMenu.s0 s' Hr _ Hw eq_refl _ Em _)).
  - by rewrite Ew.
  - vm_compute. repeat constructor.
  - rewrite Hx. vm_compute. reflexivity.
Defined.
