(* ===== verification/Terraform.v ===== *)
(** * Terraform: generating a simulated environment

    Models [terraform/src/lib.rs]: file names, the builder of the three
    directories, the names of the generated files, the thread heuristic, the
    generation of keys and certificates, their distribution over the directories, and
    the three configurations.  The crypto crates and the TOML renderer are parameters;
    the file system is that of [FileSystem]. *)
From S2P Require Import Prelude Bytes Protocol Path FileSystem TimeOracle ServerConfig Client Ca.

(** ** Names *)

Record FileSystemName := MkFileSystemName { fsn : string }.

#[export] Instance FileSystemName_eq_dec : EqDecision FileSystemName.
Proof. solve_decision. Defined.

Inductive FileSystemNameError := InvalidFileName (name : string).

Definition FileSystemName_new (name_ref : string) : result FileSystemName FileSystemNameError :=
  match components name_ref with
  | [Normal _] => Ok (MkFileSystemName name_ref)
  | _ => Err (InvalidFileName name_ref)
  end.

Definition FileSystemName_concat (self suffix : FileSystemName) : FileSystemName :=
  MkFileSystemName (fsn self +:+ fsn suffix)%string.
Definition FileSystemName_as_str (self : FileSystemName) : string := fsn self.

Definition DEFAULT_CLIENT_ENV_SUBDIR : string := "client_env".
Definition DEFAULT_SERVER_ENV_SUBDIR : string := "server_env".
Definition DEFAULT_CA_ENV_SUBDIR : string := "ca_env".
Definition DEFAULT_SERVER_IP_STR : string := "127.0.0.1".
Definition DEFAULT_CA_IP_STR : string := "127.0.0.1".
Definition DEFAULT_SERVER_IP_PORT : Z := 8080.
Definition DEFAULT_CA_IP_PORT : Z := 8081.

(** [.expect(..)] on a [Result]. *)
Definition expect {A E} (msg : string) (r : result A E) : outcome A :=
  match r with Ok a => Done a | Err _ => Panic msg end.

(** ** Directories *)

Record EnvironmentGenerator := {
  client_dir : string; server_dir : string; ca_dir : string; root_dir : string
}.

Record EnvironmentGeneratorBuilder := {
  b_client_dir : option FileSystemName;
  b_server_dir : option FileSystemName;
  b_ca_dir : option FileSystemName;
  b_root_dir : string
}.

Inductive EnvironmentGeneratorBuildError := FoldersMustBeDifferent.

Definition from_simulation_dir (root : string) : EnvironmentGeneratorBuilder :=
  {| b_client_dir := None; b_server_dir := None; b_ca_dir := None; b_root_dir := root |}.
Definition with_client_dir (b : EnvironmentGeneratorBuilder) (d : FileSystemName) :=
  {| b_client_dir := Some d; b_server_dir := b_server_dir b; b_ca_dir := b_ca_dir b;
     b_root_dir := b_root_dir b |}.
Definition with_server_dir (b : EnvironmentGeneratorBuilder) (d : FileSystemName) :=
  {| b_client_dir := b_client_dir b; b_server_dir := Some d; b_ca_dir := b_ca_dir b;
     b_root_dir := b_root_dir b |}.
Definition with_ca_dir (b : EnvironmentGeneratorBuilder) (d : FileSystemName) :=
  {| b_client_dir := b_client_dir b; b_server_dir := b_server_dir b; b_ca_dir := Some d;
     b_root_dir := b_root_dir b |}.

(** [unwrap_or_else(|| FileSystemName::new(DEFAULT).expect(..))] *)
Definition dir_or_default (d : option FileSystemName) (default : string) : outcome FileSystemName :=
  match d with
  | Some d => Done d
  | None => expect (default +:+ " should be convertible into FileSystemName because it's const")
              (FileSystemName_new default)
  end.

(** [paths.any(|path| !seen.insert(path))] on a [HashSet] of paths. *)
Fixpoint any_seen (paths seen : list string) : bool :=
  match paths with
  | [] => false
  | p :: rest => existsb (λ q, bool_decide (path_eq p q)) seen || any_seen rest (p :: seen)
  end.

Definition outcome_bind {A B} (o : outcome A) (k : A → outcome B) : outcome B :=
  match o with Done a => k a | Panic msg => Panic msg end.

Definition builder_build (b : EnvironmentGeneratorBuilder)
    : outcome (result EnvironmentGenerator EnvironmentGeneratorBuildError) :=
  outcome_bind (dir_or_default (b_client_dir b) DEFAULT_CLIENT_ENV_SUBDIR) (λ c,
  outcome_bind (dir_or_default (b_server_dir b) DEFAULT_SERVER_ENV_SUBDIR) (λ s,
  outcome_bind (dir_or_default (b_ca_dir b) DEFAULT_CA_ENV_SUBDIR) (λ a,
  let client_path := join (b_root_dir b) (fsn c) in
  let server_path := join (b_root_dir b) (fsn s) in
  let ca_path := join (b_root_dir b) (fsn a) in
  if any_seen [client_path; server_path; ca_path] [] then Done (Err FoldersMustBeDifferent)
  else Done (Ok {| client_dir := client_path; server_dir := server_path; ca_dir := ca_path;
                   root_dir := b_root_dir b |})))).

Definition build_default (path : string) : outcome EnvironmentGenerator :=
  outcome_bind (builder_build (from_simulation_dir path)) (expect "default values shouldn't fail").

(** ** Files *)

Record AnyServerFiles := {
  tls_cert_name : FileSystemName;
  tls_key_name : FileSystemName;
  sign_pub_key_name : FileSystemName;
  sign_priv_key_name : FileSystemName;
  toml_name : FileSystemName;
  given_prefix : FileSystemName
}.

(** [FileSystemName::new("...").expect("this hardcoded value shouldn't fail")] *)
Definition hardcoded (name : string) : outcome FileSystemName :=
  expect "this hardcoded value shouldn't fail" (FileSystemName_new name).

Definition AnyServerFiles_default (prefix : string)
    : outcome (result AnyServerFiles FileSystemNameError) :=
  match FileSystemName_new prefix with
  | Err e => Done (Err e)
  | Ok safe_prefix =>
      outcome_bind (hardcoded "tls_certificate.pem") (λ cert,
      outcome_bind (hardcoded "tls_private_key.pem") (λ key,
      outcome_bind (hardcoded "rsa_pub_key.pem") (λ pub,
      outcome_bind (hardcoded "rsa_priv_key.pem") (λ priv,
      outcome_bind (hardcoded "config.toml") (λ toml,
      Done (Ok {| tls_cert_name := FileSystemName_concat safe_prefix cert;
                  tls_key_name := FileSystemName_concat safe_prefix key;
                  sign_pub_key_name := FileSystemName_concat safe_prefix pub;
                  sign_priv_key_name := FileSystemName_concat safe_prefix priv;
                  toml_name := FileSystemName_concat safe_prefix toml;
                  given_prefix := safe_prefix |}))))))
  end.

Record ClientFiles := { toml_file : FileSystemName }.
Definition ClientFiles_new (f : FileSystemName) : ClientFiles := {| toml_file := f |}.
Definition ClientFiles_default (f : string) : result ClientFiles FileSystemNameError :=
  let? file := FileSystemName_new f in Ok {| toml_file := file |}.

(** ** The thread heuristic *)

(** What the target offers: the detected features of the two known architectures. *)
Inductive target_arch := X86_64 (adx bmi2 : bool) | Aarch64 (neon aes : bool) | OtherArch.

Definition MIN_THREADS : Z := 2.
Definition MAX_THREADS : Z := 16.

Definition hardware_accelerated (arch : target_arch) : bool :=
  match arch with
  | X86_64 adx bmi2 => negb (negb adx && negb adx && negb bmi2)
  | Aarch64 neon aes => neon || aes
  | OtherArch => false
  end.

(** [parallelism] is [available_parallelism()], [None] for its error. *)
Definition heuristic_working_threads (arch : target_arch) (parallelism : option Z)
    (thread_limits : option (Z * Z)) : bool * Z :=
  let '(min, max) :=
    match thread_limits with
    | Some (min, max) => if max <? min then (max, min) else (min, max)
    | None => (MIN_THREADS, MAX_THREADS)
    end in
  let base_threads := match parallelism with Some n => n / 4 | None => MIN_THREADS end in
  (hardware_accelerated arch, clamp min max base_threads).

(** ** Distribution of the keys *)

Inductive KeyGenError :=
| KeyIo (path text : string)
| KeyRsa (text : string)
| KeyRsaPkcs8 (text : string)
| KeyTls (text : string)
| KeyPem (text : string)
| CACertificateCreation (text : string)
| ServerCertificateCreation (text : string).

Inductive GeneratorCreationError := EqualPrefixes.

Record Generator := {
  server_files : AnyServerFiles;
  ca_files : AnyServerFiles;
  client_files : ClientFiles;
  g_env : EnvironmentGenerator
}.

Definition new_from_files (s c : AnyServerFiles) (cl : ClientFiles) (env : EnvironmentGenerator)
    : result Generator GeneratorCreationError :=
  if decide (given_prefix s = given_prefix c) then Err EqualPrefixes
  else Ok {| server_files := s; ca_files := c; client_files := cl; g_env := env |}.

(** What the generator uses of [rcgen] and [rsa].  A generator of keys draws from the
    entropy it is given. *)
Class KeyGenLib {RC : RcgenLib} {RSA : RsaLib} := {
  KeyPair_generate : Z → result KeyPair string;          (* [generate_for(&PKCS_ED25519)] *)
  serialize_pem : KeyPair → string;
  set_is_ca : CertificateParams → CertificateParams;     (* [IsCa::Ca(Unconstrained)] *)
  self_signed : CertificateParams → KeyPair → result string string;   (* its PEM *)
  Issuer_new : CertificateParams → KeyPair → Issuer;
  params_signed_by : CertificateParams → KeyPair → Issuer → result string string;
  RsaPrivateKey_new : Z → Z → result RsaPrivateKey string;   (* entropy and bits *)
  to_pkcs8_pem : RsaPrivateKey → result string string;
  to_public_key_pem : RsaPublicKey → result string string
}.

(** The entropy of the three key generations. *)
Record entropy := { ent_ca : Z; ent_tls : Z; ent_rsa : Z }.

(** The texts that are written. *)
Record materials := {
  mt_ca_key_pem : string; mt_ca_cert_pem : string;
  mt_server_tls_key_pem : string; mt_server_tls_cert_pem : string;
  mt_server_rsa_priv_pem : string; mt_server_rsa_pub_pem : string
}.

Section Materials.
Context {RC : RcgenLib} {RSA : RsaLib} {KG : KeyGenLib}.

(** The first part of [generate_keys_and_distribute]: everything that is computed
    before the first file is touched. *)
Definition generate_materials (ent : entropy) : result materials KeyGenError :=
  let? ca_keypair := map_err KeyTls (KeyPair_generate (ent_ca ent)) in
  let ca_key_pem := serialize_pem ca_keypair in
  let? ca_params := map_err CACertificateCreation (CertificateParams_new ["Root CA"%string]) in
  let ca_params := dn_push CommonName "CyberSecurity Project"
                     (dn_push OrganizationName "University of Pisa" (set_is_ca ca_params)) in
  let? ca_cert_pem := map_err CACertificateCreation (self_signed ca_params ca_keypair) in
  let ca_issuer := Issuer_new ca_params ca_keypair in
  let? server_tls_keypair := map_err KeyTls (KeyPair_generate (ent_tls ent)) in
  let server_tls_key_pem := serialize_pem server_tls_keypair in
  let? server_tls_params :=
    map_err CACertificateCreation (CertificateParams_new [DEFAULT_SERVER_IP_STR]) in
  let server_tls_params := dn_push CommonName "TSA Server"
                             (dn_push OrganizationName "University of Pisa" server_tls_params) in
  let? server_tls_cert_pem := map_err ServerCertificateCreation
                                (params_signed_by server_tls_params server_tls_keypair ca_issuer) in
  let? server_rsa_priv := map_err KeyRsa (RsaPrivateKey_new (ent_rsa ent) 2048) in
  let server_rsa_pub := RsaPublicKey_from server_rsa_priv in
  let? server_rsa_priv_pem := map_err KeyRsaPkcs8 (to_pkcs8_pem server_rsa_priv) in
  let? server_rsa_pub_pem := map_err KeyPem (to_public_key_pem server_rsa_pub) in
  Ok {| mt_ca_key_pem := ca_key_pem; mt_ca_cert_pem := ca_cert_pem;
        mt_server_tls_key_pem := server_tls_key_pem; mt_server_tls_cert_pem := server_tls_cert_pem;
        mt_server_rsa_priv_pem := server_rsa_priv_pem;
        mt_server_rsa_pub_pem := server_rsa_pub_pem |}.
End Materials.

Definition create_dir (path : string) : fs_io KeyGenError unit :=
  fs_map_err (KeyIo path) (fs_create_dir path).
Definition write_file (dir : string) (filename : FileSystemName) (content : string)
    : fs_io KeyGenError unit :=
  let path := join dir (fsn filename) in
  fs_map_err (KeyIo path) (fs_write path content).

Definition generate_keys_and_distribute {RC : RcgenLib} {RSA : RsaLib} {KG : KeyGenLib}
    (g : Generator) (ent : entropy) : fs_io KeyGenError unit :=
  match generate_materials ent with
  | Err e => λ fs, (Err e, fs)
  | Ok m =>
      let env := g_env g in
      _ ← create_dir (root_dir env);
      _ ← create_dir (ca_dir env);
      _ ← create_dir (server_dir env);
      _ ← create_dir (client_dir env);
      _ ← write_file (ca_dir env) (tls_key_name (ca_files g)) (mt_ca_key_pem m);
      _ ← write_file (ca_dir env) (tls_cert_name (ca_files g)) (mt_ca_cert_pem m);
      _ ← write_file (server_dir env) (tls_key_name (server_files g)) (mt_server_tls_key_pem m);
      _ ← write_file (server_dir env) (tls_cert_name (server_files g)) (mt_server_tls_cert_pem m);
      _ ← write_file (server_dir env) (sign_priv_key_name (server_files g)) (mt_server_rsa_priv_pem m);
      _ ← write_file (server_dir env) (tls_cert_name (ca_files g)) (mt_ca_cert_pem m);
      _ ← write_file (client_dir env) (tls_cert_name (ca_files g)) (mt_ca_cert_pem m);
      _ ← write_file (client_dir env) (sign_pub_key_name (server_files g)) (mt_server_rsa_pub_pem m);
      mret tt
  end.

(** ** Configuration files *)

Inductive TomlGenError :=
| TomlIo (path text : string)
| Canonicalize (name text : string)
| TomlGeneration (text : string).

Inductive GenerationError := KeyGen (e : KeyGenError) | TomlGen (e : TomlGenError).

(** [toml::to_string_pretty] on the three types of configuration. *)
Record toml_render := {
  server_toml : Config → result string string;
  client_toml : ClientConfig → result string string;
  ca_toml : CaConfig → result string string
}.

Definition get_canonical_path (dir : string) (file_name : string) : fs_io TomlGenError string :=
  fs_map_err (Canonicalize file_name) (fs_canonicalize (join dir file_name)).

Definition write_toml (path : string) (rendered : result string string) : fs_io TomlGenError unit :=
  toml ← fs_step (λ fs, (map_err TomlGeneration rendered, fs));
  fs_map_err (TomlIo path) (fs_write path toml).

Definition generate_server_toml (g : Generator) (tr : toml_render) (arch : target_arch)
    (parallelism : option Z) (thread_limits : option (Z * Z)) : fs_io TomlGenError unit :=
  let '(accelerated, n_threads) := heuristic_working_threads arch parallelism thread_limits in
  let dir := server_dir (g_env g) in
  tls_cert_path ← get_canonical_path dir (fsn (tls_cert_name (server_files g)));
  tls_priv_path ← get_canonical_path dir (fsn (tls_key_name (server_files g)));
  tss_priv_path ← get_canonical_path dir (fsn (sign_priv_key_name (server_files g)));
  ca_cert_path ← get_canonical_path dir (fsn (tls_cert_name (ca_files g)));
  let default_synced_time_oracle := {|
    so_ntp_server_host := "pool.ntp.org"; so_ntp_server_port := 123;
    so_listener_ip := "0.0.0.0"; so_listener_port := 0; so_sync_interval_in_minutes := 5 |} in
  write_toml (join dir (fsn (toml_name (server_files g)))) (server_toml tr {|
    network := {| nc_ip := DEFAULT_SERVER_IP_STR; nc_port := DEFAULT_SERVER_IP_PORT |};
    runtime := {| rc_working_threads := n_threads;
                  rc_cryptography_threads := if accelerated : bool then 0 else 1 |};
    keys := {| kc_tls_cert_path := tls_cert_path; kc_tls_priv_path := tls_priv_path;
               kc_tss_priv_path := tss_priv_path; kc_ca_cert_path := ca_cert_path |};
    synced_time_oracle := Some default_synced_time_oracle;
    log := None;
    database_path := None |}).

Definition generate_client_toml (g : Generator) (tr : toml_render) : fs_io TomlGenError unit :=
  let dir := client_dir (g_env g) in
  ca_cert_path ← get_canonical_path dir (fsn (tls_cert_name (ca_files g)));
  pub_key_path ← get_canonical_path dir (fsn (sign_pub_key_name (server_files g)));
  write_toml (join dir (fsn (toml_file (client_files g)))) (client_toml tr {|
    cl_timestamp := {| tc_server_ip := DEFAULT_SERVER_IP_STR;
                       tc_server_port := DEFAULT_SERVER_IP_PORT;
                       tc_server_certificate_name := DEFAULT_SERVER_IP_STR;
                       tc_trust_roots_certificates := false |};
    cl_keys := {| cc_ca_cert_path := ca_cert_path;
                  cc_server_rsa_public_key_path := pub_key_path |} |}).

Definition generate_ca_toml (g : Generator) (tr : toml_render) : fs_io TomlGenError unit :=
  let dir := ca_dir (g_env g) in
  ca_cert_path ← get_canonical_path dir (fsn (tls_cert_name (ca_files g)));
  ca_key_path ← get_canonical_path dir (fsn (tls_key_name (ca_files g)));
  write_toml (join dir (fsn (toml_name (ca_files g)))) (ca_toml tr {|
    ca_network := {| nc_ip := DEFAULT_CA_IP_STR; nc_port := DEFAULT_CA_IP_PORT |};
    ca_keys := {| ck_ca_cert_path := ca_cert_path; ck_ca_key_path := ca_key_path |} |}).

Definition generate_tomls (g : Generator) (tr : toml_render) (arch : target_arch)
    (parallelism : option Z) : fs_io TomlGenError unit :=
  _ ← generate_server_toml g tr arch parallelism None;
  _ ← generate_client_toml g tr;
  generate_ca_toml g tr.

Definition generate_all {RC : RcgenLib} {RSA : RsaLib} {KG : KeyGenLib} (g : Generator)
    (ent : entropy) (tr : toml_render) (arch : target_arch) (parallelism : option Z)
    : fs_io GenerationError unit :=
  _ ← fs_map_err KeyGen (generate_keys_and_distribute g ent);
  _ ← fs_map_err TomlGen (generate_tomls g tr arch parallelism);
  mret tt.

(** ** Names *)

Lemma new_plain n : plain n = true → FileSystemName_new n = Ok (MkFileSystemName n).
Proof. intros Hn. unfold FileSystemName_new. by rewrite plain_components. Qed.

Lemma append_empty s t : (s +:+ t = EmptyString)%string → s = EmptyString ∧ t = EmptyString.
Proof. by destruct s. Qed.

Lemma append_eq_one_dot s t :
  (s +:+ t = one_dot)%string → s = EmptyString ∨ t = EmptyString.
Proof.
  destruct s as [|a s]; [by left|]. rewrite append_cons. intros [= _ E]. apply append_empty in E. tauto.
Qed.

Lemma plain_append s t : plain s = true → plain t = true → plain (s +:+ t)%string = true.
Proof.
  intros (Hs & Hs0 & Hs1 & Hs2)%plain_spec (Ht & Ht0 & Ht1 & Ht2)%plain_spec. apply plain_spec.
  split_and!.
  - by rewrite has_slash_app, Hs, Ht.
  - intros [E _]%append_empty. done.
  - intros [E|E]%append_eq_one_dot; done.
  - destruct s as [|a s]; [done|]. rewrite append_cons. intros [= -> E].
    apply append_eq_one_dot in E as [->|]; [|done]. by destruct Hs1.
Qed.
