(* ===== verification/TerraformSpec.v ===== *)
(** * TerraformSpec: the generated environment is complete and coherent

    Theorems about [Terraform]: which names are accepted and what happens when they
    are concatenated, that the three directories differ, the range of the thread
    heuristic, and that a generation succeeds wherever there is room for it, no file
    replacing another. *)
From S2P Require Import Prelude Bytes Protocol Path FileSystem TimeOracle ServerConfig Client Ca Terraform.

(** File names.  A name without a separator is accepted unless it is empty, [.]
    or [..], and the concatenation of two such names is again one.  The check goes
    by components, so that [dir/] is accepted as well, and then a concatenation
    is a path with two components, which the check refuses. *)
Theorem file_system_names :
  (∀ n, has_slash n = false → is_ok (FileSystemName_new n) = plain n) ∧
  (∀ a b, plain (fsn a) = true → plain (fsn b) = true →
     FileSystemName_new (fsn (FileSystemName_concat a b)) = Ok (FileSystemName_concat a b)) ∧
  (∃ a b, FileSystemName_new "dir/" = Ok a ∧ FileSystemName_new "file" = Ok b ∧
     is_ok (FileSystemName_new (fsn (FileSystemName_concat a b))) = false).
Proof.
  split_and!.
  - intros n Hn. unfold FileSystemName_new, plain. rewrite components_no_slash, Hn by done.
    by repeat (case_decide; [rewrite (bool_decide_true (n = _)) by done; rewrite ?andb_false_r
      |rewrite (bool_decide_false (n = _)) by done]).
  - intros a b Ha Hb. rewrite new_plain; [done|]. by apply plain_append.
  - eexists _, _. split_and!; vm_compute; reflexivity.
Qed.

(** ** Directories *)

Definition dirs_differ (env : EnvironmentGenerator) : Prop :=
  ¬ path_eq (client_dir env) (server_dir env) ∧
  ¬ path_eq (client_dir env) (ca_dir env) ∧ ¬ path_eq (server_dir env) (ca_dir env).

Lemma any_seen_false a b c :
  any_seen [a; b; c] [] = false → ¬ path_eq a b ∧ ¬ path_eq a c ∧ ¬ path_eq b c.
Proof.
  cbn. rewrite !orb_false_r, !orb_false_iff, !bool_decide_eq_false.
  intros (H1 & H2 & H3). split_and!; intros E; [apply H1|apply H3|apply H2]; by symmetry.
Qed.

(** A build that succeeds yields three directories that differ as paths, each
    inside the root; and the default build succeeds for every root. *)
Theorem environment_directories_differ (b : EnvironmentGeneratorBuilder) (env : EnvironmentGenerator) :
  builder_build b = Done (Ok env) →
  dirs_differ env ∧ root_dir env = b_root_dir b ∧
  (∀ path, ∃ env', build_default path = Done env' ∧ root_dir env' = path ∧ dirs_differ env').
Proof.
  assert (∀ b env, builder_build b = Done (Ok env) → dirs_differ env ∧ root_dir env = b_root_dir b)
    as Hb.
  { clear. intros b env. unfold builder_build.
    destruct (dir_or_default (b_client_dir b) _) as [c|]; [|done].
    destruct (dir_or_default (b_server_dir b) _) as [s|]; [|done].
    destruct (dir_or_default (b_ca_dir b) _) as [a|]; [|done]. cbn -[any_seen].
    destruct (any_seen _ _) eqn:E; [done|]. intros [= <-]. split; [|done].
    by apply any_seen_false in E. }
  intros H. destruct (Hb _ _ H). split_and!; [done..|]. intros path.
  assert (∃ env', builder_build (from_simulation_dir path) = Done (Ok env')) as [env' E].
  { unfold builder_build, dir_or_default, from_simulation_dir.
    cbn [b_client_dir b_server_dir b_ca_dir b_root_dir].
    rewrite !new_plain by reflexivity. cbn -[any_seen].
    destruct (any_seen _ _) eqn:Eseen; [exfalso|by eexists].
    cbn in Eseen. rewrite !orb_false_r, !orb_true_iff, !bool_decide_eq_true in Eseen.
    destruct Eseen as [Ep|[Ep|Ep]]; by apply join_inj in Ep as [_ ?]. }
  exists env'. unfold build_default. rewrite E. destruct (Hb _ _ E). done.
Qed.

Lemma environment_directories_differ_witness :
  ∃ env, builder_build (with_ca_dir (from_simulation_dir "sim") (MkFileSystemName "authority"))
           = Done (Ok env) ∧ dirs_differ env.
Proof.
  eexists. split; [vm_compute; reflexivity|].
  refine (proj1 (environment_directories_differ
    (with_ca_dir (from_simulation_dir "sim") (MkFileSystemName "authority")) _ _)).
  vm_compute. reflexivity.
Defined.

(** The number of worker threads lies between the two limits, in whichever
    order they are given; without limits it is a quarter of the parallelism,
    kept between 2 and 16, so never zero. *)
Theorem heuristic_threads_bounds (arch : target_arch) (parallelism : option Z)
    (limits : option (Z * Z)) :
  let n := (heuristic_working_threads arch parallelism limits).2 in
  match limits with
  | Some (a, b) => Z.min a b ≤ n ≤ Z.max a b
  | None => 2 ≤ n ≤ 16 ∧
      ∀ p, parallelism = Some p → 8 ≤ p → p / 4 ≤ 16 → n = p / 4
  end.
Proof.
  destruct limits as [[a b]|]; cbn zeta; unfold heuristic_working_threads.
  - destruct (Z.ltb_spec b a); cbn; match goal with |- context [clamp ?l ?h ?z] =>
      pose proof (clamp_spec l h z ltac:(lia)) end; lia.
  - cbn. split; [apply clamp_spec; unfold MIN_THREADS, MAX_THREADS; lia|].
    intros p -> Hp H16. apply clamp_id. unfold MIN_THREADS, MAX_THREADS.
    split; [|done]. apply Z.div_le_lower_bound; lia.
Qed.

(** ** Generation *)

(** *** The names *)

Definition files_of (p : string) : AnyServerFiles := {|
  tls_cert_name := MkFileSystemName (p +:+ "tls_certificate.pem");
  tls_key_name := MkFileSystemName (p +:+ "tls_private_key.pem");
  sign_pub_key_name := MkFileSystemName (p +:+ "rsa_pub_key.pem");
  sign_priv_key_name := MkFileSystemName (p +:+ "rsa_priv_key.pem");
  toml_name := MkFileSystemName (p +:+ "config.toml");
  given_prefix := MkFileSystemName p
|}.

Lemma default_files p : plain p = true → AnyServerFiles_default p = Done (Ok (files_of p)).
Proof.
  intros Hp. unfold AnyServerFiles_default, hardcoded. rewrite new_plain by done.
  rewrite !new_plain by reflexivity. done.
Qed.

Lemma append_cancel_l (p s t : string) : (p +:+ s = p +:+ t)%string → s = t.
Proof. induction p as [|a p IH]; [done|]. rewrite !append_cons. intros [= E]. by apply IH. Qed.

(** Two strings with a common continuation on the right: one suffix ends the other. *)
Lemma append_suffix (p q s t : string) :
  (p +:+ s = q +:+ t)%string → (∃ l, s = l +:+ t)%string ∨ (∃ l, t = l +:+ s)%string.
Proof.
  revert q. induction p as [|a p IH]; intros q E.
  - left. exists q. exact E.
  - destruct q as [|b q].
    + right. exists (String a p). by rewrite E.
    + rewrite !append_cons in E. injection E as _ E. by apply IH in E.
Qed.

Fixpoint is_suffix (s t : string) : bool :=
  String.eqb s t || match t with EmptyString => false | String _ t => is_suffix s t end.

Lemma is_suffix_app l s : is_suffix s (l +:+ s) = true.
Proof.
  induction l as [|a l IH].
  - rewrite append_nil. destruct s; cbn; by rewrite ?Ascii.eqb_refl, ?String.eqb_refl.
  - rewrite append_cons. cbn [is_suffix]. rewrite IH. apply orb_true_r.
Qed.

(** Names with suffixes of which neither ends the other differ, whatever precedes. *)
Lemma names_differ p q s t :
  is_suffix s t = false → is_suffix t s = false → (p +:+ s ≠ q +:+ t)%string.
Proof.
  intros H1 H2 [[l ->]|[l ->]]%append_suffix; by rewrite is_suffix_app in *.
Qed.

Lemma append_cancel_r (p q s : string) : (p +:+ s = q +:+ s)%string → p = q.
Proof.
  revert q. induction p as [|a p IH]; intros [|b q] E; [done| | |].
  - exfalso. apply (f_equal String.length) in E. rewrite !append_length in E. cbn in E. lia.
  - exfalso. apply (f_equal String.length) in E. rewrite !append_length in E. cbn in E. lia.
  - rewrite !append_cons in E. injection E as -> E. f_equal. by apply IH.
Qed.

(** *** A whole generation *)

Section Environment.
Context (root c s a p q : string).

Definition the_env : EnvironmentGenerator := {|
  client_dir := join root c; server_dir := join root s; ca_dir := join root a; root_dir := root |}.
Definition the_generator : Generator := {|
  server_files := files_of p; ca_files := files_of q;
  client_files := ClientFiles_new (MkFileSystemName "config.toml"); g_env := the_env |}.

(** Every file: directory, name and content, the last written first. *)
Definition written (m : materials) (ts tc ta : string) : list ((string * string) * string) :=
  [((a, q +:+ "config.toml"), ta); ((c, "config.toml"), tc); ((s, p +:+ "config.toml"), ts);
   ((c, p +:+ "rsa_pub_key.pem"), mt_server_rsa_pub_pem m);
   ((c, q +:+ "tls_certificate.pem"), mt_ca_cert_pem m);
   ((s, q +:+ "tls_certificate.pem"), mt_ca_cert_pem m);
   ((s, p +:+ "rsa_priv_key.pem"), mt_server_rsa_priv_pem m);
   ((s, p +:+ "tls_certificate.pem"), mt_server_tls_cert_pem m);
   ((s, p +:+ "tls_private_key.pem"), mt_server_tls_key_pem m);
   ((a, q +:+ "tls_certificate.pem"), mt_ca_cert_pem m);
   ((a, q +:+ "tls_private_key.pem"), mt_ca_key_pem m)]%string.

(** The path of a file, by its directory and name. *)
Definition path_of (f : string * string) : string := join (join root f.1) f.2.

(** The three configurations that are written. *)
Definition the_server_config (n_threads crypto : Z) : Config := {|
  network := {| nc_ip := "127.0.0.1"; nc_port := 8080 |};
  runtime := {| rc_working_threads := n_threads; rc_cryptography_threads := crypto |};
  keys := {| kc_tls_cert_path := path_of (s, p +:+ "tls_certificate.pem");
             kc_tls_priv_path := path_of (s, p +:+ "tls_private_key.pem");
             kc_tss_priv_path := path_of (s, p +:+ "rsa_priv_key.pem");
             kc_ca_cert_path := path_of (s, q +:+ "tls_certificate.pem") |};
  synced_time_oracle := Some {|
    so_ntp_server_host := "pool.ntp.org"; so_ntp_server_port := 123;
    so_listener_ip := "0.0.0.0"; so_listener_port := 0; so_sync_interval_in_minutes := 5 |};
  log := None; database_path := None |}%string.
Definition the_client_config : ClientConfig := {|
  cl_timestamp := {| tc_server_ip := "127.0.0.1"; tc_server_port := 8080;
                     tc_server_certificate_name := "127.0.0.1";
                     tc_trust_roots_certificates := false |};
  cl_keys := {| cc_ca_cert_path := path_of (c, q +:+ "tls_certificate.pem");
                cc_server_rsa_public_key_path := path_of (c, p +:+ "rsa_pub_key.pem") |} |}%string.
Definition the_ca_config : CaConfig := {|
  ca_network := {| nc_ip := "127.0.0.1"; nc_port := 8081 |};
  ca_keys := {| ck_ca_cert_path := path_of (a, q +:+ "tls_certificate.pem");
                ck_ca_key_path := path_of (a, q +:+ "tls_private_key.pem") |} |}%string.

(** The threads of the server: a quarter of the machine, and one for cryptography
    unless the hardware helps. *)
Definition chosen_config (arch : target_arch) (par : option Z) : Config :=
  let '(accelerated, n) := heuristic_working_threads arch par None in
  the_server_config n (if accelerated : bool then 0 else 1).

Definition renders (tr : toml_render) (arch : target_arch) (par : option Z) (ts tc ta : string) : Prop :=
  server_toml tr (chosen_config arch par) = Ok ts ∧ client_toml tr the_client_config = Ok tc ∧
  ca_toml tr the_ca_config = Ok ta.

End Environment.

Section Generation.
Context {RC : RcgenLib} {RSA : RsaLib} {KG : KeyGenLib}.
Context (root c s a p q : string) (R : location).
Context (Hc : plain c = true) (Hs : plain s = true) (Ha : plain a = true).
Context (Hp : plain p = true) (Hq : plain q = true).
Context (Hcs : c ≠ s) (Hca : c ≠ a) (Hsa : s ≠ a) (Hpq : p ≠ q).

Abbreviation written := (written c s a p q).
Abbreviation the_generator := (the_generator root c s a p q).

(** The place of a file below the root. *)
Definition place (f : string * string) : location := R ++ [f.1; f.2].

Lemma pair_ne (d1 d2 n1 n2 : string) : d1 ≠ d2 ∨ n1 ≠ n2 → (d1, n1) ≠ (d2, n2).
Proof. naive_solver. Qed.

Ltac names_ne :=
  apply pair_ne;
  first [ left; by auto
        | right; apply names_differ; reflexivity
        | right; apply (names_differ EmptyString); reflexivity
        | right; intros E%append_cancel_r; by auto ].

Lemma written_distinct m ts tc ta : NoDup (written m ts tc ta).*1.
Proof using Hcs Hca Hsa Hpq.
  unfold TerraformSpec.written. cbn [fmap list_fmap fst].
  repeat (apply NoDup_cons_2;
    [repeat (apply not_elem_of_cons; split; [names_ne|]); apply not_elem_of_nil|]).
  apply NoDup_nil_2.
Qed.

Lemma written_plain m ts tc ta :
  Forall (λ f, plain f.1.1 = true ∧ plain f.1.2 = true) (written m ts tc ta).
Proof using Hc Hs Ha Hp Hq.
  repeat (constructor; [split; [done|first [reflexivity|by apply plain_append]]|]). constructor.
Qed.

(** Files put in place, the last of the list first. *)
Definition install (l : list ((string * string) * string)) (files : gmap location string)
    : gmap location string :=
  foldr (λ f files, <[place f.1 := f.2]> files) files l.

Lemma install_lookup l files f :
  NoDup l.*1 → f ∈ l → install l files !! place f.1 = Some f.2.
Proof.
  induction l as [|g l IH]; [by intros _ ?%elem_of_nil|]. rewrite fmap_cons.
  intros [Hn Hnd]%list.NoDup_cons [->|Hin]%elem_of_cons; cbn; [by rewrite lookup_insert_eq|].
  rewrite lookup_insert_ne; [by apply IH|]. intros E%app_inv_head. apply Hn.
  assert (g.1 = f.1) as -> by (destruct g as [[] ?], f as [[] ?]; cbn in *; congruence).
  by apply list_elem_of_fmap_2.
Qed.

Lemma install_other l files x : ¬ R `prefix_of` x → install l files !! x = files !! x.
Proof.
  intros Hx. induction l as [|g l IH]; cbn; [done|]. rewrite lookup_insert_ne; [done|].
  intros <-. apply Hx. by eexists.
Qed.

(** *** The directories *)

Context (fs0 : filesystem) (Hok : fs_ok fs0) (Hfaults : fs_faults fs0 = []).
Context (Hroot : entry fs0 root = Ok R) (Hfree : occupied R fs0 = false).

(** The tree with the four directories, and with the given files. *)
Definition new_dirs : gset location := {[R ++ [c]]} ∪ ({[R ++ [s]]} ∪ ({[R ++ [a]]} ∪ ({[R]} ∪ fs_dirs fs0))).
Definition layout (files : gmap location string) : filesystem :=
  {| fs_cwd := fs_cwd fs0; fs_dirs := new_dirs; fs_files := files; fs_faults := [] |}.

Lemma nothing_below l : occupied (R ++ l) fs0 = false.
Proof using Hok Hfree. by apply free_below. Qed.

Lemma root_ne_below (n : string) : R ++ [n] ≠ R.
Proof. intros E. apply (f_equal length) in E. rewrite length_app in E. cbn in E. lia. Qed.

(** A directory below the root, while the four are made. *)
Lemma run_sub_dir n dirs :
  plain n = true → R ∈ dirs → fs_dirs fs0 ⊆ dirs → R ++ [n] ∉ dirs →
  create_dir (join root n) (set_dirs dirs fs0) = (Ok tt, set_dirs ({[R ++ [n]]} ∪ dirs) fs0).
Proof using Hok Hfaults Hroot Hfree.
  intros Hn HR Hsub Hnew. apply map_err_ok_run.
  assert (entry (set_dirs dirs fs0) (join root n) = Ok (R ++ [n])) as He
    by (eapply entry_join; [done|by eapply (entry_mono fs0)|done]).
  rewrite (run_create_dir _ (set_dirs dirs fs0) _ Hfaults He); [done|]. apply not_occupied. split; [done|].
  by apply (not_occupied (R ++ [n]) fs0), nothing_below.
Qed.

Lemma run_root_dir : create_dir root fs0 = (Ok tt, set_dirs ({[R]} ∪ fs_dirs fs0) fs0).
Proof using Hfaults Hroot Hfree. apply map_err_ok_run. by apply run_create_dir. Qed.

Lemma below_not_old n : R ++ [n] ∉ fs_dirs fs0.
Proof using Hok Hfree. by apply (not_occupied (R ++ [n]) fs0), nothing_below. Qed.

Lemma below_fresh (n : string) (dirs : gset location) :
  R ++ [n] ∉ dirs → R ++ [n] ∉ ({[R]} ∪ dirs : gset location).
Proof.
  intros Hd. rewrite not_elem_of_union, not_elem_of_singleton. split; [apply root_ne_below|done].
Qed.
Lemma sibling_fresh (n n' : string) (dirs : gset location) :
  n ≠ n' → R ++ [n] ∉ dirs → R ++ [n] ∉ ({[R ++ [n']]} ∪ dirs).
Proof.
  intros Hn Hd. rewrite not_elem_of_union, not_elem_of_singleton. split; [|done].
  intros E%app_inv_head. congruence.
Qed.

(** *** The files *)

Lemma new_dirs_root : R ∈ new_dirs.
Proof. unfold new_dirs. clear. set_solver. Qed.
Lemma new_dirs_old : fs_dirs fs0 ⊆ new_dirs.
Proof. unfold new_dirs. clear. set_solver. Qed.
Lemma new_dirs_sub d : d ∈ [c; s; a] → R ++ [d] ∈ new_dirs.
Proof. unfold new_dirs. clear. set_solver. Qed.
Lemma dir_plain d : d ∈ [c; s; a] → plain d = true.
Proof using Hc Hs Ha. rewrite !elem_of_cons, elem_of_nil. by intros [->|[->|[->|[]]]]. Qed.

Lemma layout_root files : entry (layout files) root = Ok R.
Proof using Hroot. eapply entry_mono; [..|exact Hroot]; [done|]. apply new_dirs_old. Qed.

Lemma layout_dir files d :
  d ∈ [c; s; a] → entry (layout files) (join root d) = Ok (R ++ [d]) ∧ R ++ [d] ∈ fs_dirs (layout files).
Proof using Hroot Hc Hs Ha.
  intros Hd. split; [|by apply new_dirs_sub].
  apply entry_join; [by apply dir_plain|apply layout_root|apply new_dirs_root].
Qed.

Lemma layout_deep d n : R ++ [d; n] ∉ new_dirs.
Proof using Hok Hfree.
  pose proof (proj1 (proj1 (not_occupied _ _) (nothing_below [d; n]))) as H0. unfold new_dirs.
  rewrite !not_elem_of_union, !not_elem_of_singleton.
  split_and!; [intros E%app_inv_head; congruence..| |done].
  intros E. apply (f_equal length) in E. rewrite length_app in E. cbn in E. lia.
Qed.

Lemma run_write_in d n content files :
  d ∈ [c; s; a] → plain n = true →
  fs_write (join (join root d) n) content (layout files)
    = (Ok tt, layout (<[place (d, n) := content]> files)).
Proof using Hroot Hok Hfree Hc Hs Ha.
  intros Hd Hn. destruct (layout_dir files d Hd) as [He HR]. unfold place. cbn [fst snd].
  change (R ++ [d; n]) with (R ++ ([d] ++ [n])). rewrite app_assoc.
  rewrite (run_write _ n content (layout files) (R ++ [d])) by first
    [done | rewrite <- app_assoc; apply layout_deep]. done.
Qed.

Lemma run_write_file d n content files :
  d ∈ [c; s; a] → plain n = true →
  write_file (join root d) (MkFileSystemName n) content (layout files)
    = (Ok tt, layout (<[place (d, n) := content]> files)).
Proof using Hroot Hok Hfree Hc Hs Ha. intros Hd Hn. by apply map_err_ok_run, run_write_in. Qed.

Lemma run_canonical d n files :
  d ∈ [c; s; a] → plain n = true → is_Some (files !! place (d, n)) →
  get_canonical_path (join root d) n (layout files)
    = (Ok (join (join (abs_path R) d) n), layout files).
Proof using Hroot Hc Hs Ha.
  intros Hd Hn Hf. destruct (layout_dir files d Hd) as [He HR]. apply map_err_ok_run.
  rewrite (run_canonicalize _ n (layout files) (R ++ [d])); try done.
  - unfold abs_path. by rewrite foldl_app.
  - apply occupied_spec. right. by rewrite <- app_assoc.
Qed.

(** The three directories of the environment. *)
Lemma run_three_dirs {A} (k : unit → fs_io KeyGenError A) :
  (_ ← create_dir (join root a); _ ← create_dir (join root s); x ← create_dir (join root c); k x)
    (set_dirs ({[R]} ∪ fs_dirs fs0) fs0) = k tt (layout (fs_files fs0)).
Proof using Hc Hs Ha Hcs Hca Hsa Hok Hfaults Hroot Hfree.
  set (D1 := {[R]} ∪ fs_dirs fs0). set (D2 := {[R ++ [a]]} ∪ D1). set (D3 := {[R ++ [s]]} ∪ D2).
  assert (∀ n, R ++ [n] ∉ D1) as H1 by (intros n; apply below_fresh, below_not_old).
  assert (∀ n, n ≠ a → R ++ [n] ∉ D2) as H2 by (intros n Hn; by apply sibling_fresh).
  assert (R ++ [c] ∉ D3) as H3 by (apply sibling_fresh; auto).
  assert (R ∈ D1 ∧ R ∈ D2 ∧ R ∈ D3) as (HR1 & HR2 & HR3) by (subst D1 D2 D3; clear; set_solver).
  assert (fs_dirs fs0 ⊆ D1 ∧ fs_dirs fs0 ⊆ D2 ∧ fs_dirs fs0 ⊆ D3) as (HD1 & HD2 & HD3)
    by (subst D1 D2 D3; clear; set_solver).
  rewrite (bind_ok _ _ _ _ _ (run_sub_dir a D1 Ha HR1 HD1 (H1 a))).
  rewrite (bind_ok _ _ _ _ _ (run_sub_dir s D2 Hs HR2 HD2 (H2 s Hsa))).
  rewrite (bind_ok _ _ _ _ _ (run_sub_dir c D3 Hc HR3 HD3 H3)).
  f_equal. unfold layout, set_dirs. by rewrite Hfaults.
Qed.

Lemma run_keys ent m :
  generate_materials ent = Ok m →
  generate_keys_and_distribute the_generator ent fs0 =
    (Ok tt, layout (install (drop 3 (written m EmptyString EmptyString EmptyString)) (fs_files fs0))).
Proof using Hc Hs Ha Hp Hq Hcs Hca Hsa Hpq Hok Hfaults Hroot Hfree.
  intros Hm. unfold generate_keys_and_distribute. rewrite Hm.
  cbn [TerraformSpec.the_generator g_env the_env root_dir ca_dir server_dir client_dir].
  rewrite (bind_ok _ _ _ _ _ run_root_dir).
  rewrite run_three_dirs.
  do 8 (erewrite bind_ok; [|apply run_write_file;
    [set_solver|first [reflexivity | by apply plain_append]]]). reflexivity.
Qed.

(** Whatever has been written so far is there. *)
Lemma read_written m ts tc ta j files f :
  f ∈ drop j (written m ts tc ta) →
  install (drop j (written m ts tc ta)) files !! place f.1 = Some f.2.
Proof using Hcs Hca Hsa Hpq.
  intros Hf. apply install_lookup; [|done].
  rewrite fmap_drop. eapply sublist_NoDup; [apply (written_distinct m ts tc ta)|apply sublist_drop].
Qed.

Lemma run_write_toml d n rendered toml files :
  d ∈ [c; s; a] → plain n = true → rendered = Ok toml →
  write_toml (join (join root d) n) rendered (layout files)
    = (Ok tt, layout (<[place (d, n) := toml]> files)).
Proof using Hroot Hok Hfree Hc Hs Ha.
  intros Hd Hn ->. unfold write_toml. erewrite bind_ok by reflexivity.
  by apply map_err_ok_run, run_write_in.
Qed.

(** The paths a configuration names exist when it is written. *)
Ltac is_plain := first [assumption | reflexivity | by apply plain_append].
Ltac canonical m ts tc ta j f :=
  erewrite bind_ok; [|apply run_canonical; [set_solver|is_plain|eexists;
    apply (read_written m ts tc ta j (fs_files fs0) f); cbn; rewrite !elem_of_cons; tauto]].

Lemma run_tomls m tr arch par ts tc ta :
  renders (abs_path R) c s a p q tr arch par ts tc ta →
  generate_tomls the_generator tr arch par
    (layout (install (drop 3 (written m EmptyString EmptyString EmptyString)) (fs_files fs0))) =
  (Ok tt, layout (install (written m ts tc ta) (fs_files fs0))).
Proof using Hc Hs Ha Hp Hq Hcs Hca Hsa Hpq Hok Hroot Hfree Hfaults.
  intros (E1 & E2 & E3). unfold generate_tomls, generate_server_toml, chosen_config in *.
  destruct (heuristic_working_threads arch par None) as [acc n].
  cbn [TerraformSpec.the_generator g_env the_env server_dir client_dir ca_dir server_files ca_files client_files
       files_of fsn tls_cert_name tls_key_name sign_priv_key_name sign_pub_key_name toml_name
       ClientFiles_new toml_file].
  pose (stage j := layout (install (drop j (written m ts tc ta)) (fs_files fs0))).
  change (layout (install (drop 3 (written m EmptyString EmptyString EmptyString)) (fs_files fs0)))
    with (stage 3%nat).
  change (layout (install (written m ts tc ta) (fs_files fs0))) with (stage 0%nat).
  rewrite (bind_ok _ _ (stage 3%nat) tt (stage 2%nat)).
  2:{ canonical m ts tc ta 3%nat ((s, p +:+ "tls_certificate.pem")%string, mt_server_tls_cert_pem m).
    canonical m ts tc ta 3%nat ((s, p +:+ "tls_private_key.pem")%string, mt_server_tls_key_pem m).
    canonical m ts tc ta 3%nat ((s, p +:+ "rsa_priv_key.pem")%string, mt_server_rsa_priv_pem m).
    canonical m ts tc ta 3%nat ((s, q +:+ "tls_certificate.pem")%string, mt_ca_cert_pem m).
    by apply (run_write_toml s (p +:+ "config.toml")); [set_solver|is_plain|]. }
  rewrite (bind_ok _ _ (stage 2%nat) tt (stage 1%nat)).
  2:{ unfold generate_client_toml. cbn [TerraformSpec.the_generator ca_files files_of server_files tls_cert_name
        sign_pub_key_name client_files ClientFiles_new toml_file fsn g_env the_env client_dir].
    canonical m ts tc ta 2%nat ((c, q +:+ "tls_certificate.pem")%string, mt_ca_cert_pem m).
    canonical m ts tc ta 2%nat ((c, p +:+ "rsa_pub_key.pem")%string, mt_server_rsa_pub_pem m).
    by apply (run_write_toml c "config.toml"); [set_solver|is_plain|]. }
  unfold generate_ca_toml.
  cbn [TerraformSpec.the_generator ca_files files_of toml_name tls_cert_name tls_key_name fsn g_env the_env ca_dir].
  canonical m ts tc ta 1%nat ((a, q +:+ "tls_certificate.pem")%string, mt_ca_cert_pem m).
  canonical m ts tc ta 1%nat ((a, q +:+ "tls_private_key.pem")%string, mt_ca_key_pem m).
  by apply (run_write_toml a (q +:+ "config.toml")); [set_solver|is_plain|].
Qed.

Lemma run_generation ent m tr arch par ts tc ta :
  generate_materials ent = Ok m → renders (abs_path R) c s a p q tr arch par ts tc ta →
  generate_all the_generator ent tr arch par fs0
    = (Ok tt, layout (install (written m ts tc ta) (fs_files fs0))).
Proof using Hc Hs Ha Hp Hq Hcs Hca Hsa Hpq Hok Hroot Hfree Hfaults.
  intros Hm Ht. unfold generate_all. erewrite bind_ok; [|by apply map_err_ok_run, run_keys].
  erewrite bind_ok; [|by apply map_err_ok_run, run_tomls]. done.
Qed.

(** *** Reading it back *)

(** The canonical path of the root leads to it from everywhere. *)
Lemma layout_abs_path cwd files : entry (chdir cwd (layout files)) (abs_path R) = Ok R.
Proof using Hok Hroot Hfree.
  destruct (entry_free fs0 root R Hok Hroot Hfree) as (P & n & E & HP & Hn). rewrite E.
  apply entry_abs_path.
  - apply Forall_app. split; [|by repeat constructor]. apply (ok_names fs0 Hok), occupied_spec. by left.
  - intros l' [k Hk] Hne. destruct k as [|x k _] using rev_ind; [by rewrite app_nil_r in Hk|].
    rewrite app_assoc in Hk. apply app_inj_tail in Hk as [-> _].
    apply new_dirs_old.
    destruct (decide (k = [])) as [->|]; [by rewrite app_nil_r in HP|].
    eapply ok_prefix; [done| |done]. apply occupied_spec. left. exact HP.
Qed.

(** A file of the layout, by the path of its root. *)
Lemma layout_reads base fs files d n content :
  entry fs base = Ok R → fs_dirs fs = new_dirs → fs_files fs = files → d ∈ [c; s; a] → plain n = true →
  files !! place (d, n) = Some content → read_back (path_of base (d, n)) fs = Some content.
Proof using Hc Hs Ha.
  intros He Hd Hf Hin Hn Hl. unfold read_back, path_of. cbn [fst snd].
  rewrite (locate_join fs (join base d) (R ++ [d])); [|done| |rewrite Hd; by apply new_dirs_sub].
  - rewrite Hf, <- app_assoc. exact Hl.
  - apply entry_join; [by apply dir_plain|done|]. rewrite Hd. apply new_dirs_root.
Qed.

Lemma written_dir m ts tc ta f : f ∈ written m ts tc ta → f.1.1 ∈ [c; s; a] ∧ plain f.1.2 = true.
Proof using Hc Hs Ha Hp Hq.
  intros Hf. pose proof (written_plain m ts tc ta) as H. rewrite List.Forall_forall in H.
  split; [|by apply H, list_elem_of_In]. unfold TerraformSpec.written in Hf. cbn in Hf.
  repeat (apply elem_of_cons in Hf as [->|Hf]; [cbn; clear; set_solver|]). by apply elem_of_nil in Hf.
Qed.

Lemma generated_reads m ts tc ta f :
  f ∈ written m ts tc ta →
  let fs := layout (install (written m ts tc ta) (fs_files fs0)) in
  read_back (path_of root f.1) fs = Some f.2 ∧
  ∀ cwd, read_back (path_of (abs_path R) f.1) (chdir cwd fs) = Some f.2.
Proof using Hc Hs Ha Hp Hq Hcs Hca Hsa Hpq Hok Hroot Hfree Hfaults.
  intros Hf fs. destruct (written_dir _ _ _ _ _ Hf) as [Hd Hn].
  pose proof (read_written m ts tc ta 0 (fs_files fs0) f Hf) as Hl. destruct f as [[d n] content].
  split; [|intros cwd]; eapply layout_reads; try done; [apply layout_root|apply layout_abs_path].
Qed.

(** The files are the eleven and those that were there. *)
Lemma install_union l files :
  install l files = list_to_map ((λ f, (place f.1, f.2)) <$> l) ∪ files.
Proof.
  induction l as [|f l IH]; [cbn; by rewrite (left_id_L ∅ (∪))|].
  change (install (f :: l) files) with (<[place f.1 := f.2]> (install l files)).
  by rewrite fmap_cons, list_to_map_cons, <- insert_union_l, IH.
Qed.
End Generation.

(** A generator that was accepted is the one of its two prefixes. *)
Lemma accepted_generator root c s a p q sf cf g :
  plain p = true → plain q = true → p ≠ q →
  AnyServerFiles_default p = Done (Ok sf) → AnyServerFiles_default q = Done (Ok cf) →
  new_from_files sf cf (ClientFiles_new (MkFileSystemName "config.toml")) (the_env root c s a) = Ok g →
  g = the_generator root c s a p q.
Proof.
  intros Hp Hq Hpq Hsf Hcf Hg.
  rewrite default_files in Hsf, Hcf by done. injection Hsf as <-. injection Hcf as <-.
  unfold new_from_files in Hg. rewrite decide_False in Hg by (cbn; congruence). by injection Hg as <-.
Qed.

(** C35: the generation is complete.  With plain names for the three directories,
    all different, and two different plain prefixes, on any tree without faults in which
    the parent of the root exists and nothing is at the root, [generate_all] succeeds once
    the keys are made: every directory is made before what goes into it, and the
    configurations are rendered after the files they name exist, with the absolute paths
    of these.  Afterwards the tree is the old one with four directories and eleven files,
    and each of the eleven holds its own content, whether it is reached by the path that was
    given or by the absolute one from any working directory. *)
Theorem generate_all_complete {RC : RcgenLib} {RSA : RsaLib} {KG : KeyGenLib}
    (root c s a p q : string) (sf cf : AnyServerFiles) (g : Generator) (ent : entropy)
    (m : materials) (tr : toml_render) (arch : target_arch) (par : option Z)
    (ts tc ta : string) (fs : filesystem) (R : location) :
  plain c = true → plain s = true → plain a = true → plain p = true → plain q = true →
  c ≠ s → c ≠ a → s ≠ a → p ≠ q →
  AnyServerFiles_default p = Done (Ok sf) → AnyServerFiles_default q = Done (Ok cf) →
  new_from_files sf cf (ClientFiles_new (MkFileSystemName "config.toml")) (the_env root c s a) = Ok g →
  generate_materials ent = Ok m → renders (abs_path R) c s a p q tr arch par ts tc ta →
  fs_ok fs → fs_faults fs = [] → entry fs root = Ok R → occupied R fs = false →
  ∃ fs', generate_all g ent tr arch par fs = (Ok tt, fs') ∧
    fs_dirs fs' = {[R; R ++ [c]; R ++ [s]; R ++ [a]]} ∪ fs_dirs fs ∧
    fs_files fs' = list_to_map ((λ f, (place R f.1, f.2)) <$> written c s a p q m ts tc ta)
                   ∪ fs_files fs ∧
    Forall (λ f, read_back (path_of root f.1) fs' = Some f.2 ∧
                 ∀ cwd, read_back (path_of (abs_path R) f.1) (chdir cwd fs') = Some f.2)
      (written c s a p q m ts tc ta).
Proof.
  intros Hc Hs Ha Hp Hq Hcs Hca Hsa Hpq Hsf Hcf Hg Hm Ht Hok Hfaults Hroot Hfree.
  rewrite (accepted_generator root c s a p q sf cf g) by done.
  eexists. split; [by apply (run_generation root c s a p q R)|]. split_and!.
  - cbn. unfold new_dirs. set_solver.
  - apply install_union.
  - apply Forall_forall. intros f Hin%list_elem_of_In.
    by apply (generated_reads root c s a p q R).
Qed.

Module ToyTerraform.
(** Crates whose keys are their entropy and whose texts are short. *)
Definition rcgen : RcgenLib := {|
  KeyPair := Z; PublicKey := Z; Issuer := Z; CsrParams := Z; CertificateParams := list string;
  public_key := id; cert_public_key _ := None; KeyPair_from_pem _ := Ok 0;
  Issuer_from_ca_cert_pem _ k := Ok k; CsrParams_from_der _ := Ok 0;
  signed_by _ _ := Ok "cert"%string; CertificateParams_new := Ok; dn_push _ _ := id;
  serialize_request _ _ := Ok [] |}.
Definition keygen : @KeyGenLib rcgen Toy.rsa := {|
  KeyPair_generate := Ok : Z → result (@KeyPair rcgen) string;
  serialize_pem _ := "k"%string; set_is_ca := id; self_signed _ _ := Ok "c"%string;
  Issuer_new _ k := k; params_signed_by _ _ _ := Ok "c"%string;
  RsaPrivateKey_new _ bits := Ok (Z.to_nat (bits / 8) : @RsaPrivateKey Toy.rsa);
  to_pkcs8_pem _ := Ok "r"%string; to_public_key_pem _ := Ok "p"%string |}.
Definition ent : entropy := {| ent_ca := 1; ent_tls := 2; ent_rsa := 3 |}.
Definition m : materials := {|
  mt_ca_key_pem := "k"; mt_ca_cert_pem := "c"; mt_server_tls_key_pem := "k";
  mt_server_tls_cert_pem := "c"; mt_server_rsa_priv_pem := "r"; mt_server_rsa_pub_pem := "p" |}.
Definition tr : toml_render := {|
  server_toml _ := Ok "server"%string; client_toml _ := Ok "client"%string;
  ca_toml _ := Ok "ca"%string |}.
Definition g : Generator := the_generator "sim" "client_env" "server_env" "ca_env" "server_" "ca_".

(** A home directory, and the root given relative to it. *)
Definition home : filesystem := {|
  fs_cwd := ["home"]; fs_dirs := {[ []; ["home"] ]}; fs_files := ∅; fs_faults := [] |}%string.
Lemma home_ok : fs_ok home.
Proof.
  assert (∀ l, occupied l home = true → l = [] ∨ l = ["home"%string]) as Hl.
  { intros l. rewrite occupied_spec. cbn. rewrite lookup_empty. intros [?|[]]; [set_solver|done]. }
  constructor.
  - cbn. set_solver.
  - cbn. set_solver.
  - intros l n [E|E]%Hl; [by apply app_nil in E as []|].
    destruct l as [|x [|]]; simplify_eq/=. set_solver.
  - intros l [->| ->]%Hl; by repeat constructor.
  - done.
Qed.
End ToyTerraform.

Lemma generate_all_complete_witness :
  ∃ fs', generate_all (KG := ToyTerraform.keygen) ToyTerraform.g ToyTerraform.ent ToyTerraform.tr
           OtherArch None ToyTerraform.home = (Ok tt, fs') ∧
    Forall (λ f, read_back (path_of "sim" f.1) fs' = Some f.2 ∧
                 ∀ cwd, read_back (path_of "/home/sim" f.1) (chdir cwd fs') = Some f.2)
      (written "client_env" "server_env" "ca_env" "server_" "ca_" ToyTerraform.m
         "server" "client" "ca").
Proof.
  destruct (generate_all_complete (KG := ToyTerraform.keygen) "sim" "client_env" "server_env" "ca_env"
    "server_" "ca_" (files_of "server_") (files_of "ca_") ToyTerraform.g ToyTerraform.ent ToyTerraform.m
    ToyTerraform.tr OtherArch None "server" "client" "ca" ToyTerraform.home ["home"; "sim"]%string)
    as (fs' & H1 & _ & _ & H2).
  1-5: reflexivity.
  1-4: discriminate.
  1-5: vm_compute; repeat split; reflexivity.
  - apply ToyTerraform.home_ok.
  - reflexivity.
  - vm_compute. reflexivity.
  - vm_compute. reflexivity.
  - exists fs'. split; [exact H1|exact H2].
Defined.
