(* ===== verification/Deployment.v ===== *)
(** * Deployment: the generated environment runs

    Composes [Terraform] with the programs that read its files: the configurations and
    keys written by [generate_all] are read back by [from_file] and turned into the
    contexts of the server ([server/src/config.rs]), of the client
    ([client_cli/src/config.rs]) and of the certification authority
    ([certification_authority/src/config.rs]). *)
From S2P Require Import Prelude Bytes Protocol Sql Database DatabaseBuilder TimeOracle Path FileSystem.
From S2P Require Import SafeRead Text ServerConfig Client Ca Terraform TerraformSpec.

(** ** The machine the programs run on *)

Abbreviation bytes_of := String.list_byte_of_string.

(** A text of Rust is valid UTF-8. *)
Definition is_text (s : string) : Prop := from_utf8 (bytes_of s) = Ok s.

(** A file of the generated file system, read without faults. *)
Definition file_on (fs : filesystem) (path : string) : os_file :=
  match read_back path fs with
  | Some content => {| f_open := Ok tt; f_metadata_len := Ok (Z.of_nat (length (bytes_of content)));
                       f_content := bytes_of content; f_reads := [] |}
  | None => {| f_open := Err NotFound; f_metadata_len := Ok 0; f_content := []; f_reads := [] |}
  end.

(** It has those files, whatever the working directory, enough memory, and a network
    that knows the time server. *)
Record machine_on (fs : filesystem) (m : machine) : Prop := {
  mo_files : ∃ cwd, ∀ path, m_files m path = file_on (chdir cwd fs) path;
  mo_reserve : ∀ n, m_try_reserve m n = Ok tt;
  mo_bits : m_pointer_bits m = 64;
  mo_parse_ip : ∀ ip, ip ∈ ["127.0.0.1"; "0.0.0.0"]%string → m_parse_ip m ip = Ok ip;
  mo_dns : ∃ addr more, ne_to_socket_addrs (m_net m) "pool.ntp.org" 123 = Ok (addr :: more);
  mo_bind : ∀ addr, ne_bind (m_net m) addr = Ok tt;
  mo_nonblocking : ne_set_nonblocking (m_net m) = Ok tt
}.

Lemma read_generated fs m path content ext :
  machine_on fs m → (∀ cwd, read_back path (chdir cwd fs) = Some content) →
  check_extension path ext = Ok tt →
  read m path ext = Some (Ok (bytes_of content)).
Proof.
  intros Hm Hr He. unfold read.
  assert (m_files m path = {| f_open := Ok tt; f_metadata_len := Ok (Z.of_nat (length (bytes_of content)));
                              f_content := bytes_of content; f_reads := [] |}) as Hf
    by (destruct (mo_files fs m Hm) as [cwd ->]; unfold file_on; by rewrite Hr).
  rewrite (safe_read_content (m_files m) _ _ path ext (Z.of_nat (length (bytes_of content))));
    rewrite ?Hf, ?(mo_bits fs m Hm); cbn [f_open f_metadata_len f_content f_reads]; try done;
    [|lia|by rewrite (mo_reserve fs m Hm)].
  by rewrite Nat2Z.id, firstn_all.
Qed.

(** ** What the crates promise *)

(** What a certificate says: its public key, the names it is for, whether it is one of an
    authority, and under which public key its signature verifies; and the public half of
    a private key. *)
Class X509 {RC : RcgenLib} {PEM : PemLib} := {
  cert_key : CertificateDer → PublicKey;
  cert_names : CertificateDer → list string;
  cert_ca : CertificateDer → bool;
  cert_signed_under : CertificateDer → PublicKey → bool;
  private_public : PrivateKeyDer → PublicKey;
  params_names : CertificateParams → list string;
  params_ca : CertificateParams → bool;
  issuer_public : Issuer → PublicKey
}.

(** A certificate of these parameters and this key, signed under that key. *)
Definition certifies {RC : RcgenLib} {PEM : PemLib} {X : X509} (der : CertificateDer)
    (params : CertificateParams) (subject issuer : PublicKey) : Prop :=
  cert_key der = subject ∧ cert_names der = params_names params ∧ cert_ca der = params_ca params ∧
  cert_signed_under der issuer = true.

(** The parameters keep what they are given; a certificate text holds one certificate, of
    the parameters and of the public half of the key pair, signed by the issuer. *)
Class CertificateLaws {RC : RcgenLib} {RSA : RsaLib} {PEM : PemLib} {KG : KeyGenLib} {X : X509}
    : Prop := {
  new_params names p : CertificateParams_new names = Ok p → params_names p = names ∧ params_ca p = false;
  dn_push_params t v p : params_names (dn_push t v p) = params_names p ∧
                         params_ca (dn_push t v p) = params_ca p;
  set_is_ca_params p : params_names (set_is_ca p) = params_names p ∧ params_ca (set_is_ca p) = true;
  issuer_new_public p k : issuer_public (Issuer_new p k) = public_key k;
  self_signed_read p k s : self_signed p k = Ok s →
    ∃ der, pem_certs (bytes_of s) = [Ok der] ∧ certifies der p (public_key k) (public_key k);
  signed_read p k i s : params_signed_by p k i = Ok s →
    ∃ der, pem_certs (bytes_of s) = [Ok der] ∧ certifies der p (public_key k) (issuer_public i);
  private_key_read k : ∃ der, pem_private_key (bytes_of (serialize_pem k)) = Ok (Some der) ∧
                              private_public der = public_key k
}.

(** RSA keys read back from the texts they were written to, and a new one has the size
    that was asked for. *)
Class KeyTextLaws {RC : RcgenLib} {RSA : RsaLib} {PKCS : Pkcs8Lib} {KG : KeyGenLib} : Prop := {
  pkcs8_pem_read k s : to_pkcs8_pem k = Ok s → from_pkcs8_pem s = Ok k ∧ is_text s;
  public_pem_read k s : to_public_key_pem k = Ok s → from_public_key_pem s = Ok k ∧ is_text s;
  new_key_size e bits k : RsaPrivateKey_new e bits = Ok k → rsa_key_bytes k = Z.to_nat (bits / 8)
}.

(** The parsers of the three configurations, and that they invert the renderer. *)
Record toml_parse := {
  parse_server : string → result Config string;
  parse_client : string → result ClientConfig string;
  parse_ca : string → result CaConfig string
}.
Class TomlLaws (tr : toml_render) (tp : toml_parse) : Prop := {
  server_toml_read cfg s : server_toml tr cfg = Ok s → parse_server tp s = Ok cfg ∧ is_text s;
  client_toml_read cfg s : client_toml tr cfg = Ok s → parse_client tp s = Ok cfg ∧ is_text s;
  ca_toml_read cfg s : ca_toml tr cfg = Ok s → parse_ca tp s = Ok cfg ∧ is_text s
}.

(** ** What the generated texts hold *)

Section Texts.
Context {RC : RcgenLib} {RSA : RsaLib} {PEM : PemLib} {PKCS : Pkcs8Lib} {KG : KeyGenLib} {X : X509}.
Context {KL : KeyTextLaws} {CL : CertificateLaws}.

(** [key] is the one that signs timestamps, [ca] the certificate of the authority, [leaf]
    and [tls] the certificate and the key of the server. *)
Record good_materials (m : materials) (key : RsaPrivateKey) (ca leaf : CertificateDer)
    (tls : PrivateKeyDer) : Prop := {
  gm_size : rsa_key_bytes key = RSA_KEY_SIZE_IN_BYTES;
  gm_priv : from_pkcs8_pem (mt_server_rsa_priv_pem m) = Ok key;
  gm_priv_text : is_text (mt_server_rsa_priv_pem m);
  gm_pub : from_public_key_pem (mt_server_rsa_pub_pem m) = Ok (RsaPublicKey_from key);
  gm_pub_text : is_text (mt_server_rsa_pub_pem m);
  gm_ca : pem_certs (bytes_of (mt_ca_cert_pem m)) = [Ok ca];
  gm_cert : pem_certs (bytes_of (mt_server_tls_cert_pem m)) = [Ok leaf];
  gm_key : pem_private_key (bytes_of (mt_server_tls_key_pem m)) = Ok (Some tls);
  gm_match : private_public tls = cert_key leaf;
  gm_authority : cert_ca ca = true;
  gm_issued : cert_signed_under leaf (cert_key ca) = true;
  gm_name : "127.0.0.1"%string ∈ cert_names leaf
}.

Lemma generated_materials ent m :
  generate_materials ent = Ok m → ∃ key ca leaf tls, good_materials m key ca leaf tls.
Proof using KL CL.
  unfold generate_materials. intros (kp & _ & H)%and_then_ok.
  apply and_then_ok in H as (ps & Hps & H). apply and_then_ok in H as (cert & Hcert & H).
  apply and_then_ok in H as (kp2 & _ & H). apply and_then_ok in H as (ps2 & Hps2 & H).
  apply and_then_ok in H as (cert2 & Hcert2 & H). apply and_then_ok in H as (key & Hkey & H).
  apply and_then_ok in H as (priv & Hpriv & H). apply and_then_ok in H as (pub & Hpub & [= <-]).
  apply map_err_ok in Hps, Hps2, Hcert, Hcert2, Hkey, Hpriv, Hpub.
  apply new_key_size in Hkey. apply pkcs8_pem_read in Hpriv as [? ?].
  apply public_pem_read in Hpub as [? ?]. apply new_params in Hps as [_ _], Hps2 as [Hn _].
  apply self_signed_read in Hcert as (ca & Hca & Ck & _ & Cc & _).
  apply signed_read in Hcert2 as (leaf & Hleaf & Lk & Ln & _ & Ls).
  destruct (private_key_read kp2) as (tls & Htls & Tk).
  rewrite issuer_new_public in Ls.
  exists key, ca, leaf, tls. constructor; cbn; try done.
  - congruence.
  - rewrite Cc. by rewrite !(proj2 (dn_push_params _ _ _)), (proj2 (set_is_ca_params _)).
  - congruence.
  - rewrite Ln, !(proj1 (dn_push_params _ _ _)), Hn. by left.
Qed.
End Texts.

Lemma extension_ok d x e :
  plain (x +:+ String dot e)%string = true → x ≠ EmptyString → split_on dot e = [e] →
  check_extension (join d (x +:+ String dot e)%string) (Some e) = Ok tt.
Proof.
  intros H1 H2 H3. unfold check_extension. rewrite extension_join by done. by rewrite decide_True.
Qed.

Lemma prefixed_extension_ok d p base e :
  plain p = true → plain (base +:+ String dot e)%string = true → split_on dot e = [e] →
  check_extension (join d (p +:+ (base +:+ String dot e))%string) (Some e) = Ok tt.
Proof.
  intros Hp Hb He. rewrite <- append_assoc. apply extension_ok; [|intros [-> _]%append_empty; done|done].
  rewrite append_assoc. by apply plain_append.
Qed.

(** ** The three programs *)

Section Programs.
Context {RC : RcgenLib} {RSA : RsaLib} {PEM : PemLib} {PKCS : Pkcs8Lib} {KG : KeyGenLib} {X : X509}.
Context (tr : toml_render) (tp : toml_parse) {TL : TomlLaws tr tp}.
Context (root c s a p q : string) (Hp : plain p = true) (Hq : plain q = true).
Context (mats : materials) (key : RsaPrivateKey) (ca leaf : CertificateDer) (tls : PrivateKeyDer).
Context (Hmats : good_materials mats key ca leaf tls).
Context (arch : target_arch) (par : option Z) (ts tc ta : string).
Context (Hren : renders root c s a p q tr arch par ts tc ta).
Context (fs : filesystem) (m : machine) (Hm : machine_on fs m).
Context (Hfs : ∀ f, f ∈ written c s a p q mats ts tc ta →
                 ∀ cwd, read_back (path_of root f.1) (chdir cwd fs) = Some f.2).

(** A file with a prefixed name. *)
Lemma read_prefixed d pre base e content :
  plain pre = true → plain (base +:+ String dot e)%string = true → split_on dot e = [e] →
  ((d, pre +:+ (base +:+ String dot e)), content)%string ∈ written c s a p q mats ts tc ta →
  read m (path_of root (d, pre +:+ (base +:+ String dot e))%string) (Some e)
    = Some (Ok (bytes_of content)).
Proof using Hm Hfs.
  intros Hpre Hb He Hin. eapply read_generated; [exact Hm|exact (Hfs _ Hin)|].
  by apply prefixed_extension_ok.
Qed.

(** The generated file of a goal, by its directory, prefix, name and content. *)
Ltac generated d pre base ext content :=
  let Hin := fresh in
  assert (((d, pre +:+ (base +:+ String dot ext)), content)%string ∈ written c s a p q mats ts tc ta)
    as Hin
    by (change (base +:+ String dot ext)%string with (String.append base (String dot ext));
        cbn [String.append]; unfold written; rewrite !elem_of_cons; tauto);
  exact (read_prefixed d pre base ext content ltac:(assumption) eq_refl eq_refl Hin).

Lemma reads_server_files n k :
  let paths := keys (the_server_config root s p q n k) in
  read m (kc_tls_cert_path paths) PEM_EXT = Some (Ok (bytes_of (mt_server_tls_cert_pem mats))) ∧
  read m (kc_tls_priv_path paths) PEM_EXT = Some (Ok (bytes_of (mt_server_tls_key_pem mats))) ∧
  read m (kc_tss_priv_path paths) PEM_EXT = Some (Ok (bytes_of (mt_server_rsa_priv_pem mats))) ∧
  read m (kc_ca_cert_path paths) PEM_EXT = Some (Ok (bytes_of (mt_ca_cert_pem mats))) ∧
  read m (path_of root (s, p +:+ "config.toml")) TOML_EXT = Some (Ok (bytes_of ts)).
Proof using Hm Hfs Hp Hq.
  split_and!.
  - generated s p "tls_certificate"%string "pem"%string (mt_server_tls_cert_pem mats).
  - generated s p "tls_private_key"%string "pem"%string (mt_server_tls_key_pem mats).
  - generated s p "rsa_priv_key"%string "pem"%string (mt_server_rsa_priv_pem mats).
  - generated s q "tls_certificate"%string "pem"%string (mt_ca_cert_pem mats).
  - generated s p "config"%string "toml"%string ts.
Qed.

Lemma reads_client_files :
  let paths := cl_keys (the_client_config root c p q) in
  read m (cc_ca_cert_path paths) PEM_EXT = Some (Ok (bytes_of (mt_ca_cert_pem mats))) ∧
  read m (cc_server_rsa_public_key_path paths) PEM_EXT
    = Some (Ok (bytes_of (mt_server_rsa_pub_pem mats))) ∧
  read m (path_of root (c, "config.toml"%string)) TOML_EXT = Some (Ok (bytes_of tc)).
Proof using Hm Hfs Hp Hq.
  split_and!.
  - generated c q "tls_certificate"%string "pem"%string (mt_ca_cert_pem mats).
  - generated c p "rsa_pub_key"%string "pem"%string (mt_server_rsa_pub_pem mats).
  - assert (((c, "config.toml"%string), tc) ∈ written c s a p q mats ts tc ta) as Hin
      by (unfold written; rewrite !elem_of_cons; tauto).
    eapply read_generated; [exact Hm|exact (Hfs _ Hin)|].
    exact (extension_ok (join root c) "config" "toml" eq_refl ltac:(done) eq_refl).
Qed.

Lemma reads_ca_files :
  let paths := ca_keys (the_ca_config root a q) in
  read m (ck_ca_cert_path paths) PEM_EXT = Some (Ok (bytes_of (mt_ca_cert_pem mats))) ∧
  read m (ck_ca_key_path paths) PEM_EXT = Some (Ok (bytes_of (mt_ca_key_pem mats))) ∧
  read m (path_of root (a, q +:+ "config.toml")) TOML_EXT = Some (Ok (bytes_of ta)).
Proof using Hm Hfs Hq.
  split_and!.
  - generated a q "tls_certificate"%string "pem"%string (mt_ca_cert_pem mats).
  - generated a q "tls_private_key"%string "pem"%string (mt_ca_key_pem mats).
  - generated a q "config"%string "toml"%string ta.
Qed.

(** The local addresses of the configurations parse. *)
Lemma parse_local ip : ip ∈ ["127.0.0.1"; "0.0.0.0"]%string → m_parse_ip m ip = Ok ip.
Proof using Hm. apply (mo_parse_ip fs m Hm). Qed.

Lemma server_oracle_starts cells :
  ∃ b cells', choose_time_oracle m (synced_time_oracle (the_server_config root s p q 0 0)) cells
              = Ok (Synced b, cells').
Proof using Hm.
  cbn -[create_bundle]. rewrite parse_local by (rewrite !elem_of_cons; tauto).
  destruct (mo_dns fs m Hm) as (addr & more & Hd). cbn. rewrite Hd. cbn.
  rewrite (mo_bind fs m Hm). cbn. rewrite (mo_nonblocking fs m Hm). cbn. by eexists _, _.
Qed.

Lemma server_starts n k cells :
  ∃ ctx cells', to_server_context m (the_server_config root s p q n k) cells
                  = Some (Ok (ctx, cells')) ∧
    address ctx = {| sa_ip := "127.0.0.1"; sa_port := 8080 |} ∧
    key_context ctx = {| tls_cert := [leaf]; tls_priv := tls; tss_priv := key |} ∧ log_output ctx = Stdout ∧
    database_location ctx = Memory ∧
    runtime_context ctx = {| working_threads := n; cryptography_threads := k |}.
Proof using Hm Hfs Hp Hq Hmats.
  destruct (reads_server_files n k) as (R1 & R2 & R3 & _ & _).
  destruct (server_oracle_starts cells) as (b & cells' & Ho).
  pose proof (gm_cert _ _ _ _ _ Hmats) as Hcert. pose proof (gm_key _ _ _ _ _ Hmats) as Htls.
  unfold to_server_context. cbn [network the_server_config nc_ip nc_port log].
  rewrite parse_local by (rewrite !elem_of_cons; tauto). cbn [map_err and_then Z.eqb log_destination run_then].
  rewrite R1. cbn [run_then]. unfold certificates. rewrite Hcert. cbn [fmap list_fmap map_err collect and_then run_then].
  rewrite R2. cbn [run_then]. unfold load_tls_key. rewrite Htls. cbn [map_err and_then ok_or run_then].
  rewrite R3. cbn [run_then]. unfold load_tss_key.
  rewrite (gm_priv_text _ _ _ _ _ Hmats). cbn [map_err and_then]. rewrite (gm_priv _ _ _ _ _ Hmats).
  cbn [map_err and_then]. cbn [synced_time_oracle the_server_config] in Ho |- *. rewrite Ho.
  cbn. by eexists _, _.
Qed.

Lemma server_reads_its_file :
  from_file (parse_server tp) m (path_of root (s, p +:+ "config.toml"))
    = Some (Ok (chosen_config root s p q arch par)).
Proof using Hm Hfs Hp Hq Hren TL.
  destruct (reads_server_files 0 0) as (_ & _ & _ & _ & R). unfold from_file. rewrite R.
  destruct Hren as (E & _). apply (server_toml_read (tp := tp)) in E as [E Ht]. cbn [run_then].
  rewrite Ht. cbn. by rewrite E.
Qed.

Lemma client_starts :
  client_from_file (parse_client tp) m (path_of root (c, "config.toml"%string))
    = Some (Ok (the_client_config root c p q)) ∧
  to_client_context m (the_client_config root c p q) = Some (Ok {|
    x_server_address := {| sa_ip := "127.0.0.1"; sa_port := 8080 |};
    x_server_certificate_name := "127.0.0.1";
    x_ca_cert := [ca];
    x_server_rsa_public_key := RsaPublicKey_from key;
    x_trust_roots_cert := false |}).
Proof using Hm Hfs Hp Hq Hren TL Hmats.
  destruct reads_client_files as (R1 & R2 & R3). destruct Hren as (_ & E & _). split.
  - unfold client_from_file. rewrite R3. apply (client_toml_read (tp := tp)) in E as [E Ht].
    cbn [run_then]. rewrite Ht. cbn. by rewrite E.
  - unfold to_client_context. cbn [cl_timestamp the_client_config tc_server_ip tc_server_port].
    rewrite parse_local by (rewrite !elem_of_cons; tauto). cbn [map_err and_then Z.eqb run_then].
    rewrite R1. cbn [run_then]. rewrite (gm_ca _ _ _ _ _ Hmats).
    cbn [fmap list_fmap map_err collect and_then run_then]. rewrite R2. cbn [run_then].
    rewrite (gm_pub_text _ _ _ _ _ Hmats). cbn [map_err and_then]. rewrite (gm_pub _ _ _ _ _ Hmats). done.
Qed.

Lemma ca_starts :
  ca_from_file (parse_ca tp) m (path_of root (a, q +:+ "config.toml"))
    = Some (Ok (the_ca_config root a q)) ∧
  convert_to_context m (the_ca_config root a q) = Some (Ok {|
    ca_address := {| sa_ip := "127.0.0.1"; sa_port := 8081 |};
    Ca.ca_cert_pem := bytes_of (mt_ca_cert_pem mats);
    Ca.ca_key_pem := bytes_of (mt_ca_key_pem mats) |}).
Proof using Hm Hfs Hq Hren TL.
  destruct reads_ca_files as (R1 & R2 & R3). destruct Hren as (_ & _ & E). split.
  - unfold ca_from_file. rewrite R3. apply (ca_toml_read (tp := tp)) in E as [E Ht].
    cbn [run_then]. rewrite Ht. cbn. by rewrite E.
  - unfold convert_to_context. cbn [ca_network the_ca_config nc_ip nc_port].
    rewrite parse_local by (rewrite !elem_of_cons; tauto). cbn [map_err and_then Z.eqb run_then].
    rewrite R1. cbn [run_then]. by rewrite R2.
Qed.
End Programs.

(** Crates whose texts read back, and the default names. *)
Module ToyDeployment.
(** Two key pairs, [true] of the authority and [false] of the server. *)
Definition rcgen : RcgenLib := {|
  KeyPair := bool; PublicKey := bool; Issuer := bool; CsrParams := unit;
  CertificateParams := list string * bool;
  public_key := id; cert_public_key _ := None; KeyPair_from_pem _ := Ok true;
  Issuer_from_ca_cert_pem _ k := Ok k; CsrParams_from_der _ := Ok tt;
  signed_by _ _ := Ok "cert"%string; CertificateParams_new ns := Ok (ns, false); dn_push _ _ := id;
  serialize_request _ _ := Ok [] |}.
(** The key, the names, whether of an authority, and the signer. *)
Definition certificate : Type := bool * list string * bool * bool.
Definition authority : certificate := (true, ["Root CA"%string], true, true).
Definition server : certificate := (false, ["127.0.0.1"%string], false, true).
Definition pem : PemLib := {|
  CertificateDer := certificate; PrivateKeyDer := bool;
  pem_certs := λ b, [Ok (if decide (b = bytes_of "ca cert") then authority else server)];
  pem_private_key := λ b, Ok (Some (bool_decide (b = bytes_of "ca key"))) |}.
Definition keygen : @KeyGenLib rcgen Toy.rsa := {|
  KeyPair_generate e := Ok (e =? 1) : result (@KeyPair rcgen) string;
  serialize_pem (k : @KeyPair rcgen) := (if k : bool then "ca key" else "tls key")%string;
  set_is_ca (p : @CertificateParams rcgen) := (p.1, true);
  self_signed p k := if decide (p = (["Root CA"], true) ∧ k = true)%string
                     then Ok "ca cert"%string else Err "other"%string;
  Issuer_new _ k := k;
  params_signed_by p k i := if decide (p = (["127.0.0.1"], false) ∧ k = false ∧ i = true)%string
                            then Ok "tls cert"%string else Err "other"%string;
  RsaPrivateKey_new _ bits := Ok (Z.to_nat (bits / 8) : @RsaPrivateKey Toy.rsa);
  to_pkcs8_pem k := if decide (k = 256%nat) then Ok "r"%string else Err "size"%string;
  to_public_key_pem k := if decide (k = 256%nat) then Ok "p"%string else Err "size"%string |}.
Definition x509 : @X509 rcgen pem :=
  @Build_X509 rcgen pem (λ c : certificate, c.1.1.1) (λ c : certificate, c.1.1.2)
    (λ c : certificate, c.1.2) (λ (c : certificate) (k : bool), eqb c.2 k) (λ k : bool, k)
    (λ p : list string * bool, p.1) (λ p : list string * bool, p.2) (λ i : bool, i).
Definition m : materials := {|
  mt_ca_key_pem := "ca key"; mt_ca_cert_pem := "ca cert"; mt_server_tls_key_pem := "tls key";
  mt_server_tls_cert_pem := "tls cert"; mt_server_rsa_priv_pem := "r"; mt_server_rsa_pub_pem := "p" |}.
Lemma keys_read : @KeyTextLaws rcgen Toy.rsa ToyMachine.pkcs keygen.
Proof.
  constructor; cbn; intros; try (case_decide; [|done]); simplify_eq; done.
Qed.
Lemma certificates_read : @CertificateLaws rcgen Toy.rsa pem keygen x509.
Proof.
  constructor; cbn; intros; try done.
  - by simplify_eq.
  - case_decide as Hd; [|done]. destruct Hd as [-> ->]. simplify_eq. by eexists.
  - case_decide as Hd; [|done]. destruct Hd as (-> & -> & ->). simplify_eq. by eexists.
  - destruct k; by eexists.
Qed.

(** A renderer that knows the three configurations of the environment. *)
#[export] Instance Config_eq_dec : EqDecision Config.
Proof.
  assert (EqDecision NetworkConfig) by solve_decision.
  assert (EqDecision RuntimeConfig) by solve_decision.
  assert (EqDecision KeysConfig) by solve_decision.
  assert (EqDecision SyncedTimeOracleConfig) by solve_decision.
  solve_decision.
Defined.
#[export] Instance ClientConfig_eq_dec : EqDecision ClientConfig.
Proof.
  assert (EqDecision TimestampConfig) by solve_decision.
  assert (EqDecision ClientKeyConfig) by solve_decision.
  solve_decision.
Defined.
#[export] Instance CaConfig_eq_dec : EqDecision CaConfig.
Proof.
  assert (EqDecision NetworkConfig) by solve_decision.
  assert (EqDecision CaKeyConfig) by solve_decision.
  solve_decision.
Defined.
Definition the_cfg : Config := chosen_config "/home/sim" "server_env" "server_" "ca_" OtherArch None.
Definition the_ccfg : ClientConfig := the_client_config "/home/sim" "client_env" "server_" "ca_".
Definition the_acfg : CaConfig := the_ca_config "/home/sim" "ca_env" "ca_".
Definition tr : toml_render := {|
  server_toml cfg := if decide (cfg = the_cfg) then Ok "server"%string else Err "other"%string;
  client_toml cfg := if decide (cfg = the_ccfg) then Ok "client"%string else Err "other"%string;
  ca_toml cfg := if decide (cfg = the_acfg) then Ok "ca"%string else Err "other"%string |}.
Definition tp : toml_parse := {|
  parse_server _ := Ok the_cfg; parse_client _ := Ok the_ccfg; parse_ca _ := Ok the_acfg |}.
#[export] Instance toml_laws : TomlLaws tr tp.
Proof.
  constructor; cbn [tr tp server_toml client_toml ca_toml parse_server parse_client parse_ca];
    intros cfg s; (case_decide; [|done]); intros; simplify_eq; (split; [done|]); vm_compute; done.
Qed.
Lemma rendered :
  renders "/home/sim" "client_env" "server_env" "ca_env" "server_" "ca_" tr OtherArch None
    "server" "client" "ca".
Proof. unfold renders, tr. cbn [server_toml client_toml ca_toml]. by rewrite !decide_True. Qed.

Definition machine_of (fs : filesystem) : machine := {|
  m_files := file_on fs; m_pointer_bits := 64; m_try_reserve := λ _, Ok tt;
  m_net := ToyNtp.env; m_parse_ip := Ok |}.
Lemma machine_of_on fs : machine_on fs (machine_of fs).
Proof. constructor; cbn; try done; [by exists (fs_cwd fs); destruct fs|by eexists _, _]. Qed.
End ToyDeployment.
