(* ===== verification/Main.v ===== *)
(** * Main: the entry points of the four programs

    Models [server/src/main.rs], [certification_authority/src/main.rs],
    [terraform/src/main.rs] and the frame of [client_cli/src/main.rs]: the stages each runs
    through, the stage an error is reported for, and what it leaves behind.  The server is
    modelled from its command line on, with the parser of the arguments as a parameter;
    the others from their parsed arguments.  The tokio runtime and the terminal are
    answers of the environment. *)
From S2P Require Import Prelude Bytes Protocol Sql Database DatabaseSpec DatabaseBuilder TimeOracle.
From S2P Require Import Signer Effects ConnHandler Account SessionSpec Server ServerSpec.
From S2P Require Import Path FileSystem SafeRead Text ServerConfig ServerBuild Client Menu Ca.
From S2P Require Import Terraform TerraformSpec Deployment.

(** [anyhow::Error] with the context it was given. *)
Record failure (E : Type) := Failed { context : string; cause : E }.
Arguments Failed {E} context cause.
Arguments context {E} _.
Arguments cause {E} _.

(** [.context(msg)] *)
Definition with_context {A E F} (msg : string) (f : E → F) (r : result A E) : result A (failure F) :=
  map_err (λ e, Failed msg (f e)) r.

(** ** The server *)

Inductive Mode :=
| ModeConfig (file : string)
| ModeRekey (address : SocketAddr) (server_ip : IpAddr) (organization_name server_name : string)
    (output : string).

(** The value parser of the two names of a rekeying. *)
Definition parse_dn_value (s : string) : result string string :=
  if decide (s = EmptyString) then Err ("failed to convert " +:+ s)%string else Ok s.

(** What the declarations of [Cli] tell [clap] of the command: the arguments of the command
    itself (those of the subcommands are not among them), the group [mode] and the
    subcommands. *)
Record arg_group := { ag_id : string; ag_required : bool; ag_args : list string }.
Record clap_command := {
  cc_args : list string;
  cc_groups : list arg_group;
  cc_subcommands : list (string * list string);
  cc_subcommand_negates_reqs : bool
}.

Definition Cli_command : clap_command := {|
  cc_args := [];
  cc_groups := [{| ag_id := "mode"; ag_required := true; ag_args := ["config"; "rekey"] |}];
  cc_subcommands :=
    [("config", ["file"]);
     ("rekey", ["address"; "server_ip"; "organization_name"; "server_name"; "output"])];
  cc_subcommand_negates_reqs := false |}%string.

(** How [Cli::parse()] ends: with the arguments of the command that are present and the
    subcommand; with a message, after which the process exits; or with a panic. *)
Inductive parsed (A : Type) :=
| Accepted (present : list string) (mode : A)
| Refused (message : string)
| ParserPanics (message : string).
Arguments Accepted {A} present mode.
Arguments Refused {A} message.
Arguments ParserPanics {A} message.

(** [clap]: the arguments that are present are among those of the command, and a required
    group asks for one of its arguments, unless a subcommand lifts the requirements. *)
Class ClapLib := clap_parse : clap_command → list string → parsed Mode.
Class ClapLaws {CLAP : ClapLib} : Prop := {
  clap_present cmd argv present mode id :
    clap_parse cmd argv = Accepted present mode → id ∈ present → id ∈ cc_args cmd;
  clap_required cmd argv present mode g :
    clap_parse cmd argv = Accepted present mode → g ∈ cc_groups cmd → ag_required g = true →
    cc_subcommand_negates_reqs cmd = false → ∃ id, id ∈ ag_args g ∧ id ∈ present
}.

Inductive server_cause :=
| FromConfigFile (e : ConfigError)
| FromConversion (e : ServerConfigConversionError)
| FromBuild (e : STSServerBuildError)
| FromRun (e : STSServerRunError)
| FromManager (e : IoError)
| FromRekey (e : RekeyClientManagerError).

Section ServerMain.
Context {RSA : RsaLib} {PEM : PemLib} {PKCS : Pkcs8Lib} {RC : RcgenLib}.
Context {WREQ : Wincode CaRequest} {WRESP : Wincode CaResponse}.

(** Where the server runs: its machine and what the crates answer, the listener, the
    schema of its database, and for a rekeying the connection and the key pair. *)
Record server_env := {
  se_machine : machine;
  se_toml : string → result Config string;
  se_build : build_env;
  se_bound : result unit IoError;
  se_schema : schema;
  se_runtime : result unit IoError;
  se_connect : SocketAddr → result peer IoError;
  se_keypair : result KeyPair string
}.

(** What a run leaves: the offset cells, the rows of the database, the files. *)
Record server_world := {
  sw_cells : gmap loc Z;
  sw_pool : pool;
  sw_files : file_store
}.

(** How [main] ends, or that it serves: [run] returns only at the shutdown. *)
Inductive server_end :=
| Serving (srv : STSServer)
| Finished
| Exits (e : failure server_cause)
| NotParsed (message : string)
| Unwinds (msg : string).

Definition run_server (env : server_env) (srv : STSServer) : result unit STSServerRunError :=
  match srv with
  | Accelerated i => let? _ := start (se_bound env) i in Ok tt
  | Slow i => let? _ := start (se_bound env) i in Ok tt
  end.

Definition config_main (env : server_env) (file : string) (w : server_world)
    : option (server_end * server_world) :=
  configured ← run_then id
    (with_context "Error while obtaining the configurations from the file" FromConfigFile
       <$> from_file (se_toml env) (se_machine env) file)
    (λ config,
       with_context "Error while parsing the configuration file" FromConversion
         <$> to_server_context (se_machine env) config (sw_cells w));
  Some match configured with
  | Err e => (Exits e, w)
  | Ok (server_context, cells) =>
      let '(built, p) := build_from_context (se_build env) (se_schema env) server_context cells
                           (sw_pool w) in
      let w' := {| sw_cells := cells; sw_pool := p; sw_files := sw_files w |} in
      match built with
      | Panic msg => (Unwinds msg, w')
      | Done r =>
          match with_context "Error while creating the server" FromBuild r with
          | Err e => (Exits e, w')
          | Ok server =>
              match with_context "Running the server resulted into an error" FromRun
                      (run_server env server) with
              | Err e => (Exits e, w')
              | Ok _ => (Serving server, w')
              end
          end
      end
  end.

Definition rekey_main (env : server_env) (address : SocketAddr) (ip : IpAddr)
    (organization name out : string) (w : server_world) : server_end * server_world :=
  match with_context "Failed to start the rekey manager" FromManager (se_runtime env) with
  | Err e => (Exits e, w)
  | Ok _ =>
      let '(r, fs) := rekey (se_connect env) ip organization name out address (se_keypair env)
                        (sw_files w) in
      (match with_context "Failed to perform rekey operation" FromRekey r with
       | Err e => Exits e
       | Ok _ => Finished
       end, {| sw_cells := sw_cells w; sw_pool := sw_pool w; sw_files := fs |})
  end.

(** The [match] on the mode. *)
Definition run_mode (env : server_env) (mode : Mode) (w : server_world)
    : option (server_end * server_world) :=
  match mode with
  | ModeConfig file => config_main env file w
  | ModeRekey address server_ip organization_name server_name output =>
      Some (rekey_main env address server_ip organization_name server_name output w)
  end.

Definition server_main {CLAP : ClapLib} (env : server_env) (argv : list string) (w : server_world)
    : option (server_end * server_world) :=
  match clap_parse Cli_command argv with
  | Accepted _ mode => run_mode env mode w
  | Refused message => Some (NotParsed message, w)
  | ParserPanics message => Some (Unwinds message, w)
  end.
End ServerMain.

(** C39: the server cannot be started from its command line.  The group that the command
    requires names the two subcommands, which are not arguments, so that no command line
    has one of its arguments: whatever is given, [main] ends in the parser and nothing is
    done, neither a server started nor a certificate requested. *)
Theorem server_command_line_refused {RSA : RsaLib} {PEM : PemLib} {PKCS : Pkcs8Lib} {RC : RcgenLib}
    {WREQ : Wincode CaRequest} {WRESP : Wincode CaResponse} {CLAP : ClapLib} {CL : ClapLaws}
    (env : server_env) (argv : list string) (w : server_world) :
  ∃ message, server_main env argv w = Some (NotParsed message, w) ∨
             server_main env argv w = Some (Unwinds message, w).
Proof.
  unfold server_main. destruct (clap_parse Cli_command argv) as [present mode|m|m] eqn:E; [|eauto..].
  destruct (clap_required Cli_command argv present mode
    {| ag_id := "mode"; ag_required := true; ag_args := ["config"; "rekey"]%string |} E)
    as (id & _ & Hid); [by left|done..|].
  by apply (clap_present _ _ _ _ _ E), elem_of_nil in Hid.
Qed.

(** A parser that looks for the arguments of the required groups. *)
Module ToyClap.
Definition satisfied (argv : list string) (cmd : clap_command) : bool :=
  cc_subcommand_negates_reqs cmd ||
  forallb (λ g, negb (ag_required g) ||
    existsb (λ id, bool_decide (id ∈ ag_args g) && bool_decide (id ∈ argv)) (cc_args cmd))
    (cc_groups cmd).
Definition parse : ClapLib := λ cmd argv,
  if satisfied argv cmd
  then Accepted (List.filter (λ id, bool_decide (id ∈ argv)) (cc_args cmd)) (ModeConfig "file")
  else Refused "the following required arguments were not provided"%string.
Lemma laws : @ClapLaws parse.
Proof.
  split; intros cmd argv present mode; unfold clap_parse, parse;
    destruct (satisfied argv cmd) eqn:Hs; try done.
  - intros id [= <- _] [Hi _]%list_elem_of_In%filter_In. by apply list_elem_of_In.
  - intros g [= <- _] Hg%list_elem_of_In Hr Hn. unfold satisfied in Hs. rewrite Hn in Hs.
    cbn in Hs. rewrite forallb_forall in Hs. specialize (Hs g Hg). rewrite Hr in Hs. cbn in Hs.
    apply existsb_exists in Hs as (id & Hid & [H1 H2]%andb_true_iff).
    apply bool_decide_eq_true in H1. exists id. split; [done|].
    apply list_elem_of_In, filter_In. done.
Qed.
End ToyClap.

(** ** The certification authority *)

Inductive ca_cause :=
| FromCaConfigFile (e : CaConfigError)
| FromCaConversion (e : CaContextConversionError)
| FromCaRun (e : SmallServerRunError).

Section CaMain.
Context {RC : RcgenLib} {WREQ : Wincode CaRequest} {WRESP : Wincode CaResponse}.

(** The tasks of the clients that were accepted, and how [main] ends; [None] inside
    while it goes on listening. *)
Definition ca_main (toml : string → result CaConfig string) (m : machine) (path : string)
    (bound : result unit IoError) (events : list ca_event)
    : option (list (list (list byte) * result unit ClientHandlingError)
              * option (result unit (failure ca_cause))) :=
  converted ← run_then id
    (with_context "Failed to read the CA configuration file" FromCaConfigFile
       <$> ca_from_file toml m path)
    (λ config, with_context "Failed to build the CA runtime context" FromCaConversion
                 <$> convert_to_context m config);
  Some match converted with
  | Err e => ([], Some (Err e))
  | Ok context =>
      let '(tasks, ended) := ca_run bound context events in
      (tasks, with_context "Certification Authority stopped with an error" FromCaRun <$> ended)
  end.
End CaMain.

(** ** The client *)

Inductive client_cause :=
| FromClientConfigFile (e : ClientConfigError)
| FromClientConversion (e : ContextConversionError)
| FromClient (e : ClientError).

(** Where [main] returns early; [connect_from_context] is given no context. *)
Inductive client_failure :=
| ClientExits (e : failure client_cause)
| ClientBare (e : ClientError).

Section ClientMain.
Context {SHA : Sha256Lib} {RSA : RsaLib} {HEX : HexLib} {CH : ChronoLib} {PEM : PemLib}.
Context {PKCS : Pkcs8Lib} {WREQ : Wincode Request} {WRESP : Wincode Response}.

(** The client before its menu. *)
Definition client_connects (toml : string → result ClientConfig string) (m : machine)
    (env : connect_env) (path : string) : option (result (STSSClient * peer) client_failure) :=
  run_then ClientExits
    (with_context "Error while reading the configuration file" FromClientConfigFile
       <$> client_from_file toml m path)
    (λ config,
  run_then ClientExits
    (with_context "Cannot parse the configuration file" FromClientConversion
       <$> to_client_context m config)
    (λ context, Some (map_err ClientBare (connect_from_context env context)))).

(** The whole run over the turns of the user: the menu starts anonymous with no files of
    its own, whatever the closing of the connection returns. *)
Definition client_main (toml : string → result ClientConfig string) (m : machine)
    (env : connect_env) (clean : string → string) (path : string)
    (files : gmap string (list byte)) (turns : peer → list turn)
    : option (result cli client_failure) :=
  run_then id (client_connects toml m env path) (λ '(client, stream),
    Ok <$> menu_loop client clean (turns stream)
             {| is_logged_in := false; cli_files := files; cli_sent := []; cli_lines := [] |}).
End ClientMain.

(** ** The generator *)

Record TerraformCli := {
  tf_root : string;
  tf_client_dir : option string;
  tf_server_dir : option string;
  tf_ca_dir : option string;
  tf_server_prefix : string;
  tf_ca_prefix : string
}.

(** The arguments of a call with the root only. *)
Definition tf_default (root : string) : TerraformCli := {|
  tf_root := root; tf_client_dir := None; tf_server_dir := None; tf_ca_dir := None;
  tf_server_prefix := "server_"; tf_ca_prefix := "ca_" |}.

(** What [main_error] is given, by the place it is called from. *)
Inductive terraform_failure :=
| InvalidClientDir (e : FileSystemNameError)
| InvalidServerDir (e : FileSystemNameError)
| InvalidCaDir (e : FileSystemNameError)
| DirectoriesNotCreated (e : EnvironmentGeneratorBuildError)
| InvalidServerPrefix (e : FileSystemNameError)
| InvalidCaPrefix (e : FileSystemNameError)
| GeneratorNotInitialized (e : GeneratorCreationError)
| GenerationFailed (e : GenerationError)
| StdoutFailed (e : string).

(** An option of the builder: the name is checked before it is set. *)
Definition set_dir (name : option string) (failed : FileSystemNameError → terraform_failure)
    (set : EnvironmentGeneratorBuilder → FileSystemName → EnvironmentGeneratorBuilder)
    (b : EnvironmentGeneratorBuilder) : result EnvironmentGeneratorBuilder terraform_failure :=
  match name with
  | None => Ok b
  | Some n => let? valid_name := map_err failed (FileSystemName_new n) in Ok (set b valid_name)
  end.

Definition named_builder (cli : TerraformCli) : result EnvironmentGeneratorBuilder terraform_failure :=
  let? b := set_dir (tf_client_dir cli) InvalidClientDir with_client_dir
              (from_simulation_dir (tf_root cli)) in
  let? b := set_dir (tf_server_dir cli) InvalidServerDir with_server_dir b in
  set_dir (tf_ca_dir cli) InvalidCaDir with_ca_dir b.

(** Up to the generator: nothing is written. *)
Definition prepare (cli : TerraformCli) : outcome (result Generator terraform_failure) :=
  match named_builder cli with
  | Err e => Done (Err e)
  | Ok builder =>
      outcome_bind (builder_build builder) (λ env,
      match env with
      | Err e => Done (Err (DirectoriesNotCreated e))
      | Ok env =>
          outcome_bind (AnyServerFiles_default (tf_server_prefix cli)) (λ server_files,
          match server_files with
          | Err e => Done (Err (InvalidServerPrefix e))
          | Ok server_files =>
              outcome_bind (AnyServerFiles_default (tf_ca_prefix cli)) (λ ca_files,
              match ca_files with
              | Err e => Done (Err (InvalidCaPrefix e))
              | Ok ca_files =>
                  outcome_bind (expect "this should never fail" (FileSystemName_new "config.toml"))
                    (λ client_toml_name,
                  Done (map_err GeneratorNotInitialized
                    (new_from_files server_files ca_files (ClientFiles_new client_toml_name) env)))
              end)
          end)
      end)
  end.

(** [stdout] gives the results of the three [writeln!]s. *)
Definition terraform_main {RC : RcgenLib} {RSA : RsaLib} {KG : KeyGenLib} (cli : TerraformCli)
    (ent : entropy) (tr : toml_render) (arch : target_arch) (parallelism : option Z)
    (stdout : result unit string * result unit string * result unit string) (fs : filesystem)
    : outcome (result unit terraform_failure * filesystem) :=
  let '(out1, out2, out3) := stdout in
  match out1 with
  | Err e => Done (Err (StdoutFailed e), fs)
  | Ok _ =>
      outcome_bind (prepare cli) (λ g,
      match g with
      | Err e => Done (Err e, fs)
      | Ok g =>
          match out2 with
          | Err e => Done (Err (StdoutFailed e), fs)
          | Ok _ =>
              let '(r, fs') := generate_all g ent tr arch parallelism fs in
              Done (match r with
                    | Ok _ => map_err StdoutFailed out3
                    | Err e => Err (GenerationFailed e)
                    end, fs')
          end
      end)
  end.

(** ** From the command line to a running system *)

(** The names the options stand for. *)
Definition dir_of_client (cli : TerraformCli) : string := default DEFAULT_CLIENT_ENV_SUBDIR (tf_client_dir cli).
Definition dir_of_server (cli : TerraformCli) : string := default DEFAULT_SERVER_ENV_SUBDIR (tf_server_dir cli).
Definition dir_of_ca (cli : TerraformCli) : string := default DEFAULT_CA_ENV_SUBDIR (tf_ca_dir cli).

(** Plain names, all different. *)
Definition names_ok (cli : TerraformCli) : bool :=
  plain (dir_of_client cli) && plain (dir_of_server cli) && plain (dir_of_ca cli)
  && plain (tf_server_prefix cli) && plain (tf_ca_prefix cli)
  && negb (bool_decide (dir_of_client cli = dir_of_server cli))
  && negb (bool_decide (dir_of_client cli = dir_of_ca cli))
  && negb (bool_decide (dir_of_server cli = dir_of_ca cli))
  && negb (bool_decide (tf_server_prefix cli = tf_ca_prefix cli)).

Lemma names_ok_spec cli :
  names_ok cli = true →
  plain (dir_of_client cli) = true ∧ plain (dir_of_server cli) = true ∧ plain (dir_of_ca cli) = true ∧
  plain (tf_server_prefix cli) = true ∧ plain (tf_ca_prefix cli) = true ∧
  dir_of_client cli ≠ dir_of_server cli ∧ dir_of_client cli ≠ dir_of_ca cli ∧
  dir_of_server cli ≠ dir_of_ca cli ∧ tf_server_prefix cli ≠ tf_ca_prefix cli.
Proof.
  unfold names_ok. rewrite !andb_true_iff, !negb_true_iff, !bool_decide_eq_false. tauto.
Qed.

(** Setting an option and defaulting it is taking the name it stands for. *)
Lemma set_dir_plain name failed set b dflt :
  plain (default dflt name) = true →
  ∃ b', set_dir name failed set b = Ok b' ∧
    b' = match name with Some n => set b (MkFileSystemName n) | None => b end.
Proof.
  destruct name as [n|]; cbn; intros Hn; [|by eexists]. rewrite new_plain by done. by eexists.
Qed.

Lemma dir_or_default_plain name dflt :
  plain dflt = true →
  dir_or_default (MkFileSystemName <$> name) dflt = Done (MkFileSystemName (default dflt name)).
Proof. intros Hd. destruct name as [n|]; cbn; [done|]. by rewrite new_plain. Qed.

Lemma named_builder_plain cli :
  plain (dir_of_client cli) = true → plain (dir_of_server cli) = true → plain (dir_of_ca cli) = true →
  named_builder cli = Ok {| b_client_dir := MkFileSystemName <$> tf_client_dir cli;
                            b_server_dir := MkFileSystemName <$> tf_server_dir cli;
                            b_ca_dir := MkFileSystemName <$> tf_ca_dir cli;
                            b_root_dir := tf_root cli |}.
Proof.
  intros Hc Hs Ha. unfold named_builder, dir_of_client, dir_of_server, dir_of_ca in *.
  destruct (set_dir_plain _ InvalidClientDir with_client_dir (from_simulation_dir (tf_root cli)) _ Hc)
    as (b1 & -> & ->). cbn [and_then].
  match goal with |- context [set_dir _ InvalidServerDir _ ?b] =>
    destruct (set_dir_plain _ InvalidServerDir with_server_dir b _ Hs) as (b2 & -> & ->) end.
  cbn [and_then].
  match goal with |- context [set_dir _ InvalidCaDir _ ?b] =>
    destruct (set_dir_plain _ InvalidCaDir with_ca_dir b _ Ha) as (b3 & -> & ->) end.
  by destruct (tf_client_dir cli), (tf_server_dir cli), (tf_ca_dir cli).
Qed.

Lemma prepare_plain cli :
  names_ok cli = true →
  prepare cli = Done (Ok (the_generator (tf_root cli) (dir_of_client cli) (dir_of_server cli)
                            (dir_of_ca cli) (tf_server_prefix cli) (tf_ca_prefix cli))).
Proof.
  intros (Hc & Hs & Ha & Hp & Hq & Hcs & Hca & Hsa & Hpq)%names_ok_spec. unfold prepare.
  rewrite named_builder_plain by done. unfold builder_build. cbn [b_client_dir b_server_dir b_ca_dir b_root_dir].
  rewrite !dir_or_default_plain by reflexivity. cbn [outcome_bind fsn].
  fold (dir_of_client cli) (dir_of_server cli) (dir_of_ca cli).
  assert (any_seen [join (tf_root cli) (dir_of_client cli); join (tf_root cli) (dir_of_server cli);
                    join (tf_root cli) (dir_of_ca cli)] [] = false) as ->.
  { cbn. rewrite !orb_false_r, !orb_false_iff, !bool_decide_eq_false.
    split_and!; intros E; apply join_inj in E as [_ E]; auto. }
  cbn [outcome_bind]. rewrite !default_files by done. cbn [outcome_bind].
  rewrite new_plain by reflexivity. cbn [outcome_bind expect]. unfold new_from_files.
  rewrite decide_False by (cbn; congruence). done.
Qed.

(** A context that logs to the terminal and keeps its database in memory builds, where the
    crates cooperate and TLS takes its certificate and key. *)
Lemma build_in_memory {SHA : Sha256Lib} {RSA : RsaLib} {PEM : PemLib} (env : build_env) file ctx cells p n k :
  log_output ctx = Stdout → database_location ctx = Memory →
  runtime_context ctx = {| working_threads := n; cryptography_threads := k |} → 2 ≤ n →
  be_try_init env = Ok tt → (∀ rt, be_runtime_build env rt = Ok tt) →
  be_with_single_cert env (tls_cert (key_context ctx)) (tls_priv (key_context ctx)) = Ok tt →
  p_faults p = [] →
  ∃ srv p', build_from_context env file ctx cells p = (Done (Ok srv), p').
Proof.
  intros Hlog Hdb Hrt Hn Hi Hr Ht Hf. destruct p as [t f]. cbn in Hf. subst f.
  unfold build_from_context. rewrite Hlog, Hdb, Hrt. unfold set_up_log. rewrite Hi.
  unfold configure_runtime. cbn [working_threads cryptography_threads].
  destruct (Z.eqb_spec n 0); [lia|]. destruct (Z.eqb_spec n 1); [lia|].
  cbn. unfold mbind, io_bind, of_result. cbn. rewrite Hr. cbn. rewrite Ht. cbn.
  destruct (oracle_parts _). by eexists _, _.
Qed.

(** The crates and the system cooperate while the server starts: [with_single_cert] takes
    a certificate with its own private key. *)
Record starts_well {PEM : PemLib} {RC : RcgenLib} {X : X509} (env : server_env) : Prop := {
  sw_log : be_try_init (se_build env) = Ok tt;
  sw_rt : ∀ rt, be_runtime_build (se_build env) rt = Ok tt;
  sw_tls : ∀ cert more key, private_public key = cert_key cert →
             be_with_single_cert (se_build env) (cert :: more) key = Ok tt;
  sw_bind : se_bound env = Ok tt
}.

(** What a client checks in the handshake: the certificate the acceptor presents is for the
    name it asks for and signed by an authority it trusts, and the acceptor has its
    private key. *)
Definition trusts {PEM : PemLib} {RC : RcgenLib} {X : X509} (roots : list CertificateDer)
    (name : string) (acceptor : TlsAcceptor) : Prop :=
  ∃ leaf more root, ta_cert acceptor = leaf :: more ∧ root ∈ roots ∧ cert_ca root = true ∧
    cert_signed_under leaf (cert_key root) = true ∧ name ∈ cert_names leaf ∧
    private_public (ta_key acceptor) = cert_key leaf.

(** The network leads to the server, and the handshake succeeds where the client trusts
    the certificate. *)
Record reaches {PEM : PemLib} {RC : RcgenLib} {X : X509} (env : connect_env) (addr : SocketAddr)
    (acceptor : TlsAcceptor) (stream : peer) : Prop := {
  re_name : ce_valid_name env "127.0.0.1" = true;
  re_tcp : ce_tcp env addr = Ok tt;
  re_parsable : ∀ cert, cert_ca cert = true → ce_parsable env cert = true;
  re_tls : ∀ roots name, trusts roots name acceptor → ce_tls env roots name = Ok stream
}.

Definition local (port : Z) : SocketAddr := {| sa_ip := "127.0.0.1"%string; sa_port := port |}.

(** Go on after a stage that succeeded. *)
Ltac stage := cbn [fmap option_fmap option_map with_context map_err run_then mbind option_bind id].

(** The stages of the three programs, where each succeeds. *)
Lemma config_main_serves {RSA : RsaLib} {PEM : PemLib} {PKCS : Pkcs8Lib} {RC : RcgenLib}
    {WREQ : Wincode CaRequest} {WRESP : Wincode CaResponse} env file w cfg ctx cells srv p :
  from_file (se_toml env) (se_machine env) file = Some (Ok cfg) →
  to_server_context (se_machine env) cfg (sw_cells w) = Some (Ok (ctx, cells)) →
  build_from_context (se_build env) (se_schema env) ctx cells (sw_pool w) = (Done (Ok srv), p) →
  se_bound env = Ok tt →
  run_mode env (ModeConfig file) w =
    Some (Serving srv, {| sw_cells := cells; sw_pool := p; sw_files := sw_files w |}).
Proof.
  intros H1 H2 H3 H4. unfold run_mode, config_main. rewrite H1. stage. rewrite H2. stage.
  rewrite H3. stage. unfold run_server, start. rewrite H4. by destruct srv.
Qed.

Lemma client_connects_ok {RSA : RsaLib} {PEM : PemLib} {PKCS : Pkcs8Lib} {RC : RcgenLib} {X : X509}
    toml m env path cfg ctx acceptor stream :
  client_from_file toml m path = Some (Ok cfg) → to_client_context m cfg = Some (Ok ctx) →
  x_server_certificate_name ctx = "127.0.0.1"%string →
  reaches env (x_server_address ctx) acceptor stream →
  trusts (root_cert_store env ctx) "127.0.0.1" acceptor →
  client_connects toml m env path =
    Some (Ok ({| server_rsa_public_key := x_server_rsa_public_key ctx |}, stream)).
Proof.
  intros H1 H2 Hx [Hn Htcp _ Htls] Ht. unfold client_connects. rewrite H1. stage. rewrite H2. stage.
  unfold connect_from_context. by rewrite Hx, Hn, Htcp, Htls.
Qed.

Lemma ca_main_listens {RC : RcgenLib} {WREQ : Wincode CaRequest} {WRESP : Wincode CaResponse}
    toml m path cfg context events :
  ca_from_file toml m path = Some (Ok cfg) → convert_to_context m cfg = Some (Ok context) →
  ca_main toml m path (Ok tt) events =
    Some ((ca_loop context events).1,
          with_context "Certification Authority stopped with an error" FromCaRun
            <$> (ca_loop context events).2).
Proof.
  intros H1 H2. unfold ca_main. rewrite H1. stage. rewrite H2. stage.
  cbn [ca_run]. by destruct (ca_loop _ events).
Qed.

(** The server of the generated configuration, with its certificate and keys. *)
Lemma server_serves {SHA : Sha256Lib} {RSA : RsaLib} {PEM : PemLib} {PKCS : Pkcs8Lib} {RC : RcgenLib}
    {X : X509} {WREQ : Wincode CaRequest} {WRESP : Wincode CaResponse} tp root c s a p q mats key ca leaf
    tls arch par ts tc ta fs (env : server_env) w :
  plain p = true → plain q = true → good_materials mats key ca leaf tls →
  machine_on fs (se_machine env) →
  (∀ f, f ∈ written c s a p q mats ts tc ta →
     ∀ cwd, read_back (path_of root f.1) (chdir cwd fs) = Some f.2) →
  se_toml env = parse_server tp → starts_well env → p_faults (sw_pool w) = [] →
  from_file (parse_server tp) (se_machine env) (path_of root (s, p +:+ "config.toml"))
    = Some (Ok (chosen_config root s p q arch par)) →
  ∃ srv w', run_mode env (ModeConfig (path_of root (s, p +:+ "config.toml")%string)) w
              = Some (Serving srv, w') ∧
    with_instance srv (λ S _ i, i_address i = local 8080 ∧ logged_users (i_state i) = ∅ ∧
      database (i_state i) = p_tables (sw_pool w) ∧ signing_key (i_state i) = key ∧
      ta_cert (i_tls_acceptor i) = [leaf] ∧ ta_key (i_tls_acceptor i) = tls).
Proof.
  intros Hp Hq Hgm Hmach Hf Htoml Hst Hfaults Hcfg. unfold chosen_config in Hcfg.
  pose proof (heuristic_threads_bounds arch par None) as Hn.
  destruct (heuristic_working_threads arch par None) as [acc n]. cbn [snd] in Hn.
  destruct (server_starts _ _ _ _ _ _ Hp Hq mats key ca leaf tls Hgm ts tc ta fs _ Hmach Hf n
    (if acc then 0 else 1) (sw_cells w)) as (ctx & cells' & Hsctx & Haddr & Hkeys & Hlog & Hdb & Hrt).
  destruct (build_in_memory (se_build env) (se_schema env) ctx cells' (sw_pool w) n _ Hlog Hdb Hrt
    ltac:(apply Hn) (sw_log env Hst) (sw_rt env Hst)) as (srv & p' & Hb); [|done|].
  { rewrite Hkeys. apply (sw_tls env Hst), (gm_match _ _ _ _ _ Hgm). }
  exists srv. eexists. split.
  { eapply config_main_serves; [by rewrite Htoml|exact Hsctx|exact Hb|apply (sw_bind env Hst)]. }
  pose proof (build_inv _ _ _ _ _ _ _ Hb) as (_ & _ & Hi).
  destruct srv as [i|i]; cbn in Hi |- *; destruct Hi as (H1 & _ & H3 & H4 & _ & _ & H7 & _ & H9 & H10);
    rewrite H1, H3, H4, H7, H9, H10, Haddr, Hkeys; done.
Qed.

(** The client of the generated configuration trusts the certificate of the server. *)
Lemma generated_trust {RSA : RsaLib} {PEM : PemLib} {PKCS : Pkcs8Lib} {RC : RcgenLib} {X : X509}
    mats key ca leaf tls env addr acceptor stream ctx :
  good_materials mats key ca leaf tls → ta_cert acceptor = [leaf] → ta_key acceptor = tls →
  reaches env addr acceptor stream → x_ca_cert ctx = [ca] →
  trusts (root_cert_store env ctx) "127.0.0.1" acceptor.
Proof.
  intros Hgm Hc Hk Hre Hx. exists leaf, [], ca. split_and!.
  - done.
  - unfold root_cert_store. rewrite Hx. cbn.
    rewrite (re_parsable _ _ _ _ Hre ca (gm_authority _ _ _ _ _ Hgm)). by left.
  - apply (gm_authority _ _ _ _ _ Hgm).
  - apply (gm_issued _ _ _ _ _ Hgm).
  - apply (gm_name _ _ _ _ _ Hgm).
  - rewrite Hk. apply (gm_match _ _ _ _ _ Hgm).
Qed.

(** C10: a generated environment runs.  With valid names, whenever the keys are made and
    the configurations render, the generator ends with success on any tree in which the
    parent of its root exists and the root does not; and on a machine that has the files
    it left, from any working directory, the server in the mode of its configuration file
    serves on port 8080 with a key of 2048 bits, with nobody logged in and the rows of its
    pool; the client started with its own file trusts the certificate that server
    presents, connects to that address and verifies with the public half of that key; and
    the authority started with its own listens, for every sequence of clients.  TLS takes
    a certificate only with its own key, and a client only one that is signed by an
    authority it was given, for the name it asks for. *)
Theorem commands_deploy {SHA : Sha256Lib} {RSA : RsaLib} {PEM : PemLib} {PKCS : Pkcs8Lib}
    {RC : RcgenLib} {KG : KeyGenLib} {X : X509} {KL : KeyTextLaws} {CL : CertificateLaws}
    {WCREQ : Wincode CaRequest} {WCRESP : Wincode CaResponse}
    (tr : toml_render) (tp : toml_parse) {TL : TomlLaws tr tp}
    (cli : TerraformCli) (ent : entropy) (mats : materials) (arch : target_arch) (par : option Z)
    (ts tc ta : string) (fs : filesystem) (R : location) :
  let '(c, s, a, p, q) := (dir_of_client cli, dir_of_server cli, dir_of_ca cli,
                           tf_server_prefix cli, tf_ca_prefix cli) in
  let path d n := path_of (abs_path R) (d, n) in
  names_ok cli = true →
  generate_materials ent = Ok mats → renders (abs_path R) c s a p q tr arch par ts tc ta →
  fs_ok fs → fs_faults fs = [] → entry fs (tf_root cli) = Ok R → occupied R fs = false →
  ∃ fs', terraform_main cli ent tr arch par (Ok tt, Ok tt, Ok tt) fs = Done (Ok tt, fs') ∧
    ∀ env w, machine_on fs' (se_machine env) → se_toml env = parse_server tp →
      starts_well env → p_faults (sw_pool w) = [] →
      ∃ srv w' client ca_context,
        run_mode env (ModeConfig (path s (p +:+ "config.toml")%string)) w = Some (Serving srv, w') ∧
        with_instance srv (λ S _ i, i_address i = local 8080 ∧ logged_users (i_state i) = ∅ ∧
          database (i_state i) = p_tables (sw_pool w) ∧
          rsa_key_bytes (signing_key (i_state i)) = RSA_KEY_SIZE_IN_BYTES ∧
          server_rsa_public_key client = RsaPublicKey_from (signing_key (i_state i)) ∧
          ∀ cenv stream, reaches cenv (i_address i) (i_tls_acceptor i) stream →
            client_connects (parse_client tp) (se_machine env) cenv (path c "config.toml"%string)
              = Some (Ok (client, stream))) ∧
        ca_address ca_context = local 8081 ∧
        ∀ events, ca_main (parse_ca tp) (se_machine env) (path a (q +:+ "config.toml")%string) (Ok tt) events
          = Some ((ca_loop ca_context events).1,
                  with_context "Certification Authority stopped with an error" FromCaRun
                    <$> (ca_loop ca_context events).2).
Proof.
  cbn zeta. intros Hnames Hm Hren Hok Hfl Hroot Hfree.
  destruct (names_ok_spec cli Hnames) as (Hc & Hs & Ha & Hp & Hq & Hcs & Hca & Hsa & Hpq).
  eexists. split.
  { unfold terraform_main. rewrite prepare_plain by done. cbn [outcome_bind].
    erewrite (run_generation _ _ _ _ _ _ R) by done. reflexivity. }
  intros env w Hmach Htoml Hst Hfaults.
  assert (Hf := λ f Hin, proj2 (generated_reads _ _ _ _ _ _ R Hc Hs Ha Hp Hq Hcs Hca Hsa Hpq
    fs Hok Hfl Hroot Hfree mats ts tc ta f Hin)).
  destruct (generated_materials ent mats Hm) as (key & ca & leaf & tls & Hgm).
  pose proof (server_reads_its_file tr tp _ _ _ _ _ _ Hp Hq mats arch par ts tc ta Hren _ _
    Hmach Hf) as Hcfg.
  destruct (client_starts tr tp _ _ _ _ _ _ Hp Hq mats key ca leaf tls Hgm arch par ts tc ta Hren _ _
    Hmach Hf) as [Hcc Hctx].
  destruct (ca_starts tr tp _ _ _ _ _ _ Hq mats arch par ts tc ta Hren _ _ Hmach Hf)
    as [Hac Hactx].
  destruct (server_serves tp _ _ _ _ _ _ mats key ca leaf tls arch par ts tc ta _ env w Hp Hq Hgm Hmach
    Hf Htoml Hst Hfaults Hcfg) as (srv & w' & Hserve & Hi).
  exists srv, w', {| server_rsa_public_key := RsaPublicKey_from key |},
    {| ca_address := local 8081; Ca.ca_cert_pem := bytes_of (mt_ca_cert_pem mats);
       Ca.ca_key_pem := bytes_of (mt_ca_key_pem mats) |}. split_and!; [exact Hserve| |done|].
  - destruct srv as [i|i]; cbn in Hi |- *; destruct Hi as (H1 & H2 & H3 & H4 & H5 & H6);
      rewrite H1, H2, H3, H4; (split_and!; [done..|apply (gm_size _ _ _ _ _ Hgm)|done|]);
      intros cenv stream Hre; refine (client_connects_ok _ _ _ _ _ _ _ _ Hcc Hctx eq_refl Hre _);
      by apply (generated_trust _ _ _ _ _ _ _ _ _ _ Hgm H5 H6 Hre).
  - intros events. exact (ca_main_listens _ _ _ _ _ _ Hac Hactx).
Qed.

Module ToyMain.
Definition cli : TerraformCli := tf_default "sim".
Definition env (fs : filesystem) : @server_env ToyDeployment.pem ToyDeployment.rcgen := {|
  se_machine := ToyDeployment.machine_of fs; se_toml := parse_server ToyDeployment.tp;
  se_build := @Build_build_env ToyDeployment.pem (Ok tt) (λ _, Ok tt)
    (λ (certs : list ToyDeployment.certificate) (key : bool),
       if bool_decide ((λ c, c.1.1.1) <$> head certs = Some key)
       then Ok tt else Err "keys may not be consistent"%string) toy_fs;
  se_bound := Ok tt; se_schema := []; se_runtime := Ok tt;
  se_connect := λ _, Err {| io_kind := TimedOut; io_text := "timed out"%string |};
  se_keypair := Err "none"%string |}.
Lemma env_starts fs : starts_well (X := ToyDeployment.x509) (env fs).
Proof.
  constructor; try done. intros cert more key E. cbn in *. by rewrite bool_decide_eq_true_2 by congruence.
Qed.
Definition w : server_world := {| sw_cells := ∅; sw_pool := ToyBuild.p0; sw_files := ToyCa.fs |}.

(** A client that checks the certificate of the acceptor. *)
Definition checks (acc : @TlsAcceptor ToyDeployment.pem) (roots : list ToyDeployment.certificate)
    (name : string) : bool :=
  match (ta_cert acc : list ToyDeployment.certificate) with
  | leaf :: _ =>
      existsb (λ r, r.1.2 && eqb leaf.2 r.1.1.1) roots && bool_decide (name ∈ leaf.1.1.2)
      && eqb (ta_key acc) leaf.1.1.1
  | [] => false
  end.
Definition cenv (acc : @TlsAcceptor ToyDeployment.pem) : @connect_env ToyDeployment.pem :=
  @Build_connect_env ToyDeployment.pem (λ _, true) (λ _, true) [] (λ _, Ok tt)
    (λ roots name, if checks acc roots name then Ok ToyMenu.dead_peer
                   else Err {| io_kind := InvalidData; io_text := "UnknownIssuer" |}).
Lemma cenv_reaches acc addr : reaches (X := ToyDeployment.x509) (cenv acc) addr acc ToyMenu.dead_peer.
Proof.
  constructor; try done. intros roots name (leaf & more & root & E & Hr & Hca & Hs & Hn & Hk).
  cbn [cenv ce_tls]. replace (checks acc roots name) with true; [done|]. symmetry. unfold checks.
  rewrite E. cbn in Hca, Hs, Hn, Hk. rewrite Hk, eqb_reflx, (bool_decide_eq_true_2 _ Hn), !andb_true_r.
  apply existsb_exists. exists root. split; [by apply list_elem_of_In|]. by rewrite Hca.
Qed.
End ToyMain.

Lemma commands_deploy_witness :
  ∃ fs' srv w' client,
    terraform_main (KG := ToyDeployment.keygen) ToyMain.cli ToyTerraform.ent ToyDeployment.tr OtherArch
      None (Ok tt, Ok tt, Ok tt) ToyTerraform.home = Done (Ok tt, fs') ∧
    run_mode (PKCS := ToyMachine.pkcs) (WREQ := ToyCa.wreq) (WRESP := ToyCa.wresp) (ToyMain.env fs')
      (ModeConfig (path_of "/home/sim" ("server_env", "server_config.toml")%string)) ToyMain.w
      = Some (Serving srv, w') ∧
    with_instance (SHA := Toy.sha) srv (λ S _ i, client_connects (PKCS := ToyMachine.pkcs)
      (parse_client ToyDeployment.tp) (ToyDeployment.machine_of fs') (ToyMain.cenv (i_tls_acceptor i))
      (path_of "/home/sim" ("client_env", "config.toml")%string)
      = Some (Ok (client, ToyMenu.dead_peer))).
Proof.
  destruct (commands_deploy (SHA := Toy.sha) (X := ToyDeployment.x509) (KL := ToyDeployment.keys_read)
    (CL := ToyDeployment.certificates_read) (WCREQ := ToyCa.wreq) (WCRESP := ToyCa.wresp)
    ToyDeployment.tr ToyDeployment.tp (TL := ToyDeployment.toml_laws) ToyMain.cli ToyTerraform.ent
    ToyDeployment.m OtherArch None "server" "client" "ca" ToyTerraform.home ["home"; "sim"]%string)
    as (fs' & Hgen & Hall).
  - reflexivity.
  - vm_compute. reflexivity.
  - exact ToyDeployment.rendered.
  - exact ToyTerraform.home_ok.
  - reflexivity.
  - vm_compute. reflexivity.
  - vm_compute. reflexivity.
  - destruct (Hall (ToyMain.env fs') ToyMain.w (ToyDeployment.machine_of_on fs') eq_refl
      (ToyMain.env_starts fs') eq_refl) as (srv & w' & client & ctx & H1 & H2 & _).
    exists fs', srv, w', client. split_and!; [exact Hgen|exact H1|].
    destruct srv as [i|i]; exact (proj2 (proj2 (proj2 (proj2 (proj2 H2)))) _ _
      (ToyMain.cenv_reaches (i_tls_acceptor i) (i_address i))).
Defined.

(** The command line of a server that is given its configuration. *)
Lemma server_command_line_refused_witness :
  ∃ message, server_main (RSA := Toy.rsa) (PKCS := ToyMachine.pkcs) (WREQ := ToyCa.wreq)
      (WRESP := ToyCa.wresp) (CLAP := ToyClap.parse) (ToyMain.env ToyTerraform.home)
      ["config"; "--file"; "server_config.toml"]%string ToyMain.w = Some (NotParsed message, ToyMain.w).
Proof.
  destruct (server_command_line_refused (RSA := Toy.rsa) (PKCS := ToyMachine.pkcs) (WREQ := ToyCa.wreq)
    (WRESP := ToyCa.wresp) (CLAP := ToyClap.parse) (CL := ToyClap.laws) (ToyMain.env ToyTerraform.home)
    ["config"; "--file"; "server_config.toml"]%string ToyMain.w) as (message & [H|H]).
  - exists message. exact H.
  - discriminate H.
Defined.

(** ** A generation that failed *)

Section Resuming.
Context {RC : RcgenLib} {RSA : RsaLib} {KG : KeyGenLib}.

Lemma grows_generate_tomls g tr arch par : grows (generate_tomls g tr arch par).
Proof.
  unfold generate_tomls, generate_server_toml, generate_client_toml, generate_ca_toml,
    get_canonical_path, write_toml.
  destruct (heuristic_working_threads _ _ _). cbn zeta. grows.
Qed.

(** Whatever follows an operation keeps what it left. *)
Lemma larger_bind {E A B} (m : fs_io E A) (k : A → fs_io E B) fs :
  (∀ a, grows (k a)) → larger (m fs).2 ((m ≫= k) fs).2.
Proof.
  intros Hk. unfold mbind, fs_bind. destruct (m fs) as [[a|e] fs']; [apply Hk|done].
Qed.
Lemma map_err_state {E F A} (f : E → F) (m : fs_io E A) fs : (fs_map_err f m fs).2 = (m fs).2.
Proof. unfold fs_map_err. by destruct (m fs). Qed.

(** A file system on which every operation works. *)
Definition repaired (fs : filesystem) : filesystem := set_faults [] fs.

(** The first step of a generation, where it meets no fault. *)
Lemma create_dir_outcome path fs :
  head (fs_faults fs) = Some None ∨ fs_faults fs = [] →
  match entry fs path with
  | Ok l => occupied l (fs_create_dir path fs).2 = true
  | Err e => fs_create_dir path fs = (Err e, set_faults (tail (fs_faults fs)) fs)
  end.
Proof.
  intros Hf. unfold fs_create_dir.
  assert (fs_operation fs = (Ok tt, set_faults (tail (fs_faults fs)) fs)) as Hop
    by (unfold fs_operation; destruct (fs_faults fs) as [|[e|] rest]; naive_solver).
  rewrite (bind_ok _ _ _ _ _ Hop). unfold fs_step.
  rewrite entry_set_faults.
  destruct (entry fs path) as [l|e]; [|done].
  destruct (occupied l (set_faults _ fs)) eqn:Ho; [done|]. cbn. apply occupied_spec. left.
  cbn. set_solver.
Qed.

(** What a second generation meets at the root. *)
Lemma generate_again g ent mats tr arch par fs :
  generate_materials ent = Ok mats → fs_faults fs = [] →
  match entry fs (root_dir (g_env g)) with Ok l => occupied l fs = true | Err _ => True end →
  generate_all g ent tr arch par fs
    = (Err (KeyGen (KeyIo (root_dir (g_env g))
         (match entry fs (root_dir (g_env g)) with Ok _ => EEXIST | Err e => e end))), fs).
Proof.
  intros Hm Hf Ho. unfold generate_all, generate_keys_and_distribute. rewrite Hm.
  unfold create_dir, fs_create_dir, fs_map_err, mbind, fs_bind, fs_step.
  rewrite (operation_sound fs Hf). destruct (entry fs (root_dir (g_env g))) as [l|e]; [|done].
  by rewrite Ho.
Qed.

(** What a first generation leaves at the root, and where the root then is. *)
Lemma root_after_generate g ent mats tr arch par fs :
  generate_materials ent = Ok mats → head (fs_faults fs) = Some None ∨ fs_faults fs = [] →
  let fs' := (generate_all g ent tr arch par fs).2 in
  match entry fs (root_dir (g_env g)) with
  | Ok l => entry fs' (root_dir (g_env g)) = Ok l ∧ occupied l fs' = true
  | Err e => entry fs' (root_dir (g_env g)) = Err e
  end.
Proof.
  intros Hm Hf fs'. pose proof (create_dir_outcome (root_dir (g_env g)) fs Hf) as Hroot.
  pose proof (grows_create_dir (root_dir (g_env g)) fs) as Hgrow.
  subst fs'. unfold generate_all, generate_keys_and_distribute. rewrite Hm.
  destruct (entry fs (root_dir (g_env g))) as [l|e] eqn:Ee.
  - match goal with |- entry (?fs2.2) _ = _ ∧ _ =>
      assert (larger (fs_create_dir (root_dir (g_env g)) fs).2 fs2.2) as Hl end.
    { etrans; [|apply larger_bind; intros _; grows; apply grows_generate_tomls].
      rewrite map_err_state. etrans; [|apply larger_bind; intros _; unfold create_dir, write_file; grows].
      unfold create_dir. by rewrite map_err_state. }
    split; [|by eapply larger_occupied]. eapply larger_entry; [exact Hl|].
    by eapply larger_entry.
  - erewrite bind_err by (apply map_err_err_run, bind_err, map_err_err_run, Hroot).
    cbn [snd]. by rewrite entry_set_faults.
Qed.

(** C36: a generation cannot be resumed.  After a run of the generator whose keys were made
    and that could reach the file system, however it ended and whatever it had written,
    a second run with the same arguments, on a file system that now works and with new
    keys, reports that the root exists and writes nothing; or, where the root has no
    parent directory to be made in, reports that as the first run did. *)
Theorem generation_not_resumable (cli : TerraformCli) (ent ent' : entropy) (mats mats' : materials)
    (tr tr' : toml_render) (arch : target_arch) (par par' : option Z) (out3 out3' : result unit string)
    (r : result unit terraform_failure) (fs fs1 : filesystem) :
  names_ok cli = true → generate_materials ent = Ok mats → generate_materials ent' = Ok mats' →
  head (fs_faults fs) = Some None ∨ fs_faults fs = [] →
  terraform_main cli ent tr arch par (Ok tt, Ok tt, out3) fs = Done (r, fs1) →
  let reason := match entry fs (tf_root cli) with Ok _ => EEXIST | Err e => e end in
  terraform_main cli ent' tr' arch par' (Ok tt, Ok tt, out3') (repaired fs1)
    = Done (Err (GenerationFailed (KeyGen (KeyIo (tf_root cli) reason))), repaired fs1).
Proof.
  intros Hn Hm Hm' Hf. unfold terraform_main. rewrite !prepare_plain by done. cbn [outcome_bind].
  match goal with |- context [the_generator ?a ?b ?c ?d ?e ?f] => set (g := the_generator a b c d e f) end.
  pose proof (root_after_generate g ent mats tr arch par fs Hm Hf) as Hp.
  destruct (generate_all g ent tr arch par fs) as [r0 fs0]. intros [= _ <-]. cbn [snd] in Hp.
  change (root_dir (g_env g)) with (tf_root cli) in Hp.
  rewrite (generate_again g ent' mats' tr' arch par' (repaired fs0) Hm' eq_refl);
    change (root_dir (g_env g)) with (tf_root cli);
    unfold repaired; rewrite entry_set_faults;
    destruct (entry fs (tf_root cli)); [destruct Hp as [-> Ho]|rewrite Hp|destruct Hp as [-> Ho]|rewrite Hp]; done.
Qed.
End Resuming.

(** A run whose second operation finds the disk full, and the run after it. *)
Lemma generation_not_resumable_witness :
  let fs := set_faults [None; Some "No space left on device"%string] ToyTerraform.home in
  let fs1 := set_dirs {[ []; ["home"]; ["home"; "sim"] ]}%string ToyTerraform.home in
  let run fs := terraform_main (KG := ToyTerraform.keygen) ToyMain.cli ToyTerraform.ent ToyTerraform.tr
                  OtherArch None (Ok tt, Ok tt, Ok tt) fs in
  run fs = Done (Err (GenerationFailed (KeyGen (KeyIo "sim/ca_env" "No space left on device"))), fs1) ∧
  run fs1 = Done (Err (GenerationFailed (KeyGen (KeyIo "sim" "File exists"))), fs1).
Proof.
  cbn zeta.
  assert (terraform_main (KG := ToyTerraform.keygen) ToyMain.cli ToyTerraform.ent ToyTerraform.tr
    OtherArch None (Ok tt, Ok tt, Ok tt)
    (set_faults [None; Some "No space left on device"%string] ToyTerraform.home)
    = Done (Err (GenerationFailed (KeyGen (KeyIo "sim/ca_env" "No space left on device"))),
            set_dirs {[ []; ["home"]; ["home"; "sim"] ]}%string ToyTerraform.home)) as H1
    by (vm_compute; reflexivity).
  split; [exact H1|].
  exact (generation_not_resumable (KG := ToyTerraform.keygen) ToyMain.cli ToyTerraform.ent ToyTerraform.ent
    ToyTerraform.m ToyTerraform.m ToyTerraform.tr ToyTerraform.tr OtherArch None None (Ok tt) (Ok tt)
    (Err (GenerationFailed (KeyGen (KeyIo "sim/ca_env" "No space left on device"))))
    (set_faults [None; Some "No space left on device"%string] ToyTerraform.home)
    (set_dirs {[ []; ["home"]; ["home"; "sim"] ]}%string ToyTerraform.home)
    eq_refl eq_refl eq_refl (or_introl eq_refl) H1).
Defined.
