(* ===== verification/DatabaseTests.v ===== *)
(** * DatabaseTests: the unit tests of the database, on the model

    The module [tests] of [server/src/database.rs], one definition per test, over any
    password hasher that works on their passwords; a test is database code that panics where
    an [unwrap] or an [assert!] of the source would.  That every test passes is a check of
    the model against what its authors expect of the code. *)
From Stdlib Require Import QArith.
From S2P Require Import Prelude Bytes Protocol Sql Database DatabaseSpec DatabaseBuilder.
#[local] Open Scope Z_scope.

(** ** Tests *)

(** Code that returns no error: it ends or panics. *)
Definition test (A : Type) : Type := io Empty_set A.

Definition unwrap {E A} (m : io E A) : test A := λ p,
  match m p with
  | (Done (Ok a), p') => (Done (Ok a), p')
  | (Done (Err _), p') => (Panic "called Result::unwrap() on an Err value"%string, p')
  | (Panic s, p') => (Panic s, p')
  end.
Definition unwrap_err {E A} (m : io E A) : test E := λ p,
  match m p with
  | (Done (Ok _), p') => (Panic "called Result::unwrap_err() on an Ok value"%string, p')
  | (Done (Err e), p') => (Done (Ok e), p')
  | (Panic s, p') => (Panic s, p')
  end.
(** The [Result] itself. *)
Definition attempt {E A} (m : io E A) : test (result A E) := λ p,
  match m p with
  | (Done r, p') => (Done (Ok r), p')
  | (Panic s, p') => (Panic s, p')
  end.
Definition assert (b : bool) : test unit :=
  if b then mret tt else io_panic "assertion failed"%string.

Definition passes (t : test unit) (p : pool) : Prop := (t p).1 = Done (Ok tt).

Definition is_ok {A E} (r : result A E) : bool := match r with Ok _ => true | Err _ => false end.

(** [[b; n]] *)
Definition filled (n : nat) (b : byte) : array n := Toy.pad n (replicate n b).
(** [n_u128.to_be_bytes()] *)
Definition u128_be (n : Z) : array 16 := Toy.pad 16 (to_be_bytes 16 n).

(** The passwords of the tests, here and in [ConnTests]. *)
Definition test_passwords : list string :=
  ["SuperSecretPassword123!"; "pass"; "correct_pass"; "wrong_pass";
   "supersecret"; "pass123"; "secure_pass"; "safe_password"; "123"]%string.

(** What the tests rely on of the hasher, for their passwords and the salts that are
    drawn: it hashes, a password verifies against its own hash, and another password of
    the tests does not. *)
Class Argon2Works {ARGON : Argon2Lib} (salts : list string) : Prop :=
  argon2_works password salt :
    password ∈ test_passwords → salt ∈ salts →
    ∃ rendered parsed, hash_password password salt = Ok rendered ∧
      PasswordHash_new rendered = Ok parsed ∧ verify_password password parsed = Ok tt ∧
      ∀ other, other ∈ test_passwords → other ≠ password →
        ∃ e, verify_password other parsed = Err e.

(** Membership in a given list. *)
Ltac listed := repeat first [apply list_elem_of_here | apply list_elem_of_further].

(** The temporary directory of a test, before and after its file exists. *)
Definition tempdir (path : string) (created : bool) : fs_env := {|
  fs_exists p := bool_decide (p = "tmp"%string) || (bool_decide (p = path) && created);
  fs_parent _ := Some "tmp"%string;
  fs_create_dir_all _ := Ok tt |}.

Section Tests.
Context {ARGON : Argon2Lib} {HEX : HexLib}.
(** The file system around an in-memory database, and the salts that are drawn. *)
Context (fs : fs_env) (salt salt' : string).

Definition setup_memory_db : test schema := unwrap (build fs Memory (db_schema new_db)).

(** A row with the ten tokens the raw inserts give. *)
Definition raw_user (username password_hash : string) (tokens : Z) : user_row := {|
  u_username := username; u_password_hash := password_hash;
  u_available_tokens := SqlInteger tokens; u_registered_from_ip := "127.0.0.1" |}.

Definition test_register_and_verify_success : test unit :=
  _ ← setup_memory_db;
  reg_result ← attempt (try_register_user salt "alice" "SuperSecretPassword123!" "127.0.0.1");
  _ ← assert (is_ok reg_result);
  auth_result ← attempt (verify_user_password "alice" "SuperSecretPassword123!");
  assert (is_ok auth_result).

Definition test_registration_duplicate_user : test unit :=
  _ ← setup_memory_db;
  _ ← unwrap (try_register_user salt "bob" "pass" "::1");
  err ← unwrap_err (try_register_user salt' "bob" "pass" "::1");
  assert match err with Reg_UserAlreadyExists _ => true | _ => false end.

Definition test_verify_user_not_found_and_invalid_password : test unit :=
  _ ← setup_memory_db;
  err ← unwrap_err (verify_user_password "ghost" "pass");
  _ ← assert match err with Auth_UserNotFound _ => true | _ => false end;
  _ ← unwrap (try_register_user salt "charlie" "correct_pass" "127.0.0.1");
  err ← unwrap_err (verify_user_password "charlie" "wrong_pass");
  assert match err with Auth_InvalidPassword => true | _ => false end.

Definition test_tokens_operations_success : test unit :=
  _ ← setup_memory_db;
  _ ← unwrap (try_register_user salt "dave" "pass" "::1");
  tokens ← unwrap (get_user_tokens "dave");
  _ ← assert (tokens =? 0);
  tokens ← unwrap (add_user_tokens "dave" 50);
  _ ← assert (tokens =? 50);
  tokens ← unwrap (subtract_user_tokens "dave" 20);
  assert (tokens =? 30).

Definition test_tokens_subtraction_insufficient : test unit :=
  _ ← setup_memory_db;
  _ ← unwrap (try_register_user salt "eve" "pass" "127.127.120.2");
  _ ← unwrap (add_user_tokens "eve" 10);
  err ← unwrap_err (subtract_user_tokens "eve" 15);
  assert match err with Sub_InsufficientTokens => true | _ => false end.

Definition test_tokens_user_not_found : test unit :=
  _ ← setup_memory_db;
  err_get ← unwrap_err (get_user_tokens "ghost");
  _ ← assert match err_get with Get_UserDoesNotExist => true | _ => false end;
  err_add ← unwrap_err (add_user_tokens "ghost" 10);
  _ ← assert match err_add with Add_UserDoesNotExist => true | _ => false end;
  err_sub ← unwrap_err (subtract_user_tokens "ghost" 10);
  assert match err_sub with Sub_UserDoesNotExist => true | _ => false end.

Definition test_disk_db_creation_and_reload : test unit :=
  file ← unwrap (build (tempdir "tmp/test.db" false) (Disk "tmp/test.db") (db_schema new_db));
  _ ← unwrap (try_register_user salt "frank" "pass" "fde8:fdea:fdee:fdf0:fdf2:fde7:fe4c:fe4d");
  _ ← unwrap (build (tempdir "tmp/test.db" true) (Disk "tmp/test.db") file);
  tokens ← unwrap (get_user_tokens "frank");
  assert (tokens =? 0).

(** The tables are created without the check, so that the row is taken. *)
Definition test_validation_constraint_violation : test unit :=
  let file := [("users", ["username"; "password_hash"; "available_tokens"; "registered_from_ip"]);
               ("history", ["username"; "timestamp"; "hash"])]%string in
  _ ← on_pool (λ p, (Ok tt, set_tables {|
        t_users := {["hacker"%string := raw_user "hacker" "hash" (-5)]}; t_history := [] |} p));
  err ← unwrap_err (build (tempdir "tmp/corrupted.db" true) (Disk "tmp/corrupted.db") file);
  assert match err with
         | ConstraintViolation name => bool_decide (name = "hacker"%string)
         | _ => false
         end.

Definition test_validation_missing_table : test unit :=
  err ← unwrap_err (build (tempdir "tmp/bogus.db" true) (Disk "tmp/bogus.db") []);
  assert match err with Validation _ => true | _ => false end.

Definition test_validation_with_extra_tables_fails : test unit :=
  file ← unwrap (build (tempdir "tmp/strict.db" false) (Disk "tmp/strict.db") (db_schema new_db));
  let file := file ++ [("secret_backdoor", ["id"])]%string in
  err ← unwrap_err (build (tempdir "tmp/strict.db" true) (Disk "tmp/strict.db") file);
  assert match err with
         | UnexpectedTable name => bool_decide (name = "secret_backdoor"%string)
         | _ => false
         end.

Definition test_user_does_not_exist : test unit :=
  _ ← setup_memory_db;
  result ← attempt (get_user_history "ghost_user");
  assert match result with Err Hist_UserDoesNotExist => true | _ => false end.

Definition test_user_exists_but_empty_record : test unit :=
  _ ← setup_memory_db;
  _ ← unwrap (execute (insert_user (raw_user "alice" "dummy_hash" 10)));
  result ← attempt (get_user_history "alice");
  assert match result with Ok [] => true | _ => false end.

Definition test_successful_history_retrieval : test unit :=
  _ ← setup_memory_db;
  _ ← unwrap (execute (insert_user (raw_user "bob" "dummy" 10)));
  let valid_hash := filled RSA_KEY_SIZE_IN_BYTES x01 in
  _ ← unwrap (execute (insert_history {|
        h_username := "bob"; h_timestamp := SqlBlob (arr_bytes (u128_be 1680000000));
        h_hash := SqlBlob (arr_bytes valid_hash) |}));
  result ← attempt (get_user_history "bob");
  assert (is_ok result).

Definition test_hash_integrity_violation : test unit :=
  _ ← setup_memory_db;
  _ ← unwrap (execute (insert_user (raw_user "charlie" "dummy" 10)));
  let invalid_hash := filled 10 x02 in
  _ ← unwrap (execute (insert_history {|
        h_username := "charlie"; h_timestamp := SqlBlob (arr_bytes (u128_be 1680000000));
        h_hash := SqlBlob (arr_bytes invalid_hash) |}));
  result ← attempt (get_user_history "charlie");
  assert match result with Err (Hist_HashIntegrityViolated _) => true | _ => false end.

Definition test_add_record_success : test unit :=
  _ ← setup_memory_db;
  _ ← unwrap (try_register_user salt "alice_history" "pass" "127.0.0.1");
  let timestamp := Timestamp_from (u128_be 1680000000) in
  let signature := RsaSignature_from (filled 256 x2a) in
  result ← attempt (add_user_record "alice_history" timestamp signature);
  _ ← assert (is_ok result);
  history ← unwrap (get_user_history "alice_history");
  _ ← assert (length history =? 1)%nat;
  assert match history with
         | record :: _ => bool_decide (timestamp = HistoryRecord_timestamp record)
                          && bool_decide (signature = HistoryRecord_hash record)
         | [] => false
         end.

Definition test_add_record_user_does_not_exist : test unit :=
  _ ← setup_memory_db;
  let timestamp := Timestamp_from (u128_be 100) in
  let signature := RsaSignature_from (filled 256 x2a) in
  err ← unwrap_err (add_user_record "ghost_user" timestamp signature);
  assert match err with Rec_UserDoesNotExist => true | _ => false end.

Definition test_add_record_duplicate_pk_constraint : test unit :=
  _ ← setup_memory_db;
  _ ← unwrap (try_register_user salt "bob_history" "pass" "127.0.0.1");
  let timestamp := Timestamp_from (u128_be 1000) in
  let signature := RsaSignature_from (filled 256 x2a) in
  _ ← unwrap (add_user_record "bob_history" timestamp signature);
  err ← unwrap_err (add_user_record "bob_history" timestamp signature);
  assert match err with Rec_InternalDataBase (Sql (SqlxDatabase _)) => true | _ => false end.

Definition test_sqlite_permissiveness_timestamp_corruption : test unit :=
  _ ← setup_memory_db;
  _ ← unwrap (try_register_user salt "charlie_corrupt" "pass" "127.0.0.1");
  _ ← unwrap (execute (insert_history {|
        h_username := "charlie_corrupt"; h_timestamp := SqlText "this_is_a_text_not_a_16_byte_blob";
        h_hash := SqlBlob (arr_bytes (filled 256 x01)) |}));
  err ← unwrap_err (get_user_history "charlie_corrupt");
  assert match err with Hist_TimestampIntegrityViolated _ => true | _ => false end.

Definition test_sqlite_permissiveness_float_tokens : test unit :=
  _ ← setup_memory_db;
  _ ← unwrap (try_register_user salt "dave_float" "pass" "127.0.0.1");
  _ ← unwrap (execute (update_tokens (λ _, SqlReal (101 # 2)) "dave_float"));
  err ← unwrap_err (get_user_tokens "dave_float");
  assert match err with Get_InternalDataBase (Sql SqlxColumnDecode) => true | _ => false end.

Definition test_tokens_addition_overflow : test unit :=
  _ ← setup_memory_db;
  _ ← unwrap (try_register_user salt "eve_overflow" "pass" "127.0.0.1");
  _ ← unwrap (execute (update_tokens (λ _, SqlInteger (i64_max - 10)) "eve_overflow"));
  err ← unwrap_err (add_user_tokens "eve_overflow" 50);
  assert match err with Add_TokenOverflow => true | _ => false end.

Definition test_history_ordering_by_timestamp : test unit :=
  _ ← setup_memory_db;
  _ ← unwrap (try_register_user salt "chronos" "pass" "127.0.0.1");
  let time_old := Timestamp_from (u128_be 1600000000) in
  let time_mid := Timestamp_from (u128_be 1650000000) in
  let time_new := Timestamp_from (u128_be 1700000000) in
  let signature := RsaSignature_from (filled RSA_KEY_SIZE_IN_BYTES x2a) in
  _ ← unwrap (add_user_record "chronos" time_mid signature);
  _ ← unwrap (add_user_record "chronos" time_new signature);
  _ ← unwrap (add_user_record "chronos" time_old signature);
  history ← unwrap (get_user_history "chronos");
  assert (bool_decide (HistoryRecord_timestamp <$> history = [time_new; time_mid; time_old])).

Definition database_tests : list (test unit) :=
  [test_register_and_verify_success; test_registration_duplicate_user;
   test_verify_user_not_found_and_invalid_password; test_tokens_operations_success;
   test_tokens_subtraction_insufficient; test_tokens_user_not_found;
   test_disk_db_creation_and_reload; test_validation_constraint_violation;
   test_validation_missing_table; test_validation_with_extra_tables_fails;
   test_user_does_not_exist; test_user_exists_but_empty_record;
   test_successful_history_retrieval; test_hash_integrity_violation; test_add_record_success;
   test_add_record_user_does_not_exist; test_add_record_duplicate_pk_constraint;
   test_sqlite_permissiveness_timestamp_corruption; test_sqlite_permissiveness_float_tokens;
   test_tokens_addition_overflow; test_history_ordering_by_timestamp].
End Tests.

(** ** They pass *)

(** The hasher's part of a test, before the rest of it is computed. *)
Lemma register_step {ARGON : Argon2Lib} salt u pw ip h :
  hash_password pw salt = Ok h →
  try_register_user salt u pw ip = λ p,
    io_map_err
    (λ e, match e with
          | SqlxDatabase k =>
              if is_unique_violation k then Reg_UserAlreadyExists u
              else Reg_InternalDataBase (Sql e)
          | _ => Reg_InternalDataBase (Sql e)
          end)
    (execute (insert_user {|
       u_username := u; u_password_hash := h;
       u_available_tokens := SqlInteger 0; u_registered_from_ip := ip |})) p.
Proof. intros E. unfold try_register_user. by rewrite E. Qed.

Ltac registers := repeat match goal with
  |- context [@try_register_user _ ?s _ ?pw _] =>
    let h := fresh "h" in let q := fresh "q" in
    destruct (argon2_works pw s ltac:(listed) ltac:(listed)) as (h & q & ? & ? & ? & ?);
    erewrite !(register_step s _ pw) by eassumption
  end.

Lemma verify_step {ARGON : Argon2Lib} u pw h parsed p :
  select_password_hash u (p_tables p) = Some h → p_faults p = [] → PasswordHash_new h = Ok parsed →
  verify_user_password u pw p =
    (Done match verify_password pw parsed with Ok _ => Ok tt | Err _ => Err Auth_InvalidPassword end, p).
Proof.
  destruct p as [t f]. cbn. intros Hs -> Hp. unfold verify_user_password, fetch, mbind, io_bind. cbn.
  rewrite Hs. cbn. unfold of_result. rewrite Hp. cbn. by destruct (verify_password pw parsed).
Qed.

(** What a new database holds. *)
Definition fresh_pool : pool := {| p_tables := empty_tables; p_faults := [] |}.

Section Passing.
Context {ARGON : Argon2Lib} {HEX : HexLib} (fs : fs_env) (salt salt' : string).
Context {WORKS : Argon2Works [salt; salt'] }.

(** One step of a test. *)
Lemma test_step {A} (m : test A) (k : A → test unit) p a p' :
  m p = (Done (Ok a), p') → passes (k a) p' → passes (m ≫= k) p.
Proof. intros E Hk. unfold passes, mbind, io_bind. by rewrite E. Qed.

Lemma register_and_verify_passes : passes (test_register_and_verify_success fs salt) fresh_pool.
Proof.
  destruct (argon2_works "SuperSecretPassword123!" salt ltac:(listed) ltac:(listed)) as (h & q & Hh & Hq & Hv & _).
  unfold test_register_and_verify_success. eapply test_step; [reflexivity|].
  rewrite (register_step _ _ _ _ h) by done. eapply test_step; [reflexivity|].
  eapply test_step; [reflexivity|]. unfold attempt. eapply test_step.
  - erewrite verify_step by (exact Hq || (vm_compute; reflexivity)). by rewrite Hv.
  - reflexivity.
Qed.

Lemma invalid_password_passes :
  passes (test_verify_user_not_found_and_invalid_password fs salt) fresh_pool.
Proof.
  destruct (argon2_works "correct_pass" salt ltac:(listed) ltac:(listed)) as (h & q & Hh & Hq & _ & Hw).
  destruct (Hw "wrong_pass"%string ltac:(listed) ltac:(discriminate)) as [e He].
  unfold test_verify_user_not_found_and_invalid_password.
  do 3 (eapply test_step; [reflexivity|]).
  rewrite (register_step _ _ _ _ h) by done. eapply test_step; [reflexivity|].
  unfold unwrap_err. eapply test_step.
  - erewrite verify_step by (exact Hq || (vm_compute; reflexivity)). by rewrite He.
  - reflexivity.
Qed.

(** The unit tests of the database pass on the model. *)
Theorem database_tests_pass : Forall (λ t, passes t fresh_pool) (database_tests fs salt salt').
Proof.
  repeat constructor; try apply register_and_verify_passes; try apply invalid_password_passes;
    unfold test_registration_duplicate_user, test_tokens_operations_success,
      test_tokens_subtraction_insufficient, test_disk_db_creation_and_reload, test_add_record_success,
      test_add_record_duplicate_pk_constraint, test_sqlite_permissiveness_timestamp_corruption,
      test_sqlite_permissiveness_float_tokens, test_tokens_addition_overflow,
      test_history_ordering_by_timestamp; registers; vm_compute; reflexivity.
Qed.
End Passing.

Lemma toy_argon_works salts : @Argon2Works ToyDb.argon salts.
Proof.
  intros pw salt _ _. exists pw, pw. cbn. rewrite decide_True by done. split_and!; [done..|].
  intros other _ Ho. rewrite decide_False by done. by eexists.
Qed.

Lemma database_tests_pass_witness :
  Forall (λ t, passes t fresh_pool) (database_tests (ARGON := ToyDb.argon) (HEX := Toy.hex) toy_fs "a" "b").
Proof. apply database_tests_pass, toy_argon_works. Defined.
