(* ===== verification/TimeOracleTests.v ===== *)
(** * TimeOracleTests: the unit tests of the time oracle, on the model

    The module [tests] of [server/src/time_oracle.rs].  The tests of [compute_offset] are
    closed; the one with the mock server is over any SNTP client that behaves as documented
    and over the readings of the clock, since what it asserts depends on neither. *)
From S2P Require Import Prelude Bytes Protocol TimeOracle.
#[local] Open Scope Z_scope.

Definition test_ntp_timestamp_overflow : bool :=
  match compute_offset u64_max 0 UNIX_EPOCH with
  | Err (GenericNetworkError msg) =>
      match String.index 0 "NTP timestamp overflow" msg with Some _ => true | None => false end
  | _ => false
  end.

Definition test_local_time_went_backwards : bool :=
  match compute_offset 1000000 0 (UNIX_EPOCH - Duration_from_secs 60) with
  | Err TimeWentBackwards => true
  | _ => false
  end.

Definition test_offset_clamps_to_max : bool :=
  match compute_offset 10000000000 0 UNIX_EPOCH with
  | Ok result => result =? i64_max
  | Err _ => false
  end.

Definition test_offset_clamps_to_min : bool :=
  let far_future_secs := 13500000000 in
  match compute_offset 0 0 (UNIX_EPOCH + Duration_from_secs far_future_secs) with
  | Ok result => result =? i64_min
  | Err _ => false
  end.

Definition test_normal_offset_calculation : bool :=
  match compute_offset 105 0 (UNIX_EPOCH + Duration_from_secs 100) with
  | Ok result => result =? 5000000000
  | Err _ => false
  end.

(** ** The mock server *)

(** [&l[i..j]] and [l[i..i + src.len()].copy_from_slice(src)] *)
Definition slice (i j : nat) (l : list byte) : list byte := take (j - i) (drop i l).
Definition copy_from_slice (i : nat) (src l : list byte) : list byte :=
  take i l ++ src ++ drop (i + length src) l.

(** The answer that is built from the client's request. *)
Definition mock_response (buf : list byte) : list byte :=
  let response := slice 0 48 buf in
  let response := <[0%nat := x24]> response in
  let response := <[1%nat := x02]> response in
  let response := copy_from_slice 24 (slice 40 48 buf) response in
  let response := copy_from_slice 32 (slice 40 48 buf) response in
  let response := copy_from_slice 40 (slice 40 48 buf) response in
  alter (λ b, byte_of_Z (byte_val b + 1)) 40%nat response.

(** [sntpc]: the packet it sends at a reading of the clock, and what it makes of the
    packet it gets. *)
Record sntp_client := {
  sntp_request : SystemTime → list byte;
  sntp_answer : list byte → list byte → result (Z * Z) SntpError
}.

(** The seconds between the NTP and the Unix epoch. *)
Definition NTP_EPOCH : Z := 2208988800.

(** RFC 5905: a request has 48 bytes and carries the time of the client in its transmit
    timestamp; an answer of version 4 in server mode, with a stratum, that gives the
    client's time back as the origin, is read by its transmit timestamp. *)
Class SntpClientLaws (client : sntp_client) : Prop := {
  request_length t : length (sntp_request client t) = 48%nat;
  request_seconds t :
    from_be_bytes (slice 40 44 (sntp_request client t)) = (t / NANOS_PER_SEC + NTP_EPOCH) mod 2 ^ 32;
  answer_seconds buf response :
    length response = 48%nat → response !! 0%nat = Some x24 → response !! 1%nat = Some x02 →
    slice 24 32 response = slice 40 48 buf →
    ∃ sf, in_u32 sf = true ∧
      sntp_answer client buf response
        = Ok ((from_be_bytes (slice 40 44 response) - NTP_EPOCH) mod 2 ^ 32, sf)
}.

Section MockServer.
Context (frac : Z → Z) (show : SocketAddr → string) (client : sntp_client).

Definition test_sync_worker_updates_offset_from_mock_server (env : net_env) (server_addr : SocketAddr)
    (sent received : SystemTime) : bool :=
  let port := Port (sa_port server_addr) in
  let listener_addr := {| sa_ip := "127.0.0.1"; sa_port := 0 |} in
  let sync_interval := 50 * (NANOS_PER_SEC / 1000) in
  match create_bundle env "127.0.0.1" port listener_addr sync_interval ∅ with
  | Err _ => false
  | Ok (bundle, c) =>
      let '(oracle, worker) := into_parts bundle in
      let buf := sntp_request client sent in
      let answered := {| tick_lookup := Ok [server_addr];
                         tick_ntp := sntp_answer client buf (mock_response buf);
                         tick_local := received |} in
      let '(_, c) := start_syncing frac show (Ok tt) worker [answered] c in
      (48 <=? length buf)%nat && negb (load (to_offset_nanos oracle) c =? 0)
  end.

Lemma from_be_four b0 b1 b2 b3 :
  from_be_bytes [b0; b1; b2; b3] =
    byte_val b0 * 2 ^ 24 + byte_val b1 * 2 ^ 16 + byte_val b2 * 2 ^ 8 + byte_val b3.
Proof. unfold from_be_bytes, be_step. cbn [fold_left]. lia. Qed.

Lemma mod_top_byte b x y z :
  ((b + 1) mod 256 * 2 ^ 24 + x * 2 ^ 16 + y * 2 ^ 8 + z) mod 2 ^ 32
    = (b * 2 ^ 24 + x * 2 ^ 16 + y * 2 ^ 8 + z + 2 ^ 24) mod 2 ^ 32.
Proof.
  pose proof (Z.div_mod (b + 1) 256 ltac:(lia)) as E.
  replace (b * 2 ^ 24 + x * 2 ^ 16 + y * 2 ^ 8 + z + 2 ^ 24)
    with ((b + 1) mod 256 * 2 ^ 24 + x * 2 ^ 16 + y * 2 ^ 8 + z + (b + 1) / 256 * 2 ^ 32) by lia.
  by rewrite Z_mod_plus_full.
Qed.

(** Adding one to the most significant byte adds 2^24 seconds. *)
Lemma mock_response_spec buf :
  length buf = 48%nat →
  length (mock_response buf) = 48%nat ∧ mock_response buf !! 0%nat = Some x24 ∧
  mock_response buf !! 1%nat = Some x02 ∧ slice 24 32 (mock_response buf) = slice 40 48 buf ∧
  from_be_bytes (slice 40 44 (mock_response buf)) mod 2 ^ 32
    = (from_be_bytes (slice 40 44 buf) + 2 ^ 24) mod 2 ^ 32.
Proof.
  intros Hl. do 48 (destruct buf as [|? buf]; [done|]). destruct buf; [|done]. clear Hl.
  split_and!; [reflexivity..|].
  match goal with |- from_be_bytes ?x mod _ = (from_be_bytes ?y + _) mod _ =>
    let x' := eval cbn -[byte_of_Z byte_val Z.add] in x in change x with x';
    let y' := eval cbn in y in change y with y' end.
  rewrite !from_be_four, byte_val_of_Z. apply mod_top_byte.
Qed.

(** The instant the mock server tells, in whole seconds. *)
Lemma mock_answer {LAWS : SntpClientLaws client} sent :
  0 ≤ sent / NANOS_PER_SEC < 2 ^ 32 - 2 ^ 24 →
  ∃ sf, in_u32 sf = true ∧
    sntp_answer client (sntp_request client sent) (mock_response (sntp_request client sent))
      = Ok (sent / NANOS_PER_SEC + 2 ^ 24, sf).
Proof.
  intros Hs. destruct (mock_response_spec (sntp_request client sent) (request_length sent))
    as (H1 & H2 & H3 & H4 & H5).
  destruct (answer_seconds _ _ H1 H2 H3 H4) as (sf & Hsf & ->). exists sf. split; [done|].
  rewrite request_seconds in H5. do 2 f_equal.
  rewrite <- Zminus_mod_idemp_l, H5, Zminus_mod_idemp_l.
  replace ((sent / NANOS_PER_SEC + NTP_EPOCH) mod 2 ^ 32 + 2 ^ 24 - NTP_EPOCH)
    with ((sent / NANOS_PER_SEC + NTP_EPOCH) mod 2 ^ 32 + (2 ^ 24 - NTP_EPOCH)) by lia.
  rewrite Zplus_mod_idemp_l. rewrite Z.mod_small; lia.
Qed.
End MockServer.

Lemma clamp_pos x : 0 < x → clamp i64_min i64_max x ≠ 0.
Proof.
  unfold clamp, i64_min, i64_max. intros Hx.
  destruct (Z.ltb_spec x (-9223372036854775808)), (Z.ltb_spec 9223372036854775807 x); lia.
Qed.

(** The unit tests of the time oracle pass on the model.  Those of [compute_offset]
    evaluate to true; the worker that asks the mock server leaves an offset that is not
    zero, for every SNTP client that behaves as documented, wherever the sockets are
    bound, and whatever the clock reads, as long as it is between 1970 and the last 194
    days of the NTP era and the answer is read within that delay. *)
Theorem time_oracle_tests_pass (frac : Z → Z) (show : SocketAddr → string) (client : sntp_client)
    (env : net_env) (server_addr : SocketAddr) (sent received : SystemTime) :
  SntpLaws frac → SntpClientLaws client →
  ne_to_socket_addrs env "127.0.0.1" (sa_port server_addr) = Ok [server_addr] →
  (∀ a, ne_bind env a = Ok tt) → ne_set_nonblocking env = Ok tt →
  0 ≤ sent / NANOS_PER_SEC < 2 ^ 32 - 2 ^ 24 →
  sent ≤ received < (sent / NANOS_PER_SEC + 2 ^ 24) * NANOS_PER_SEC →
  [test_ntp_timestamp_overflow; test_local_time_went_backwards; test_offset_clamps_to_max;
   test_offset_clamps_to_min; test_normal_offset_calculation;
   test_sync_worker_updates_offset_from_mock_server frac show client env server_addr sent received]
  = replicate 6 true.
Proof.
  intros SL CL Haddr Hbind Hnb Hs Hr. cbn [replicate].
  do 5 (apply (f_equal2 cons); [vm_compute; reflexivity|]). apply (f_equal2 cons); [|done]. unfold test_sync_worker_updates_offset_from_mock_server, create_bundle.
  rewrite Haddr. cbn [and_then map_err ok_or head]. rewrite Hbind. cbn [and_then map_err].
  rewrite Hnb. cbn [and_then map_err]. destruct (new_cell 0 ∅) as [l c].
  cbn [into_parts]. unfold start_syncing. cbn [tw_sync_interval tb_worker tb_oracle].
  replace (50 * (NANOS_PER_SEC / 1000) =? 0) with false by reflexivity.
  destruct (mock_answer client sent Hs) as (sf & Hsf & Ha). cbn [sync_loop]. rewrite sync_once_benign; [|done|].
  - cbn [tick_ntp tick_local]. rewrite Ha. cbn [sync_store tw_offset_nanos to_offset_nanos].
    rewrite load_insert, request_length. cbn [Nat.leb andb].
    apply negb_true_iff, Z.eqb_neq, clamp_pos. unfold ntp_instant.
    pose proof (fraction_bounds sf Hsf). lia.
  - unfold benign. cbn [tick_lookup tick_ntp tick_local].
    rewrite Ha. cbn.
    rewrite Hsf, !andb_true_r, !andb_true_iff. rewrite in_range_spec, Z.leb_le.
    pose proof (Z.mul_div_le sent NANOS_PER_SEC ltac:(done)).
    rewrite representable_spec. unfold u32_max, i64_min, i64_max, NANOS_PER_SEC in *.
    split_and!; lia.
Qed.

Module ToySntp.
Definition client : sntp_client := {|
  sntp_request t := replicate 40 x00 ++ to_be_bytes 4 (t / NANOS_PER_SEC + NTP_EPOCH) ++ replicate 4 x00;
  sntp_answer _ response := Ok ((from_be_bytes (slice 40 44 response) - NTP_EPOCH) mod 2 ^ 32, 0) |}.
Lemma client_laws : SntpClientLaws client.
Proof.
  split.
  - intros t. cbn [client sntp_request]. by rewrite !length_app, to_be_bytes_length.
  - intros t. exact (from_to_be_bytes 4 (t / NANOS_PER_SEC + NTP_EPOCH)).
  - intros. by exists 0.
Qed.
Definition server : SocketAddr := {| sa_ip := "127.0.0.1"; sa_port := 40123 |}.
Definition env : net_env := {|
  ne_to_socket_addrs := λ h p, Ok [{| sa_ip := h; sa_port := p |}]; ne_bind := λ _, Ok tt;
  ne_set_nonblocking := Ok tt |}.
End ToySntp.

(** In January 2025, with one hundred milliseconds between the request and the answer. *)
Lemma time_oracle_tests_pass_witness :
  test_sync_worker_updates_offset_from_mock_server ToyNtp.frac ToyNtp.show ToySntp.client ToySntp.env
    ToySntp.server 1735689600000000000 1735689600100000000 = true.
Proof.
  pose proof (time_oracle_tests_pass ToyNtp.frac ToyNtp.show ToySntp.client ToySntp.env ToySntp.server
    1735689600000000000 1735689600100000000 ToyNtp.frac_laws ToySntp.client_laws eq_refl (λ _, eq_refl)
    eq_refl ltac:(vm_compute; by split) ltac:(vm_compute; by split)) as H.
  exact (f_equal (λ l, List.nth 5 l true) H).
Defined.
