(* ===== verification/ConnTests.v ===== *)
(** * ConnTests: the unit tests of the connection handler, on the model

    The module [tests] of [server/src/connection_handler.rs].  A test is a client that
    sends a request and reads the frame that comes back; the server side of its stream is
    the program of the connection, run until it has sent one.  The tests are over any
    codec, hasher and signature library that work on the messages they use. *)
From S2P Require Import Prelude Bytes Protocol Sql Database DatabaseSpec DatabaseBuilder TimeOracle.
From S2P Require Import Signer Effects ConnHandler Account SessionSpec DatabaseTests.

(** ** Clients of one server *)

Section Bench.
Context {SHA : Sha256Lib} {RSA : RsaLib} {HEX : HexLib} {ARGON : Argon2Lib}.
Context {S : Type} {SI : Signer S}.
Context {WREQ : Wincode Request} {WRESP : Wincode Response}.
(** The salt and the reading of the clock. *)
Context (salt : string) (clock : SystemTime).
Implicit Type st : STSServerState S.

(** What a client that waits for its answer lets happen: its frame is there, the stream
    is sound and the database answers. *)
Definition frame_ready (bytes : list byte) : env := {|
  en_handshake := Ok tt; en_cancel_first := true; en_next := Some (Ok bytes); en_send := Ok tt;
  en_faults := []; en_salt := salt; en_clock := clock; en_task_cancelled := false |}.
(** The client sends nothing more. *)
Definition silent : env := {|
  en_handshake := Ok tt; en_cancel_first := true; en_next := None; en_send := Ok tt;
  en_faults := []; en_salt := salt; en_clock := clock; en_task_cancelled := false |}.

(** A connection until it sends a frame. *)
Fixpoint serve {A} (en : env) (p : prog A) st : option (list byte * prog A * STSServerState S) :=
  match p with
  | Act e k =>
      let '(x, st') := perform en e st in
      match e with
      | EvSend bytes => Some (bytes, k x, st')
      | _ => serve en (k x) st'
      end
  | _ => None
  end.

(** A connection until it ends. *)
Fixpoint finish {A} (en : env) (p : prog A) st : option (A * STSServerState S) :=
  match p with
  | Ret a => Some (a, st)
  | Act e k => let '(x, st') := perform en e st in finish en (k x) st'
  | _ => None
  end.

(** The state the clones share, and the spawned handlers. *)
Record bench := {
  bn_state : STSServerState S;
  bn_tasks : list (prog (result ClosedStreamReason HandlerError))
}.

(** Test code: [None] where it panics. *)
Definition bench_test (A : Type) : Type := bench → option (A * bench).
#[local] Instance bench_ret : MRet bench_test := λ A a b, Some (a, b).
#[local] Instance bench_bind : MBind bench_test := λ A B k m b,
  match m b with Some (a, b') => k a b' | None => None end.

Definition check (c : bool) : bench_test unit := λ b, if c then Some (tt, b) else None.

(** The requests a connection of a test can make; the tests make six at most. *)
Definition REQUESTS : nat := 16.

Definition spawn (address : SocketAddr) : bench_test unit := λ b,
  Some (tt, {| bn_state := bn_state b;
               bn_tasks := bn_tasks b ++ [conn_handler_core REQUESTS address] |}).

(** [client.send(request.serialize().unwrap())] and the frame [client.next()] yields. *)
Definition send_next (i : nat) (request : Request) : bench_test (list byte) := λ b,
  match serialize request, bn_tasks b !! i with
  | Ok bytes, Some p =>
      '(frame, p', st') ← serve (frame_ready bytes) p (bn_state b);
      Some (frame, {| bn_state := st'; bn_tasks := <[i := p']> (bn_tasks b) |})
  | _, _ => None
  end.

(** [Response::deserialize(frame).unwrap()] *)
Definition read_response (frame : list byte) : bench_test Response := λ b,
  match deserialize frame with Ok response => Some (response, b) | Err _ => None end.
Definition ask (i : nat) (request : Request) : bench_test Response :=
  frame ← send_next i request;
  read_response frame.

(** A method of the shared database, with [unwrap]. *)
Definition on_shared {E A} (m : io E A) : bench_test A := λ b,
  match m {| p_tables := database (bn_state b); p_faults := [] |} with
  | (Done (Ok a), p) => Some (a, {| bn_state := set_database (p_tables p) (bn_state b);
                                    bn_tasks := bn_tasks b |})
  | _ => None
  end.

(** [cancel_token.cancel()], and [server_handle.await.unwrap()]. *)
Definition cancel : bench_test unit := λ b,
  Some (tt, {| bn_state := set_cancelled (bn_state b); bn_tasks := bn_tasks b |}).
Definition join_task (i : nat) : bench_test (result ClosedStreamReason HandlerError) := λ b,
  p ← bn_tasks b !! i;
  '(r, st') ← finish silent p (bn_state b);
  Some (r, {| bn_state := st'; bn_tasks := bn_tasks b |}).

(** ** The tests *)

Definition dummy_addr : SocketAddr := {| sa_ip := "127.0.0.1"; sa_port := 12345 |}.
Definition is_resp_ok (r : Response) : bool := match r with RespOk => true | _ => false end.
Definition is_not_logged_in (r : Response) : bool := match r with NotLoggedIn => true | _ => false end.
Definition is_count (n : Z) (r : Response) : bool := match r with TokenCount c => c =? n | _ => false end.
Definition is_token (r : Response) : bool := match r with Token _ _ _ => true | _ => false end.
Definition hash_of (b : byte) : Sha256Hash := MkSha256Hash (filled 32 b).

Definition test_full_user_lifecycle : bench_test unit :=
  _ ← spawn dummy_addr;
  resp ← ask 0 (SignUp "alice" "supersecret");
  _ ← check (is_resp_ok resp);
  resp ← ask 0 (Login "alice" "supersecret");
  _ ← check (is_resp_ok resp);
  resp ← ask 0 HowManyTokensDoIHave;
  _ ← check (is_count 0 resp);
  resp ← ask 0 LogOut;
  _ ← check (is_resp_ok resp);
  resp ← ask 0 HowManyTokensDoIHave;
  check (is_not_logged_in resp).

Definition test_unauthorized_operations_enforcement : bench_test unit :=
  _ ← spawn dummy_addr;
  resp ← ask 0 HowManyTokensDoIHave;
  _ ← check (is_not_logged_in resp);
  let hash := hash_of x00 in
  resp ← ask 0 (SignHash hash);
  _ ← check (is_not_logged_in resp);
  _ ← send_next 0 (SignUp "bob" "pass123");
  _ ← send_next 0 (Login "bob" "pass123");
  resp ← ask 0 (SignUp "hacker" "pass123");
  _ ← check match resp with SignInFailed SignInAlreadyLoggedIn => true | _ => false end;
  resp ← ask 0 (Login "bob" "pass123");
  check match resp with LoginFailed LoginAlreadyLoggedIn => true | _ => false end.

Definition test_token_transactions_and_math : bench_test unit :=
  _ ← spawn dummy_addr;
  _ ← send_next 0 (SignUp "charles" "secure_pass");
  _ ← send_next 0 (Login "charles" "secure_pass");
  resp ← ask 0 (PurchaseTokens 10);
  _ ← check (is_count 10 resp);
  let fake_hash := hash_of x05 in
  resp ← ask 0 (SignHash fake_hash);
  _ ← check (is_token resp);
  resp ← ask 0 HowManyTokensDoIHave;
  check (is_count 9 resp).

Definition test_graceful_shutdown_propagation : bench_test unit :=
  _ ← spawn dummy_addr;
  _ ← send_next 0 (SignUp "diana" "pass123");
  _ ← send_next 0 (Login "diana" "pass123");
  _ ← cancel;
  server_output ← join_task 0;
  check match server_output with Ok InterruptReceived => true | _ => false end.

Definition test_concurrent_login_protection : bench_test unit :=
  _ ← on_shared (try_register_user salt "victim" "safe_password" "127.0.0.1");
  _ ← spawn {| sa_ip := "127.0.0.1"; sa_port := 1111 |};
  _ ← spawn {| sa_ip := "127.0.0.1"; sa_port := 2222 |};
  resp_a ← ask 0 (Login "victim" "safe_password");
  _ ← check (is_resp_ok resp_a);
  resp_b ← ask 1 (Login "victim" "safe_password");
  _ ← check match resp_b with LoginFailed LoginAlreadyLoggedIn => true | _ => false end;
  resp_a_still_alive ← ask 0 HowManyTokensDoIHave;
  check match resp_a_still_alive with TokenCount _ => true | _ => false end.

Definition test_token_exhaustion_blocking : bench_test unit :=
  _ ← on_shared (try_register_user salt "poor_user" "123" "127.0.0.1");
  _ ← on_shared (add_user_tokens "poor_user" 1);
  _ ← spawn dummy_addr;
  _ ← send_next 0 (Login "poor_user" "123");
  let hash := hash_of x01 in
  resp1 ← ask 0 (SignHash hash);
  _ ← check (is_token resp1);
  resp2 ← ask 0 (SignHash hash);
  check match resp2 with NotEnoughTokens => true | _ => false end.
End Bench.
Arguments bench {RSA} S.
Arguments bench_test {RSA} S A.

(** The state every test starts from: a database in memory, a key and the local clock. *)
Definition test_bundle {RSA : RsaLib} (fs : fs_env) (signing_key : RsaPrivateKey)
    : option STSServerStateBuilder :=
  match build fs Memory (db_schema new_db) fresh_pool with
  | (Done (Ok _), p) =>
      let '(oracle, cells) := new_local ∅ in
      Some (from_bundle (p_tables p) false signing_key oracle cells)
  | _ => None
  end.

(** ** One exchange *)

Section Exchange.
Context {SHA : Sha256Lib} {RSA : RsaLib} {HEX : HexLib} {ARGON : Argon2Lib}.
Context {S : Type} {SI : Signer S}.
Context {WREQ : Wincode Request} {WRESP : Wincode Response}.
Context (salt : string) (clock : SystemTime).
Implicit Type st : STSServerState S.

(** A program that sends nothing, until it ends. *)
Fixpoint quiet {A} (en : env) (p : prog A) st : option (A * STSServerState S) :=
  match p with
  | Ret a => Some (a, st)
  | Act (EvSend _) _ => None
  | Act e k => let '(x, st') := perform en e st in quiet en (k x) st'
  | _ => None
  end.

Lemma serve_quiet {A B} en (p : prog A) (f : A → prog B) st a st' :
  quiet en p st = Some (a, st') → serve en (p ≫= f) st = serve en (f a) st'.
Proof.
  revert st. induction p as [x|e k IH|msg|]; intros st; try done; [by intros [= -> ->]|].
  destruct e; try done; cbn [quiet]; intros H;
    (change (serve en (Act ?e k ≫= f) st) with (serve en (Act e (λ x, k x ≫= f)) st));
    cbn [serve mbind prog_bind] in *; destruct (perform en _ st) as [x st1]; by apply IH.
Qed.
Lemma serve_try_quiet {A B E} en (p : prog (result A E)) (f : A → prog (result B E)) st a st' :
  quiet en p st = Some (Ok a, st') → serve en (try_bind p f) st = serve en (f a) st'.
Proof. intros H. unfold try_bind. by rewrite (serve_quiet _ _ _ _ _ _ H). Qed.

(** What is left of a connection inside a session; [m] and [n] bound its two loops. *)
Definition left_of_session (m n : nat) (address : SocketAddr) (s : Session)
    : prog (result ClosedStreamReason HandlerError) :=
  try ended ← run_session n s;
  match ended with
  | Some reason => mret (Ok reason)
  | None => conn_handler_core m address
  end.
Definition after_logout (m : nat) (address : SocketAddr) (s : Session)
    : prog (result ClosedStreamReason HandlerError) :=
  _ ← act (EvLoggedRemove (s_username s));
  conn_handler_core m address.

(** A message that the codec writes and reads back. *)
Definition travels {T} {W : Wincode T} (x : T) : Prop :=
  ∃ bytes, serialize x = Ok bytes ∧ deserialize bytes = Ok x.

(** The frame is read, whatever the loop does with the request. *)
Lemma serve_fetch {A} address bytes req st (f : result (option Request) NetworkError → prog A) :
  cancel_token st = false → deserialize bytes = Ok req →
  serve (frame_ready salt clock bytes) (fetch_next_request address ≫= f) st
    = serve (frame_ready salt clock bytes) (f (Ok (Some req))) st.
Proof. intros Hc Hd. cbn. rewrite Hc. cbn. by rewrite Hd. Qed.

Lemma serve_respond {A} en resp out (f : unit → prog (result A HandlerError)) st :
  serialize resp = Ok out → en_send en = Ok tt →
  serve en (try_bind (respond resp) f) st = Some (out, f tt, st).
Proof.
  intros Ho He. unfold respond. rewrite Ho. cbn [map_err]. unfold try_bind.
  cbn. by rewrite He.
Qed.

Lemma serve_bind {A B} en (p : prog A) (f : A → prog B) st out p' st' :
  serve en p st = Some (out, p', st') → serve en (p ≫= f) st = Some (out, p' ≫= f, st').
Proof.
  revert st. induction p as [x|e k IH|msg|]; intros st; try done. cbn [serve mbind prog_bind].
  destruct e; destruct (perform en _ st) as [x st1]; try apply IH. by intros [= <- <- <-].
Qed.

Lemma serve_conn n address bytes req resp sess out st st' :
  cancel_token st = false → deserialize bytes = Ok req →
  quiet (frame_ready salt clock bytes) (conn_arm address req) st = Some (Ok (resp, sess), st') →
  serialize resp = Ok out →
  serve (frame_ready salt clock bytes) (conn_handler_core (Datatypes.S n) address) st =
    Some (out, match sess with
               | None => conn_handler_core n address
               | Some s => left_of_session n n address s
               end, st').
Proof.
  intros Hc Hd Hq Ho. cbn [conn_handler_core]. rewrite (serve_fetch _ _ _ _ _ Hc Hd).
  cbn [network map_err]. rewrite (serve_try_quiet _ _ _ _ _ _ Hq). cbn [fst snd].
  by rewrite (serve_respond _ _ _ _ _ Ho).
Qed.

Lemma serve_session m n address s bytes req resp logout out st st' :
  cancel_token st = false → deserialize bytes = Ok req →
  quiet (frame_ready salt clock bytes) (session_arm (s_username s) req) st = Some (Ok (resp, logout), st') →
  serialize resp = Ok out →
  serve (frame_ready salt clock bytes) (left_of_session m (Datatypes.S n) address s) st =
    Some (out, if logout then after_logout m address s else left_of_session m n address s, st').
Proof.
  intros Hc Hd Hq Ho. unfold left_of_session at 1, try_bind at 1, run_session at 1.
  assert (serve (frame_ready salt clock bytes) (session_handler (Datatypes.S n) s) st =
            Some (out, if logout then mret (Ok LoggedOut) else session_handler n s, st')) as Hs.
  { cbn [session_handler]. rewrite (serve_fetch _ _ _ _ _ Hc Hd).
    cbn [network map_err]. rewrite (serve_try_quiet _ _ _ _ _ _ Hq). cbn [fst snd].
    by rewrite (serve_respond _ _ _ _ _ Ho). }
  erewrite serve_bind by (apply serve_bind; exact Hs). by destruct logout.
Qed.

(** The first request after a logout. *)
Lemma serve_after_logout m address s en st :
  serve en (after_logout m address s) st
    = serve en (conn_handler_core m address) (set_logged_users (logged_users st ∖ {[s_username s]}) st).
Proof. reflexivity. Qed.

(** Test code that does not panic, and what holds after it. *)
Definition runs {A} (m : bench_test S A) (b : bench S) (Q : A → bench S → Prop) : Prop :=
  ∃ a b', m b = Some (a, b') ∧ Q a b'.

Lemma runs_bind {A B} (m : bench_test S A) (k : A → bench_test S B) b Q :
  runs m b (λ a b', runs (k a) b' Q) → runs (mbind (MBind := bench_bind) k m) b Q.
Proof.
  intros (a & b1 & E & a' & b2 & E' & HQ). exists a', b2. split; [|done].
  unfold mbind, bench_bind. by rewrite E.
Qed.
Lemma runs_check c b (Q : unit → bench S → Prop) : c = true → Q tt b → runs (check c) b Q.
Proof. intros -> HQ. by exists tt, b. Qed.
Lemma runs_spawn address b (Q : unit → bench S → Prop) :
  Q tt {| bn_state := bn_state b; bn_tasks := bn_tasks b ++ [conn_handler_core REQUESTS address] |} →
  runs (spawn address) b Q.
Proof. intros HQ. by eexists _, _. Qed.
Lemma runs_shared {E A} (m : io E A) b a p (Q : A → bench S → Prop) :
  m {| p_tables := database (bn_state b); p_faults := [] |} = (Done (Ok a), p) →
  Q a {| bn_state := set_database (p_tables p) (bn_state b); bn_tasks := bn_tasks b |} →
  runs (on_shared m) b Q.
Proof. intros E0 HQ. eexists _, _. split; [|exact HQ]. unfold on_shared. by rewrite E0. Qed.

(** The connection [i] answers the request with the response. *)
Definition answers (i : nat) (b : bench S) (req : Request) (resp : Response)
    (p' : prog (result ClosedStreamReason HandlerError)) st' : Prop :=
  travels req ∧ travels resp ∧ ∃ p, bn_tasks b !! i = Some p ∧
  ∀ bytes out, deserialize bytes = Ok req → serialize resp = Ok out →
    serve (frame_ready salt clock bytes) p (bn_state b) = Some (out, p', st').

Lemma runs_exchange i b req resp p' st' (Q : list byte → bench S → Prop) :
  answers i b req resp p' st' →
  (∀ out, deserialize out = Ok resp →
     Q out {| bn_state := st'; bn_tasks := <[i := p']> (bn_tasks b) |}) →
  runs (send_next salt clock i req) b Q.
Proof.
  intros ((bytes & Hs & Hd) & (out & Hs' & Hd') & p & Hp & Ha) HQ. eexists out, _.
  split; [|by apply HQ]. unfold send_next. rewrite Hs, Hp, (Ha bytes out Hd Hs'). done.
Qed.
Lemma runs_ask i b req resp p' st' (Q : Response → bench S → Prop) :
  answers i b req resp p' st' →
  Q resp {| bn_state := st'; bn_tasks := <[i := p']> (bn_tasks b) |} →
  runs (ask salt clock i req) b Q.
Proof.
  intros Ha HQ. apply runs_bind. eapply runs_exchange; [exact Ha|]. intros out Hd.
  eexists _, _. split; [|exact HQ]. unfold read_response. by rewrite Hd.
Qed.

Lemma answers_conn i n address b req resp sess st' :
  travels req → travels resp → bn_tasks b !! i = Some (conn_handler_core (Datatypes.S n) address) →
  cancel_token (bn_state b) = false →
  (∀ bytes, quiet (frame_ready salt clock bytes) (conn_arm address req) (bn_state b)
              = Some (Ok (resp, sess), st')) →
  answers i b req resp (match sess with
                        | None => conn_handler_core n address
                        | Some s => left_of_session n n address s
                        end) st'.
Proof.
  intros Hq Hr Hp Hc Ha. split_and!; [done..|]. exists (conn_handler_core (Datatypes.S n) address).
  split; [done|]. intros bytes out Hd Hs. by eapply serve_conn.
Qed.
Lemma answers_session i m n address s b req resp logout st' :
  travels req → travels resp → bn_tasks b !! i = Some (left_of_session m (Datatypes.S n) address s) →
  cancel_token (bn_state b) = false →
  (∀ bytes, quiet (frame_ready salt clock bytes) (session_arm (s_username s) req) (bn_state b)
              = Some (Ok (resp, logout), st')) →
  answers i b req resp (if logout then after_logout m address s else left_of_session m n address s) st'.
Proof.
  intros Hq Hr Hp Hc Ha. split_and!; [done..|]. exists (left_of_session m (Datatypes.S n) address s).
  split; [done|]. intros bytes out Hd Hs. by eapply serve_session.
Qed.
Lemma answers_after_logout i n address s b req resp st' :
  travels req → travels resp → bn_tasks b !! i = Some (after_logout (Datatypes.S n) address s) →
  cancel_token (bn_state b) = false →
  (∀ bytes, quiet (frame_ready salt clock bytes) (conn_arm address req)
              (set_logged_users (logged_users (bn_state b) ∖ {[s_username s]}) (bn_state b))
              = Some (Ok (resp, None), st')) →
  answers i b req resp (conn_handler_core n address) st'.
Proof.
  intros Hq Hr Hp Hc Ha. split_and!; [done..|]. exists (after_logout (Datatypes.S n) address s).
  split; [done|]. intros bytes out Hd Hs. rewrite serve_after_logout.
  by eapply (serve_conn _ _ _ _ _ None).
Qed.

(** *** The arms of the tests *)

Definition new_user (u h : string) : user_row := {|
  u_username := u; u_password_hash := h; u_available_tokens := SqlInteger 0;
  u_registered_from_ip := "127.0.0.1" |}.

Lemma quiet_sign_up bytes address u pw h st :
  sa_ip address = "127.0.0.1"%string → credentials_length_error u pw = None →
  hash_password pw salt = Ok h → t_users (database st) !! u = None →
  quiet (frame_ready salt clock bytes) (conn_arm address (SignUp u pw)) st =
    Some (Ok (RespOk, None), set_database {| t_users := <[u := new_user u h]> (t_users (database st));
                                             t_history := t_history (database st) |} st).
Proof.
  intros Hi Hl Hh Hn. cbn [conn_arm]. unfold sign_up_arm. rewrite Hl. cbn.
  unfold on_database, try_register_user. cbn. rewrite Hh. cbn. unfold insert_user. cbn. rewrite Hi.
  unfold mbind at 1, io_bind at 1, of_result at 1, io_map_err, execute, mbind at 1, io_bind at 1, on_pool.
  cbn. by rewrite Hn.
Qed.

Lemma perform_verify bytes u pw h q st :
  select_password_hash u (database st) = Some h → PasswordHash_new h = Ok q →
  verify_password pw q = Ok tt →
  perform (frame_ready salt clock bytes) (EvVerify u pw) st = (Done (Ok tt), set_database (database st) st).
Proof.
  intros Hs Hq Hv. cbn. unfold on_database. by rewrite (verify_step _ _ h q), Hv.
Qed.

Lemma quiet_login bytes address u pw h q st :
  credentials_length_error u pw = None →
  select_password_hash u (database st) = Some h → PasswordHash_new h = Ok q →
  verify_password pw q = Ok tt → u ∉ logged_users st →
  quiet (frame_ready salt clock bytes) (conn_arm address (Login u pw)) st =
    Some (Ok (RespOk, Some (Session_bundle address u)),
          set_logged_users ({[u]} ∪ logged_users st) (set_database (database st) st)).
Proof.
  intros Hl Hs Hq Hv Hn. cbn [conn_arm]. unfold login_arm. rewrite Hl.
  cbn [mbind prog_bind act quiet]. rewrite (perform_verify _ _ _ h q) by done. cbn.
  by rewrite bool_decide_eq_true_2.
Qed.

Lemma quiet_login_taken bytes address u pw h q st :
  credentials_length_error u pw = None →
  select_password_hash u (database st) = Some h → PasswordHash_new h = Ok q →
  verify_password pw q = Ok tt → u ∈ logged_users st →
  quiet (frame_ready salt clock bytes) (conn_arm address (Login u pw)) st =
    Some (Ok (LoginFailed LoginAlreadyLoggedIn, None),
          set_logged_users ({[u]} ∪ logged_users st) (set_database (database st) st)).
Proof.
  intros Hl Hs Hq Hv Hn. cbn [conn_arm]. unfold login_arm. rewrite Hl.
  cbn [mbind prog_bind act quiet]. rewrite (perform_verify _ _ _ h q) by done. cbn.
  by rewrite bool_decide_eq_false_2 by tauto.
Qed.

Lemma add_first_record u ts sg r t :
  t_users t !! u = Some r → t_history t = [] →
  add_user_record u ts sg {| p_tables := t; p_faults := [] |} =
    (Done (Ok tt), {| p_tables := {| t_users := t_users t; t_history := [record_row u ts sg] |};
                      p_faults := [] |}).
Proof.
  intros Hu Hh. unfold add_user_record, begin, tx_fetch, tx_execute, commit, io_map_err, select_user_exists,
    insert_history, mbind, io_bind.
  cbn. rewrite Hu. cbn. rewrite Hh. cbn. done.
Qed.

(** Signing, on a database that answers. *)
Lemma quiet_sign `{!SignerLaws S} bytes u h sg k p1 p2 st :
  0 ≤ clock → representable clock = true → oracle_offset st = 0 →
  subtract_user_tokens u 1 {| p_tables := database st; p_faults := [] |} = (Done (Ok k), p1) →
  sign_with_timestamp (signing_key st) h (Timestamp_new clock) = Done (Ok sg) →
  add_user_record u (Timestamp_new clock) sg {| p_tables := p_tables p1; p_faults := [] |}
    = (Done (Ok tt), p2) →
  quiet (frame_ready salt clock bytes) (session_arm u (SignHash h)) st =
    Some (Ok (Token h sg (Timestamp_new clock), false),
          set_database (p_tables p2) (set_database (p_tables p1) st)).
Proof.
  intros Hc Hr Ho Hsub Hsg Hrec.
  assert (time_now clock 0 = clock) as Ht by (by rewrite time_now_add, Z.add_0_r, Hr).
  cbn [session_arm]. unfold sign_hash_arm.
  cbn [mbind prog_bind act quiet perform]. unfold on_database at 1. cbn [en_faults frame_ready].
  rewrite Hsub. cbn [unwinding mbind prog_bind]. cbn [quiet perform].
  change (oracle_offset (set_database (p_tables p1) st)) with (oracle_offset st).
  cbn [en_clock frame_ready]. rewrite Ho, Ht.
  unfold duration_since_epoch, UNIX_EPOCH. destruct (Z.leb_spec 0 clock); [|lia]. rewrite Z.sub_0_r.
  cbn [mbind prog_bind act quiet perform]. cbn [signer signing_key set_database en_task_cancelled].
  rewrite (signer_complete _ _ _ _ _ Hsg). cbn [unwinding mbind prog_bind quiet].
  unfold record_arm. cbn [mbind prog_bind act quiet perform]. unfold on_database.
  change (database (set_database (p_tables p1) st)) with (p_tables p1).
  cbn [en_faults frame_ready]. rewrite Hrec. done.
Qed.
End Exchange.

(** ** They pass *)

(** The messages of the tests, the two tokens apart. *)
Definition test_requests : list Request :=
  [SignUp "alice" "supersecret"; Login "alice" "supersecret"; HowManyTokensDoIHave; LogOut;
   SignHash (hash_of x00); SignUp "bob" "pass123"; Login "bob" "pass123"; SignUp "hacker" "pass123";
   SignUp "charles" "secure_pass"; Login "charles" "secure_pass"; PurchaseTokens 10;
   SignHash (hash_of x05); SignUp "diana" "pass123"; Login "diana" "pass123";
   Login "victim" "safe_password"; Login "poor_user" "123"; SignHash (hash_of x01)]%string.
Definition test_responses : list Response :=
  [RespOk; TokenCount 0; TokenCount 10; TokenCount 9; NotLoggedIn; NotEnoughTokens;
   SignInFailed SignInAlreadyLoggedIn; LoginFailed LoginAlreadyLoggedIn].

Section Passing.
Context {SHA : Sha256Lib} {RSA : RsaLib} {HEX : HexLib} {ARGON : Argon2Lib}.
Context {WREQ : Wincode Request} {WRESP : Wincode Response}.
Context (salt : string) (clock : SystemTime) (key : RsaPrivateKey) (sg5 sg1 : RsaSignature).
Context {WORKS : Argon2Works [salt] }.
Context (Hclock : 0 ≤ clock) (Hrep : representable clock = true).
Context (Hsg5 : sign_with_timestamp key (hash_of x05) (Timestamp_new clock) = Done (Ok sg5)).
Context (Hsg1 : sign_with_timestamp key (hash_of x01) (Timestamp_new clock) = Done (Ok sg1)).
Context (Hreq : Forall travels test_requests) (Hresp : Forall travels test_responses).
Context (Htok5 : travels (Token (hash_of x05) sg5 (Timestamp_new clock))).
Context (Htok1 : travels (Token (hash_of x01) sg1 (Timestamp_new clock))).

Lemma request_travels req : bool_decide (req ∈ test_requests) = true → travels req.
Proof. intros Hr%bool_decide_eq_true. by apply (proj1 (list.Forall_forall _ _) Hreq). Qed.
Lemma response_travels resp : bool_decide (resp ∈ test_responses) = true → travels resp.
Proof. intros Hr%bool_decide_eq_true. by apply (proj1 (list.Forall_forall _ _) Hresp). Qed.

(** The server before the clients. *)
Definition fresh_bench (S : Type) (s : S) : bench S := {|
  bn_state := {| database := empty_tables; cancel_token := false; logged_users := ∅;
                 signing_key := key; time_oracle := (new_local ∅).1; signer := s;
                 heap := (new_local ∅).2 |};
  bn_tasks := [] |}.

(** Steps of a test: the next exchange, an assertion; and the side conditions of an
    exchange of a connection that has not logged in, and of a session, once [tac] has
    computed the arm. *)
Ltac sends := apply runs_bind; first [eapply runs_ask | eapply runs_exchange].
Ltac checks := first [apply runs_bind, runs_check | apply runs_check]; [reflexivity|].
Ltac travelling := first [assumption | apply request_travels; vm_compute; reflexivity
                         | apply response_travels; vm_compute; reflexivity].
Ltac anonymous tac :=
  eapply answers_conn; cycle 2; [reflexivity|reflexivity|intros bytes; tac|travelling|travelling].
Ltac left_session tac :=
  eapply answers_after_logout; cycle 2; [reflexivity|reflexivity|intros bytes; tac|travelling|travelling].
Ltac logged tac :=
  eapply answers_session; cycle 2; [reflexivity|reflexivity|intros bytes; tac|travelling|travelling].

Ltac decides := apply (bool_decide_unpack _); vm_compute; exact I.
Ltac signs_up Hh := eapply quiet_sign_up; [reflexivity|reflexivity|exact Hh|reflexivity].
Ltac logs_in Hq Hv := eapply quiet_login; [reflexivity|reflexivity|exact Hq|exact Hv|decides].
Ltac computes := vm_compute; reflexivity.
Ltac forget_record :=
  match goal with |- context [record_row ?u ?t ?s] => generalize (record_row u t s) end; intros row.
Ltac signs Hsg :=
  eapply quiet_sign; [apply _|exact Hclock|exact Hrep|reflexivity|computes|exact Hsg
    |eapply add_first_record; reflexivity].

Lemma lifecycle_passes :
  runs (test_full_user_lifecycle salt clock) (fresh_bench _ MkAcceleratedSigner) (λ _ _, True).
Proof using All.
  destruct (argon2_works "supersecret" salt ltac:(listed) ltac:(listed)) as (h & q & Hh & Hq & Hv & _).
  unfold test_full_user_lifecycle. apply runs_bind, runs_spawn.
  sends. { anonymous ltac:(signs_up Hh). } checks.
  sends. { anonymous ltac:(logs_in Hq Hv). } checks.
  sends. { logged computes. } checks.
  sends. { logged computes. } checks.
  sends. { left_session computes. } checks. done.
Qed.

Lemma unauthorized_passes :
  runs (test_unauthorized_operations_enforcement salt clock) (fresh_bench _ MkAcceleratedSigner)
    (λ _ _, True).
Proof using All.
  destruct (argon2_works "pass123" salt ltac:(listed) ltac:(listed)) as (h & q & Hh & Hq & Hv & _).
  unfold test_unauthorized_operations_enforcement. apply runs_bind, runs_spawn.
  sends. { anonymous computes. } checks.
  sends. { anonymous computes. } checks.
  sends. { anonymous ltac:(signs_up Hh). } intros _ _.
  sends. { anonymous ltac:(logs_in Hq Hv). } intros _ _.
  sends. { logged computes. } checks.
  sends. { logged computes. } checks. done.
Qed.

Lemma transactions_passes :
  runs (test_token_transactions_and_math salt clock) (fresh_bench _ MkAcceleratedSigner) (λ _ _, True).
Proof using All.
  destruct (argon2_works "secure_pass" salt ltac:(listed) ltac:(listed)) as (h & q & Hh & Hq & Hv & _).
  unfold test_token_transactions_and_math. apply runs_bind, runs_spawn.
  sends. { anonymous ltac:(signs_up Hh). } intros _ _.
  sends. { anonymous ltac:(logs_in Hq Hv). } intros _ _.
  sends. { logged computes. } checks.
  sends. { logged ltac:(signs Hsg5). } checks.
  forget_record.
  sends. { logged computes. } checks. done.
Qed.

Lemma shutdown_passes :
  runs (test_graceful_shutdown_propagation salt clock) (fresh_bench _ MkAcceleratedSigner) (λ _ _, True).
Proof using All.
  destruct (argon2_works "pass123" salt ltac:(listed) ltac:(listed)) as (h & q & Hh & Hq & Hv & _).
  unfold test_graceful_shutdown_propagation. apply runs_bind, runs_spawn.
  sends. { anonymous ltac:(signs_up Hh). } intros _ _.
  sends. { anonymous ltac:(logs_in Hq Hv). } intros _ _.
  apply runs_bind. eexists tt, _. split; [reflexivity|].
  apply runs_bind. eexists (Ok InterruptReceived), _. split; [reflexivity|]. checks. done.
Qed.

Lemma concurrent_passes :
  runs (test_concurrent_login_protection salt clock) (fresh_bench _ MkAcceleratedSigner) (λ _ _, True).
Proof using All.
  destruct (argon2_works "safe_password" salt ltac:(listed) ltac:(listed)) as (h & q & Hh & Hq & Hv & _).
  unfold test_concurrent_login_protection. apply runs_bind.
  eapply runs_shared. { rewrite (register_step _ _ _ _ h) by done. reflexivity. }
  apply runs_bind, runs_spawn. apply runs_bind, runs_spawn.
  sends. { anonymous ltac:(logs_in Hq Hv). } checks.
  sends. { anonymous ltac:(eapply quiet_login_taken; [reflexivity|reflexivity|exact Hq|exact Hv|decides]). }
  checks.
  sends. { logged computes. } checks. done.
Qed.

Lemma exhaustion_passes :
  runs (test_token_exhaustion_blocking salt clock) (fresh_bench _ MkSlowSigner) (λ _ _, True).
Proof using All.
  destruct (argon2_works "123" salt ltac:(listed) ltac:(listed)) as (h & q & Hh & Hq & Hv & _).
  unfold test_token_exhaustion_blocking. apply runs_bind.
  eapply runs_shared. { rewrite (register_step _ _ _ _ h) by done. reflexivity. }
  apply runs_bind. eapply runs_shared. { computes. }
  apply runs_bind, runs_spawn.
  sends. { anonymous ltac:(logs_in Hq Hv). } intros _ _.
  sends. { logged ltac:(signs Hsg1). } checks.
  forget_record.
  sends. { logged computes. } checks. done.
Qed.

Lemma runs_some {S A} (m : bench_test S A) b Q : runs m b Q → is_Some (m b).
Proof. intros (a & b' & E & _). rewrite E. by eexists. Qed.
End Passing.

(** The tests of the accelerated signer, and the one of the slow signer. *)
Definition connection_tests {SHA : Sha256Lib} {RSA : RsaLib} {HEX : HexLib} {ARGON : Argon2Lib}
    {WREQ : Wincode Request} {WRESP : Wincode Response} (salt : string) (clock : SystemTime)
    : list (bench_test AcceleratedSigner unit) :=
  [test_full_user_lifecycle salt clock; test_unauthorized_operations_enforcement salt clock;
   test_token_transactions_and_math salt clock; test_graceful_shutdown_propagation salt clock;
   test_concurrent_login_protection salt clock].

(** The unit tests of the connection handler pass on the model. *)
Theorem connection_tests_pass {SHA : Sha256Lib} {RSA : RsaLib} {HEX : HexLib} {ARGON : Argon2Lib}
    {WREQ : Wincode Request} {WRESP : Wincode Response}
    (fs : fs_env) (salt : string) (clock : SystemTime) (key : RsaPrivateKey)
    (sg5 sg1 : RsaSignature) {WORKS : Argon2Works [salt] } :
  let token h sg := Token h sg (Timestamp_new clock) in
  0 ≤ clock → representable clock = true →
  sign_with_timestamp key (hash_of x05) (Timestamp_new clock) = Done (Ok sg5) →
  sign_with_timestamp key (hash_of x01) (Timestamp_new clock) = Done (Ok sg1) →
  Forall travels test_requests → Forall travels test_responses →
  travels (token (hash_of x05) sg5) → travels (token (hash_of x01) sg1) →
  ∃ bundle, test_bundle fs key = Some bundle ∧
    Forall (λ t, is_Some (t {| bn_state := get_accelerated_build bundle; bn_tasks := [] |}))
      (connection_tests salt clock) ∧
    is_Some (test_token_exhaustion_blocking salt clock
               {| bn_state := get_slow_build bundle; bn_tasks := [] |}).
Proof.
  cbn zeta. intros Hc Hr H5 H1 Hq Hp T5 T1. eexists. split; [reflexivity|]. split.
  - repeat constructor; eapply runs_some.
    + by apply (lifecycle_passes salt clock key sg5 sg1).
    + by apply (unauthorized_passes salt clock key sg5 sg1).
    + by apply (transactions_passes salt clock key sg5 sg1).
    + by apply (shutdown_passes salt clock key sg5 sg1).
    + by apply (concurrent_passes salt clock key sg5 sg1).
  - eapply runs_some. by apply (exhaustion_passes salt clock key sg5 sg1).
Qed.

Module ToyTests.
Definition sg (b : byte) : RsaSignature :=
  match sign_with_timestamp (SHA := Toy.sha) (RSA := Toy.rsa) 256%nat (hash_of b) (MkTimestamp 1000)
  with Done (Ok s) => s | _ => Toy.sig1 end.
Definition wreq : Wincode Request :=
  ToyConn.table_codec (zip_with (λ r n, (r, [byte_of_Z (Z.of_nat n)])) test_requests (seq 0 17)).
Definition wresp : Wincode Response :=
  ToyConn.table_codec (zip_with (λ r n, (r, [byte_of_Z (Z.of_nat n)]))
    (test_responses ++ [Token (hash_of x05) (sg x05) (MkTimestamp 1000);
                        Token (hash_of x01) (sg x01) (MkTimestamp 1000)]) (seq 0 10)).

Definition carries {T} `{!EqDecision T} (W : Wincode T) (x : T) : bool :=
  match serialize x with
  | Ok bytes => match deserialize bytes with Ok y => bool_decide (y = x) | Err _ => false end
  | Err _ => false
  end.
Lemma carries_travels {T} `{!EqDecision T} (W : Wincode T) l :
  forallb (carries W) l = true → Forall travels l.
Proof.
  intros H. apply list.Forall_forall. intros x Hx%list_elem_of_In.
  rewrite forallb_forall in H. specialize (H x Hx). unfold carries in H.
  destruct (serialize x) as [bytes|] eqn:E; [|done]. exists bytes. split; [done|].
  destruct (deserialize bytes) as [y|]; [|done]. by apply bool_decide_eq_true in H as ->.
Qed.
End ToyTests.

Lemma connection_tests_pass_witness :
  ∃ bundle, test_bundle (RSA := Toy.rsa) toy_fs 256%nat = Some bundle ∧
    is_Some (test_token_exhaustion_blocking (SHA := Toy.sha) (HEX := Toy.hex) (ARGON := ToyDb.argon)
      (SI := @slow_signer Toy.sha Toy.rsa) (WREQ := ToyTests.wreq) (WRESP := ToyTests.wresp) "salt" 1000
      {| bn_state := get_slow_build (RSA := Toy.rsa) bundle; bn_tasks := [] |}).
Proof.
  destruct (connection_tests_pass (SHA := Toy.sha) (RSA := Toy.rsa) (HEX := Toy.hex)
    (ARGON := ToyDb.argon) (WORKS := toy_argon_works _) (WREQ := ToyTests.wreq) (WRESP := ToyTests.wresp)
    toy_fs "salt" 1000 256%nat (ToyTests.sg x05) (ToyTests.sg x01)) as (bundle & H1 & _ & H2).
  - lia.
  - reflexivity.
  - vm_compute. reflexivity.
  - vm_compute. reflexivity.
  - apply ToyTests.carries_travels. vm_compute. reflexivity.
  - apply ToyTests.carries_travels. vm_compute. reflexivity.
  - eexists. split; vm_compute; reflexivity.
  - eexists. split; vm_compute; reflexivity.
  - exists bundle. split; [exact H1|exact H2].
Defined.
