(* ===== verification/ServerTests.v ===== *)
(** * ServerTests: the integration tests of the server, on the model

    The module [tests] of [server/src/server.rs]: a server built from a generated context,
    one connection that goes wrong, and the shutdown.  The tests wait for the server with
    pauses; here every order of the steps of the connection and of the shutdown is run.
    What TLS sends to a client that does not speak it is not modelled: that test is about
    the task of the connection. *)
From S2P Require Import Prelude Bytes Protocol Sql Database DatabaseSpec DatabaseBuilder TimeOracle.
From S2P Require Import Signer Effects ConnHandler Account SessionSpec Server ServerSpec Shutdown.
From S2P Require Import Path FileSystem SafeRead Text ServerConfig ServerBuild Ca Terraform.
From S2P Require Import TerraformSpec DatabaseTests.

(** [KeyPair::generate_for(&PKCS_ED25519)], a self-signed certificate and a private key in
    DER. *)
Record der_lib {PEM : PemLib} {RC : RcgenLib} := {
  generate_for_ed25519 : Z → result KeyPair string;
  self_signed_der : CertificateParams → KeyPair → result CertificateDer string;
  private_key_der : KeyPair → result PrivateKeyDer string
}.

Section Dummy.
Context {RSA : RsaLib} {PEM : PemLib} {RC : RcgenLib} {KG : KeyGenLib}.

(** [ServerContext::dummy], with the entropy of its two keys. *)
Definition dummy (dl : der_lib) (ent_tls ent_rsa : Z) (port : Z) (c : gmap loc Z)
    : outcome (ServerContext * gmap loc Z) :=
  let address := {| sa_ip := "127.0.0.1"; sa_port := port |} in
  let runtime_context := {| working_threads := 1; cryptography_threads := 0 |} in
  outcome_bind (expect "Failed to generate TLS keypair in tests" (generate_for_ed25519 dl ent_tls))
    (λ server_tls_keypair,
  outcome_bind (expect "Failed to create certificate params"
                  (CertificateParams_new ["127.0.0.1"%string])) (λ server_tls_params,
  let server_tls_params := dn_push CommonName "TSA Server Mock"
                             (dn_push OrganizationName "University of Pisa" server_tls_params) in
  outcome_bind (expect "Failed to self-sign certificate in tests"
                  (self_signed_der dl server_tls_params server_tls_keypair)) (λ server_tls_cert,
  outcome_bind (expect "Failed to parse the private key DER into rustls PrivateKeyDer"
                  (private_key_der dl server_tls_keypair)) (λ tls_priv,
  outcome_bind (expect "Failed to generate RSA private key in tests"
                  (RsaPrivateKey_new ent_rsa (Z.of_nat RSA_KEY_SIZE_IN_BITS))) (λ tss_priv,
  let '(oracle, c) := new_local c in
  Done ({| address := address; runtime_context := runtime_context;
           key_context := {| tls_cert := [server_tls_cert]; tls_priv := tls_priv;
                             tss_priv := tss_priv |};
           time_oracle_type := Local oracle; log_output := NoLog;
           database_location := Memory |}, c)))))).
End Dummy.

(** The orders in which two tasks can take their steps. *)
Fixpoint interleavings {A} (l1 l2 : list A) {struct l1} : list (list A) :=
  match l1 with
  | [] => [l2]
  | x :: l1' =>
      (fix go l2 := match l2 with
                    | [] => [x :: l1']
                    | y :: l2' => map (cons x) (interleavings l1' (y :: l2')) ++ map (cons y) (go l2')
                    end) l2
  end.

(** A connection whose handshake is refused, and one whose client goes away after it. *)
Definition handshake_fails (kind : ErrorKind) (text : string) : env := {|
  en_handshake := Err {| io_kind := kind; io_text := text |};
  en_cancel_first := false; en_next := None; en_send := Ok tt;
  en_faults := []; en_salt := EmptyString; en_clock := 0; en_task_cancelled := false |}.
Definition goes_away : env := {|
  en_handshake := Ok tt; en_cancel_first := false;
  en_next := Some (Err {| io_kind := UnexpectedEof;
                          io_text := "peer closed connection without sending TLS close_notify" |});
  en_send := Ok tt; en_faults := []; en_salt := EmptyString; en_clock := 0;
  en_task_cancelled := false |}.

Section ServerTests.
Context {SHA : Sha256Lib} {RSA : RsaLib} {HEX : HexLib} {ARGON : Argon2Lib} {PEM : PemLib}.
Context {RC : RcgenLib} {KG : KeyGenLib} {WREQ : Wincode Request} {WRESP : Wincode Response}.
Context (dl : der_lib) (ent_tls ent_rsa : Z) (benv : build_env).

(** The blocking task of a test: it builds the server and runs it over the moves, with the
    listener bound; [None] where it panics. *)
Definition server_handle (port : Z) (moves : list move) : option (world AcceleratedSigner) :=
  match dummy dl ent_tls ent_rsa port ∅ with
  | Panic _ => None
  | Done (context, c) =>
      match build_from_context benv (db_schema new_db) context c fresh_pool with
      | (Done (Ok (Accelerated server)), _) =>
          match start (Ok tt) server with
          | Ok w => run_moves moves w
          | Err _ => None
          end
      | _ => None
      end
  end.

(** The server ends, in every order of the shutdown and of the steps of the client. *)
Definition shuts_down (port : Z) (client : list move) : bool :=
  let accept := MoveAccept 1 {| sa_ip := "127.0.0.1"; sa_port := 50000 |} in
  forallb (λ moves, match server_handle port (accept :: moves) with
                    | Some w => run_returns w
                    | None => false
                    end)
    (interleavings client [MoveSignal; MoveStop]).

Definition test_graceful_shutdown : bool :=
  shuts_down 8081 [MoveTask 0 (handshake_fails UnexpectedEof "tls handshake eof")].

(** The connection is closed before anything was read from it, and the server goes on
    until it is stopped. *)
Definition test_non_tls_garbage_connection : bool :=
  let client := [MoveTask 0 (handshake_fails InvalidData "received corrupt message")] in
  match server_handle 8082 (MoveAccept 1 {| sa_ip := "127.0.0.1"; sa_port := 50000 |} :: client) with
  | Some w =>
      match w_tasks w with
      | [tk] => over tk && (length (tk_trace tk) =? 1)%nat && w_accepting w
      | _ => false
      end
  | None => false
  end && shuts_down 8082 client.

Definition test_tls_sudden_disconnection : bool :=
  shuts_down 8083 [MoveTask 0 goes_away; MoveTask 0 goes_away].

(** What the tests need of the crates: keys are made, the certificate is accepted and the
    runtime starts. *)
Record crates_work : Prop := {
  cw_keypair : ∃ kp, generate_for_ed25519 dl ent_tls = Ok kp;
  cw_params : ∃ p, CertificateParams_new ["127.0.0.1"%string] = Ok p;
  cw_signed : ∀ p kp, ∃ c, self_signed_der dl p kp = Ok c;
  cw_key_der : ∀ kp, ∃ k, private_key_der dl kp = Ok k;
  cw_rsa : ∃ k, RsaPrivateKey_new ent_rsa (Z.of_nat RSA_KEY_SIZE_IN_BITS) = Ok k;
  cw_runtime : ∀ rt, be_runtime_build benv rt = Ok tt;
  cw_tls : ∀ p kp c k, self_signed_der dl p kp = Ok c → private_key_der dl kp = Ok k →
             be_with_single_cert benv [c] k = Ok tt
}.

(** The server of a test, on an empty database. *)
Lemma server_handle_runs port moves :
  crates_work →
  ∃ key, server_handle port moves =
    run_moves moves (init {| database := empty_tables; cancel_token := false; logged_users := ∅;
                             signing_key := key; time_oracle := (new_local ∅).1; signer := MkAcceleratedSigner;
                             heap := (new_local ∅).2 |}).
Proof.
  intros [[kp H1] [p H2] H3 H4 [k H5] H6 H7].
  unfold server_handle, dummy. rewrite H1, H2. cbn [expect outcome_bind].
  destruct (H3 (dn_push CommonName "TSA Server Mock" (dn_push OrganizationName "University of Pisa" p)) kp)
    as [c Hc]. rewrite Hc. cbn [expect outcome_bind].
  destruct (H4 kp) as [der Hder]. rewrite Hder. cbn [expect outcome_bind]. rewrite H5. cbn [expect outcome_bind].
  exists k. unfold build_from_context. cbn. unfold mbind, io_bind, of_result. cbn. rewrite H6. cbn.
  rewrite (H7 _ _ _ _ Hc Hder). reflexivity.
Qed.

(** The integration tests of the server pass on the model, whatever the crates do as
    long as keys can be made and the server can be started: a server that was sent a
    connection that breaks off in its handshake, one that does not speak TLS, or one that
    vanishes after its handshake ends when it is told to, in whatever order the steps of
    the connection and of the shutdown come. *)
Theorem server_tests_pass :
  crates_work →
  test_graceful_shutdown = true ∧ test_non_tls_garbage_connection = true ∧
  test_tls_sudden_disconnection = true.
Proof.
  intros Hw. unfold test_graceful_shutdown, test_non_tls_garbage_connection,
    test_tls_sudden_disconnection, shuts_down.
  cbn [interleavings map app forallb].
  split_and!; repeat (apply andb_true_iff; split); try reflexivity;
    match goal with |- context [server_handle ?p ?ms] =>
      destruct (server_handle_runs p ms Hw) as [key ->] end; reflexivity.
Qed.
End ServerTests.

Module ToyServerTests.
Definition der : @der_lib ToyMachine.pem ToyTerraform.rcgen := {|
  generate_for_ed25519 := Ok : Z → result (@KeyPair ToyTerraform.rcgen) string;
  self_signed_der := λ _ _, Ok ([] : @CertificateDer ToyMachine.pem);
  private_key_der := λ _, Ok ([] : @PrivateKeyDer ToyMachine.pem) |}.
Lemma works : @crates_work Toy.rsa ToyMachine.pem ToyTerraform.rcgen ToyTerraform.keygen der 1 2 ToyBuild.env.
Proof. split; try (by eexists); done. Qed.
End ToyServerTests.

Lemma server_tests_pass_witness :
  test_graceful_shutdown (SHA := Toy.sha) (RSA := Toy.rsa) (HEX := Toy.hex) (ARGON := ToyDb.argon)
    (PEM := ToyMachine.pem) (RC := ToyTerraform.rcgen) (KG := ToyTerraform.keygen)
    (WREQ := ToyConn.wreq) (WRESP := ToyConn.wresp) ToyServerTests.der 1 2 ToyBuild.env = true.
Proof.
  apply (server_tests_pass (SHA := Toy.sha) (RSA := Toy.rsa) (HEX := Toy.hex) (ARGON := ToyDb.argon)
    (PEM := ToyMachine.pem) (RC := ToyTerraform.rcgen) (KG := ToyTerraform.keygen)
    (WREQ := ToyConn.wreq) (WRESP := ToyConn.wresp) ToyServerTests.der 1 2 ToyBuild.env
    ToyServerTests.works).
Defined.
