(* ===== verification/TerraformTests.v ===== *)
(** * TerraformTests: the tests of the environment generator, on the model

    [terraform/tests/generation_tests.rs], one definition per test.  The file system is
    that of [FileSystem]; the crates that make keys and render configurations are any that
    succeed. *)
From S2P Require Import Prelude Bytes Protocol TimeOracle Effects Path FileSystem SafeRead Text ServerConfig Ca Client.
From S2P Require Import Terraform TerraformSpec.

(** [Result::unwrap] and [assert!]. *)
Definition unwrap {A E} (r : result A E) : outcome A :=
  expect "called Result::unwrap() on an Err value" r.
Definition assert (b : bool) (msg : string) (k : outcome unit) : outcome unit :=
  if b then k else Panic msg.

(** [Path::starts_with] and [Path::exists]. *)
Definition starts_with (p root : string) : bool := bool_decide (components root `prefix_of` components p).
Definition exists_on (fs : filesystem) (p : string) : bool :=
  match locate fs p with Ok l => occupied l fs | Err _ => false end.

(** The temporary directory of a test, with the given directories in it. *)
Definition tempdir (names : list string) : filesystem := {|
  fs_cwd := []; fs_dirs := {[ []; ["tmp"%string] ]} ∪ list_to_set ((λ n, ["tmp"; n]%string) <$> names);
  fs_files := ∅; fs_faults := [] |}.

(** The generator most tests use. *)
Definition test_generator (root_path client_toml : string)
    : outcome (result Generator GeneratorCreationError) :=
  outcome_bind (build_default root_path) (λ env,
  outcome_bind (AnyServerFiles_default "server_") (λ server_files,
  outcome_bind (unwrap server_files) (λ server_files,
  outcome_bind (AnyServerFiles_default "ca_") (λ ca_files,
  outcome_bind (unwrap ca_files) (λ ca_files,
  outcome_bind (unwrap (ClientFiles_default client_toml)) (λ client_files,
  Done (new_from_files server_files ca_files client_files env))))))).

Definition test_environments_are_always_under_root : outcome unit :=
  let root_path := "/virtual/root/sim"%string in
  outcome_bind (build_default root_path) (λ env,
  assert (starts_with (client_dir env) root_path) "Client dir is not under root" (
  assert (starts_with (server_dir env) root_path) "Server dir is not under root" (
  assert (starts_with (ca_dir env) root_path) "CA dir is not under root" (Done tt)))).

Definition test_builder_fails_on_duplicate_environments : outcome unit :=
  let builder := from_simulation_dir "sim_root" in
  outcome_bind (hardcoded "same_name") (λ name,
  let builder := with_client_dir builder name in
  outcome_bind (hardcoded "same_name") (λ name,
  let builder := with_server_dir builder name in
  outcome_bind (builder_build builder) (λ result,
  assert match result with Err FoldersMustBeDifferent => true | _ => false end
    "builder should've failed because of equal folders" (Done tt)))).

Section Generation.
Context {RC : RcgenLib} {RSA : RsaLib} {KG : KeyGenLib}.
Context (ent : entropy) (tr : toml_render) (arch : target_arch) (par : option Z).

(** The system's text for [ErrorKind::AlreadyExists] is that of [fs_create_dir]. *)
Definition test_fails_if_root_directory_already_exists : outcome unit :=
  let root_path := "/tmp/existing_sim_root"%string in
  let fs := tempdir ["existing_sim_root"%string] in
  outcome_bind (test_generator root_path "im_non_existent.tetext") (λ generator,
  outcome_bind (unwrap generator) (λ generator,
  let '(result, _) := generate_all generator ent tr arch par fs in
  assert match result with Err _ => true | Ok _ => false end
    "generator should've fail, directory already existed" (
  match result with
  | Err (KeyGen (KeyIo _ err)) =>
      assert (bool_decide (err = EEXIST)) "error should have been AlreadyExists" (Done tt)
  | _ => Panic "generator gave an unknown error"
  end))).

Definition test_successful_generation_from_scratch : outcome unit :=
  let root_path := "/tmp/new_simulation_root"%string in
  outcome_bind (test_generator root_path "config.toml") (λ generator,
  outcome_bind (unwrap generator) (λ generator,
  let '(result, fs) := generate_all generator ent tr arch par (tempdir []) in
  assert match result with Ok _ => true | Err _ => false end "generation failed from clean environment" (
  assert (exists_on fs root_path) "root wasn't created" (
  let client_dir := join root_path DEFAULT_CLIENT_ENV_SUBDIR in
  let server_dir := join root_path DEFAULT_SERVER_ENV_SUBDIR in
  let ca_dir := join root_path DEFAULT_CA_ENV_SUBDIR in
  assert (forallb (exists_on fs) [client_dir; server_dir; ca_dir]) "assertion failed" (
  assert (forallb (exists_on fs) (join client_dir <$>
            ["ca_tls_certificate.pem"; "server_rsa_pub_key.pem"; "config.toml"]%string))
    "assertion failed" (
  assert (forallb (exists_on fs) (join server_dir <$>
            ["server_tls_private_key.pem"; "server_tls_certificate.pem"; "server_rsa_priv_key.pem";
             "ca_tls_certificate.pem"; "server_config.toml"]%string)) "assertion failed" (
  assert (forallb (exists_on fs) (join ca_dir <$>
            ["ca_tls_certificate.pem"; "ca_tls_private_key.pem"]%string)) "assertion failed"
  (Done tt)))))))).
End Generation.

Definition test_generator_fails_with_equal_prefixes : outcome unit :=
  let same_prefix := "same_prefix_"%string in
  outcome_bind (build_default "dummy_root") (λ env,
  outcome_bind (AnyServerFiles_default same_prefix) (λ server_files,
  outcome_bind (unwrap server_files) (λ server_files,
  outcome_bind (AnyServerFiles_default same_prefix) (λ ca_files,
  outcome_bind (unwrap ca_files) (λ ca_files,
  outcome_bind (unwrap (ClientFiles_default "config.toml")) (λ client_files,
  assert match new_from_files server_files ca_files client_files env with
         | Err EqualPrefixes => true
         | _ => false
         end "generator should've failed because prefixes were the same" (Done tt))))))).

Lemma exists_read fs p content : read_back p fs = Some content → exists_on fs p = true.
Proof.
  unfold read_back, exists_on. destruct (locate fs p) as [l|]; [|done].
  intros H. apply occupied_spec. right. by eexists.
Qed.
Lemma exists_dir fs p l : locate fs p = Ok l → l ∈ fs_dirs fs → exists_on fs p = true.
Proof. unfold exists_on. intros -> Hl. apply occupied_spec. by left. Qed.

Lemma tempdir_ok : fs_ok (tempdir []).
Proof.
  assert (∀ l, occupied l (tempdir []) = true → l = [] ∨ l = ["tmp"%string]) as Hl.
  { intros l. rewrite occupied_spec. cbn. rewrite lookup_empty. intros [?|[]]; [set_solver|done]. }
  constructor.
  - cbn. set_solver.
  - cbn. set_solver.
  - intros l n [E|E]%Hl; [by apply app_nil in E as []|].
    destruct l as [|x [|]]; simplify_eq/=. set_solver.
  - intros l [->| ->]%Hl; by repeat constructor.
  - done.
Qed.

(** What the crates have to do: make the keys, render the configurations. *)
Record generation_works {RC : RcgenLib} {RSA : RsaLib} {KG : KeyGenLib} (ent : entropy)
    (tr : toml_render) : Prop := {
  gw_materials : ∃ m, generate_materials ent = Ok m;
  gw_server : ∀ cfg, ∃ t, server_toml tr cfg = Ok t;
  gw_client : ∀ cfg, ∃ t, client_toml tr cfg = Ok t;
  gw_ca : ∀ cfg, ∃ t, ca_toml tr cfg = Ok t
}.

Section Passing.
Context {RC : RcgenLib} {RSA : RsaLib} {KG : KeyGenLib}.
Context (ent : entropy) (tr : toml_render) (arch : target_arch) (par : option Z).
Context (WORKS : generation_works ent tr).

Lemma existing_root_passes :
  test_fails_if_root_directory_already_exists ent tr arch par = Done tt.
Proof using WORKS.
  destruct (gw_materials _ _ WORKS) as [m Hm]. unfold test_fails_if_root_directory_already_exists.
  match goal with |- context [test_generator ?r ?t] =>
    let g := eval vm_compute in (test_generator r t) in change (test_generator r t) with g end.
  cbn [outcome_bind unwrap expect]. unfold generate_all, generate_keys_and_distribute. rewrite Hm.
  vm_compute. reflexivity.
Qed.

Lemma scratch_passes : test_successful_generation_from_scratch ent tr arch par = Done tt.
Proof using WORKS.
  destruct WORKS as [[m Hm] Hs Hc Ha]. unfold test_successful_generation_from_scratch.
  set (root := "/tmp/new_simulation_root"%string). set (R := ["tmp"; "new_simulation_root"]%string).
  assert (test_generator root "config.toml"
            = Done (Ok (the_generator root "client_env" "server_env" "ca_env" "server_" "ca_"))) as ->
    by (vm_compute; reflexivity).
  cbn [outcome_bind unwrap expect].
  destruct (Hs (chosen_config (abs_path R) "server_env" "server_" "ca_" arch par)) as [ts Hts].
  destruct (Hc (the_client_config (abs_path R) "client_env" "server_" "ca_")) as [tc Htc].
  destruct (Ha (the_ca_config (abs_path R) "ca_env" "ca_")) as [ta Hta].
  assert (entry (tempdir []) root = Ok R) as Hroot by (vm_compute; reflexivity).
  assert (occupied R (tempdir []) = false) as Hfree by (vm_compute; reflexivity).
  rewrite (run_generation root "client_env" "server_env" "ca_env" "server_" "ca_" R eq_refl eq_refl
    eq_refl eq_refl eq_refl ltac:(done) ltac:(done) ltac:(done) ltac:(done) (tempdir []) tempdir_ok eq_refl
    Hroot Hfree ent m tr arch par ts tc ta Hm (conj Hts (conj Htc Hta))).
  pose proof (generated_reads root "client_env" "server_env" "ca_env" "server_" "ca_" R eq_refl eq_refl
    eq_refl eq_refl eq_refl ltac:(done) ltac:(done) ltac:(done) ltac:(done) (tempdir []) tempdir_ok eq_refl
    Hroot Hfree m ts tc ta) as Hf. cbn zeta in Hf.
  match goal with |- context [exists_on ?f root] => set (fs := f) in * end.
  assert (∀ d n, bool_decide ((d, n) ∈ (written "client_env" "server_env" "ca_env" "server_" "ca_" m ts tc ta).*1) = true →
            exists_on fs (join (join root d) n) = true) as Hfile.
  { intros d n Hin%bool_decide_eq_true. apply list_elem_of_fmap in Hin as (f & E & Hin).
    eapply exists_read. destruct (Hf f Hin) as [Hr _]. rewrite <- E in Hr. exact Hr. }
  assert (entry fs root = Ok R) as He by (by apply layout_root).
  assert (exists_on fs root = true) as ->
    by (eapply exists_dir; [unfold locate; by rewrite He|apply new_dirs_root]).
  assert (∀ d, bool_decide (d ∈ ["client_env"; "server_env"; "ca_env"])%string = true →
            exists_on fs (join root d) = true) as Hdir.
  { intros d Hd%bool_decide_eq_true. eapply exists_dir; [eapply locate_join; [|exact He|]|].
    - clear -Hd. rewrite !elem_of_cons, elem_of_nil in Hd. by destruct Hd as [->|[->|[->|[]]]].
    - apply new_dirs_root.
    - by apply new_dirs_sub. }
  cbn [list_fmap fmap forallb]. rewrite !Hdir, !Hfile by (vm_compute; reflexivity). done.
Qed.
End Passing.

(** The tests of the generator pass on the model, wherever keys can be made and
    configurations rendered, on every architecture. *)
Theorem terraform_tests_pass {RC : RcgenLib} {RSA : RsaLib} {KG : KeyGenLib} (ent : entropy)
    (tr : toml_render) (arch : target_arch) (par : option Z) :
  generation_works ent tr →
  [test_environments_are_always_under_root; test_builder_fails_on_duplicate_environments;
   test_fails_if_root_directory_already_exists ent tr arch par;
   test_successful_generation_from_scratch ent tr arch par;
   test_generator_fails_with_equal_prefixes] = replicate 5 (Done tt).
Proof.
  intros Hw. rewrite existing_root_passes, scratch_passes by done. vm_compute. reflexivity.
Qed.

Lemma terraform_tests_pass_witness :
  test_successful_generation_from_scratch (KG := ToyTerraform.keygen) ToyTerraform.ent ToyTerraform.tr
    OtherArch None = Done tt.
Proof.
  assert (generation_works (KG := ToyTerraform.keygen) ToyTerraform.ent ToyTerraform.tr) as Hw
    by (split; intros; eexists; reflexivity).
  exact (f_equal (λ l, List.nth 3 l (Done tt)) (terraform_tests_pass (KG := ToyTerraform.keygen)
    ToyTerraform.ent ToyTerraform.tr OtherArch None Hw)).
Defined.
